(** * A shallow embedding of the ptmalloc allocator (glibc malloc.c)

    The development follows the layout of the C file: platform constants,
    the byte-addressed memory and the chunk accessors, the size and index
    macros, the per-thread cache, the two engines [_int_malloc] and
    [_int_free], and the public wrappers.  The properties come after the
    definitions.

    Conventions.
    - [size_t], [INTERNAL_SIZE_T] and [uintptr_t] values are [Z] in
      [0, 2^64); the arithmetic of the source on such values is written
      with [wrap] wherever it can leave that range.  The address of a field
      inside a chunk is the plain sum of the chunk address and the offset.
    - Memory is a finite map from byte addresses to bytes; a word is eight
      bytes, least significant byte first (x86-64).  A byte that was never
      written reads as 0.
    - [malloc_printerr] terminates the process: it is the [Abort] outcome,
      which carries the message and the state at the moment of the call.
    - Loops that the source bounds only through the shape of the heap take
      a [fuel] argument; running out of it is the [OutOfFuel] outcome.
    - The model is sequential: lock operations and atomic accesses are the
      plain accesses, and a compare-and-swap loop succeeds at once.  The
      state holds one arena, the one the call at hand operates on. *)

From Stdlib Require Import ZArith Lia String Bool.
From stdpp Require Import base option gmap list.

Open Scope Z_scope.

(** ** Platform constants *)

(** Modelled from the spec: [SIZE_SZ], [MALLOC_ALIGNMENT] and
    [MALLOC_ALIGN_MASK] are defined in malloc-internal.h and
    malloc-alignment.h, [PTRDIFF_MAX] and [SIZE_MAX] in stdint.h; none of
    them is part of the source at hand.  They are fixed to the 64-bit
    platform with default alignment (two words) the spec describes. *)
Definition SIZE_SZ : Z := 8.
Definition MALLOC_ALIGNMENT : Z := 2 * SIZE_SZ.
Definition MALLOC_ALIGN_MASK : Z := MALLOC_ALIGNMENT - 1.
Definition SIZE_MAX : Z := 2 ^ 64 - 1.
Definition PTRDIFF_MAX : Z := 2 ^ 63 - 1.
Definition UINT16_MAX : Z := 65535.
Definition ENOMEM : Z := 12.
Definition NULL : Z := 0.

(** Unsigned 64-bit, 32-bit and 16-bit wrap-around. *)
Definition wrap (x : Z) : Z := x mod 2 ^ 64.
Definition wrap32 (x : Z) : Z := x mod 2 ^ 32.
Definition wrap16 (x : Z) : Z := x mod 2 ^ 16.

(** [~x] on a [size_t]. *)
Definition lnot64 (x : Z) : Z := wrap (Z.lnot x).

(** ** Memory *)

(** A cell holds a byte: whatever the map stores is read modulo 256. *)
Definition load_byte (m : gmap Z Z) (a : Z) : Z := default 0 (m !! a) mod 256.

Fixpoint load_le (m : gmap Z Z) (a : Z) (n : nat) : Z :=
  match n with
  | O => 0
  | S k => load_byte m a + 256 * load_le m (a + 1) k
  end.

Fixpoint store_le (m : gmap Z Z) (a : Z) (n : nat) (v : Z) : gmap Z Z :=
  match n with
  | O => m
  | S k => store_le (<[a := v mod 256]> m) (a + 1) k (v / 256)
  end.

Definition load (m : gmap Z Z) (a : Z) : Z := load_le m a 8.
Definition store (m : gmap Z Z) (a v : Z) : gmap Z Z := store_le m a 8 v.

(** [memset (p, c, n)]: the byte written is [(unsigned char) c]. *)
Fixpoint memset_nat (m : gmap Z Z) (p c : Z) (n : nat) : gmap Z Z :=
  match n with
  | O => m
  | S k => memset_nat (<[p := c mod 256]> m) (p + 1) c k
  end.

Definition memset (m : gmap Z Z) (p c n : Z) : gmap Z Z :=
  memset_nat m p c (Z.to_nat n).

(** ** Chunk representation

    [struct malloc_chunk]: [mchunk_prev_size] at offset 0, [mchunk_size] at
    [SIZE_SZ], then the four pointers [fd], [bk], [fd_nextsize],
    [bk_nextsize]. *)

Definition off_prev_size : Z := 0.
Definition off_size : Z := SIZE_SZ.
Definition off_fd : Z := 2 * SIZE_SZ.
Definition off_bk : Z := 2 * SIZE_SZ + 8.
Definition off_fd_nextsize : Z := 2 * SIZE_SZ + 16.
Definition off_bk_nextsize : Z := 2 * SIZE_SZ + 24.

Definition chunk2mem (p : Z) : Z := wrap (p + 2 * SIZE_SZ).
Definition mem2chunk (mem : Z) : Z := wrap (mem - 2 * SIZE_SZ).

Definition MIN_CHUNK_SIZE : Z := off_fd_nextsize.

Definition MINSIZE : Z :=
  Z.land (MIN_CHUNK_SIZE + MALLOC_ALIGN_MASK) (lnot64 MALLOC_ALIGN_MASK).

Definition aligned_OK (m : Z) : bool := Z.land m MALLOC_ALIGN_MASK =? 0.

Definition misaligned_chunk (p : Z) : Z :=
  Z.land (if MALLOC_ALIGNMENT =? 2 * SIZE_SZ then p else chunk2mem p)
         MALLOC_ALIGN_MASK.

Definition request2size (req : Z) : Z :=
  if wrap (req + SIZE_SZ + MALLOC_ALIGN_MASK) <? MINSIZE
  then MINSIZE
  else Z.land (wrap (req + SIZE_SZ + MALLOC_ALIGN_MASK))
              (lnot64 MALLOC_ALIGN_MASK).

Definition checked_request2size (req : Z) : option Z :=
  if PTRDIFF_MAX <? req then None else Some (request2size req).

Definition PREV_INUSE : Z := 1.
Definition IS_MMAPPED : Z := 2.
Definition NON_MAIN_ARENA : Z := 4.
Definition SIZE_BITS : Z := Z.lor (Z.lor PREV_INUSE IS_MMAPPED) NON_MAIN_ARENA.

Definition chunksize_nomask (m : gmap Z Z) (p : Z) : Z := load m (p + off_size).
Definition chunksize (m : gmap Z Z) (p : Z) : Z :=
  Z.land (chunksize_nomask m p) (lnot64 SIZE_BITS).
Definition prev_inuse (m : gmap Z Z) (p : Z) : Z :=
  Z.land (chunksize_nomask m p) PREV_INUSE.
Definition chunk_is_mmapped (m : gmap Z Z) (p : Z) : Z :=
  Z.land (chunksize_nomask m p) IS_MMAPPED.
Definition chunk_main_arena (m : gmap Z Z) (p : Z) : bool :=
  Z.land (chunksize_nomask m p) NON_MAIN_ARENA =? 0.
Definition prev_size (m : gmap Z Z) (p : Z) : Z := load m (p + off_prev_size).
Definition chunk_at_offset (p s : Z) : Z := wrap (p + s).
Definition next_chunk (m : gmap Z Z) (p : Z) : Z := wrap (p + chunksize m p).
Definition inuse (m : gmap Z Z) (p : Z) : Z :=
  Z.land (chunksize_nomask m (wrap (p + chunksize m p))) PREV_INUSE.

Definition set_head (m : gmap Z Z) (p s : Z) : gmap Z Z := store m (p + off_size) s.
Definition set_head_size (m : gmap Z Z) (p s : Z) : gmap Z Z :=
  store m (p + off_size) (Z.lor (Z.land (load m (p + off_size)) SIZE_BITS) s).
Definition set_foot (m : gmap Z Z) (p s : Z) : gmap Z Z :=
  store m (wrap (p + s) + off_prev_size) s.
Definition set_inuse_bit_at_offset (m : gmap Z Z) (p s : Z) : gmap Z Z :=
  store m (wrap (p + s) + off_size)
        (Z.lor (load m (wrap (p + s) + off_size)) PREV_INUSE).
Definition set_non_main_arena (m : gmap Z Z) (p : Z) : gmap Z Z :=
  store m (p + off_size) (Z.lor (load m (p + off_size)) NON_MAIN_ARENA).

(** ** Size classes *)

Definition TCACHE_MAX_BINS : Z := 64.
Definition TCACHE_FILL_COUNT : Z := 7.
Definition MAX_TCACHE_COUNT : Z := UINT16_MAX.

Definition csize2tidx (x : Z) : Z :=
  wrap (x - MINSIZE + MALLOC_ALIGNMENT - 1) / MALLOC_ALIGNMENT.

Definition NBINS : Z := 128.
Definition NSMALLBINS : Z := 64.
Definition SMALLBIN_WIDTH : Z := MALLOC_ALIGNMENT.
Definition SMALLBIN_CORRECTION : Z :=
  if 2 * SIZE_SZ <? MALLOC_ALIGNMENT then 1 else 0.
Definition MIN_LARGE_SIZE : Z := (NSMALLBINS - SMALLBIN_CORRECTION) * SMALLBIN_WIDTH.

Definition in_smallbin_range (sz : Z) : bool := sz <? MIN_LARGE_SIZE.

Definition smallbin_index (sz : Z) : Z :=
  wrap32 ((if SMALLBIN_WIDTH =? 16 then Z.shiftr (wrap32 sz) 4
           else Z.shiftr (wrap32 sz) 3) + SMALLBIN_CORRECTION).

Definition largebin_index_32 (sz : Z) : Z :=
  if Z.shiftr sz 6 <=? 38 then 56 + Z.shiftr sz 6
  else if Z.shiftr sz 9 <=? 20 then 91 + Z.shiftr sz 9
  else if Z.shiftr sz 12 <=? 10 then 110 + Z.shiftr sz 12
  else if Z.shiftr sz 15 <=? 4 then 119 + Z.shiftr sz 15
  else if Z.shiftr sz 18 <=? 2 then 124 + Z.shiftr sz 18
  else 126.

Definition largebin_index_32_big (sz : Z) : Z :=
  if Z.shiftr sz 6 <=? 45 then 49 + Z.shiftr sz 6
  else if Z.shiftr sz 9 <=? 20 then 91 + Z.shiftr sz 9
  else if Z.shiftr sz 12 <=? 10 then 110 + Z.shiftr sz 12
  else if Z.shiftr sz 15 <=? 4 then 119 + Z.shiftr sz 15
  else if Z.shiftr sz 18 <=? 2 then 124 + Z.shiftr sz 18
  else 126.

Definition largebin_index_64 (sz : Z) : Z :=
  if Z.shiftr sz 6 <=? 48 then 48 + Z.shiftr sz 6
  else if Z.shiftr sz 9 <=? 20 then 91 + Z.shiftr sz 9
  else if Z.shiftr sz 12 <=? 10 then 110 + Z.shiftr sz 12
  else if Z.shiftr sz 15 <=? 4 then 119 + Z.shiftr sz 15
  else if Z.shiftr sz 18 <=? 2 then 124 + Z.shiftr sz 18
  else 126.

Definition largebin_index (sz : Z) : Z :=
  if SIZE_SZ =? 8 then largebin_index_64 sz
  else if MALLOC_ALIGNMENT =? 16 then largebin_index_32_big sz
  else largebin_index_32 sz.

Definition bin_index (sz : Z) : Z :=
  if in_smallbin_range sz then smallbin_index sz else largebin_index sz.

Definition fastbin_index (sz : Z) : Z :=
  wrap32 (Z.shiftr (wrap32 sz) (if SIZE_SZ =? 8 then 4 else 3) - 2).

Definition MAX_FAST_SIZE : Z := 80 * SIZE_SZ / 4.
Definition NFASTBINS : Z := fastbin_index (request2size MAX_FAST_SIZE) + 1.

Definition BINMAPSHIFT : Z := 5.
Definition idx2block (i : Z) : Z := Z.shiftr i BINMAPSHIFT.
Definition idx2bit (i : Z) : Z :=
  wrap32 (Z.shiftl 1 (Z.land i (wrap32 (Z.shiftl 1 BINMAPSHIFT - 1)))).

Definition MAX_ITERS : Z := 10000.

(** The spec's wording of the large-bin index for the 64-bit platform:
    a cascade of integer divisions. *)
Definition largebin_index_spec (size : Z) : Z :=
  if size / 64 <=? 48 then 48 + size / 64
  else if size / 512 <=? 20 then 91 + size / 512
  else if size / 4096 <=? 10 then 110 + size / 4096
  else if size / 32768 <=? 4 then 119 + size / 32768
  else if size / 262144 <=? 2 then 124 + size / 262144
  else 126.

(** The spec's wording of the padded request: the request plus one header
    word, rounded up to the alignment quantum, floored at the minimum
    chunk size. *)
Definition padded_request (n : Z) : Z :=
  Z.max 32 (16 * ((n + 8 + 15) / 16)).

(** Modelled from the spec: [ALIGN_UP] (libc-pointer-arith.h) and
    [powerof2] (sys/param.h) are not part of the source at hand.
    [ALIGN_UP (base, size)] is the page-aligned value of [base], rounded
    upwards, for [size] a power of two; [powerof2 (x)] holds for 0 and the
    powers of two. *)
Definition ALIGN_UP (base size : Z) : Z :=
  Z.land (wrap (base + size - 1)) (lnot64 (size - 1)).
Definition powerof2 (x : Z) : bool := Z.land (wrap (x - 1)) x =? 0.

(** ** Allocator state *)

Record malloc_state : Type := Build_malloc_state {
  main : bool;                (* [av == &main_arena] *)
  flags : Z;
  have_fastchunks : bool;
  fastbinsY : list Z;
  top : Z;
  last_remainder : Z;
  bins : Z;                   (* address of [bins[0]]; the array is in memory *)
  binmap : list Z;
  system_mem : Z
}.

Record malloc_par : Type := Build_malloc_par {
  trim_threshold : Z;
  mmap_threshold : Z;
  n_mmaps : Z;
  no_dyn_threshold : Z;
  mmapped_mem : Z;
  max_mmapped_mem : Z;
  tcache_bins : Z;
  tcache_count : Z;
  tcache_unsorted_limit : Z
}.

Record tcache_perthread_struct : Type := Build_tcache {
  counts : list Z;
  entries : list Z
}.

(** One record for the whole process image: the memory, the arena the call
    operates on (the one [arena_get] and [arena_for_chunk] yield), the
    process-wide parameters and the per-thread variables. *)
Record state : Type := Build_state {
  mem : gmap Z Z;
  av : malloc_state;
  mp_ : malloc_par;
  tcache : Z;                           (* the pointer; [NULL] before init *)
  tcache_data : tcache_perthread_struct; (* [*tcache] *)
  tcache_shutting_down : bool;
  perturb_byte : Z;
  global_max_fast : Z;
  errno : Z;
  dumped_main_arena_start : Z;
  dumped_main_arena_end : Z;
  using_malloc_checking : Z;
  dl_pagesize : Z
}.

Definition set_mem (s : state) (m : gmap Z Z) : state :=
  Build_state m (av s) (mp_ s) (tcache s) (tcache_data s)
    (tcache_shutting_down s) (perturb_byte s) (global_max_fast s) (errno s)
    (dumped_main_arena_start s) (dumped_main_arena_end s)
    (using_malloc_checking s) (dl_pagesize s).

Definition set_av (s : state) (a : malloc_state) : state :=
  Build_state (mem s) a (mp_ s) (tcache s) (tcache_data s)
    (tcache_shutting_down s) (perturb_byte s) (global_max_fast s) (errno s)
    (dumped_main_arena_start s) (dumped_main_arena_end s)
    (using_malloc_checking s) (dl_pagesize s).

Definition set_mp (s : state) (p : malloc_par) : state :=
  Build_state (mem s) (av s) p (tcache s) (tcache_data s)
    (tcache_shutting_down s) (perturb_byte s) (global_max_fast s) (errno s)
    (dumped_main_arena_start s) (dumped_main_arena_end s)
    (using_malloc_checking s) (dl_pagesize s).

Definition set_tcache (s : state) (t : Z) (d : tcache_perthread_struct) : state :=
  Build_state (mem s) (av s) (mp_ s) t d
    (tcache_shutting_down s) (perturb_byte s) (global_max_fast s) (errno s)
    (dumped_main_arena_start s) (dumped_main_arena_end s)
    (using_malloc_checking s) (dl_pagesize s).

Definition set_errno (s : state) (e : Z) : state :=
  Build_state (mem s) (av s) (mp_ s) (tcache s) (tcache_data s)
    (tcache_shutting_down s) (perturb_byte s) (global_max_fast s) e
    (dumped_main_arena_start s) (dumped_main_arena_end s)
    (using_malloc_checking s) (dl_pagesize s).

Definition set_fastbinsY (a : malloc_state) (l : list Z) : malloc_state :=
  Build_malloc_state (main a) (flags a) (have_fastchunks a) l (top a)
    (last_remainder a) (bins a) (binmap a) (system_mem a).

Definition set_have_fastchunks (a : malloc_state) (b : bool) : malloc_state :=
  Build_malloc_state (main a) (flags a) b (fastbinsY a) (top a)
    (last_remainder a) (bins a) (binmap a) (system_mem a).

Definition set_last_remainder (a : malloc_state) (r : Z) : malloc_state :=
  Build_malloc_state (main a) (flags a) (have_fastchunks a) (fastbinsY a)
    (top a) r (bins a) (binmap a) (system_mem a).

Definition set_top (a : malloc_state) (t : Z) : malloc_state :=
  Build_malloc_state (main a) (flags a) (have_fastchunks a) (fastbinsY a)
    t (last_remainder a) (bins a) (binmap a) (system_mem a).

Definition set_binmap (a : malloc_state) (l : list Z) : malloc_state :=
  Build_malloc_state (main a) (flags a) (have_fastchunks a) (fastbinsY a)
    (top a) (last_remainder a) (bins a) l (system_mem a).

(** Arrays indexed by a C integer.  An index outside the array is undefined
    in C; here such a read yields 0 and such a write is dropped. *)
Definition in_array (l : list Z) (i : Z) : bool :=
  (0 <=? i) && (i <? Z.of_nat (length l)).
Definition nth_z (l : list Z) (i : Z) : Z :=
  if in_array l i then default 0 (l !! Z.to_nat i) else 0.
Definition upd_z (l : list Z) (i v : Z) : list Z :=
  if in_array l i then <[Z.to_nat i := v]> l else l.

(** ** Outcomes and the state-and-abort monad *)

Inductive outcome (A : Type) : Type :=
| Done (a : A) (s : state)
| Abort (msg : string) (s : state)
| OutOfFuel.

Arguments Done {A} a s.
Arguments Abort {A} msg s.
Arguments OutOfFuel {A}.

(** The state in which a run ended, [d] when it ran out of fuel. *)
Definition final_state {A : Type} (o : outcome A) (d : state) : state :=
  match o with
  | Done _ s => s
  | Abort _ s => s
  | OutOfFuel => d
  end.

Definition M (A : Type) : Type := state -> outcome A.

Definition ret {A : Type} (a : A) : M A := fun s => Done a s.

Definition bind {A B : Type} (c : M A) (k : A -> M B) : M B :=
  fun s =>
    match c s with
    | Done a s' => k a s'
    | Abort msg s' => Abort msg s'
    | OutOfFuel => OutOfFuel
    end.

Notation "'do' x <- c1 ; c2" := (bind c1 (fun x => c2))
  (at level 10, x name, c1 at level 100, c2 at level 200).

Definition get : M state := fun s => Done s s.
Definition put (s' : state) : M unit := fun _ => Done tt s'.
Definition modify (f : state -> state) : M unit := fun s => Done tt (f s).
Definition malloc_printerr {A : Type} (str : string) : M A := fun s => Abort str s.
Definition out_of_fuel {A : Type} : M A := fun _ => OutOfFuel.

(** [assert (e)]: the file is compiled without [NDEBUG], a failed assertion
    reports through [__malloc_assert] and aborts. *)
Definition assert (e : bool) (text : string) : M unit :=
  if e then ret tt else malloc_printerr text.

Definition rd (a : Z) : M Z := fun s => Done (load (mem s) a) s.
Definition wr (a v : Z) : M unit := fun s => Done tt (set_mem s (store (mem s) a v)).

(** ** Testing support: [alloc_perturb], [free_perturb] *)

Definition alloc_perturb (p n : Z) : M unit :=
  fun s =>
    if perturb_byte s =? 0 then Done tt s
    else Done tt (set_mem s (memset (mem s) p (Z.lxor (perturb_byte s) 255) n)).

Definition free_perturb (p n : Z) : M unit :=
  fun s =>
    if perturb_byte s =? 0 then Done tt s
    else Done tt (set_mem s (memset (mem s) p (perturb_byte s) n)).

Definition get_max_fast (s : state) : Z := global_max_fast s.

Definition DUMPED_MAIN_ARENA_CHUNK (s : state) (p : Z) : bool :=
  (dumped_main_arena_start s <=? p) && (p <? dumped_main_arena_end s).

(** ** Bins *)

Definition bin_at (a : malloc_state) (i : Z) : Z :=
  bins a + (i - 1) * 2 * 8 - off_fd.
Definition unsorted_chunks (a : malloc_state) : Z := bin_at a 1.

Definition mark_bin (a : malloc_state) (i : Z) : malloc_state :=
  set_binmap a (upd_z (binmap a) (idx2block i)
                      (Z.lor (nth_z (binmap a) (idx2block i)) (idx2bit i))).

(** Take a chunk off a bin list. *)
Definition unlink_chunk (p : Z) : M unit :=
  do s <- get;
  if negb (chunksize (mem s) p =? prev_size (mem s) (next_chunk (mem s) p))
  then malloc_printerr "corrupted size vs. prev_size"
  else
    do fd <- rd (p + off_fd);
    do bk <- rd (p + off_bk);
    do fd_bk <- rd (fd + off_bk);
    do bk_fd <- rd (bk + off_fd);
    if negb (fd_bk =? p) || negb (bk_fd =? p)
    then malloc_printerr "corrupted double-linked list"
    else
      do _ <- wr (fd + off_bk) bk;
      do _ <- wr (bk + off_fd) fd;
      do s1 <- get;
      do pfn <- rd (p + off_fd_nextsize);
      if negb (in_smallbin_range (chunksize_nomask (mem s1) p))
         && negb (pfn =? NULL)
      then
        do pbn <- rd (p + off_bk_nextsize);
        do pfn_bn <- rd (pfn + off_bk_nextsize);
        do pbn_fn <- rd (pbn + off_fd_nextsize);
        if negb (pfn_bn =? p) || negb (pbn_fn =? p)
        then malloc_printerr "corrupted double-linked list (not small)"
        else
          do fd_fn <- rd (fd + off_fd_nextsize);
          if fd_fn =? NULL then
            if pfn =? p then
              do _ <- wr (fd + off_bk_nextsize) fd;
              wr (fd + off_fd_nextsize) fd
            else
              do a <- rd (p + off_fd_nextsize);
              do _ <- wr (fd + off_fd_nextsize) a;
              do b <- rd (p + off_bk_nextsize);
              do _ <- wr (fd + off_bk_nextsize) b;
              do a' <- rd (p + off_fd_nextsize);
              do _ <- wr (a' + off_bk_nextsize) fd;
              do b' <- rd (p + off_bk_nextsize);
              wr (b' + off_fd_nextsize) fd
          else
            do a <- rd (p + off_fd_nextsize);
            do b <- rd (p + off_bk_nextsize);
            do _ <- wr (a + off_bk_nextsize) b;
            do b' <- rd (p + off_bk_nextsize);
            do a' <- rd (p + off_fd_nextsize);
            wr (b' + off_fd_nextsize) a'
      else ret tt.

(** ** The per-thread cache *)

Definition tcache_put (chunk tc_idx : Z) : M unit :=
  fun s =>
    let e := chunk2mem chunk in
    let m1 := store (mem s) (e + 8) (tcache s) in
    let m2 := store m1 e (nth_z (entries (tcache_data s)) tc_idx) in
    Done tt
      (set_tcache (set_mem s m2) (tcache s)
         (Build_tcache
            (upd_z (counts (tcache_data s)) tc_idx
                   (wrap16 (nth_z (counts (tcache_data s)) tc_idx + 1)))
            (upd_z (entries (tcache_data s)) tc_idx e))).

Definition tcache_get (tc_idx : Z) : M Z :=
  fun s =>
    let e := nth_z (entries (tcache_data s)) tc_idx in
    let next := load (mem s) e in
    let m1 := store (mem s) (e + 8) NULL in
    Done e
      (set_tcache (set_mem s m1) (tcache s)
         (Build_tcache
            (upd_z (counts (tcache_data s)) tc_idx
                   (wrap16 (nth_z (counts (tcache_data s)) tc_idx - 1)))
            (upd_z (entries (tcache_data s)) tc_idx next))).

(** ** The environment of the wrappers

    The operating-system primitives, the user-installed hooks and three
    parts of the two engines are fields of one record; the code of the
    three parts, [sysmalloc] and [systrim] included, is given further
    down, and [with_engine] puts it into the record. *)
Record externals : Type := Build_externals {
  __malloc_hook : option (Z -> M Z);
  __free_hook : option (Z -> M unit);
  __realloc_hook : option (Z -> Z -> M Z);
  SINGLE_THREAD_P : bool;
  HAVE_MREMAP : bool;
  (* [malloc_consolidate (av)] *)
  malloc_consolidate : M unit;
  (* the rest of the body of the [for (;;)] loop of [_int_malloc], after the
     unsorted bin was processed: best fit in the large bin, the binmap scan,
     the top chunk, [sysmalloc].  [None] stands for the path that calls
     [malloc_consolidate] and goes around the loop again. *)
  int_malloc_bins : Z -> Z -> Z -> M (option Z);
  (* the branch of [_int_free] that coalesces a chunk that is neither
     cached nor fast nor mapped, given the chunk, its size and [have_lock] *)
  int_free_merge : Z -> Z -> bool -> M unit;
  __munmap : Z -> Z -> M unit;
  __mremap : Z -> Z -> Z -> M Z;
  malloc_check_get_size : Z -> M Z
}.

Definition MAP_FAILED : Z := wrap (-1).
Definition DEFAULT_MMAP_THRESHOLD_MAX : Z := 4 * 1024 * 1024 * 8.
Definition sizeof_tcache_perthread_struct : Z := TCACHE_MAX_BINS * 2 + TCACHE_MAX_BINS * 8.

Fixpoint memcpy_nat (m : gmap Z Z) (dst src : Z) (n : nat) : gmap Z Z :=
  match n with
  | O => m
  | S k => memcpy_nat (<[dst := load_byte m src]> m) (dst + 1) (src + 1) k
  end.

Definition memcpy (dst src n : Z) : M unit :=
  modify (fun s => set_mem s (memcpy_nat (mem s) dst src (Z.to_nat n))).

(** ** [_int_malloc]: the fast-bin path *)

(** The loop that moves further chunks of the fast bin [idx] into the
    tcache bucket [tc_idx]. *)
Fixpoint fastbin_stash (fuel : nat) (idx tc_idx : Z) : M unit :=
  do s <- get;
  let tc_victim := nth_z (fastbinsY (av s)) idx in
  if (nth_z (counts (tcache_data s)) tc_idx <? tcache_count (mp_ s))
     && negb (tc_victim =? NULL)
  then
    match fuel with
    | O => out_of_fuel
    | S f =>
        do fd <- rd (tc_victim + off_fd);
        do _ <- modify (fun s => set_av s (set_fastbinsY (av s)
                                  (upd_z (fastbinsY (av s)) idx fd)));
        do _ <- tcache_put tc_victim tc_idx;
        fastbin_stash f idx tc_idx
    end
  else ret tt.

Definition int_malloc_fastbin (fuel : nat) (nb bytes : Z) : M (option Z) :=
  do s <- get;
  if nb <=? get_max_fast s then
    let idx := fastbin_index nb in
    let victim := nth_z (fastbinsY (av s)) idx in
    if negb (victim =? NULL) then
      do fd <- rd (victim + off_fd);
      do _ <- modify (fun s => set_av s (set_fastbinsY (av s)
                                (upd_z (fastbinsY (av s)) idx fd)));
      do s <- get;
      let victim_idx := fastbin_index (chunksize (mem s) victim) in
      if negb (victim_idx =? idx)
      then malloc_printerr "malloc(): memory corruption (fast)"
      else
        let tc_idx := csize2tidx nb in
        do _ <- (if negb (tcache s =? NULL) && (tc_idx <? tcache_bins (mp_ s))
                 then fastbin_stash fuel idx tc_idx
                 else ret tt);
        let p := chunk2mem victim in
        do _ <- alloc_perturb p bytes;
        ret (Some p)
    else ret None
  else ret None.

(** ** [_int_malloc]: the small-bin path *)

Fixpoint smallbin_stash (fuel : nat) (bin nb tc_idx : Z) : M unit :=
  do s <- get;
  let tc_victim := load (mem s) (bin + off_bk) in
  if (nth_z (counts (tcache_data s)) tc_idx <? tcache_count (mp_ s))
     && negb (tc_victim =? bin)
  then
    match fuel with
    | O => out_of_fuel
    | S f =>
        do _ <- (if negb (tc_victim =? 0) then
                   do bck <- rd (tc_victim + off_bk);
                   do _ <- modify (fun s => set_mem s
                             (set_inuse_bit_at_offset (mem s) tc_victim nb));
                   do _ <- (if negb (main (av s))
                            then modify (fun s => set_mem s
                                   (set_non_main_arena (mem s) tc_victim))
                            else ret tt);
                   do _ <- wr (bin + off_bk) bck;
                   do _ <- wr (bck + off_fd) bin;
                   tcache_put tc_victim tc_idx
                 else ret tt);
        smallbin_stash f bin nb tc_idx
    end
  else ret tt.

Definition int_malloc_smallbin (fuel : nat) (nb bytes : Z) : M (option Z) :=
  do s <- get;
  let idx := smallbin_index nb in
  let bin := bin_at (av s) idx in
  let victim := load (mem s) (bin + off_bk) in
  if negb (victim =? bin) then
    let bck := load (mem s) (victim + off_bk) in
    if negb (load (mem s) (bck + off_fd) =? victim)
    then malloc_printerr "malloc(): smallbin double linked list corrupted"
    else
      do _ <- modify (fun s => set_mem s (set_inuse_bit_at_offset (mem s) victim nb));
      do _ <- wr (bin + off_bk) bck;
      do _ <- wr (bck + off_fd) bin;
      do _ <- (if negb (main (av s))
               then modify (fun s => set_mem s (set_non_main_arena (mem s) victim))
               else ret tt);
      let tc_idx := csize2tidx nb in
      do _ <- (if negb (tcache s =? NULL) && (tc_idx <? tcache_bins (mp_ s))
               then smallbin_stash fuel bin nb tc_idx
               else ret tt);
      let p := chunk2mem victim in
      do _ <- alloc_perturb p bytes;
      ret (Some p)
  else ret None.

(** ** [_int_malloc]: processing the unsorted bin *)

(** The variables of [_int_malloc] that live across iterations of the
    [while] loop over the unsorted bin. *)
Record drain_locals : Type := Build_drain_locals {
  iters : Z;
  tcache_unsorted_count : Z;
  return_cached : bool
}.

(** How one pass through the body of the [while] loop ends. *)
Inductive body_result : Type :=
| BReturn (p : Z)                (* [return p], a chunk taken from the bin *)
| BReturnCached (l : drain_locals) (* [return tcache_get (tc_idx)] in the loop *)
| BContinue (l : drain_locals)   (* [continue] *)
| BNext (l : drain_locals).      (* the end of the body: [++iters] test *)

(** The integrity checks on the chunk at the tail of the unsorted bin;
    yields [bck] and [size]. *)
Definition unsorted_checks (victim : Z) : M (Z * Z) :=
  do s <- get;
  let m := mem s in
  let bck := load m (victim + off_bk) in
  let size := chunksize m victim in
  let next := chunk_at_offset victim size in
  if (size <=? 2 * SIZE_SZ) || (system_mem (av s) <? size)
  then malloc_printerr "malloc(): invalid size (unsorted)"
  else if (chunksize_nomask m next <? 2 * SIZE_SZ)
          || (system_mem (av s) <? chunksize_nomask m next)
  then malloc_printerr "malloc(): invalid next size (unsorted)"
  else if negb (Z.land (prev_size m next) (lnot64 SIZE_BITS) =? size)
  then malloc_printerr "malloc(): mismatching next->prev_size (unsorted)"
  else if negb (load m (bck + off_fd) =? victim)
          || negb (load m (victim + off_fd) =? unsorted_chunks (av s))
  then malloc_printerr "malloc(): unsorted double linked list corrupted"
  else if negb (prev_inuse m next =? 0)
  then malloc_printerr "malloc(): invalid next->prev_inuse (unsorted)"
  else ret (bck, size).

(** The guard of the last-remainder split. *)
Definition use_last_remainder (s : state) (nb victim bck size : Z) : bool :=
  in_smallbin_range nb
  && (bck =? unsorted_chunks (av s))
  && (victim =? last_remainder (av s))
  && (wrap (nb + MINSIZE) <? size).

(** Split the last remainder and reattach the rest. *)
Definition unsorted_split (victim size nb bytes : Z) : M Z :=
  do s <- get;
  let U := unsorted_chunks (av s) in
  let remainder_size := wrap (size - nb) in
  let remainder := chunk_at_offset victim nb in
  do _ <- wr (U + off_fd) remainder;
  do _ <- wr (U + off_bk) remainder;
  do _ <- modify (fun s => set_av s (set_last_remainder (av s) remainder));
  do _ <- wr (remainder + off_fd) U;
  do _ <- wr (remainder + off_bk) U;
  do _ <- (if negb (in_smallbin_range remainder_size)
           then do _ <- wr (remainder + off_fd_nextsize) NULL;
                wr (remainder + off_bk_nextsize) NULL
           else ret tt);
  do _ <- modify (fun s => set_mem s
            (set_head (mem s) victim
               (Z.lor (Z.lor nb PREV_INUSE)
                      (if negb (main (av s)) then NON_MAIN_ARENA else 0))));
  do _ <- modify (fun s => set_mem s
            (set_head (mem s) remainder (Z.lor remainder_size PREV_INUSE)));
  do _ <- modify (fun s => set_mem s (set_foot (mem s) remainder remainder_size));
  let p := chunk2mem victim in
  do _ <- alloc_perturb p bytes;
  ret p.

(** [while ((unsigned long) size < chunksize_nomask (fwd))] over the
    skip list of a large bin. *)
Fixpoint largebin_skip (fuel : nat) (size fwd : Z) : M Z :=
  do s <- get;
  if size <? chunksize_nomask (mem s) fwd then
    match fuel with
    | O => out_of_fuel
    | S f =>
        do fwd' <- rd (fwd + off_fd_nextsize);
        do s' <- get;
        do _ <- assert (chunk_main_arena (mem s') fwd') "chunk_main_arena (fwd)";
        largebin_skip f size fwd'
    end
  else ret fwd.

(** Find the place of [victim] in its bin; yields the bin index, [bck] and
    [fwd].  For a large bin this links [victim] into the skip list. *)
Definition place_in_bin (fuel : nat) (victim size : Z) : M (Z * Z * Z) :=
  do s <- get;
  if in_smallbin_range size then
    let victim_index := smallbin_index size in
    let bck := bin_at (av s) victim_index in
    do fwd <- rd (bck + off_fd);
    ret (victim_index, bck, fwd)
  else
    let victim_index := largebin_index size in
    let bck := bin_at (av s) victim_index in
    do fwd <- rd (bck + off_fd);
    if negb (fwd =? bck) then
      let size := Z.lor size PREV_INUSE in
      do last <- rd (bck + off_bk);
      do _ <- assert (chunk_main_arena (mem s) last) "chunk_main_arena (bck->bk)";
      if size <? chunksize_nomask (mem s) last then
        let fwd := bck in
        let bck := last in
        do first <- rd (fwd + off_fd);
        do _ <- wr (victim + off_fd_nextsize) first;
        do first' <- rd (fwd + off_fd);
        do fbn <- rd (first' + off_bk_nextsize);
        do _ <- wr (victim + off_bk_nextsize) fbn;
        do first'' <- rd (fwd + off_fd);
        do vbn <- rd (victim + off_bk_nextsize);
        do _ <- wr (vbn + off_fd_nextsize) victim;
        do _ <- wr (first'' + off_bk_nextsize) victim;
        ret (victim_index, bck, fwd)
      else
        do _ <- assert (chunk_main_arena (mem s) fwd) "chunk_main_arena (fwd)";
        do fwd <- largebin_skip fuel size fwd;
        do fsz <- rd (fwd + off_size);
        do fwd <- (if size =? fsz then rd (fwd + off_fd)
                   else
                     do _ <- wr (victim + off_fd_nextsize) fwd;
                     do fbn <- rd (fwd + off_bk_nextsize);
                     do _ <- wr (victim + off_bk_nextsize) fbn;
                     do fbn' <- rd (fwd + off_bk_nextsize);
                     do back <- rd (fbn' + off_fd_nextsize);
                     if negb (back =? fwd)
                     then malloc_printerr
                            "malloc(): largebin double linked list corrupted (nextsize)"
                     else
                       do _ <- wr (fwd + off_bk_nextsize) victim;
                       do vbn <- rd (victim + off_bk_nextsize);
                       do _ <- wr (vbn + off_fd_nextsize) victim;
                       ret fwd);
        do bck <- rd (fwd + off_bk);
        do bfd <- rd (bck + off_fd);
        if negb (bfd =? fwd)
        then malloc_printerr "malloc(): largebin double linked list corrupted (bk)"
        else ret (victim_index, bck, fwd)
    else
      do _ <- wr (victim + off_bk_nextsize) victim;
      do _ <- wr (victim + off_fd_nextsize) victim;
      ret (victim_index, bck, fwd).

(** The body of the [while] loop, for the chunk [victim] at the tail. *)
Definition unsorted_body (fuel : nat) (nb bytes tcache_nb tc_idx : Z)
    (victim : Z) (l : drain_locals) : M body_result :=
  do bs <- unsorted_checks victim;
  let bck := fst bs in
  let size := snd bs in
  do s <- get;
  if use_last_remainder s nb victim bck size then
    do p <- unsorted_split victim size nb bytes;
    ret (BReturn p)
  else
    (* remove from unsorted list *)
    do bfd <- rd (bck + off_fd);
    if negb (bfd =? victim)
    then malloc_printerr "malloc(): corrupted unsorted chunks 3"
    else
      let U := unsorted_chunks (av s) in
      do _ <- wr (U + off_bk) bck;
      do _ <- wr (bck + off_fd) U;
      if size =? nb then
        (* take now instead of binning if exact fit *)
        do _ <- modify (fun s => set_mem s (set_inuse_bit_at_offset (mem s) victim size));
        do _ <- (if negb (main (av s))
                 then modify (fun s => set_mem s (set_non_main_arena (mem s) victim))
                 else ret tt);
        do s1 <- get;
        if negb (tcache_nb =? 0)
           && (nth_z (counts (tcache_data s1)) tc_idx <? tcache_count (mp_ s1))
        then
          do _ <- tcache_put victim tc_idx;
          ret (BContinue (Build_drain_locals (iters l) (tcache_unsorted_count l) true))
        else
          let p := chunk2mem victim in
          do _ <- alloc_perturb p bytes;
          ret (BReturn p)
      else
        (* place chunk in bin *)
        do r <- place_in_bin fuel victim size;
        let victim_index := fst (fst r) in
        let bck := snd (fst r) in
        let fwd := snd r in
        do _ <- modify (fun s => set_av s (mark_bin (av s) victim_index));
        do _ <- wr (victim + off_bk) bck;
        do _ <- wr (victim + off_fd) fwd;
        do _ <- wr (fwd + off_bk) victim;
        do _ <- wr (bck + off_fd) victim;
        let l' := Build_drain_locals (iters l)
                    (wrap (tcache_unsorted_count l + 1)) (return_cached l) in
        do s2 <- get;
        if return_cached l'
           && (0 <? tcache_unsorted_limit (mp_ s2))
           && (tcache_unsorted_limit (mp_ s2) <? tcache_unsorted_count l')
        then ret (BReturnCached l')
        else ret (BNext l').

(** How the [while] loop ends. *)
Inductive loop_result : Type :=
| LReturn (p : Z)                 (* a chunk taken from the unsorted bin *)
| LReturnCached (p : Z) (l : drain_locals)
                                  (* a cached chunk, the limit was exceeded *)
| LExit (l : drain_locals).       (* the loop was left *)

Fixpoint unsorted_loop (fuel : nat) (nb bytes tcache_nb tc_idx : Z)
    (l : drain_locals) : M loop_result :=
  do s <- get;
  let victim := load (mem s) (unsorted_chunks (av s) + off_bk) in
  if negb (victim =? unsorted_chunks (av s)) then
    match fuel with
    | O => out_of_fuel
    | S f =>
        do r <- unsorted_body (S f) nb bytes tcache_nb tc_idx victim l;
        match r with
        | BReturn p => ret (LReturn p)
        | BReturnCached l' =>
            do p <- tcache_get tc_idx;
            ret (LReturnCached p l')
        | BContinue l' => unsorted_loop f nb bytes tcache_nb tc_idx l'
        | BNext l' =>
            let l'' := Build_drain_locals (iters l' + 1)
                         (tcache_unsorted_count l') (return_cached l') in
            if MAX_ITERS <=? iters l''
            then ret (LExit l'')
            else unsorted_loop f nb bytes tcache_nb tc_idx l''
        end
    end
  else ret (LExit l).

(** The loop together with the test that follows it. *)
Inductive drain_result : Type :=
| DrainVictim (p : Z)
| DrainCached (p : Z) (l : drain_locals)
| DrainNone (l : drain_locals).

Definition unsorted_drain (fuel : nat) (nb bytes tcache_nb tc_idx : Z)
    (l : drain_locals) : M drain_result :=
  do r <- unsorted_loop fuel nb bytes tcache_nb tc_idx l;
  match r with
  | LReturn p => ret (DrainVictim p)
  | LReturnCached p l' => ret (DrainCached p l')
  | LExit l' =>
      if return_cached l'
      then do p <- tcache_get tc_idx; ret (DrainCached p l')
      else ret (DrainNone l')
  end.

(** ** [_int_malloc] *)

(** The [for (;;)] loop: process the unsorted bin, then search the bins. *)
Fixpoint int_malloc_loop (E : externals) (rounds fuel : nat)
    (nb bytes idx tcache_nb tc_idx : Z) (count : Z) (cached : bool) : M Z :=
  do r <- unsorted_drain fuel nb bytes tcache_nb tc_idx
            (Build_drain_locals 0 count cached);
  match r with
  | DrainVictim p => ret p
  | DrainCached p _ => ret p
  | DrainNone l =>
      do q <- int_malloc_bins E nb bytes idx;
      match q with
      | Some p => ret p
      | None =>
          match rounds with
          | O => out_of_fuel
          | S k => int_malloc_loop E k fuel nb bytes idx tcache_nb tc_idx
                     (tcache_unsorted_count l) (return_cached l)
          end
      end
  end.

(** The arena is present ([av != NULL]); the fallback to [sysmalloc] when no
    arena is usable is not part of the model. *)
Definition _int_malloc (E : externals) (fuel : nat) (bytes : Z) : M Z :=
  match checked_request2size bytes with
  | None => do _ <- modify (fun s => set_errno s ENOMEM); ret NULL
  | Some nb =>
      do r <- int_malloc_fastbin fuel nb bytes;
      match r with
      | Some p => ret p
      | None =>
          do r <- (if in_smallbin_range nb
                   then int_malloc_smallbin fuel nb bytes
                   else
                     do s <- get;
                     do _ <- (if have_fastchunks (av s)
                              then malloc_consolidate E else ret tt);
                     ret None);
          match r with
          | Some p => ret p
          | None =>
              let idx := if in_smallbin_range nb then smallbin_index nb
                         else largebin_index nb in
              do s <- get;
              let tc_idx := csize2tidx nb in
              let tcache_nb :=
                if negb (tcache s =? NULL) && (tc_idx <? tcache_bins (mp_ s))
                then nb else 0 in
              int_malloc_loop E fuel fuel nb bytes idx tcache_nb tc_idx 0 false
          end
      end
  end.

(** ** Public wrappers *)

Definition tcache_init (E : externals) (fuel : nat) : M unit :=
  do s <- get;
  if tcache_shutting_down s then ret tt
  else
    do victim <- _int_malloc E fuel sizeof_tcache_perthread_struct;
    if negb (victim =? NULL) then
      modify (fun s =>
        set_tcache
          (set_mem s (memset (mem s) victim 0 sizeof_tcache_perthread_struct))
          victim
          (Build_tcache (replicate (Z.to_nat TCACHE_MAX_BINS) 0)
                        (replicate (Z.to_nat TCACHE_MAX_BINS) 0)))
    else ret tt.

Definition MAYBE_INIT_TCACHE (E : externals) (fuel : nat) : M unit :=
  do s <- get;
  if tcache s =? NULL then tcache_init E fuel else ret tt.

(** The arena of the state is the one [arena_get] yields (the main arena
    when [SINGLE_THREAD_P]); the second attempt on another arena after a
    failure is not part of the model. *)
Definition __libc_malloc (E : externals) (fuel : nat) (bytes : Z) : M Z :=
  match __malloc_hook E with
  | Some hook => hook bytes
  | None =>
      match checked_request2size bytes with
      | None => do _ <- modify (fun s => set_errno s ENOMEM); ret NULL
      | Some tbytes =>
          let tc_idx := csize2tidx tbytes in
          do _ <- MAYBE_INIT_TCACHE E fuel;
          do s <- get;
          if (tc_idx <? tcache_bins (mp_ s))
             && negb (tcache s =? NULL)
             && (0 <? nth_z (counts (tcache_data s)) tc_idx)
          then tcache_get tc_idx
          else
            do victim <- _int_malloc E fuel bytes;
            do s' <- get;
            do _ <- assert ((victim =? NULL)
                            || negb (chunk_is_mmapped (mem s') (mem2chunk victim) =? 0)
                            || eqb (chunk_main_arena (mem s') (mem2chunk victim))
                                   (main (av s')))
                     "!victim || chunk_is_mmapped (mem2chunk (victim)) || ar_ptr == arena_for_chunk (mem2chunk (victim))";
            ret victim
      end
  end.

Definition munmap_chunk (E : externals) (p : Z) : M unit :=
  do s <- get;
  let pagesize := dl_pagesize s in
  let size := chunksize (mem s) p in
  do _ <- assert (negb (chunk_is_mmapped (mem s) p =? 0)) "chunk_is_mmapped (p)";
  if DUMPED_MAIN_ARENA_CHUNK s p then ret tt
  else
    let mem_ := chunk2mem p in
    let block := wrap (p - prev_size (mem s) p) in
    let total_size := wrap (prev_size (mem s) p + size) in
    if negb (Z.land (Z.lor block total_size) (wrap (pagesize - 1)) =? 0)
       || negb (powerof2 (Z.land mem_ (wrap (pagesize - 1))))
    then malloc_printerr "munmap_chunk(): invalid pointer"
    else
      do _ <- modify (fun s => set_mp s
                (Build_malloc_par (trim_threshold (mp_ s)) (mmap_threshold (mp_ s))
                   (n_mmaps (mp_ s) - 1) (no_dyn_threshold (mp_ s))
                   (wrap (mmapped_mem (mp_ s) - total_size))
                   (max_mmapped_mem (mp_ s)) (tcache_bins (mp_ s))
                   (tcache_count (mp_ s)) (tcache_unsorted_limit (mp_ s))));
      __munmap E block total_size.

Definition mremap_chunk (E : externals) (p new_size : Z) : M Z :=
  do s <- get;
  let pagesize := dl_pagesize s in
  let offset := prev_size (mem s) p in
  let size := chunksize (mem s) p in
  do _ <- assert (negb (chunk_is_mmapped (mem s) p =? 0)) "chunk_is_mmapped (p)";
  let block := wrap (p - offset) in
  let mem_ := chunk2mem p in
  let total_size := wrap (offset + size) in
  if negb (Z.land (Z.lor block total_size) (wrap (pagesize - 1)) =? 0)
     || negb (powerof2 (Z.land mem_ (wrap (pagesize - 1))))
  then malloc_printerr "mremap_chunk(): invalid pointer"
  else
    let new_size := ALIGN_UP (wrap (wrap (new_size + offset) + SIZE_SZ)) pagesize in
    if total_size =? new_size then ret p
    else
      do cp <- __mremap E block total_size new_size;
      if cp =? MAP_FAILED then ret 0
      else
        let p := wrap (cp + offset) in
        do _ <- assert (aligned_OK (chunk2mem p)) "aligned_OK (chunk2mem (p))";
        do s1 <- get;
        do _ <- assert (prev_size (mem s1) p =? offset) "prev_size (p) == offset";
        do _ <- modify (fun s => set_mem s
                  (set_head (mem s) p (Z.lor (wrap (new_size - offset)) IS_MMAPPED)));
        do _ <- modify (fun s =>
                  let new := wrap (mmapped_mem (mp_ s)
                                   + wrap (wrap (new_size - size) - offset)) in
                  set_mp s
                    (Build_malloc_par (trim_threshold (mp_ s)) (mmap_threshold (mp_ s))
                       (n_mmaps (mp_ s)) (no_dyn_threshold (mp_ s))
                       new
                       (Z.max (max_mmapped_mem (mp_ s)) new) (tcache_bins (mp_ s))
                       (tcache_count (mp_ s)) (tcache_unsorted_limit (mp_ s))));
        ret p.

(** ** [_int_free] *)

(** The two checks at the head of [_int_free]; yields the chunk size. *)
Definition int_free_checks (p : Z) : M Z :=
  do s <- get;
  let size := chunksize (mem s) p in
  if (wrap (- size) <? p) || negb (misaligned_chunk p =? 0)
  then malloc_printerr "free(): invalid pointer"
  else if (size <? MINSIZE) || negb (aligned_OK size)
  then malloc_printerr "free(): invalid size"
  else ret size.

(** [for (tmp = tcache->entries[tc_idx]; tmp; tmp = tmp->next)]: the scan
    for a chunk that is already in the bucket. *)
Fixpoint tcache_scan (fuel : nat) (tmp e : Z) : M unit :=
  if tmp =? NULL then ret tt
  else if tmp =? e
  then malloc_printerr "free(): double free detected in tcache 2"
  else
    match fuel with
    | O => out_of_fuel
    | S f => do next <- rd tmp; tcache_scan f next e
    end.

(** The tcache block of [_int_free]; [true] when the chunk was cached and
    the function returns. *)
Definition int_free_tcache (fuel : nat) (p size : Z) : M bool :=
  do s <- get;
  let tc_idx := csize2tidx size in
  if negb (tcache s =? NULL) && (tc_idx <? tcache_bins (mp_ s)) then
    let e := chunk2mem p in
    do key <- rd (e + 8);
    do _ <- (if key =? tcache s
             then tcache_scan fuel (nth_z (entries (tcache_data s)) tc_idx) e
             else ret tt);
    if nth_z (counts (tcache_data s)) tc_idx <? tcache_count (mp_ s)
    then do _ <- tcache_put p tc_idx; ret true
    else ret false
  else ret false.

(** The test on the size of the chunk that follows [p]. *)
Definition fast_next_size_invalid (s : state) (p size : Z) : bool :=
  (chunksize_nomask (mem s) (chunk_at_offset p size) <=? 2 * SIZE_SZ)
  || (system_mem (av s) <=? chunksize (mem s) (chunk_at_offset p size)).

(** The fast-bin branch of [_int_free]. *)
Definition int_free_fastbin (p size : Z) (have_lock : bool) : M unit :=
  do s <- get;
  do _ <- (if fast_next_size_invalid s p size then
             (* without the lock the test is repeated under the lock; no
                other thread runs in between, the outcome is the same *)
             let fail := if negb have_lock
                         then fast_next_size_invalid s p size else true in
             if fail
             then malloc_printerr "free(): invalid next size (fast)"
             else ret tt
           else ret tt);
  do _ <- free_perturb (chunk2mem p) (wrap (size - 2 * SIZE_SZ));
  do _ <- modify (fun s => set_av s (set_have_fastchunks (av s) true));
  let idx := fastbin_index size in
  do s1 <- get;
  let old := nth_z (fastbinsY (av s1)) idx in
  if old =? p
  then malloc_printerr "double free or corruption (fasttop)"
  else
    do _ <- wr (p + off_fd) old;
    do _ <- modify (fun s => set_av s (set_fastbinsY (av s)
                              (upd_z (fastbinsY (av s)) idx p)));
    do s2 <- get;
    if have_lock && negb (old =? NULL)
       && negb (fastbin_index (chunksize (mem s2) old) =? idx)
    then malloc_printerr "invalid fastbin entry (free)"
    else ret tt.

Definition _int_free (E : externals) (fuel : nat) (p : Z) (have_lock : bool)
  : M unit :=
  do size <- int_free_checks p;
  do cached <- int_free_tcache fuel p size;
  if cached then ret tt
  else
    do s <- get;
    if size <=? get_max_fast s then int_free_fastbin p size have_lock
    else if chunk_is_mmapped (mem s) p =? 0
    then int_free_merge E p size have_lock
    else munmap_chunk E p.

Definition __libc_free (E : externals) (fuel : nat) (mem_ : Z) : M unit :=
  match __free_hook E with
  | Some hook => hook mem_
  | None =>
      if mem_ =? 0 then ret tt
      else
        let p := mem2chunk mem_ in
        do s <- get;
        if negb (chunk_is_mmapped (mem s) p =? 0) then
          do _ <- (if (no_dyn_threshold (mp_ s) =? 0)
                      && (mmap_threshold (mp_ s) <? chunksize_nomask (mem s) p)
                      && (chunksize_nomask (mem s) p <=? DEFAULT_MMAP_THRESHOLD_MAX)
                      && negb (DUMPED_MAIN_ARENA_CHUNK s p)
                   then modify (fun s => set_mp s
                          (Build_malloc_par
                             (wrap (2 * chunksize (mem s) p))
                             (chunksize (mem s) p)
                             (n_mmaps (mp_ s)) (no_dyn_threshold (mp_ s))
                             (mmapped_mem (mp_ s)) (max_mmapped_mem (mp_ s))
                             (tcache_bins (mp_ s)) (tcache_count (mp_ s))
                             (tcache_unsorted_limit (mp_ s))))
                   else ret tt);
          munmap_chunk E p
        else
          do _ <- MAYBE_INIT_TCACHE E fuel;
          _int_free E fuel p false
  end.

(** ** [_int_realloc] *)

(** How the search for room ends: the function returns at once, or goes on
    to split the chunk [newp] of size [newsize]. *)
Inductive realloc_room : Type :=
| RoomReturn (p : Z)
| RoomSplit (newp newsize : Z).

Definition _int_realloc (E : externals) (fuel : nat) (oldp oldsize nb : Z)
  : M Z :=
  do s <- get;
  if (chunksize_nomask (mem s) oldp <=? 2 * SIZE_SZ)
     || (system_mem (av s) <=? oldsize)
  then malloc_printerr "realloc(): invalid old size"
  else
    do _ <- assert (chunk_is_mmapped (mem s) oldp =? 0) "!chunk_is_mmapped (oldp)";
    let next := chunk_at_offset oldp oldsize in
    let nextsize := chunksize (mem s) next in
    if (chunksize_nomask (mem s) next <=? 2 * SIZE_SZ)
       || (system_mem (av s) <=? nextsize)
    then malloc_printerr "realloc(): invalid next size"
    else
      let arena_bit := if negb (main (av s)) then NON_MAIN_ARENA else 0 in
      do room <-
        (if nb <=? oldsize then ret (RoomSplit oldp oldsize)
         else if (next =? top (av s))
                 && (wrap (nb + MINSIZE) <=? wrap (oldsize + nextsize))
         then
           let newsize := wrap (oldsize + nextsize) in
           do _ <- modify (fun s => set_mem s
                     (set_head_size (mem s) oldp (Z.lor nb arena_bit)));
           do _ <- modify (fun s => set_av s
                     (set_top (av s) (chunk_at_offset oldp nb)));
           do _ <- modify (fun s => set_mem s
                     (set_head (mem s) (top (av s))
                        (Z.lor (wrap (newsize - nb)) PREV_INUSE)));
           ret (RoomReturn (chunk2mem oldp))
         else if negb (next =? top (av s))
                 && (inuse (mem s) next =? 0)
                 && (nb <=? wrap (oldsize + nextsize))
         then
           do _ <- unlink_chunk next;
           ret (RoomSplit oldp (wrap (oldsize + nextsize)))
         else
           do newmem <- _int_malloc E fuel (wrap (nb - MALLOC_ALIGN_MASK));
           if newmem =? 0 then ret (RoomReturn 0)
           else
             let newp := mem2chunk newmem in
             do s1 <- get;
             let newsize := chunksize (mem s1) newp in
             if newp =? next
             then ret (RoomSplit oldp (wrap (newsize + oldsize)))
             else
               do _ <- memcpy newmem (chunk2mem oldp) (wrap (oldsize - SIZE_SZ));
               do _ <- _int_free E fuel oldp true;
               ret (RoomReturn (chunk2mem newp)));
      match room with
      | RoomReturn p => ret p
      | RoomSplit newp newsize =>
          do _ <- assert (nb <=? newsize)
                    "(unsigned long) (newsize) >= (unsigned long) (nb)";
          let remainder_size := wrap (newsize - nb) in
          do _ <-
            (if remainder_size <? MINSIZE then
               do _ <- modify (fun s => set_mem s
                         (set_head_size (mem s) newp (Z.lor newsize arena_bit)));
               modify (fun s => set_mem s
                         (set_inuse_bit_at_offset (mem s) newp newsize))
             else
               let remainder := chunk_at_offset newp nb in
               do _ <- modify (fun s => set_mem s
                         (set_head_size (mem s) newp (Z.lor nb arena_bit)));
               do _ <- modify (fun s => set_mem s
                         (set_head (mem s) remainder
                            (Z.lor (Z.lor remainder_size PREV_INUSE) arena_bit)));
               do _ <- modify (fun s => set_mem s
                         (set_inuse_bit_at_offset (mem s) remainder remainder_size));
               _int_free E fuel remainder true);
          ret (chunk2mem newp)
      end.

(** ** [__libc_realloc] *)

Definition __libc_realloc (E : externals) (fuel : nat) (oldmem bytes : Z) : M Z :=
  match __realloc_hook E with
  | Some hook => hook oldmem bytes
  | None =>
      if (bytes =? 0) && negb (oldmem =? NULL)
      then do _ <- __libc_free E fuel oldmem; ret 0
      else if oldmem =? 0 then __libc_malloc E fuel bytes
      else
        let oldp := mem2chunk oldmem in
        do s <- get;
        let oldsize := chunksize (mem s) oldp in
        do _ <- (if negb (chunk_is_mmapped (mem s) oldp =? 0) then ret tt
                 else MAYBE_INIT_TCACHE E fuel);
        do s <- get;
        if ((wrap (- oldsize) <? oldp) || negb (misaligned_chunk oldp =? 0))
           && negb (DUMPED_MAIN_ARENA_CHUNK s oldp)
        then malloc_printerr "realloc(): invalid pointer"
        else
          match checked_request2size bytes with
          | None => do _ <- modify (fun s => set_errno s ENOMEM); ret NULL
          | Some nb =>
              if negb (chunk_is_mmapped (mem s) oldp =? 0) then
                if DUMPED_MAIN_ARENA_CHUNK s oldp then
                  do newmem <- __libc_malloc E fuel bytes;
                  if newmem =? 0 then ret NULL
                  else
                    let bytes := if wrap (oldsize - SIZE_SZ) <? bytes
                                 then wrap (oldsize - SIZE_SZ) else bytes in
                    do _ <- memcpy newmem oldmem bytes;
                    ret newmem
                else
                  do newp <- (if HAVE_MREMAP E then mremap_chunk E oldp nb
                              else ret 0);
                  if negb (newp =? 0) then ret (chunk2mem newp)
                  else if nb <=? wrap (oldsize - SIZE_SZ) then ret oldmem
                  else
                    do newmem <- __libc_malloc E fuel bytes;
                    if newmem =? 0 then ret 0
                    else
                      do _ <- memcpy newmem oldmem (wrap (oldsize - 2 * SIZE_SZ));
                      do _ <- munmap_chunk E oldp;
                      ret newmem
              else
                do newp <- _int_realloc E fuel oldp oldsize nb;
                do s' <- get;
                do _ <- assert ((newp =? NULL)
                                || negb (chunk_is_mmapped (mem s') (mem2chunk newp) =? 0)
                                || eqb (chunk_main_arena (mem s') (mem2chunk newp))
                                       (main (av s')))
                         "!newp || chunk_is_mmapped (mem2chunk (newp)) || ar_ptr == arena_for_chunk (mem2chunk (newp))";
                if SINGLE_THREAD_P E then ret newp
                else if newp =? NULL then
                  do newp <- __libc_malloc E fuel bytes;
                  if negb (newp =? NULL) then
                    do _ <- memcpy newp oldmem (wrap (oldsize - SIZE_SZ));
                    do _ <- _int_free E fuel oldp false;
                    ret newp
                  else ret newp
                else ret newp
          end
  end.

(** ** [malloc_usable_size] *)

Definition musable (E : externals) (mem_ : Z) : M Z :=
  if negb (mem_ =? 0) then
    let p := mem2chunk mem_ in
    do s <- get;
    if using_malloc_checking s =? 1 then malloc_check_get_size E p
    else if negb (chunk_is_mmapped (mem s) p =? 0) then
      if DUMPED_MAIN_ARENA_CHUNK s p
      then ret (wrap (chunksize (mem s) p - SIZE_SZ))
      else ret (wrap (chunksize (mem s) p - 2 * SIZE_SZ))
    else if negb (inuse (mem s) p =? 0)
    then ret (wrap (chunksize (mem s) p - SIZE_SZ))
    else ret 0
  else ret 0.

Definition __malloc_usable_size (E : externals) (m : Z) : M Z := musable E m.

(** ** The tcache bound *)

(** Every bucket of the tcache holds at most [mp_.tcache_count] chunks, and
    that cap is one [do_set_tcache_count] accepts. *)
Definition tcache_bounded (s : state) : Prop :=
  0 <= tcache_count (mp_ s) <= MAX_TCACHE_COUNT
  /\ forall i : Z, 0 <= nth_z (counts (tcache_data s)) i <= tcache_count (mp_ s).

(** The same, as a test that can be run. *)
Definition tcache_bounded_b (s : state) : bool :=
  (0 <=? tcache_count (mp_ s)) && (tcache_count (mp_ s) <=? MAX_TCACHE_COUNT)
  && forallb (fun c => (0 <=? c) && (c <=? tcache_count (mp_ s)))
             (counts (tcache_data s)).

(** Two states with the same parameters and the same per-thread cache. *)
Definition same_tcache (s s' : state) : Prop :=
  mp_ s' = mp_ s /\ tcache s' = tcache s /\ tcache_data s' = tcache_data s.

(** [s'] has the tcache content and the tcache cap of [s]. *)
Definition keeps_tcache (s s' : state) : Prop :=
  tcache_data s' = tcache_data s
  /\ tcache_count (mp_ s') = tcache_count (mp_ s).

Definition leaves_tcache {A : Type} (c : M A) : Prop :=
  forall (s : state) (a : A) (s' : state), c s = Done a s' -> keeps_tcache s s'.

Definition preserves_bound {A : Type} (c : M A) : Prop :=
  forall (s : state) (a : A) (s' : state),
    tcache_bounded s -> c s = Done a s' -> tcache_bounded s'.

(** What the proof of the bound needs of the fields of [externals]: the
    hooks, which may allocate and release on their own, keep the bound;
    [malloc_consolidate], the coalescing branch of [_int_free] and the
    operating-system primitives leave the tcache alone; the rest of the
    loop of [_int_malloc] keeps the bound (through [sysmalloc] it may
    release the old top chunk, and that release may push onto the tcache)
    and leaves the tcache alone when it asks for another round.  For the
    code of the source these are proved further down, not assumed. *)
Record externals_ok (E : externals) : Prop := Build_externals_ok {
  malloc_hook_ok : forall h n, __malloc_hook E = Some h -> preserves_bound (h n);
  free_hook_ok : forall h p, __free_hook E = Some h -> preserves_bound (h p);
  realloc_hook_ok :
    forall h p n, __realloc_hook E = Some h -> preserves_bound (h p n);
  malloc_consolidate_ok : leaves_tcache (malloc_consolidate E);
  int_malloc_bins_ok :
    forall nb bytes idx s o s',
      int_malloc_bins E nb bytes idx s = Done o s' ->
      (tcache_bounded s -> tcache_bounded s')
      /\ (o = None -> keeps_tcache s s');
  int_free_merge_ok : forall p size l, leaves_tcache (int_free_merge E p size l);
  munmap_ok : forall a n, leaves_tcache (__munmap E a n);
  mremap_ok : forall a n n', leaves_tcache (__mremap E a n n')
}.

(** When [cached] is set, the bucket [tc_idx] is not empty. *)
Definition cached_nonempty (tc_idx : Z) (cached : bool) (s : state) : Prop :=
  cached = true ->
  in_array (counts (tcache_data s)) tc_idx = true ->
  1 <= nth_z (counts (tcache_data s)) tc_idx.

(** ** Concrete environments and states

    Used to run the model on explicit inputs. *)

(** No hooks, one thread; the operating system and the unmodelled parts of
    the engines do nothing, the bin search of [_int_malloc] finds nothing
    and yields a null pointer. *)
Definition quiet_env : externals :=
  Build_externals None None None true true
    (ret tt)
    (fun _ _ _ => ret (Some NULL))
    (fun _ _ _ => ret tt)
    (fun _ _ => ret tt)
    (fun _ _ _ => ret MAP_FAILED)
    (fun _ => ret 0).

Definition default_par : malloc_par :=
  Build_malloc_par (128 * 1024) (128 * 1024) 0 0 0 0
    TCACHE_MAX_BINS TCACHE_FILL_COUNT 0.

Definition empty_tcache : tcache_perthread_struct :=
  Build_tcache (replicate 64 0) (replicate 64 0).

(** The main arena with its bins at address [0x7000], all bins and fast
    bins empty, [system_mem = 0x21000]. *)
Definition arena0 : malloc_state :=
  Build_malloc_state true 0 false (replicate 10 0) 0x20800 0 0x7000
    [0; 0; 0; 0] 0x21000.

(** [malloc_init_state] makes every bin empty: [bin->fd = bin->bk = bin].
    [init_bins a n m] does so for the bins 1 to [n]. *)
Definition init_bins (a : malloc_state) (n : nat) (m : gmap Z Z) : gmap Z Z :=
  fold_left
    (fun m i => store (store m (bin_at a i + off_fd) (bin_at a i))
                      (bin_at a i + off_bk) (bin_at a i))
    (map Z.of_nat (seq 1 n)) m.

(** Memory in which the unsorted bin and the first small bins of [arena0],
    the only bins the runs below look at, are empty. *)
Definition mem_init : gmap Z Z := init_bins arena0 8 ∅.

(** A process after start-up: tcache allocated (at [0x555010]) and empty,
    default parameters, no perturbation. *)
Definition state0 : state :=
  Build_state mem_init arena0 default_par 0x555010 empty_tcache
    false 0 128 0 0 0 0 4096.

(** A page-mapped chunk at [0x7f0000000000]: one mapping of [0x21000]
    bytes, the chunk at its start ([prev_size = 0]), the M flag set. *)
Definition mapped_chunk : Z := 0x7f0000000000.
Definition mem_mapped : gmap Z Z :=
  store (store mem_init (mapped_chunk + off_prev_size) 0)
        (mapped_chunk + off_size) (Z.lor 0x21000 IS_MMAPPED).
Definition par_mapped : malloc_par :=
  Build_malloc_par (128 * 1024) (128 * 1024) 1 0 0x21000 0x21000
    TCACHE_MAX_BINS TCACHE_FILL_COUNT 0.
Definition state_mapped : state :=
  Build_state mem_mapped arena0 par_mapped 0x555010 empty_tcache
    false 0 128 0 0 0 0 4096.

(** A heap whose first chunk, at [0x20000], has size 32 and is in use; the
    chunk after it, at [0x20020], carries the size field [next_size].  The
    payload of the first chunk holds the bytes [0x11]. *)
Definition small_chunk : Z := 0x20000.
Definition mem_small (next_size : Z) : gmap Z Z :=
  store (store (store (store (store
    (store mem_init (small_chunk + off_size) (Z.lor 32 PREV_INUSE))
      (small_chunk + 16) 0x1111111111111111)
      (small_chunk + 24) 0x1111111111111111)
      (small_chunk + 32) 0x1111111111111111)
      (small_chunk + 32 + off_size) next_size)
      (small_chunk + 32 + 32 + off_size) (Z.lor 0x20fa0 PREV_INUSE).

(** The tcache bucket for chunks of size 32 is full. *)
Definition full_tcache : tcache_perthread_struct :=
  Build_tcache (7 :: replicate 63 0) (0x30010 :: replicate 63 0).

(** The successor of the chunk to release has size [0x21000], which is the
    arena's [system_mem]; its P flag is set. *)
Definition state_fast_edge : state :=
  Build_state (mem_small (Z.lor 0x21000 PREV_INUSE)) arena0 default_par
    0x555010 full_tcache false 0 128 0 0 0 0 4096.

(** The successor's size field is exactly [2 * SIZE_SZ], no flag set. *)
Definition state_fast_low : state :=
  Build_state (mem_small (2 * SIZE_SZ)) arena0 default_par
    0x555010 full_tcache false 0 128 0 0 0 0 4096.

(** The successor is an ordinary chunk of size 32 in use. *)
Definition state_fast : state :=
  Build_state (mem_small (Z.lor 32 PREV_INUSE)) arena0 default_par
    0x555010 full_tcache false 0 128 0 0 0 0 4096.

(** A heap whose first chunk, at [0x20000], has size 48 and is in use, its
    payload filled with the bytes [0x11]; two chunks in use follow. *)
Definition mid_chunk : Z := 0x20000.
Definition mem_mid : gmap Z Z :=
  store (store (store (store (store (store
    (store mem_init (mid_chunk + off_size) (Z.lor 48 PREV_INUSE))
      (mid_chunk + 16) 0x1111111111111111)
      (mid_chunk + 24) 0x1111111111111111)
      (mid_chunk + 32) 0x1111111111111111)
      (mid_chunk + 40) 0x1111111111111111)
      (mid_chunk + 48 + off_size) (Z.lor 32 PREV_INUSE))
      (mid_chunk + 48 + 32 + off_size) (Z.lor 0x20f80 PREV_INUSE).

(** The perturb byte is [0xAA]; the tcache has room. *)
Definition state_perturb : state :=
  Build_state mem_mid arena0 default_par
    0x555010 empty_tcache false 0xAA 128 0 0 0 0 4096.

(** The perturb byte is [0xAA]; the tcache bucket for chunks of size 48 is
    full, a release takes the fast-bin branch. *)
Definition state_perturb_full : state :=
  Build_state mem_mid arena0 default_par 0x555010
    (Build_tcache (0 :: 7 :: replicate 62 0) (0 :: 0x30010 :: replicate 62 0))
    false 0xAA 128 0 0 0 0 4096.

(** The perturb byte is [0xAA]; the tcache is empty and the chunk at
    [mid_chunk] sits alone in its fast bin. *)
Definition state_perturb_fastbin : state :=
  Build_state (store mem_mid (mid_chunk + off_fd) 0)
    (Build_malloc_state true 0 true (0 :: mid_chunk :: replicate 8 0)
       0x20800 0 0x7000 [0; 0; 0; 0] 0x21000)
    default_par 0x555010 empty_tcache false 0xAA 128 0 0 0 0 4096.

(** A process whose mmap threshold was tuned down to one page, holding one
    page-mapped chunk of exactly one page at [mapped_chunk]. *)
Definition mem_mapped_page : gmap Z Z :=
  store (store mem_init (mapped_chunk + off_prev_size) 0)
        (mapped_chunk + off_size) (Z.lor 0x1000 IS_MMAPPED).
Definition state_mapped_page : state :=
  Build_state mem_mapped_page arena0
    (Build_malloc_par (128 * 1024) 4096 1 1 0x1000 0x1000
       TCACHE_MAX_BINS TCACHE_FILL_COUNT 0)
    0x555010 empty_tcache false 0 128 0 0 0 0 4096.

(** A heap whose only free chunk is the last remainder: the chunk at
    [0x20000] of size [0x100], alone in the unsorted bin; the chunk after
    it, at [0x20100], is in use. *)
Definition rem_chunk : Z := 0x20000.
Definition mem_remainder (sz : Z) : gmap Z Z :=
  store (store (store (store (store (store (store mem_init
    (unsorted_chunks arena0 + off_fd) rem_chunk)
    (unsorted_chunks arena0 + off_bk) rem_chunk)
    (rem_chunk + off_size) (Z.lor sz PREV_INUSE))
    (rem_chunk + off_fd) (unsorted_chunks arena0))
    (rem_chunk + off_bk) (unsorted_chunks arena0))
    (rem_chunk + sz + off_prev_size) sz)
    (rem_chunk + sz + off_size) 0x40.

Definition arena_remainder : malloc_state :=
  Build_malloc_state true 0 false (replicate 10 0) 0x20800 rem_chunk 0x7000
    [0; 0; 0; 0] 0x21000.

Definition state_remainder (sz : Z) : state :=
  Build_state (mem_remainder sz) arena_remainder default_par 0x555010
    empty_tcache false 0 128 0 0 0 0 4096.

Definition fresh_locals : drain_locals := Build_drain_locals 0 0 false.

(** The unsorted bin holds one chunk, at [rem_chunk], of size 48; it is not
    the last remainder.  The tcache is empty. *)
Definition state_exact : state :=
  Build_state (mem_remainder 0x30) arena0 default_par 0x555010
    empty_tcache false 0 128 0 0 0 0 4096.
(** ** Further macros of the source

    The definitions from here to the end of the definitions part embed the
    functions of the source files that the first part leaves to the
    environment or does not reach. *)

Definition tidx2usize (idx : Z) : Z :=
  wrap (idx * MALLOC_ALIGNMENT + MINSIZE - SIZE_SZ).
Definition MAX_TCACHE_SIZE : Z := tidx2usize (TCACHE_MAX_BINS - 1).
Definition usize2tidx (x : Z) : Z := csize2tidx (request2size x).

Definition inuse_bit_at_offset (m : gmap Z Z) (p s : Z) : Z :=
  Z.land (load m (wrap (p + s) + off_size)) PREV_INUSE.
Definition clear_inuse_bit_at_offset (m : gmap Z Z) (p s : Z) : gmap Z Z :=
  store m (wrap (p + s) + off_size)
        (Z.land (load m (wrap (p + s) + off_size)) (lnot64 PREV_INUSE)).
Definition set_prev_size (m : gmap Z Z) (p sz : Z) : gmap Z Z :=
  store m (p + off_prev_size) sz.

Definition next_bin (b : Z) : Z := b + Z.shiftl 8 1.
Definition first (m : gmap Z Z) (b : Z) : Z := load m (b + off_fd).
Definition last (m : gmap Z Z) (b : Z) : Z := load m (b + off_bk).
Definition initial_top (a : malloc_state) : Z := unsorted_chunks a.

Definition BITSPERMAP : Z := wrap32 (Z.shiftl 1 BINMAPSHIFT).
Definition BINMAPSIZE : Z := NBINS / BITSPERMAP.

Definition FASTBIN_CONSOLIDATION_THRESHOLD : Z := 65536.
Definition NONCONTIGUOUS_BIT : Z := 2.
Definition contiguous (a : malloc_state) : bool :=
  Z.land (flags a) NONCONTIGUOUS_BIT =? 0.
Definition set_flags (a : malloc_state) (f : Z) : malloc_state :=
  Build_malloc_state (main a) f (have_fastchunks a) (fastbinsY a) (top a)
    (last_remainder a) (bins a) (binmap a) (system_mem a).
Definition set_noncontiguous (a : malloc_state) : malloc_state :=
  set_flags a (Z.lor (flags a) NONCONTIGUOUS_BIT).

Definition DEFAULT_MXFAST : Z := 64 * SIZE_SZ / 4.

Definition set_global_max_fast (s : state) (v : Z) : state :=
  Build_state (mem s) (av s) (mp_ s) (tcache s) (tcache_data s)
    (tcache_shutting_down s) (perturb_byte s) v (errno s)
    (dumped_main_arena_start s) (dumped_main_arena_end s)
    (using_malloc_checking s) (dl_pagesize s).

(** [set_max_fast (s)]. *)
Definition set_max_fast (v : Z) (s : state) : state :=
  set_global_max_fast s
    (if v =? 0 then MIN_CHUNK_SIZE / 2
     else Z.land (wrap (v + SIZE_SZ)) (lnot64 MALLOC_ALIGN_MASK)).

Definition set_system_mem (a : malloc_state) (v : Z) : malloc_state :=
  Build_malloc_state (main a) (flags a) (have_fastchunks a) (fastbinsY a)
    (top a) (last_remainder a) (bins a) (binmap a) v.

(** [(long) x], for a 64-bit [x]. *)
Definition signed (x : Z) : Z := if x <? 2 ^ 63 then x else x - 2 ^ 64.

(** Modelled from the spec: [ALIGN_DOWN] (libc-pointer-arith.h) is not part
    of the source at hand; [ALIGN_DOWN (base, size)] is
    [base & -size], the value of [base] rounded downwards to a multiple of
    [size], a power of two. *)
Definition ALIGN_DOWN (base size : Z) : Z := Z.land base (wrap (- size)).

(** The file defines [MORECORE] as the function the variable
    [__morecore] points to and, with it, [MORECORE_FAILURE] as 0; [mmap]
    fails with [MAP_FAILED]. *)
Definition MORECORE_FAILURE : Z := 0.
Definition MMAP_AS_MORECORE_SIZE : Z := 1024 * 1024.
(** ** The operating system and the heaps of the other arenas

    [sysmalloc] and [systrim] reach the operating system through [MMAP]
    and [MORECORE]; these stay parameters, and so does the hook the file
    calls after [MORECORE].  For an arena other than the main one
    [sysmalloc] works on the heaps of arena.c, which is not part of the
    source at hand: the macro [heap_for_ptr], the layout of [heap_info]
    (the offsets of its fields and its size), the address of the arena
    and the functions [grow_heap], [new_heap] and [heap_trim] are
    parameters too; so is [ptmalloc_init]. *)
Record sysdeps : Type := Build_sysdeps {
  (* [MMAP (0, size, PROT_READ | PROT_WRITE, 0)] *)
  MMAP : Z -> M Z;
  (* [MORECORE (increment)]; the increment is a [ptrdiff_t] *)
  MORECORE : Z -> M Z;
  __after_morecore_hook : option (M unit);
  heap_for_ptr : Z -> Z;
  off_heap_ar_ptr : Z;
  off_heap_prev : Z;
  off_heap_size : Z;
  sizeof_heap_info : Z;
  (* the value of [av] *)
  arena_address : Z;
  (* [grow_heap (h, diff)], [diff] a [long] *)
  grow_heap : Z -> Z -> M Z;
  (* [new_heap (size, top_pad)] *)
  new_heap : Z -> Z -> M Z;
  (* [heap_trim (heap_for_ptr (top (av)), pad)], after the assertion that
     the heap belongs to the arena *)
  heap_trim : Z -> M Z;
  (* the distance from [oldtop] to the end of the accessible part of its
     heap: [heap + heap->mprotect_size - oldtop], for
     [heap = heap_for_ptr (oldtop)] *)
  heap_room : Z -> M Z;
  __memalign_hook : option (Z -> Z -> M Z);
  ptmalloc_init : M unit
}.

(** The variables of the process that [state] does not carry: further
    fields of [mp_] and of the arena, and [__malloc_initialized]. *)
Record globals : Type := Build_globals {
  top_pad : Z;
  n_mmaps_max : Z;
  arena_test : Z;
  arena_max : Z;
  tcache_max_bytes : Z;
  sbrk_base : Z;
  max_system_mem : Z;
  __malloc_initialized : Z
}.

Definition lnot32 (x : Z) : Z := wrap32 (Z.lnot x).

(** *** [malloc_consolidate] *)

(** Link the coalesced chunk [p] of size [size] in at the head of the
    unsorted bin, as [malloc_consolidate] does. *)
Definition consolidate_into_unsorted (unsorted_bin p size : Z) : M unit :=
  do first_unsorted <- rd (unsorted_bin + off_fd);
  do _ <- wr (unsorted_bin + off_fd) p;
  do _ <- wr (first_unsorted + off_bk) p;
  do _ <- (if negb (in_smallbin_range size)
           then do _ <- wr (p + off_fd_nextsize) NULL;
                wr (p + off_bk_nextsize) NULL
           else ret tt);
  do _ <- modify (fun s => set_mem s (set_head (mem s) p (Z.lor size PREV_INUSE)));
  do _ <- wr (p + off_bk) unsorted_bin;
  do _ <- wr (p + off_fd) first_unsorted;
  modify (fun s => set_mem s (set_foot (mem s) p size)).

(** One pass through the body of the inner [do ... while] loop, for the
    chunk [p] of the fast bin number [fb]; yields [nextp]. *)
Definition consolidate_chunk (unsorted_bin fb p : Z) : M Z :=
  do s <- get;
  if negb (fastbin_index (chunksize (mem s) p) =? fb)
  then malloc_printerr "malloc_consolidate(): invalid chunk size"
  else
    do nextp <- rd (p + off_fd);
    let size := chunksize (mem s) p in
    let nextchunk := chunk_at_offset p size in
    let nextsize := chunksize (mem s) nextchunk in
    do ps <- (if prev_inuse (mem s) p =? 0 then
                let prevsize := prev_size (mem s) p in
                let size := wrap (size + prevsize) in
                let p := chunk_at_offset p (- prevsize) in
                if negb (chunksize (mem s) p =? prevsize)
                then malloc_printerr "corrupted size vs. prev_size in fastbins"
                else do _ <- unlink_chunk p; ret (p, size)
              else ret (p, size));
    let p := fst ps in
    let size := snd ps in
    do s1 <- get;
    do _ <- (if negb (nextchunk =? top (av s1)) then
               do size <- (if inuse_bit_at_offset (mem s1) nextchunk nextsize =? 0
                           then do _ <- unlink_chunk nextchunk;
                                ret (wrap (size + nextsize))
                           else do _ <- modify (fun s => set_mem s
                                          (clear_inuse_bit_at_offset (mem s) nextchunk 0));
                                ret size);
               consolidate_into_unsorted unsorted_bin p size
             else
               let size := wrap (size + nextsize) in
               do _ <- modify (fun s => set_mem s
                         (set_head (mem s) p (Z.lor size PREV_INUSE)));
               modify (fun s => set_av s (set_top (av s) p)));
    ret nextp.

(** [do { ... } while ((p = nextp) != 0)]. *)
Fixpoint consolidate_chain (fuel : nat) (unsorted_bin fb p : Z) : M unit :=
  do nextp <- consolidate_chunk unsorted_bin fb p;
  if negb (nextp =? 0) then
    match fuel with
    | O => out_of_fuel
    | S f => consolidate_chain f unsorted_bin fb nextp
    end
  else ret tt.

(** [do { ... } while (fb++ != maxfb)], for the [n] fast bins from [fb]
    on. *)
Fixpoint consolidate_bins (fuel : nat) (n : nat) (unsorted_bin fb : Z)
  : M unit :=
  match n with
  | O => ret tt
  | S k =>
      do s <- get;
      let p := nth_z (fastbinsY (av s)) fb in
      do _ <- modify (fun s => set_av s (set_fastbinsY (av s)
                                (upd_z (fastbinsY (av s)) fb NULL)));
      do _ <- (if negb (p =? 0)
               then consolidate_chain fuel unsorted_bin fb p
               else ret tt);
      consolidate_bins fuel k unsorted_bin (fb + 1)
  end.

(** [malloc_consolidate (av)], the function the field [malloc_consolidate]
    of [externals] stands for. *)
Definition malloc_consolidate_code (fuel : nat) : M unit :=
  do _ <- modify (fun s => set_av s (set_have_fastchunks (av s) false));
  do s <- get;
  consolidate_bins fuel (Z.to_nat NFASTBINS) (unsorted_chunks (av s)) 0.

(** *** [systrim] *)

(** The call of [__after_morecore_hook], when one is installed. *)
Definition call_after_morecore_hook (Y : sysdeps) : M unit :=
  match __after_morecore_hook Y with
  | Some hook => hook
  | None => ret tt
  end.

(** [top_size], [top_area], [extra] and [released] are [long]; the test
    [top_area <= pad] compares with a [size_t] and is unsigned. *)
Definition systrim_code (Y : sysdeps) (pad : Z) : M Z :=
  do s <- get;
  let pagesize := dl_pagesize s in
  let top_size := chunksize (mem s) (top (av s)) in
  let top_area := wrap (top_size - MINSIZE - 1) in
  if top_area <=? pad then ret 0
  else
    let extra := ALIGN_DOWN (wrap (top_area - pad)) pagesize in
    if extra =? 0 then ret 0
    else
      do current_brk <- MORECORE Y 0;
      do s1 <- get;
      if current_brk =? wrap (top (av s1) + top_size) then
        do _ <- MORECORE Y (signed (wrap (- extra)));
        do _ <- call_after_morecore_hook Y;
        do new_brk <- MORECORE Y 0;
        if negb (new_brk =? MORECORE_FAILURE) then
          let released := wrap (current_brk - new_brk) in
          if negb (released =? 0) then
            do _ <- modify (fun s => set_av s
                      (set_system_mem (av s) (wrap (system_mem (av s) - released))));
            do _ <- modify (fun s => set_mem s
                      (set_head (mem s) (top (av s))
                         (Z.lor (wrap (top_size - released)) PREV_INUSE)));
            ret 1
          else ret 0
        else ret 0
      else ret 0.

(** *** [_int_free]: the branch that coalesces *)

(** The four tests before the chunk is touched; yields [nextchunk] and
    [nextsize]. *)
Definition int_free_merge_checks (p size : Z) : M (Z * Z) :=
  do s <- get;
  let nextchunk := chunk_at_offset p size in
  if p =? top (av s)
  then malloc_printerr "double free or corruption (top)"
  else if contiguous (av s)
          && (wrap (top (av s) + chunksize (mem s) (top (av s))) <=? nextchunk)
  then malloc_printerr "double free or corruption (out)"
  else if prev_inuse (mem s) nextchunk =? 0
  then malloc_printerr "double free or corruption (!prev)"
  else
    let nextsize := chunksize (mem s) nextchunk in
    if (chunksize_nomask (mem s) nextchunk <=? 2 * SIZE_SZ)
       || (system_mem (av s) <=? nextsize)
    then malloc_printerr "free(): invalid next size (normal)"
    else ret (nextchunk, nextsize).

(** Place the chunk in the unsorted bin, or merge it into the top chunk;
    yields the size of the coalesced chunk. *)
Definition int_free_place (p size nextchunk nextsize : Z) : M Z :=
  do s <- get;
  if negb (nextchunk =? top (av s)) then
    do size <- (if inuse_bit_at_offset (mem s) nextchunk nextsize =? 0
                then do _ <- unlink_chunk nextchunk;
                     ret (wrap (size + nextsize))
                else do _ <- modify (fun s => set_mem s
                               (clear_inuse_bit_at_offset (mem s) nextchunk 0));
                     ret size);
    do s1 <- get;
    let bck := unsorted_chunks (av s1) in
    do fwd <- rd (bck + off_fd);
    do fwd_bk <- rd (fwd + off_bk);
    if negb (fwd_bk =? bck)
    then malloc_printerr "free(): corrupted unsorted chunks"
    else
      do _ <- wr (p + off_fd) fwd;
      do _ <- wr (p + off_bk) bck;
      do _ <- (if negb (in_smallbin_range size)
               then do _ <- wr (p + off_fd_nextsize) NULL;
                    wr (p + off_bk_nextsize) NULL
               else ret tt);
      do _ <- wr (bck + off_fd) p;
      do _ <- wr (fwd + off_bk) p;
      do _ <- modify (fun s => set_mem s (set_head (mem s) p (Z.lor size PREV_INUSE)));
      do _ <- modify (fun s => set_mem s (set_foot (mem s) p size));
      ret size
  else
    let size := wrap (size + nextsize) in
    do _ <- modify (fun s => set_mem s (set_head (mem s) p (Z.lor size PREV_INUSE)));
    do _ <- modify (fun s => set_av s (set_top (av s) p));
    ret size.

(** The branch of [_int_free] for a chunk that is neither cached nor fast
    nor mapped; the field [int_free_merge] of [externals] stands for it.
    The lock is not modelled, [have_lock] has no effect. *)
Definition int_free_merge_code (Y : sysdeps) (g : globals) (fuel : nat)
    (p size : Z) (have_lock : bool) : M unit :=
  do nn <- int_free_merge_checks p size;
  let nextchunk := fst nn in
  let nextsize := snd nn in
  do _ <- free_perturb (chunk2mem p) (wrap (size - 2 * SIZE_SZ));
  (* consolidate backward *)
  do s <- get;
  do ps <- (if prev_inuse (mem s) p =? 0 then
              let prevsize := prev_size (mem s) p in
              let size := wrap (size + prevsize) in
              let p := chunk_at_offset p (- prevsize) in
              if negb (chunksize (mem s) p =? prevsize)
              then malloc_printerr "corrupted size vs. prev_size while consolidating"
              else do _ <- unlink_chunk p; ret (p, size)
            else ret (p, size));
  let p := fst ps in
  let size := snd ps in
  do size <- int_free_place p size nextchunk nextsize;
  if FASTBIN_CONSOLIDATION_THRESHOLD <=? size then
    do s1 <- get;
    do _ <- (if have_fastchunks (av s1)
             then malloc_consolidate_code fuel else ret tt);
    do s2 <- get;
    if main (av s2) then
      if trim_threshold (mp_ s2) <=? chunksize (mem s2) (top (av s2))
      then do _ <- systrim_code Y (top_pad g); ret tt
      else ret tt
    else
      do _ <- heap_trim Y (top_pad g); ret tt
  else ret tt.

(** The environment [_int_free] runs in when [sysmalloc] calls it: the
    coalescing branch and [malloc_consolidate] are the code above, the
    hooks and [munmap] are those of [E].  [_int_free] does not reach the
    loop of [_int_malloc]; that field is a stub. *)
Definition with_merge (E : externals) (Y : sysdeps) (g : globals)
    (fuel : nat) : externals :=
  Build_externals (__malloc_hook E) (__free_hook E) (__realloc_hook E)
    (SINGLE_THREAD_P E) (HAVE_MREMAP E)
    (malloc_consolidate_code fuel)
    (fun _ _ _ => ret None)
    (int_free_merge_code Y g fuel)
    (__munmap E) (__mremap E) (malloc_check_get_size E).

(** *** [sysmalloc] *)

(** The block at the label [try_mmap]: [Some] pointer when the request was
    mapped, [None] when control falls out of the block.  The statistic
    [mp_.max_n_mmaps] is not part of [state]; the assignment to it is left
    out. *)
Definition sysmalloc_mmap (Y : sysdeps) (nb : Z) : M (option Z) :=
  do s <- get;
  let pagesize := dl_pagesize s in
  let size := if MALLOC_ALIGNMENT =? 2 * SIZE_SZ
              then ALIGN_UP (wrap (nb + SIZE_SZ)) pagesize
              else ALIGN_UP (wrap (nb + SIZE_SZ + MALLOC_ALIGN_MASK)) pagesize in
  if nb <? size then
    do mm <- MMAP Y size;
    if negb (mm =? MAP_FAILED) then
      do front_misalign <-
        (if MALLOC_ALIGNMENT =? 2 * SIZE_SZ then
           do _ <- assert (Z.land (chunk2mem mm) MALLOC_ALIGN_MASK =? 0)
                     "((INTERNAL_SIZE_T) chunk2mem (mm) & MALLOC_ALIGN_MASK) == 0";
           ret 0
         else ret (Z.land (chunk2mem mm) MALLOC_ALIGN_MASK));
      do p <-
        (if 0 <? front_misalign then
           let correction := wrap (MALLOC_ALIGNMENT - front_misalign) in
           let p := wrap (mm + correction) in
           do _ <- modify (fun s => set_mem s (set_prev_size (mem s) p correction));
           do _ <- modify (fun s => set_mem s
                     (set_head (mem s) p (Z.lor (wrap (size - correction)) IS_MMAPPED)));
           ret p
         else
           let p := mm in
           do _ <- modify (fun s => set_mem s (set_prev_size (mem s) p 0));
           do _ <- modify (fun s => set_mem s
                     (set_head (mem s) p (Z.lor size IS_MMAPPED)));
           ret p);
      do _ <- modify (fun s =>
                let sum := wrap (mmapped_mem (mp_ s) + size) in
                set_mp s
                  (Build_malloc_par (trim_threshold (mp_ s)) (mmap_threshold (mp_ s))
                     (n_mmaps (mp_ s) + 1) (no_dyn_threshold (mp_ s))
                     sum (Z.max (max_mmapped_mem (mp_ s)) sum)
                     (tcache_bins (mp_ s)) (tcache_count (mp_ s))
                     (tcache_unsorted_limit (mp_ s))));
      ret (Some (chunk2mem p))
    else ret None
  else ret None.

(** [av->system_mem += d]. *)
Definition add_system_mem (d : Z) : M unit :=
  modify (fun s => set_av s
            (set_system_mem (av s) (wrap (system_mem (av s) + d)))).

(** The main arena: ask [MORECORE] for more, or [MMAP] when it refuses,
    and adjust the top chunk.  [old_top], [old_size] and [old_end] are the
    values recorded on entry; [size] and [correction] are [long].  The
    statistic [mp_.sbrk_base] is not part of [state]; the assignment to it
    is left out. *)
Definition sysmalloc_morecore (E1 : externals) (Y : sysdeps) (g : globals)
    (fuel : nat) (nb old_top old_size old_end pagesize : Z) : M unit :=
  do s <- get;
  let size := wrap (wrap (nb + top_pad g) + MINSIZE) in
  let size := if contiguous (av s) then wrap (size - old_size) else size in
  let size := ALIGN_UP size pagesize in
  do brk <- (if 0 <? signed size then MORECORE Y (signed size)
             else ret MORECORE_FAILURE);
  do bs <-
    (if negb (brk =? MORECORE_FAILURE) then
       do _ <- call_after_morecore_hook Y;
       ret (brk, MORECORE_FAILURE, size)
     else
       do s1 <- get;
       let size := if contiguous (av s1)
                   then ALIGN_UP (wrap (size + old_size)) pagesize else size in
       let size := if size <? MMAP_AS_MORECORE_SIZE
                   then MMAP_AS_MORECORE_SIZE else size in
       if nb <? size then
         do mbrk <- MMAP Y size;
         if negb (mbrk =? MAP_FAILED) then
           do _ <- modify (fun s => set_av s (set_noncontiguous (av s)));
           ret (mbrk, wrap (mbrk + size), size)
         else ret (brk, MORECORE_FAILURE, size)
       else ret (brk, MORECORE_FAILURE, size));
  let brk := fst (fst bs) in
  let snd_brk := snd (fst bs) in
  let size := snd bs in
  if negb (brk =? MORECORE_FAILURE) then
    do _ <- add_system_mem size;
    do s2 <- get;
    if (brk =? old_end) && (snd_brk =? MORECORE_FAILURE) then
      modify (fun s => set_mem s
                (set_head (mem s) old_top
                   (Z.lor (wrap (size + old_size)) PREV_INUSE)))
    else if contiguous (av s2) && negb (old_size =? 0) && (brk <? old_end) then
      malloc_printerr "break adjusted to free malloc space"
    else
      do cas <-
        (if contiguous (av s2) then
           do _ <- (if negb (old_size =? 0)
                    then add_system_mem (wrap (brk - old_end)) else ret tt);
           let front_misalign := Z.land (chunk2mem brk) MALLOC_ALIGN_MASK in
           let correction := if 0 <? front_misalign
                             then wrap (MALLOC_ALIGNMENT - front_misalign) else 0 in
           let aligned_brk := if 0 <? front_misalign
                              then wrap (brk + correction) else brk in
           let correction := wrap (correction + old_size) in
           let end_misalign := wrap (wrap (brk + size) + correction) in
           let correction :=
             wrap (correction
                   + wrap (ALIGN_UP end_misalign pagesize - end_misalign)) in
           do _ <- assert (0 <=? signed correction) "correction >= 0";
           do snd_brk <- MORECORE Y (signed correction);
           if snd_brk =? MORECORE_FAILURE then
             do snd_brk <- MORECORE Y 0;
             ret (0, aligned_brk, snd_brk)
           else
             do _ <- call_after_morecore_hook Y;
             ret (correction, aligned_brk, snd_brk)
         else
           do aligned_brk <-
             (if MALLOC_ALIGNMENT =? 2 * SIZE_SZ then
                do _ <- assert (Z.land (chunk2mem brk) MALLOC_ALIGN_MASK =? 0)
                          "((unsigned long) chunk2mem (brk) & MALLOC_ALIGN_MASK) == 0";
                ret brk
              else
                let front_misalign := Z.land (chunk2mem brk) MALLOC_ALIGN_MASK in
                ret (if 0 <? front_misalign
                     then wrap (brk + wrap (MALLOC_ALIGNMENT - front_misalign))
                     else brk));
           do snd_brk <- (if snd_brk =? MORECORE_FAILURE
                          then MORECORE Y 0 else ret snd_brk);
           ret (0, aligned_brk, snd_brk));
      let correction := fst (fst cas) in
      let aligned_brk := snd (fst cas) in
      let snd_brk := snd cas in
      if negb (snd_brk =? MORECORE_FAILURE) then
        do _ <- modify (fun s => set_av s (set_top (av s) aligned_brk));
        do _ <- modify (fun s => set_mem s
                  (set_head (mem s) (top (av s))
                     (Z.lor (wrap (wrap (snd_brk - aligned_brk) + correction))
                            PREV_INUSE)));
        do _ <- add_system_mem correction;
        if negb (old_size =? 0) then
          let old_size := Z.land (wrap (old_size - 4 * SIZE_SZ))
                                 (lnot64 MALLOC_ALIGN_MASK) in
          do _ <- modify (fun s => set_mem s
                    (set_head (mem s) old_top (Z.lor old_size PREV_INUSE)));
          do _ <- modify (fun s => set_mem s
                    (set_head (mem s) (chunk_at_offset old_top old_size)
                       (Z.lor (2 * SIZE_SZ) PREV_INUSE)));
          do _ <- modify (fun s => set_mem s
                    (set_head (mem s)
                       (chunk_at_offset old_top (wrap (old_size + 2 * SIZE_SZ)))
                       (Z.lor (2 * SIZE_SZ) PREV_INUSE)));
          if MINSIZE <=? old_size
          then _int_free E1 fuel old_top true
          else ret tt
        else ret tt
      else ret tt
  else ret tt.

(** Another arena, the first two alternatives: extend the current heap,
    or take a new heap, set up its top chunk and release what is left of
    the old one.  [true] when one of the two was taken. *)
Definition sysmalloc_heap (E1 : externals) (Y : sysdeps) (g : globals)
    (fuel : nat) (nb old_top old_size : Z) : M bool :=
  let old_heap := heap_for_ptr Y old_top in
  do old_heap_size <- rd (old_heap + off_heap_size Y);
  let diff := wrap (wrap (MINSIZE + nb) - old_size) in
  do grown <- (if 0 <? signed diff
               then do r <- grow_heap Y old_heap (signed diff); ret (r =? 0)
               else ret false);
  if grown then
    do hsize <- rd (old_heap + off_heap_size Y);
    do _ <- add_system_mem (wrap (hsize - old_heap_size));
    do hsize <- rd (old_heap + off_heap_size Y);
    do _ <- modify (fun s => set_mem s
              (set_head (mem s) old_top
                 (Z.lor (wrap (wrap (old_heap + hsize) - old_top)) PREV_INUSE)));
    ret true
  else
    do heap <- new_heap Y (wrap (nb + wrap (MINSIZE + sizeof_heap_info Y)))
                 (top_pad g);
    if negb (heap =? 0) then
      do _ <- wr (heap + off_heap_ar_ptr Y) (arena_address Y);
      do _ <- wr (heap + off_heap_prev Y) old_heap;
      do hsize <- rd (heap + off_heap_size Y);
      do _ <- add_system_mem hsize;
      do _ <- modify (fun s => set_av s
                (set_top (av s) (chunk_at_offset heap (sizeof_heap_info Y))));
      do hsize <- rd (heap + off_heap_size Y);
      do _ <- modify (fun s => set_mem s
                (set_head (mem s) (top (av s))
                   (Z.lor (wrap (hsize - sizeof_heap_info Y)) PREV_INUSE)));
      let old_size := Z.land (wrap (old_size - MINSIZE))
                             (lnot64 MALLOC_ALIGN_MASK) in
      do _ <- modify (fun s => set_mem s
                (set_head (mem s)
                   (chunk_at_offset old_top (wrap (old_size + 2 * SIZE_SZ)))
                   (Z.lor 0 PREV_INUSE)));
      do _ <-
        (if MINSIZE <=? old_size then
           do _ <- modify (fun s => set_mem s
                     (set_head (mem s) (chunk_at_offset old_top old_size)
                        (Z.lor (2 * SIZE_SZ) PREV_INUSE)));
           do _ <- modify (fun s => set_mem s
                     (set_foot (mem s) (chunk_at_offset old_top old_size)
                        (2 * SIZE_SZ)));
           do _ <- modify (fun s => set_mem s
                     (set_head (mem s) old_top
                        (Z.lor (Z.lor old_size PREV_INUSE) NON_MAIN_ARENA)));
           _int_free E1 fuel old_top true
         else
           do _ <- modify (fun s => set_mem s
                     (set_head (mem s) old_top
                        (Z.lor (wrap (old_size + 2 * SIZE_SZ)) PREV_INUSE)));
           modify (fun s => set_mem s
                     (set_foot (mem s) old_top (wrap (old_size + 2 * SIZE_SZ)))));
      ret true
    else ret false.

(** [finally, do the allocation]: cut the request from the top chunk, or
    fail with [ENOMEM].  The statistic [av->max_system_mem] is not part of
    [state]; the assignment to it is left out. *)
Definition sysmalloc_finish (nb : Z) : M Z :=
  do s <- get;
  let p := top (av s) in
  let size := chunksize (mem s) p in
  if wrap (nb + MINSIZE) <=? size then
    let remainder_size := wrap (size - nb) in
    let remainder := chunk_at_offset p nb in
    do _ <- modify (fun s => set_av s (set_top (av s) remainder));
    do _ <- modify (fun s => set_mem s
              (set_head (mem s) p
                 (Z.lor (Z.lor nb PREV_INUSE)
                        (if negb (main (av s)) then NON_MAIN_ARENA else 0))));
    do _ <- modify (fun s => set_mem s
              (set_head (mem s) remainder (Z.lor remainder_size PREV_INUSE)));
    ret (chunk2mem p)
  else
    do _ <- modify (fun s => set_errno s ENOMEM);
    ret 0.

(** From [Record incoming configuration of top] to the end.  The jump
    [goto try_mmap] of an arena other than the main one, taken once at
    most since it sets [tried_mmap], runs the block at the label and, when
    control falls out of it, this part again; [k] bounds the jumps. *)
Fixpoint sysmalloc_arena (E1 : externals) (Y : sysdeps) (g : globals)
    (fuel : nat) (k : nat) (tried_mmap : bool) (nb : Z) : M Z :=
  do s <- get;
  let pagesize := dl_pagesize s in
  let old_top := top (av s) in
  let old_size := chunksize (mem s) old_top in
  let old_end := chunk_at_offset old_top old_size in
  do _ <- assert (((old_top =? initial_top (av s)) && (old_size =? 0))
                  || ((MINSIZE <=? old_size)
                      && negb (prev_inuse (mem s) old_top =? 0)
                      && (Z.land old_end (wrap (pagesize - 1)) =? 0)))
            "(old_top == initial_top (av) && old_size == 0) || ((unsigned long) (old_size) >= MINSIZE && prev_inuse (old_top) && ((unsigned long) old_end & (pagesize - 1)) == 0)";
  do _ <- assert (old_size <? wrap (nb + MINSIZE))
            "(unsigned long) (old_size) < (unsigned long) (nb + MINSIZE)";
  if negb (main (av s)) then
    do taken <- sysmalloc_heap E1 Y g fuel nb old_top old_size;
    if taken then sysmalloc_finish nb
    else if negb tried_mmap then
      match k with
      | O => out_of_fuel
      | S k' =>
          do m <- sysmalloc_mmap Y nb;
          match m with
          | Some p => ret p
          | None => sysmalloc_arena E1 Y g fuel k' true nb
          end
      end
    else sysmalloc_finish nb
  else
    do _ <- sysmalloc_morecore E1 Y g fuel nb old_top old_size old_end pagesize;
    sysmalloc_finish nb.

(** The arena is present ([av != NULL]). *)
Definition sysmalloc_code (E1 : externals) (Y : sysdeps) (g : globals)
    (fuel : nat) (nb : Z) : M Z :=
  do s <- get;
  if (mmap_threshold (mp_ s) <=? nb) && (n_mmaps (mp_ s) <? n_mmaps_max g) then
    do m <- sysmalloc_mmap Y nb;
    match m with
    | Some p => ret p
    | None => sysmalloc_arena E1 Y g fuel 1 true nb
    end
  else sysmalloc_arena E1 Y g fuel 1 false nb.

(** *** [_int_malloc]: the search of the bins and the top chunk *)

(** What follows [unlink_chunk (av, victim)] in the two searches: use the
    whole chunk, or split it and put the remainder into the unsorted bin.
    [msg] is the message of the check on the unsorted bin; with
    [advertise] the remainder of a small request becomes the last
    remainder (the second search does so, the first does not). *)
Definition take_or_split (victim size nb bytes : Z) (msg : string)
    (advertise : bool) : M Z :=
  let remainder_size := wrap (size - nb) in
  do s <- get;
  do _ <-
    (if remainder_size <? MINSIZE then
       do _ <- modify (fun s => set_mem s (set_inuse_bit_at_offset (mem s) victim size));
       if negb (main (av s))
       then modify (fun s => set_mem s (set_non_main_arena (mem s) victim))
       else ret tt
     else
       let remainder := chunk_at_offset victim nb in
       let bck := unsorted_chunks (av s) in
       do fwd <- rd (bck + off_fd);
       do fwd_bk <- rd (fwd + off_bk);
       if negb (fwd_bk =? bck) then malloc_printerr msg
       else
         do _ <- wr (remainder + off_bk) bck;
         do _ <- wr (remainder + off_fd) fwd;
         do _ <- wr (bck + off_fd) remainder;
         do _ <- wr (fwd + off_bk) remainder;
         do _ <- (if advertise && in_smallbin_range nb
                  then modify (fun s => set_av s (set_last_remainder (av s) remainder))
                  else ret tt);
         do _ <- (if negb (in_smallbin_range remainder_size)
                  then do _ <- wr (remainder + off_fd_nextsize) NULL;
                       wr (remainder + off_bk_nextsize) NULL
                  else ret tt);
         do _ <- modify (fun s => set_mem s
                   (set_head (mem s) victim
                      (Z.lor (Z.lor nb PREV_INUSE)
                             (if negb (main (av s)) then NON_MAIN_ARENA else 0))));
         do _ <- modify (fun s => set_mem s
                   (set_head (mem s) remainder (Z.lor remainder_size PREV_INUSE)));
         modify (fun s => set_mem s (set_foot (mem s) remainder remainder_size)));
  let p := chunk2mem victim in
  do _ <- alloc_perturb p bytes;
  ret p.

(** [while ((size = chunksize (victim)) < nb) victim = victim->bk_nextsize;]
    yields [victim] and [size]. *)
Fixpoint largebin_walk (fuel : nat) (nb victim : Z) : M (Z * Z) :=
  do s <- get;
  let size := chunksize (mem s) victim in
  if size <? nb then
    match fuel with
    | O => out_of_fuel
    | S f =>
        do v <- rd (victim + off_bk_nextsize);
        largebin_walk f nb v
    end
  else ret (victim, size).

(** The best fit in the large bin of the request. *)
Definition largebin_fit (fuel : nat) (nb bytes idx : Z) : M (option Z) :=
  do s <- get;
  let bin := bin_at (av s) idx in
  let victim := first (mem s) bin in
  if negb (victim =? bin) && (nb <=? chunksize_nomask (mem s) victim) then
    do v <- rd (victim + off_bk_nextsize);
    do vs <- largebin_walk fuel nb v;
    let victim := fst vs in
    let size := snd vs in
    do s1 <- get;
    let vfd := load (mem s1) (victim + off_fd) in
    let victim :=
      if negb (victim =? last (mem s1) bin)
         && (chunksize_nomask (mem s1) victim =? chunksize_nomask (mem s1) vfd)
      then vfd else victim in
    do _ <- unlink_chunk victim;
    do p <- take_or_split victim size nb bytes
              "malloc(): corrupted unsorted chunks" false;
    ret (Some p)
  else ret None.

(** [do { if (++block >= BINMAPSIZE) goto use_top; }
     while ((map = av->binmap[block]) == 0);]
    yields the block and its map, or [None] for the jump to [use_top]. *)
Fixpoint next_block (fuel : nat) (block : Z) : M (option (Z * Z)) :=
  let block := wrap32 (block + 1) in
  if BINMAPSIZE <=? block then ret None
  else
    do s <- get;
    let map := nth_z (binmap (av s)) block in
    if map =? 0 then
      match fuel with
      | O => out_of_fuel
      | S f => next_block f block
      end
    else ret (Some (block, map)).

(** [while ((bit & map) == 0) { bin = next_bin (bin); bit <<= 1;
     assert (bit != 0); }] *)
Fixpoint advance_bit (fuel : nat) (bin bit map : Z) : M (Z * Z) :=
  if Z.land bit map =? 0 then
    match fuel with
    | O => out_of_fuel
    | S f =>
        let bin := next_bin bin in
        let bit := wrap32 (Z.shiftl bit 1) in
        do _ <- assert (negb (bit =? 0)) "bit != 0";
        advance_bit f bin bit map
    end
  else ret (bin, bit).

(** The [for (;;)] loop over the binmap; [None] stands for the jump to
    [use_top]. *)
Fixpoint binmap_scan (fuel : nat) (nb bytes : Z) (bin block map bit : Z)
  : M (option Z) :=
  do r <- (if (map <? bit) || (bit =? 0) then
             do b <- next_block fuel block;
             match b with
             | None => ret None
             | Some bm =>
                 do s <- get;
                 ret (Some (bin_at (av s) (Z.shiftl (fst bm) BINMAPSHIFT),
                            fst bm, snd bm, 1))
             end
           else ret (Some (bin, block, map, bit)));
  match r with
  | None => ret None
  | Some (bin, block, map, bit) =>
      do bb <- advance_bit fuel bin bit map;
      let bin := fst bb in
      let bit := snd bb in
      do victim <- rd (bin + off_bk);
      if victim =? bin then
        (* a false alarm: clear the bit *)
        let map := Z.land map (lnot32 bit) in
        do _ <- modify (fun s => set_av s (set_binmap (av s)
                                  (upd_z (binmap (av s)) block map)));
        match fuel with
        | O => out_of_fuel
        | S f => binmap_scan f nb bytes (next_bin bin) block map
                   (wrap32 (Z.shiftl bit 1))
        end
      else
        do s <- get;
        let size := chunksize (mem s) victim in
        do _ <- assert (nb <=? size)
                  "(unsigned long) (size) >= (unsigned long) (nb)";
        do _ <- unlink_chunk victim;
        do p <- take_or_split victim size nb bytes
                  "malloc(): corrupted unsorted chunks 2" true;
        ret (Some p)
  end.

(** [use_top]: split the top chunk, or consolidate and go around (the
    answer is then [None]), or ask the system. *)
Definition use_top (E : externals) (Y : sysdeps) (g : globals) (fuel : nat)
    (nb bytes : Z) : M (option Z) :=
  do s <- get;
  let victim := top (av s) in
  let size := chunksize (mem s) victim in
  if system_mem (av s) <? size
  then malloc_printerr "malloc(): corrupted top size"
  else if wrap (nb + MINSIZE) <=? size then
    let remainder_size := wrap (size - nb) in
    let remainder := chunk_at_offset victim nb in
    do _ <- modify (fun s => set_av s (set_top (av s) remainder));
    do _ <- modify (fun s => set_mem s
              (set_head (mem s) victim
                 (Z.lor (Z.lor nb PREV_INUSE)
                        (if negb (main (av s)) then NON_MAIN_ARENA else 0))));
    do _ <- modify (fun s => set_mem s
              (set_head (mem s) remainder (Z.lor remainder_size PREV_INUSE)));
    let p := chunk2mem victim in
    do _ <- alloc_perturb p bytes;
    ret (Some p)
  else if have_fastchunks (av s) then
    do _ <- malloc_consolidate_code fuel;
    ret None
  else
    do p <- sysmalloc_code (with_merge E Y g fuel) Y g fuel nb;
    do _ <- (if negb (p =? NULL) then alloc_perturb p bytes else ret tt);
    ret (Some p).

(** The rest of the body of the [for (;;)] loop of [_int_malloc]; the field
    [int_malloc_bins] of [externals] stands for it. *)
Definition int_malloc_bins_code (E : externals) (Y : sysdeps) (g : globals)
    (fuel : nat) (nb bytes idx : Z) : M (option Z) :=
  do r <- (if negb (in_smallbin_range nb)
           then largebin_fit fuel nb bytes idx
           else ret None);
  match r with
  | Some p => ret (Some p)
  | None =>
      let idx := wrap32 (idx + 1) in
      do s <- get;
      let bin := bin_at (av s) idx in
      let block := idx2block idx in
      let map := nth_z (binmap (av s)) block in
      let bit := idx2bit idx in
      do r <- binmap_scan fuel nb bytes bin block map bit;
      match r with
      | Some p => ret (Some p)
      | None => use_top E Y g fuel nb bytes
      end
  end.

(** The environment in which the three parts are the code above; the hooks,
    the thread mode, [munmap] and [mremap] stay those of [E]. *)
Definition with_engine (E : externals) (Y : sysdeps) (g : globals)
    (fuel : nat) : externals :=
  Build_externals (__malloc_hook E) (__free_hook E) (__realloc_hook E)
    (SINGLE_THREAD_P E) (HAVE_MREMAP E)
    (malloc_consolidate_code fuel)
    (int_malloc_bins_code E Y g fuel)
    (int_free_merge_code Y g fuel)
    (__munmap E) (__mremap E) (malloc_check_get_size E).
(** ** The other entry points *)

(** Modelled from the spec: [EINVAL] comes from errno.h, which is not part
    of the source at hand; the value is the one of Linux.  The aligned
    allocation reports it for an alignment above the ceiling. *)
Definition EINVAL : Z := 22.

Definition set_tcache_shutting_down (s : state) (b : bool) : state :=
  Build_state (mem s) (av s) (mp_ s) (tcache s) (tcache_data s)
    b (perturb_byte s) (global_max_fast s) (errno s)
    (dumped_main_arena_start s) (dumped_main_arena_end s)
    (using_malloc_checking s) (dl_pagesize s).

Definition set_perturb_byte (s : state) (v : Z) : state :=
  Build_state (mem s) (av s) (mp_ s) (tcache s) (tcache_data s)
    (tcache_shutting_down s) v (global_max_fast s) (errno s)
    (dumped_main_arena_start s) (dumped_main_arena_end s)
    (using_malloc_checking s) (dl_pagesize s).

(** *** [malloc_init_state] *)

(** [for (i = 1; i < NBINS; ++i) { bin = bin_at (av, i);
     bin->fd = bin->bk = bin; }], for the [n] bins from [i] on. *)
Fixpoint init_bins_loop (n : nat) (i : Z) : M unit :=
  match n with
  | O => ret tt
  | S k =>
      do s <- get;
      let bin := bin_at (av s) i in
      do _ <- wr (bin + off_bk) bin;
      do _ <- wr (bin + off_fd) bin;
      init_bins_loop k (i + 1)
  end.

(** [MORECORE_CONTIGUOUS] is 1: only an arena other than the main one is
    marked non-contiguous. *)
Definition malloc_init_state : M unit :=
  do _ <- init_bins_loop (Z.to_nat (NBINS - 1)) 1;
  do s <- get;
  do _ <- (if negb (main (av s))
           then modify (fun s => set_av s (set_noncontiguous (av s)))
           else ret tt);
  do _ <- (if main (av s)
           then modify (set_max_fast DEFAULT_MXFAST)
           else ret tt);
  do _ <- modify (fun s => set_av s (set_have_fastchunks (av s) false));
  modify (fun s => set_av s (set_top (av s) (initial_top (av s)))).

(** *** [tcache_thread_shutdown] *)

(** [while (tcache_tmp->entries[i]) { ... }]: hand the chunks of bucket [i]
    to [__libc_free], one by one.  The structure [*tcache_tmp] is
    [tcache_data]. *)
Fixpoint shutdown_bucket (E : externals) (fuel : nat) (i : Z) : M unit :=
  do s <- get;
  let e := nth_z (entries (tcache_data s)) i in
  if negb (e =? NULL) then
    match fuel with
    | O => out_of_fuel
    | S f =>
        do next <- rd e;
        do _ <- modify (fun s => set_tcache s (tcache s)
                  (Build_tcache (counts (tcache_data s))
                                (upd_z (entries (tcache_data s)) i next)));
        do _ <- __libc_free E (S f) e;
        shutdown_bucket E f i
    end
  else ret tt.

(** [for (i = 0; i < TCACHE_MAX_BINS; ++i)], for the [n] buckets from [i]
    on. *)
Fixpoint shutdown_buckets (E : externals) (fuel : nat) (n : nat) (i : Z)
  : M unit :=
  match n with
  | O => ret tt
  | S k =>
      do _ <- shutdown_bucket E fuel i;
      shutdown_buckets E fuel k (i + 1)
  end.

Definition tcache_thread_shutdown (E : externals) (fuel : nat) : M unit :=
  do s <- get;
  let tcache_tmp := tcache s in
  if tcache_tmp =? NULL then ret tt
  else
    do _ <- modify (fun s => set_tcache s NULL (tcache_data s));
    do _ <- modify (fun s => set_tcache_shutting_down s true);
    do _ <- shutdown_buckets E fuel (Z.to_nat TCACHE_MAX_BINS) 0;
    __libc_free E fuel tcache_tmp.

(** *** Aligned allocation *)

(** How the search for an aligned spot in [_int_memalign] ends: the
    function returns at once (a mapped chunk), or goes on with the chunk
    [p]. *)
Inductive align_result : Type :=
| AlignReturn (m : Z)
| AlignChunk (p : Z).

(** [alignment] is not zero: the callers pass at least [MINSIZE]. *)
Definition _int_memalign (E : externals) (fuel : nat) (alignment bytes : Z)
  : M Z :=
  match checked_request2size bytes with
  | None => do _ <- modify (fun s => set_errno s ENOMEM); ret NULL
  | Some nb =>
      do m <- _int_malloc E fuel (wrap (nb + alignment + MINSIZE));
      if m =? 0 then ret 0
      else
        let p := mem2chunk m in
        do s0 <- get;
        let arena_bit := if negb (main (av s0)) then NON_MAIN_ARENA else 0 in
        do r <-
          (if negb (m mod alignment =? 0) then
             let brk := mem2chunk (Z.land (wrap (m + alignment - 1))
                                          (wrap (- alignment))) in
             let brk := if wrap (brk - p) <? MINSIZE
                        then wrap (brk + alignment) else brk in
             let newp := brk in
             let leadsize := wrap (brk - p) in
             do s <- get;
             let newsize := wrap (chunksize (mem s) p - leadsize) in
             if negb (chunk_is_mmapped (mem s) p =? 0) then
               do _ <- modify (fun s => set_mem s
                         (set_prev_size (mem s) newp
                            (wrap (prev_size (mem s) p + leadsize))));
               do _ <- modify (fun s => set_mem s
                         (set_head (mem s) newp (Z.lor newsize IS_MMAPPED)));
               ret (AlignReturn (chunk2mem newp))
             else
               do _ <- modify (fun s => set_mem s
                         (set_head (mem s) newp
                            (Z.lor (Z.lor newsize PREV_INUSE) arena_bit)));
               do _ <- modify (fun s => set_mem s
                         (set_inuse_bit_at_offset (mem s) newp newsize));
               do _ <- modify (fun s => set_mem s
                         (set_head_size (mem s) p (Z.lor leadsize arena_bit)));
               do _ <- _int_free E fuel p true;
               let p := newp in
               do _ <- assert ((nb <=? newsize)
                               && (chunk2mem p mod alignment =? 0))
                         "newsize >= nb && (((unsigned long) (chunk2mem (p))) % alignment) == 0";
               ret (AlignChunk p)
           else ret (AlignChunk p));
        match r with
        | AlignReturn m' => ret m'
        | AlignChunk p =>
            do s <- get;
            do _ <-
              (if chunk_is_mmapped (mem s) p =? 0 then
                 let size := chunksize (mem s) p in
                 if wrap (nb + MINSIZE) <? size then
                   let remainder_size := wrap (size - nb) in
                   let remainder := chunk_at_offset p nb in
                   do _ <- modify (fun s => set_mem s
                             (set_head (mem s) remainder
                                (Z.lor (Z.lor remainder_size PREV_INUSE)
                                       arena_bit)));
                   do _ <- modify (fun s => set_mem s
                             (set_head_size (mem s) p nb));
                   _int_free E fuel remainder true
                 else ret tt
               else ret tt);
            ret (chunk2mem p)
        end
  end.

(** [while (a < alignment) a <<= 1;] *)
Fixpoint round_alignment (fuel : nat) (a alignment : Z) : M Z :=
  if a <? alignment then
    match fuel with
    | O => out_of_fuel
    | S f => round_alignment f (wrap (Z.shiftl a 1)) alignment
    end
  else ret a.

(** The arena is the one of the state; the second attempt on another arena
    is not part of the model. *)
Definition _mid_memalign (E : externals) (Y : sysdeps) (fuel : nat)
    (alignment bytes : Z) : M Z :=
  match __memalign_hook Y with
  | Some hook => hook alignment bytes
  | None =>
      if alignment <=? MALLOC_ALIGNMENT then __libc_malloc E fuel bytes
      else
        let alignment := if alignment <? MINSIZE then MINSIZE else alignment in
        if SIZE_MAX / 2 + 1 <? alignment
        then do _ <- modify (fun s => set_errno s EINVAL); ret 0
        else
          do alignment <- (if negb (powerof2 alignment)
                           then round_alignment fuel (MALLOC_ALIGNMENT * 2) alignment
                           else ret alignment);
          do p <- _int_memalign E fuel alignment bytes;
          do s <- get;
          do _ <- assert ((p =? NULL)
                          || negb (chunk_is_mmapped (mem s) (mem2chunk p) =? 0)
                          || eqb (chunk_main_arena (mem s) (mem2chunk p))
                                 (main (av s)))
                    "!p || chunk_is_mmapped (mem2chunk (p)) || ar_ptr == arena_for_chunk (mem2chunk (p))";
          ret p
  end.

Definition __libc_memalign (E : externals) (Y : sysdeps) (fuel : nat)
    (alignment bytes : Z) : M Z :=
  _mid_memalign E Y fuel alignment bytes.

Definition __libc_valloc (E : externals) (Y : sysdeps) (g : globals)
    (fuel : nat) (bytes : Z) : M Z :=
  do _ <- (if __malloc_initialized g <? 0 then ptmalloc_init Y else ret tt);
  do s <- get;
  _mid_memalign E Y fuel (dl_pagesize s) bytes.

(** The size [__libc_pvalloc] asks for: [bytes + (pagesize - 1)], then
    [& -(pagesize - 1)]; [None] when the addition overflows. *)
Definition pvalloc_rounded (pagesize bytes : Z) : option Z :=
  let rounded_bytes := bytes + wrap (pagesize - 1) in
  if SIZE_MAX <? rounded_bytes then None
  else Some (Z.land rounded_bytes (wrap (- wrap (pagesize - 1)))).

Definition __libc_pvalloc (E : externals) (Y : sysdeps) (g : globals)
    (fuel : nat) (bytes : Z) : M Z :=
  do _ <- (if __malloc_initialized g <? 0 then ptmalloc_init Y else ret tt);
  do s <- get;
  let pagesize := dl_pagesize s in
  match pvalloc_rounded pagesize bytes with
  | None => do _ <- modify (fun s => set_errno s ENOMEM); ret 0
  | Some rounded_bytes => _mid_memalign E Y fuel pagesize rounded_bytes
  end.

(** The size of a pointer is [SIZE_SZ] on the platform at hand.  The result is
    the [int] the function returns; the pointer goes to [*memptr]. *)
Definition __posix_memalign (E : externals) (Y : sysdeps) (fuel : nat)
    (memptr alignment size : Z) : M Z :=
  if negb (alignment mod SIZE_SZ =? 0)
     || negb (powerof2 (alignment / SIZE_SZ))
     || (alignment =? 0)
  then ret EINVAL
  else
    do mem_ <- _mid_memalign E Y fuel alignment size;
    if negb (mem_ =? NULL) then
      do _ <- wr memptr mem_;
      ret 0
    else ret ENOMEM.

(** *** [__libc_calloc] *)

(** The words [d[0]] to [d[8]] that the unrolled clearing writes, for
    [nclears] words to clear. *)
Definition calloc_clear_words (m : gmap Z Z) (d nclears : Z) : gmap Z Z :=
  let m := store (store (store m d 0) (d + 8) 0) (d + 16) 0 in
  if 4 <? nclears then
    let m := store (store m (d + 24) 0) (d + 32) 0 in
    if 6 <? nclears then
      let m := store (store m (d + 40) 0) (d + 48) 0 in
      if 8 <? nclears then store (store m (d + 56) 0) (d + 64) 0
      else m
    else m
  else m.

(** [MORECORE_CLEARS] is 1.  The arena is present; the retry on another
    arena is not part of the model. *)
Definition __libc_calloc (E : externals) (Y : sysdeps) (g : globals)
    (fuel : nat) (n elem_size : Z) : M Z :=
  (* [__builtin_mul_overflow (n, elem_size, &bytes)], [bytes] a [ptrdiff_t] *)
  if PTRDIFF_MAX <? n * elem_size
  then do _ <- modify (fun s => set_errno s ENOMEM); ret NULL
  else
    let sz := n * elem_size in
    match __malloc_hook E with
    | Some hook =>
        do mem_ <- hook sz;
        if mem_ =? 0 then ret 0
        else
          do _ <- modify (fun s => set_mem s (memset (mem s) mem_ 0 sz));
          ret mem_
    | None =>
        do _ <- MAYBE_INIT_TCACHE E fuel;
        do s <- get;
        let oldtop := top (av s) in
        let oldtopsize := chunksize (mem s) (top (av s)) in
        let oldtopsize :=
          if main (av s)
             && (oldtopsize <? wrap (sbrk_base g + max_system_mem g - oldtop))
          then wrap (sbrk_base g + max_system_mem g - oldtop)
          else oldtopsize in
        do oldtopsize <-
          (if negb (main (av s)) then
             do room <- heap_room Y oldtop;
             ret (if oldtopsize <? room then room else oldtopsize)
           else ret oldtopsize);
        do mem_ <- _int_malloc E fuel sz;
        do s1 <- get;
        do _ <- assert ((mem_ =? NULL)
                        || negb (chunk_is_mmapped (mem s1) (mem2chunk mem_) =? 0)
                        || eqb (chunk_main_arena (mem s1) (mem2chunk mem_))
                               (main (av s1)))
                  "!mem || chunk_is_mmapped (mem2chunk (mem)) || av == arena_for_chunk (mem2chunk (mem))";
        if mem_ =? 0 then ret 0
        else
          let p := mem2chunk mem_ in
          if negb (chunk_is_mmapped (mem s1) p =? 0) then
            if negb (perturb_byte s1 =? 0) then
              do _ <- modify (fun s => set_mem s (memset (mem s) mem_ 0 sz));
              ret mem_
            else ret mem_
          else
            let csz := chunksize (mem s1) p in
            let csz := if (perturb_byte s1 =? 0)
                          && ((p =? oldtop) && (oldtopsize <? csz))
                       then oldtopsize else csz in
            let d := mem_ in
            let clearsize := wrap (csz - SIZE_SZ) in
            let nclears := clearsize / 8 in
            do _ <- assert (3 <=? nclears) "nclears >= 3";
            if 9 <? nclears then
              do _ <- modify (fun s => set_mem s (memset (mem s) d 0 clearsize));
              ret mem_
            else
              do _ <- modify (fun s => set_mem s
                        (calloc_clear_words (mem s) d nclears));
              ret mem_
    end.

(** *** [mallopt] and the tunables *)

Definition M_MXFAST : Z := 1.
Definition M_TRIM_THRESHOLD : Z := -1.
Definition M_TOP_PAD : Z := -2.
Definition M_MMAP_THRESHOLD : Z := -3.
Definition M_MMAP_MAX : Z := -4.

(** Modelled from the spec: the parameter numbers [M_CHECK_ACTION] to
    [M_ARENA_MAX] come from malloc.h and [HEAP_MAX_SIZE] from arena.c,
    neither of which is part of the source at hand; the values are those
    of the library on the 64-bit platform. *)
Definition M_CHECK_ACTION : Z := -5.
Definition M_PERTURB : Z := -6.
Definition M_ARENA_TEST : Z := -7.
Definition M_ARENA_MAX : Z := -8.
Definition HEAP_MAX_SIZE : Z := 2 * DEFAULT_MMAP_THRESHOLD_MAX.

Definition set_top_pad (g : globals) (v : Z) : globals :=
  Build_globals v (n_mmaps_max g) (arena_test g) (arena_max g)
    (tcache_max_bytes g) (sbrk_base g) (max_system_mem g)
    (__malloc_initialized g).
Definition set_n_mmaps_max (g : globals) (v : Z) : globals :=
  Build_globals (top_pad g) v (arena_test g) (arena_max g)
    (tcache_max_bytes g) (sbrk_base g) (max_system_mem g)
    (__malloc_initialized g).
Definition set_arena_test (g : globals) (v : Z) : globals :=
  Build_globals (top_pad g) (n_mmaps_max g) v (arena_max g)
    (tcache_max_bytes g) (sbrk_base g) (max_system_mem g)
    (__malloc_initialized g).
Definition set_arena_max (g : globals) (v : Z) : globals :=
  Build_globals (top_pad g) (n_mmaps_max g) (arena_test g) v
    (tcache_max_bytes g) (sbrk_base g) (max_system_mem g)
    (__malloc_initialized g).
Definition set_tcache_max_bytes (g : globals) (v : Z) : globals :=
  Build_globals (top_pad g) (n_mmaps_max g) (arena_test g) (arena_max g)
    v (sbrk_base g) (max_system_mem g) (__malloc_initialized g).

Definition set_trim_threshold (p : malloc_par) (v : Z) : malloc_par :=
  Build_malloc_par v (mmap_threshold p) (n_mmaps p) (no_dyn_threshold p)
    (mmapped_mem p) (max_mmapped_mem p) (tcache_bins p) (tcache_count p)
    (tcache_unsorted_limit p).
Definition set_mmap_threshold (p : malloc_par) (v : Z) : malloc_par :=
  Build_malloc_par (trim_threshold p) v (n_mmaps p) (no_dyn_threshold p)
    (mmapped_mem p) (max_mmapped_mem p) (tcache_bins p) (tcache_count p)
    (tcache_unsorted_limit p).
Definition set_no_dyn_threshold (p : malloc_par) (v : Z) : malloc_par :=
  Build_malloc_par (trim_threshold p) (mmap_threshold p) (n_mmaps p) v
    (mmapped_mem p) (max_mmapped_mem p) (tcache_bins p) (tcache_count p)
    (tcache_unsorted_limit p).
Definition set_tcache_bins (p : malloc_par) (v : Z) : malloc_par :=
  Build_malloc_par (trim_threshold p) (mmap_threshold p) (n_mmaps p)
    (no_dyn_threshold p) (mmapped_mem p) (max_mmapped_mem p) v
    (tcache_count p) (tcache_unsorted_limit p).
Definition set_tcache_count (p : malloc_par) (v : Z) : malloc_par :=
  Build_malloc_par (trim_threshold p) (mmap_threshold p) (n_mmaps p)
    (no_dyn_threshold p) (mmapped_mem p) (max_mmapped_mem p) (tcache_bins p)
    v (tcache_unsorted_limit p).
Definition set_tcache_unsorted_limit (p : malloc_par) (v : Z) : malloc_par :=
  Build_malloc_par (trim_threshold p) (mmap_threshold p) (n_mmaps p)
    (no_dyn_threshold p) (mmapped_mem p) (max_mmapped_mem p) (tcache_bins p)
    (tcache_count p) v.

(** The helpers take the value as the C function does: a [size_t] or an
    [int32_t].  Those that write a variable outside [state] take and
    return the [globals]. *)
Definition do_set_trim_threshold (value : Z) : M Z :=
  do _ <- modify (fun s => set_mp s (set_trim_threshold (mp_ s) value));
  do _ <- modify (fun s => set_mp s (set_no_dyn_threshold (mp_ s) 1));
  ret 1.

Definition do_set_top_pad (value : Z) (g : globals) : M (Z * globals) :=
  do _ <- modify (fun s => set_mp s (set_no_dyn_threshold (mp_ s) 1));
  ret (1, set_top_pad g value).

Definition do_set_mmap_threshold (value : Z) : M Z :=
  if value <=? HEAP_MAX_SIZE / 2 then
    do _ <- modify (fun s => set_mp s (set_mmap_threshold (mp_ s) value));
    do _ <- modify (fun s => set_mp s (set_no_dyn_threshold (mp_ s) 1));
    ret 1
  else ret 0.

Definition do_set_mmaps_max (value : Z) (g : globals) : M (Z * globals) :=
  do _ <- modify (fun s => set_mp s (set_no_dyn_threshold (mp_ s) 1));
  ret (1, set_n_mmaps_max g value).

Definition do_set_mallopt_check (value : Z) : M Z := ret 1.

Definition do_set_perturb_byte (value : Z) : M Z :=
  do _ <- modify (fun s => set_perturb_byte s value);
  ret 1.

Definition do_set_arena_test (value : Z) (g : globals) : M (Z * globals) :=
  ret (1, set_arena_test g value).

Definition do_set_arena_max (value : Z) (g : globals) : M (Z * globals) :=
  ret (1, set_arena_max g value).

Definition do_set_tcache_max (value : Z) (g : globals) : M (Z * globals) :=
  if value <=? MAX_TCACHE_SIZE then
    do _ <- modify (fun s => set_mp s
              (set_tcache_bins (mp_ s)
                 (wrap (csize2tidx (request2size value) + 1))));
    ret (1, set_tcache_max_bytes g value)
  else ret (0, g).

Definition do_set_tcache_count (value : Z) : M Z :=
  if value <=? MAX_TCACHE_COUNT then
    do _ <- modify (fun s => set_mp s (set_tcache_count (mp_ s) value));
    ret 1
  else ret 0.

Definition do_set_tcache_unsorted_limit (value : Z) : M Z :=
  do _ <- modify (fun s => set_mp s (set_tcache_unsorted_limit (mp_ s) value));
  ret 1.

Definition do_set_mxfast (value : Z) : M Z :=
  if value <=? MAX_FAST_SIZE then
    do _ <- modify (set_max_fast value);
    ret 1
  else ret 0.

(** [value] is an [int]; where a helper takes a [size_t] the value is
    converted, a negative one to a large unsigned one.  The state is that
    of the main arena.  [ptmalloc_init] is outside the model and its
    effect on [__malloc_initialized] is not recorded. *)
Definition __libc_mallopt (Y : sysdeps) (fuel : nat) (param_number value : Z)
    (g : globals) : M (Z * globals) :=
  do _ <- (if __malloc_initialized g <? 0 then ptmalloc_init Y else ret tt);
  do _ <- malloc_consolidate_code fuel;
  if param_number =? M_MXFAST then
    do res <- do_set_mxfast (wrap value); ret (res, g)
  else if param_number =? M_TRIM_THRESHOLD then
    do res <- do_set_trim_threshold (wrap value); ret (res, g)
  else if param_number =? M_TOP_PAD then
    do_set_top_pad (wrap value) g
  else if param_number =? M_MMAP_THRESHOLD then
    do res <- do_set_mmap_threshold (wrap value); ret (res, g)
  else if param_number =? M_MMAP_MAX then
    do_set_mmaps_max value g
  else if param_number =? M_CHECK_ACTION then
    do res <- do_set_mallopt_check value; ret (res, g)
  else if param_number =? M_PERTURB then
    do res <- do_set_perturb_byte value; ret (res, g)
  else if param_number =? M_ARENA_TEST then
    if 0 <? value then do_set_arena_test (wrap value) g else ret (1, g)
  else if param_number =? M_ARENA_MAX then
    if 0 <? value then do_set_arena_max (wrap value) g else ret (1, g)
  else ret (1, g).
(** ** Further concrete states *)

(** A heap of three chunks in use before the top chunk: one of size
    [0x500] at [0x20000], too large for the tcache and the fast bins, one
    of size [0x100] at [0x20500], one of size [0x200] at [0x20600]; the
    top chunk, at [0x20800], has size [0x800]. *)
Definition big_chunk : Z := 0x20000.
Definition mem_big : gmap Z Z :=
  store (store (store (store mem_init
    (big_chunk + off_size) (Z.lor 0x500 PREV_INUSE))
    (big_chunk + 0x500 + off_size) (Z.lor 0x100 PREV_INUSE))
    (big_chunk + 0x600 + off_size) (Z.lor 0x200 PREV_INUSE))
    (big_chunk + 0x800 + off_size) (Z.lor 0x800 PREV_INUSE).

Definition state_big : state :=
  Build_state mem_big arena0 default_par 0x555010 empty_tcache
    false 0 128 0 0 0 0 4096.

(** The same heap with the perturb byte set to [0xAA]. *)
Definition state_big_perturb : state :=
  Build_state mem_big arena0 default_par 0x555010 empty_tcache
    false 0xAA 128 0 0 0 0 4096.

(** The same heap with a top chunk of size [0x3000], enough to cut a
    page-aligned chunk from. *)
Definition state_pages : state :=
  set_mem state_big
    (store mem_big (big_chunk + 0x800 + off_size) (Z.lor 0x3000 PREV_INUSE)).

(** A thread about to exit: the chunk at [mid_chunk], of size 48, is the
    only chunk in the tcache; the tcache structure itself is the payload of
    a chunk of size [0x290] at [0x555000], followed by a chunk in use. *)
Definition mem_thread : gmap Z Z :=
  store (store (store mem_mid
    (chunk2mem mid_chunk) 0)
    (0x555000 + off_size) (Z.lor 0x290 PREV_INUSE))
    (0x555290 + off_size) (Z.lor 0x20 PREV_INUSE).

Definition state_thread : state :=
  Build_state mem_thread arena0 default_par 0x555010
    (Build_tcache (0 :: 1 :: replicate 62 0)
                  (0 :: chunk2mem mid_chunk :: replicate 62 0))
    false 0 128 0 0 0 0 4096.
(** ** Conditions on a state, used in the statements of the properties *)

(** The chunk behind the pointer [mem_] is one a release puts into the
    tcache: it is not page-mapped, it passes the checks at the head of
    [_int_free], the tcache exists, the size class of the chunk has a bucket
    and the bucket has room, and the chunk does not carry the mark of a
    cached chunk. *)
Definition tcache_takes (s : state) (mem_ : Z) : Prop :=
  let p := mem2chunk mem_ in
  let size := chunksize (mem s) p in
  let tc_idx := csize2tidx size in
  2 * SIZE_SZ <= mem_ < 2 ^ 64
  /\ chunk_is_mmapped (mem s) p = 0
  /\ p + size <= 2 ^ 64
  /\ misaligned_chunk p = 0
  /\ MINSIZE <= size
  /\ size mod MALLOC_ALIGNMENT = 0
  /\ 0 < tcache s < 2 ^ 64
  /\ tc_idx < tcache_bins (mp_ s)
  /\ in_array (counts (tcache_data s)) tc_idx = true
  /\ in_array (entries (tcache_data s)) tc_idx = true
  /\ load (mem s) (mem_ + 8) <> tcache s
  /\ 0 <= nth_z (counts (tcache_data s)) tc_idx < tcache_count (mp_ s)
  /\ tcache_count (mp_ s) <= MAX_TCACHE_COUNT.

(** [s'] differs from [s] at most in the memory and in the arena: the
    parameters, the tcache, [errno] and the other variables of the process
    are those of [s]. *)
Definition heap_only (s s' : state) : Prop :=
  s' = set_av (set_mem s (mem s')) (av s').

(** [s'] differs from [s] at most in the memory and in the top chunk of
    the arena. *)
Definition mem_top_only (s s' : state) : Prop :=
  s' = set_av (set_mem s (mem s')) (set_top (av s) (top (av s'))).

(** What is assumed of the operating system and of the heap functions of
    arena.c: they leave the tcache alone.  The hook called after
    [MORECORE] runs while the arena is locked; it is taken not to enter
    the allocator. *)
Record sysdeps_ok (Y : sysdeps) : Prop := Build_sysdeps_ok {
  mmap_ok : forall n, leaves_tcache (MMAP Y n);
  morecore_ok : forall n, leaves_tcache (MORECORE Y n);
  after_morecore_hook_ok :
    forall h, __after_morecore_hook Y = Some h -> leaves_tcache h;
  grow_heap_ok : forall h d, leaves_tcache (grow_heap Y h d);
  new_heap_ok : forall n pad, leaves_tcache (new_heap Y n pad);
  heap_trim_ok : forall pad, leaves_tcache (heap_trim Y pad)
}.

(** What is assumed of the environment of the allocator: the hooks a
    program installs, which may allocate and release on their own, keep
    the bound; [munmap], [mremap] and the operating system leave the
    tcache alone. *)
Record environment_ok (E : externals) (Y : sysdeps) : Prop :=
  Build_environment_ok {
  env_malloc_hook :
    forall h n, __malloc_hook E = Some h -> preserves_bound (h n);
  env_free_hook :
    forall h p, __free_hook E = Some h -> preserves_bound (h p);
  env_realloc_hook :
    forall h p n, __realloc_hook E = Some h -> preserves_bound (h p n);
  env_munmap : forall a n, leaves_tcache (__munmap E a n);
  env_mremap : forall a n n', leaves_tcache (__mremap E a n n');
  env_sys : sysdeps_ok Y
}.

(** An operating system that grants nothing: [mmap] fails, [MORECORE]
    fails, no heap grows and none is made; no hook.  The heaps are laid
    out as in arena.c on the 64-bit platform. *)
Definition quiet_sys : sysdeps :=
  Build_sysdeps (fun _ => ret MAP_FAILED) (fun _ => ret MORECORE_FAILURE) None
    (fun p => Z.land p (lnot64 (HEAP_MAX_SIZE - 1))) 0 8 16 32 0
    (fun _ _ => ret (-1)) (fun _ _ => ret 0) (fun _ => ret 0)
    (fun _ => ret 0) None (ret tt).

Definition globals0 : globals := Build_globals 0 65536 0 0 0 0 0 1.

(** The chunk [p] is an ordinary chunk in use below the top chunk, and its
    two neighbours are in use: its [P] flag is set, the chunk after it carries
    a plausible size and ends at or before the top chunk, and the chunk
    after that one says that its predecessor is in use.  The chunk is too large
    for the fast bins and for the tcache (or there is no tcache), and small
    enough not to trigger a trim.  The unsorted bin is well formed, and
    neither its header nor its first chunk overlaps the chunk, the header
    of the chunk after it, or the header of the top chunk. *)
Definition plain_chunk (s : state) (p : Z) : Prop :=
  let size := chunksize (mem s) p in
  let next := p + size in
  let T := top (av s) in
  let U := unsorted_chunks (av s) in
  let fwd := load (mem s) (U + off_fd) in
  0 <= p /\ misaligned_chunk p = 0
  /\ MINSIZE <= size < FASTBIN_CONSOLIDATION_THRESHOLD
  /\ size mod MALLOC_ALIGNMENT = 0
  /\ global_max_fast s < size
  /\ (tcache s = NULL \/ tcache_bins (mp_ s) <= csize2tidx size)
  /\ chunk_is_mmapped (mem s) p = 0
  /\ prev_inuse (mem s) p <> 0
  /\ next + chunksize (mem s) next <= T /\ T + chunksize (mem s) T < 2 ^ 64
  /\ prev_inuse (mem s) next <> 0
  /\ 2 * SIZE_SZ < chunksize_nomask (mem s) next
  /\ chunksize (mem s) next < system_mem (av s)
  /\ inuse_bit_at_offset (mem s) next (chunksize (mem s) next) <> 0
  /\ load (mem s) (fwd + off_bk) = U
  /\ 0 <= U /\ (U + 32 <= p \/ T + 16 <= U + 16)
  /\ (fwd + 32 <= p \/ next + 16 <= fwd + 24)
  /\ (fwd + 32 <= T + 8 \/ T + 16 <= fwd + 24)
  /\ (fwd + 32 <= U + 16 \/ U + 24 <= fwd + 24).

(** No free chunk is in the way of a request of padded size [nb]: the fast
    bin, the unsorted bin and the bin of that size are empty, no bin is
    marked in the binmap and the arena holds no fast chunks. *)
Definition nothing_free_for (s : state) (nb : Z) : Prop :=
  nth_z (fastbinsY (av s)) (fastbin_index nb) = NULL
  /\ have_fastchunks (av s) = false
  /\ last (mem s) (unsorted_chunks (av s)) = unsorted_chunks (av s)
  /\ last (mem s) (bin_at (av s) (bin_index nb)) = bin_at (av s) (bin_index nb)
  /\ first (mem s) (bin_at (av s) (bin_index nb)) = bin_at (av s) (bin_index nb)
  /\ forall b : Z, nth_z (binmap (av s)) b = 0.

(** The top chunk is sound and can serve a request of padded size [nb]
    and keep a remainder of at least the minimum chunk size. *)
Definition top_has_room (s : state) (nb : Z) : Prop :=
  0 <= top (av s)
  /\ top (av s) + chunksize (mem s) (top (av s)) < 2 ^ 64
  /\ chunksize (mem s) (top (av s)) <= system_mem (av s)
  /\ nb + MINSIZE <= chunksize (mem s) (top (av s)).

(** [s'] has the tcache pointer, the shutdown flag and the tcache content
    of [s]. *)
Definition thread_kept (s s' : state) : Prop :=
  tcache s' = tcache s
  /\ tcache_shutting_down s' = tcache_shutting_down s
  /\ tcache_data s' = tcache_data s.

(** The memory under the tcache structure.  The two arrays of the
    structure are kept in the field [tcache_data], apart from [mem]; the
    bytes of [mem] from [tcache] to [tcache + sizeof (tcache_perthread_struct)]
    are written by [tcache_init], which clears them, and otherwise only by
    a store that is meant for a chunk and lands in the structure, where
    in the source it overwrites a counter or a list head.  As long as
    these bytes are all zero no such store has left a trace, and
    [tcache_data] is what the structure holds. *)
Definition tcache_struct_clear (s : state) : Prop :=
  forall k : Z, 0 <= k < sizeof_tcache_perthread_struct ->
                load_byte (mem s) (tcache s + k) = 0.

(** The same, as a test that can be run. *)
Definition tcache_struct_clear_b (s : state) : bool :=
  forallb (fun k => load_byte (mem s) (tcache s + k) =? 0)
          (seqZ 0 sizeof_tcache_perthread_struct).

(** ** The tcache structure in memory

    In the source [*tcache] is the payload of a chunk of the heap, of
    [sizeof (tcache_perthread_struct)] bytes: the counters, two bytes
    each, from [tcache] on, the list heads after them.  The definitions
    above keep the two arrays in the field [tcache_data] of [state]; that
    is the same thing as long as no store meant for a chunk lands in the
    structure.  The definitions of this module read and write the
    structure where the source has it, in [mem] (and leave [tcache_data]
    alone); they are used where the difference matters. *)
Module InHeap.

(** [&tcache->counts[i]] and [&tcache->entries[i]], for [tcache = t]. *)
Definition counts_addr (t i : Z) : Z := t + 2 * i.
Definition entries_addr (t i : Z) : Z := t + 2 * TCACHE_MAX_BINS + 8 * i.

(** [tcache->counts[i]], a [uint16_t], and [tcache->entries[i]]. *)
Definition counts_at (m : gmap Z Z) (t i : Z) : Z := load_le m (counts_addr t i) 2.
Definition entries_at (m : gmap Z Z) (t i : Z) : Z := load m (entries_addr t i).

Definition tcache_put (chunk tc_idx : Z) : M unit :=
  do s <- get;
  let e := chunk2mem chunk in
  (* e->key = tcache *)
  do _ <- wr (e + 8) (tcache s);
  (* e->next = tcache->entries[tc_idx] *)
  do head <- rd (entries_addr (tcache s) tc_idx);
  do _ <- wr e head;
  (* tcache->entries[tc_idx] = e *)
  do _ <- wr (entries_addr (tcache s) tc_idx) e;
  (* ++(tcache->counts[tc_idx]) *)
  modify (fun s1 =>
    set_mem s1 (store_le (mem s1) (counts_addr (tcache s) tc_idx) 2
                  (counts_at (mem s1) (tcache s) tc_idx + 1))).

Definition tcache_get (tc_idx : Z) : M Z :=
  do s <- get;
  do e <- rd (entries_addr (tcache s) tc_idx);
  (* tcache->entries[tc_idx] = e->next *)
  do next <- rd e;
  do _ <- wr (entries_addr (tcache s) tc_idx) next;
  (* --(tcache->counts[tc_idx]) *)
  do _ <- modify (fun s1 =>
    set_mem s1 (store_le (mem s1) (counts_addr (tcache s) tc_idx) 2
                  (counts_at (mem s1) (tcache s) tc_idx - 1)));
  (* e->key = NULL *)
  do _ <- wr (e + 8) NULL;
  ret e.

(** The tcache block of [_int_free]; [true] when the chunk was cached and
    the function returns. *)
Definition int_free_tcache (fuel : nat) (p size : Z) : M bool :=
  do s <- get;
  let tc_idx := csize2tidx size in
  if negb (tcache s =? NULL) && (tc_idx <? tcache_bins (mp_ s)) then
    let e := chunk2mem p in
    do key <- rd (e + 8);
    do _ <- (if key =? tcache s
             then tcache_scan fuel (entries_at (mem s) (tcache s) tc_idx) e
             else ret tt);
    if counts_at (mem s) (tcache s) tc_idx <? tcache_count (mp_ s)
    then do _ <- tcache_put p tc_idx; ret true
    else ret false
  else ret false.

Definition _int_free (E : externals) (fuel : nat) (p : Z) (have_lock : bool)
  : M unit :=
  do size <- int_free_checks p;
  do cached <- int_free_tcache fuel p size;
  if cached then ret tt
  else
    do s <- get;
    if size <=? get_max_fast s then int_free_fastbin p size have_lock
    else if chunk_is_mmapped (mem s) p =? 0
    then int_free_merge E p size have_lock
    else munmap_chunk E p.

(** [tcache_init] is the definition above: it runs while [tcache] is
    null, when [_int_malloc] does not look at the tcache, and it clears
    the bytes of the structure in [mem]. *)
Definition __libc_free (E : externals) (fuel : nat) (mem_ : Z) : M unit :=
  match __free_hook E with
  | Some hook => hook mem_
  | None =>
      if mem_ =? 0 then ret tt
      else
        let p := mem2chunk mem_ in
        do s <- get;
        if negb (chunk_is_mmapped (mem s) p =? 0) then
          do _ <- (if (no_dyn_threshold (mp_ s) =? 0)
                      && (mmap_threshold (mp_ s) <? chunksize_nomask (mem s) p)
                      && (chunksize_nomask (mem s) p <=? DEFAULT_MMAP_THRESHOLD_MAX)
                      && negb (DUMPED_MAIN_ARENA_CHUNK s p)
                   then modify (fun s => set_mp s
                          (Build_malloc_par
                             (wrap (2 * chunksize (mem s) p))
                             (chunksize (mem s) p)
                             (n_mmaps (mp_ s)) (no_dyn_threshold (mp_ s))
                             (mmapped_mem (mp_ s)) (max_mmapped_mem (mp_ s))
                             (tcache_bins (mp_ s)) (tcache_count (mp_ s))
                             (tcache_unsorted_limit (mp_ s))))
                   else ret tt);
          munmap_chunk E p
        else
          do _ <- MAYBE_INIT_TCACHE E fuel;
          _int_free E fuel p false
  end.

(** Every counter of the structure is at most [mp_.tcache_count]. *)
Definition tcache_bounded (s : state) : Prop :=
  forall i : Z, 0 <= i < TCACHE_MAX_BINS ->
                counts_at (mem s) (tcache s) i <= tcache_count (mp_ s).

Definition tcache_bounded_b (s : state) : bool :=
  forallb (fun i => counts_at (mem s) (tcache s) i <=? tcache_count (mp_ s))
          (seqZ 0 TCACHE_MAX_BINS).

End InHeap.

(** A thread after start-up with the structure in memory: the chunk at
    [0x555000], of size [0x290] and in use, holds the tcache structure,
    all counters and list heads zero; a chunk in use follows it. *)
Definition tcache_chunk : Z := 0x555000.
Definition mem_struct : gmap Z Z :=
  store (store mem_init
    (tcache_chunk + off_size) (Z.lor 0x290 PREV_INUSE))
    (tcache_chunk + 0x290 + off_size) (Z.lor 0x20 PREV_INUSE).
Definition state_struct : state :=
  Build_state mem_struct arena0 default_par (chunk2mem tcache_chunk)
    empty_tcache false 0 128 0 0 0 0 4096.

(** The state [h], which has the structure in memory, and the state [s],
    which has it in the record, stand for the same process image: they
    have the same arena, parameters and tcache pointer, they agree on
    every byte outside the structure, and the counters and list heads in
    the memory of [h] are those of the record of [s]. *)
Definition represents (h s : state) : Prop :=
  av h = av s /\ mp_ h = mp_ s /\ tcache h = tcache s
  /\ (forall a : Z,
        a < tcache s \/ tcache s + sizeof_tcache_perthread_struct <= a ->
        load_byte (mem h) a = load_byte (mem s) a)
  /\ (forall i : Z, 0 <= i < TCACHE_MAX_BINS ->
        InHeap.counts_at (mem h) (tcache h) i = nth_z (counts (tcache_data s)) i
        /\ InHeap.entries_at (mem h) (tcache h) i
           = nth_z (entries (tcache_data s)) i).

(** ** Operating systems to run [sysmalloc] with *)

(** The program break is kept in the memory cell [brk_cell], below the
    heap: [MORECORE (n)] returns the break and moves it by [n], as [sbrk]
    does; [mmap] grants nothing. *)
Definition brk_cell : Z := 0x100.
Definition sbrk_sys : sysdeps :=
  Build_sysdeps (fun _ => ret MAP_FAILED)
    (fun n => do b <- rd brk_cell; do _ <- wr brk_cell (b + n); ret b) None
    (fun p => Z.land p (lnot64 (HEAP_MAX_SIZE - 1))) 0 8 16 32 0
    (fun _ _ => ret (-1)) (fun _ _ => ret 0) (fun _ => ret 0)
    (fun _ => ret 0) None (ret tt).

(** [mmap] grants every request, at the address [mapped_chunk]; the break
    cannot be moved. *)
Definition mapping_sys : sysdeps :=
  Build_sysdeps (fun _ => ret mapped_chunk) (fun _ => ret MORECORE_FAILURE) None
    (fun p => Z.land p (lnot64 (HEAP_MAX_SIZE - 1))) 0 8 16 32 0
    (fun _ _ => ret (-1)) (fun _ _ => ret 0) (fun _ => ret 0)
    (fun _ => ret 0) None (ret tt).

(** A heap of three chunks in use before a top chunk of size [0x100] at
    [0x20f00], which ends at the page boundary [0x21000]; the program
    break is [brk]. *)
Definition small_top : Z := 0x20f00.
Definition mem_small_top (brk : Z) : gmap Z Z :=
  store (store (store (store (store mem_init
    (big_chunk + off_size) (Z.lor 0x500 PREV_INUSE))
    (big_chunk + 0x500 + off_size) (Z.lor 0x100 PREV_INUSE))
    (big_chunk + 0x600 + off_size) (Z.lor 0x900 PREV_INUSE))
    (small_top + off_size) (Z.lor 0x100 PREV_INUSE))
    brk_cell brk.

(** The break is where the heap ends. *)
Definition state_small_top : state :=
  Build_state (mem_small_top 0x21000) (set_top arena0 small_top) default_par
    0x555010 empty_tcache false 0 128 0 0 0 0 4096.

(** Someone else has moved the break: it is at [0x30000]. *)
Definition state_gap : state :=
  Build_state (mem_small_top 0x30000) (set_top arena0 small_top) default_par
    0x555010 empty_tcache false 0 128 0 0 0 0 4096.

(** The two assertions on the top chunk at the head of [sysmalloc]. *)
Definition top_asserted (s : state) (nb : Z) : Prop :=
  let old_top := top (av s) in
  let old_size := chunksize (mem s) old_top in
  ((old_top = initial_top (av s) /\ old_size = 0)
   \/ (MINSIZE <= old_size /\ prev_inuse (mem s) old_top <> 0
       /\ Z.land (chunk_at_offset old_top old_size)
                 (wrap (dl_pagesize s - 1)) = 0))
  /\ old_size < wrap (nb + MINSIZE).

(** [MORECORE] grants every request at the address [0x21000], where the
    heap of [state_small_top] ends; [mmap] grants nothing. *)
Definition adjacent_sys : sysdeps :=
  Build_sysdeps (fun _ => ret MAP_FAILED) (fun _ => ret 0x21000) None
    (fun p => Z.land p (lnot64 (HEAP_MAX_SIZE - 1))) 0 8 16 32 0
    (fun _ _ => ret (-1)) (fun _ _ => ret 0) (fun _ => ret 0)
    (fun _ => ret 0) None (ret tt).

(** The heap of [state_pages], whose top chunk of [0x3000] bytes ends at
    [0x23800], with the program break at that address. *)
Definition state_pages_brk : state :=
  set_mem state_pages (store (mem state_pages) brk_cell 0x23800).

(** * Properties *)

(** ** Memory *)

Lemma load_byte_insert_eq (m : gmap Z Z) (a v : Z) :
  load_byte (<[a := v mod 256]> m) a = v mod 256.
Proof.
  unfold load_byte. rewrite lookup_insert_eq. simpl.
  apply Z.mod_mod. lia.
Qed.

Lemma load_byte_insert_ne (m : gmap Z Z) (a b v : Z) :
  a <> b -> load_byte (<[a := v]> m) b = load_byte m b.
Proof.
  intros Hne. unfold load_byte. rewrite lookup_insert_ne by exact Hne. reflexivity.
Qed.

Lemma load_byte_range (m : gmap Z Z) (a : Z) : 0 <= load_byte m a < 256.
Proof. unfold load_byte. apply Z.mod_pos_bound. lia. Qed.

Lemma store_le_other (n : nat) : forall (m : gmap Z Z) (a v b : Z),
  b < a \/ a + Z.of_nat n <= b ->
  load_byte (store_le m a n v) b = load_byte m b.
Proof.
  induction n as [|n IH]; intros m a v b Hb; simpl.
  - reflexivity.
  - rewrite IH by lia. apply load_byte_insert_ne. lia.
Qed.

Lemma load_le_ext (n : nat) : forall (m1 m2 : gmap Z Z) (a : Z),
  (forall b, a <= b < a + Z.of_nat n -> load_byte m1 b = load_byte m2 b) ->
  load_le m1 a n = load_le m2 a n.
Proof.
  induction n as [|n IH]; intros m1 m2 a H; simpl.
  - reflexivity.
  - rewrite (H a) by lia. rewrite (IH m1 m2 (a + 1)); [reflexivity|].
    intros b Hb. apply H. lia.
Qed.

Lemma load_le_range (n : nat) : forall (m : gmap Z Z) (a : Z),
  0 <= load_le m a n < 256 ^ Z.of_nat n.
Proof.
  induction n as [|n IH]; intros m a.
  - simpl. lia.
  - cbn [load_le]. specialize (IH m (a + 1)).
    pose proof (load_byte_range m a) as Hb.
    rewrite Nat2Z.inj_succ, Z.pow_succ_r by lia. lia.
Qed.

Lemma load_store_le_same (n : nat) : forall (m : gmap Z Z) (a v : Z),
  load_le (store_le m a n v) a n = v mod 256 ^ Z.of_nat n.
Proof.
  induction n as [|n IH]; intros m a v.
  - simpl. symmetry. apply Z.mod_1_r.
  - cbn [load_le store_le]. rewrite IH.
    rewrite store_le_other by lia. rewrite load_byte_insert_eq.
    rewrite Nat2Z.inj_succ, Z.pow_succ_r by lia.
    rewrite Z.rem_mul_r by lia. reflexivity.
Qed.

Lemma load_range (m : gmap Z Z) (a : Z) : 0 <= load m a < 2 ^ 64.
Proof. unfold load. apply (load_le_range 8). Qed.

Lemma load_store_eq (m : gmap Z Z) (a v : Z) : load (store m a v) a = wrap v.
Proof. unfold load, store, wrap. apply (load_store_le_same 8). Qed.

Lemma load_store_ne (m : gmap Z Z) (a b v : Z) :
  a + 8 <= b \/ b + 8 <= a -> load (store m a v) b = load m b.
Proof.
  intros H. unfold load, store. apply load_le_ext. intros c Hc.
  apply store_le_other. simpl in Hc. simpl. lia.
Qed.

Lemma memset_nat_other (n : nat) : forall (m : gmap Z Z) (p c b : Z),
  b < p \/ p + Z.of_nat n <= b ->
  load_byte (memset_nat m p c n) b = load_byte m b.
Proof.
  induction n as [|n IH]; intros m p c b Hb; simpl.
  - reflexivity.
  - rewrite IH by lia. apply load_byte_insert_ne. lia.
Qed.

Lemma memset_nat_inside (n : nat) : forall (m : gmap Z Z) (p c b : Z),
  p <= b < p + Z.of_nat n ->
  load_byte (memset_nat m p c n) b = c mod 256.
Proof.
  induction n as [|n IH]; intros m p c b Hb; simpl.
  - lia.
  - destruct (Z.eq_dec b p) as [->|Hne].
    + rewrite memset_nat_other by lia. apply load_byte_insert_eq.
    + apply IH. lia.
Qed.

Lemma load_memset_ne (m : gmap Z Z) (p c n b : Z) :
  b + 8 <= p \/ p + n <= b -> load (memset m p c n) b = load m b.
Proof.
  intros H. unfold load, memset. apply load_le_ext. intros a Ha.
  apply memset_nat_other. simpl in Ha. lia.
Qed.

Lemma load_byte_memset_in (m : gmap Z Z) (p c n b : Z) :
  p <= b < p + n -> load_byte (memset m p c n) b = c mod 256.
Proof.
  intros H. unfold memset. apply memset_nat_inside. lia.
Qed.

(** ** Bit masks as arithmetic *)

Lemma wrap_small (x : Z) : 0 <= x < 2 ^ 64 -> wrap x = x.
Proof. intros H. unfold wrap. apply Z.mod_small. exact H. Qed.

Lemma wrap_range (x : Z) : 0 <= wrap x < 2 ^ 64.
Proof. unfold wrap. apply Z.mod_pos_bound. lia. Qed.

Lemma land_lnot64_ones (k x : Z) :
  0 <= k -> 0 <= x < 2 ^ 64 ->
  Z.land x (lnot64 (Z.ones k)) = 2 ^ k * (x / 2 ^ k).
Proof.
  intros Hk Hx. unfold lnot64, wrap.
  rewrite <- (Z.land_ones (Z.lnot (Z.ones k)) 64) by lia.
  rewrite (Z.land_comm (Z.lnot (Z.ones k))), Z.land_assoc.
  rewrite (Z.land_ones x 64) by lia. rewrite (Z.mod_small x) by exact Hx.
  rewrite <- Z.ldiff_land.
  rewrite Z.ldiff_ones_r by exact Hk.
  rewrite Z.shiftl_mul_pow2, Z.shiftr_div_pow2 by exact Hk. lia.
Qed.

Lemma land_align_mask (x : Z) :
  0 <= x < 2 ^ 64 -> Z.land x (lnot64 MALLOC_ALIGN_MASK) = 16 * (x / 16).
Proof. intros Hx. apply (land_lnot64_ones 4 x); [lia | exact Hx]. Qed.

Lemma land_size_bits (x : Z) :
  0 <= x < 2 ^ 64 -> Z.land x (lnot64 SIZE_BITS) = 8 * (x / 8).
Proof. intros Hx. apply (land_lnot64_ones 3 x); [lia | exact Hx]. Qed.

Lemma chunksize_range (m : gmap Z Z) (p : Z) :
  0 <= chunksize m p <= chunksize_nomask m p /\ chunksize_nomask m p < 2 ^ 64.
Proof.
  unfold chunksize, chunksize_nomask.
  pose proof (load_range m (p + off_size)) as Hr.
  rewrite land_size_bits by exact Hr.
  pose proof (Z.mul_div_le (load m (p + off_size)) 8 ltac:(lia)).
  pose proof (Z.div_pos (load m (p + off_size)) 8 ltac:(lia) ltac:(lia)).
  lia.
Qed.

(** ** Request sizes *)

Lemma request2size_padded (n : Z) :
  0 <= n -> n + SIZE_SZ + MALLOC_ALIGN_MASK < 2 ^ 64 ->
  request2size n = padded_request n.
Proof.
  intros Hn Hlt. unfold request2size, padded_request.
  change SIZE_SZ with 8 in *. change MALLOC_ALIGN_MASK with 15 in *.
  change MINSIZE with 32.
  rewrite wrap_small by lia.
  pose proof (Z.mul_div_le (n + 8 + 15) 16 ltac:(lia)) as Hle.
  pose proof (Z.mod_pos_bound (n + 8 + 15) 16 ltac:(lia)) as Hm.
  pose proof (Z.div_mod (n + 8 + 15) 16 ltac:(lia)) as Hdm.
  destruct (Z.ltb_spec (n + 8 + 15) 32) as [Hs|Hs].
  - lia.
  - change (lnot64 15) with (lnot64 MALLOC_ALIGN_MASK).
    rewrite land_align_mask by lia. lia.
Qed.

Lemma request2size_fits (n : Z) :
  0 <= n <= PTRDIFF_MAX ->
  n + SIZE_SZ <= request2size n /\ MINSIZE <= request2size n
  /\ request2size n < 2 ^ 64 /\ request2size n mod 16 = 0.
Proof.
  intros Hn. unfold PTRDIFF_MAX in Hn.
  rewrite request2size_padded by (change SIZE_SZ with 8; change MALLOC_ALIGN_MASK with 15; lia).
  unfold padded_request. change SIZE_SZ with 8. change MINSIZE with 32.
  pose proof (Z.mod_pos_bound (n + 8 + 15) 16 ltac:(lia)) as Hm.
  pose proof (Z.div_mod (n + 8 + 15) 16 ltac:(lia)) as Hdm.
  assert (Hmod : (16 * ((n + 8 + 15) / 16)) mod 16 = 0).
  { rewrite Z.mul_comm. apply Z.mod_mul. lia. }
  repeat split; try lia.
  destruct (Z.max_spec 32 (16 * ((n + 8 + 15) / 16))) as [[_ ->]|[_ ->]].
  - exact Hmod.
  - reflexivity.
Qed.

(** ** C6: the large-bin index *)

(** The shifts of [largebin_index_64] are the divisions of the spec. *)
Lemma largebin_index_64_div (size : Z) :
  largebin_index_64 size = largebin_index_spec size.
Proof.
  unfold largebin_index_64, largebin_index_spec.
  rewrite !Z.shiftr_div_pow2 by lia.
  change (2 ^ 6) with 64. change (2 ^ 9) with 512. change (2 ^ 12) with 4096.
  change (2 ^ 15) with 32768. change (2 ^ 18) with 262144.
  reflexivity.
Qed.

(** C6.  On the 64-bit platform with default alignment the large-bin index
    of a size is the piecewise function of the spec: [48 + size/64] while
    [size/64 <= 48], then [91 + size/512] while [size/512 <= 20], then
    [110 + size/4096] while [size/4096 <= 10], then [119 + size/32768]
    while [size/32768 <= 4], then [124 + size/262144] while
    [size/262144 <= 2], and 126 for all remaining sizes. *)
Theorem largebin_index_piecewise (size : Z) :
  largebin_index size = largebin_index_spec size.
Proof.
  unfold largebin_index. change (SIZE_SZ =? 8) with true. cbv iota.
  apply largebin_index_64_div.
Qed.

(** Every size of the large-bin range lands in one of the 63 large bins. *)
Lemma largebin_index_bounds (size : Z) :
  MIN_LARGE_SIZE <= size -> 64 <= largebin_index size <= 126.
Proof.
  intros H. unfold largebin_index. change (SIZE_SZ =? 8) with true. cbv iota.
  rewrite largebin_index_64_div. unfold largebin_index_spec.
  change MIN_LARGE_SIZE with 1024 in H.
  assert (16 <= size / 64) by (apply Z.div_le_lower_bound; lia).
  assert (2 <= size / 512) by (apply Z.div_le_lower_bound; lia).
  assert (0 <= size / 4096) by (apply Z.div_pos; lia).
  assert (0 <= size / 32768) by (apply Z.div_pos; lia).
  assert (0 <= size / 262144) by (apply Z.div_pos; lia).
  repeat match goal with
         | |- context [?a <=? ?b] => destruct (Z.leb_spec a b)
         end; lia.
Qed.

Example largebin_index_1024 : largebin_index 1024 = 64.
Proof. reflexivity. Qed.

Example largebin_index_3135 : largebin_index (48 * 64 + 63) = 96.
Proof. reflexivity. Qed.

Example largebin_index_3136 : largebin_index (49 * 64) = 97.
Proof. reflexivity. Qed.

Example largebin_index_1M : largebin_index (1024 * 1024) = 126.
Proof. reflexivity. Qed.

(** ** C1: the request ceiling *)

Example MINSIZE_value : MINSIZE = 32.
Proof. reflexivity. Qed.

Example NFASTBINS_value : NFASTBINS = 10.
Proof. reflexivity. Qed.

Example MIN_LARGE_SIZE_value : MIN_LARGE_SIZE = 1024.
Proof. reflexivity. Qed.

Example request2size_0 : request2size 0 = 32.
Proof. reflexivity. Qed.

Example request2size_24 : request2size 24 = 32.
Proof. reflexivity. Qed.

Example request2size_25 : request2size 25 = 48.
Proof. reflexivity. Qed.

(** [_Static_assert (PTRDIFF_MAX <= SIZE_MAX / 2, ...)] of [__libc_malloc]. *)
Example PTRDIFF_MAX_at_most_half_SIZE_MAX : PTRDIFF_MAX <= SIZE_MAX / 2.
Proof. vm_compute. discriminate. Qed.

(** A request just above half of [PTRDIFF_MAX] is converted, not refused:
    it is the arena and the operating system that turn it down. *)
Example checked_request2size_above_half :
  checked_request2size (PTRDIFF_MAX / 2 + 1) = Some (2 ^ 62 + 16).
Proof. reflexivity. Qed.

(** The padded size of the largest request the conversion accepts. *)
Example checked_request2size_PTRDIFF_MAX :
  checked_request2size PTRDIFF_MAX = Some (2 ^ 63 + 16).
Proof. reflexivity. Qed.

Lemma padded_request_bounds (n : Z) :
  0 <= n -> n + 8 <= padded_request n <= Z.max 32 (n + 23)
            /\ padded_request n mod 16 = 0.
Proof.
  intros Hn. unfold padded_request.
  pose proof (Z.mod_pos_bound (n + 8 + 15) 16 ltac:(lia)) as Hm.
  pose proof (Z.div_mod (n + 8 + 15) 16 ltac:(lia)) as Hdm.
  assert (Hmod : (16 * ((n + 8 + 15) / 16)) mod 16 = 0).
  { rewrite Z.mul_comm. apply Z.mod_mul. lia. }
  destruct (Z.max_spec 32 (16 * ((n + 8 + 15) / 16))) as [[Hc ->]|[Hc ->]].
  - split; [lia | exact Hmod].
  - split; [lia | reflexivity].
Qed.

(** C1.  [checked_request2size] compares the request itself, not its
    padded size, with [PTRDIFF_MAX].  So a request above [PTRDIFF_MAX]
    fails the conversion, and [__libc_malloc] then sets [ENOMEM] and
    returns null with the rest of the state untouched; every request up
    to [PTRDIFF_MAX] is converted to its padded size; and for the 23
    requests from [PTRDIFF_MAX - 22] to [PTRDIFF_MAX] that padded size is
    above [PTRDIFF_MAX], while below them it is not: there the conversion
    succeeds although the padded value exceeds the ceiling, against the
    claim and against the comment of the function. *)
Theorem request_ceiling_checked_before_padding (E : externals) (fuel : nat)
    (n : Z) (s : state) :
  __malloc_hook E = None ->
  0 <= n <= SIZE_MAX ->
  (PTRDIFF_MAX < n ->
     checked_request2size n = None
     /\ __libc_malloc E fuel n s = Done NULL (set_errno s ENOMEM))
  /\ (n <= PTRDIFF_MAX ->
        checked_request2size n = Some (padded_request n))
  /\ (PTRDIFF_MAX - 22 <= n <= PTRDIFF_MAX ->
        PTRDIFF_MAX < padded_request n < 2 ^ 64)
  /\ (n < PTRDIFF_MAX - 22 -> padded_request n <= PTRDIFF_MAX).
Proof.
  intros Hhook Hn. unfold SIZE_MAX in Hn.
  pose proof (padded_request_bounds n ltac:(lia)) as (Hb & Hmod).
  split; [|split; [|split]].
  - intros Hbig.
    assert (Hc : checked_request2size n = None).
    { unfold checked_request2size.
      destruct (Z.ltb_spec PTRDIFF_MAX n); [reflexivity | lia]. }
    split; [exact Hc |].
    unfold __libc_malloc. rewrite Hhook, Hc. reflexivity.
  - intros Hle. unfold checked_request2size.
    destruct (Z.ltb_spec PTRDIFF_MAX n) as [Hgt|_]; [lia|].
    f_equal. apply request2size_padded; [lia|].
    unfold PTRDIFF_MAX in Hle.
    change SIZE_SZ with 8. change MALLOC_ALIGN_MASK with 15. lia.
  - unfold PTRDIFF_MAX. intros Hband.
    pose proof (Z.div_mod (padded_request n) 16 ltac:(lia)) as Hd.
    rewrite Hmod in Hd.
    destruct (Z.max_spec 32 (n + 23)) as [[_ E1]|[_ E1]]; rewrite E1 in Hb; lia.
  - unfold PTRDIFF_MAX. intros Hlow.
    destruct (Z.max_spec 32 (n + 23)) as [[_ E1]|[_ E1]]; rewrite E1 in Hb; lia.
Qed.

Lemma request_ceiling_checked_before_padding_witness :
  checked_request2size PTRDIFF_MAX = Some (padded_request PTRDIFF_MAX)
  /\ PTRDIFF_MAX < padded_request PTRDIFF_MAX < 2 ^ 64.
Proof.
  assert (Hn : 0 <= PTRDIFF_MAX <= SIZE_MAX) by (vm_compute; split; discriminate).
  pose proof (request_ceiling_checked_before_padding quiet_env 1 PTRDIFF_MAX
                state0 eq_refl Hn) as (_ & H2 & H3 & _).
  split.
  - apply H2. lia.
  - apply H3. lia.
Defined.

(** The requests [PTRDIFF_MAX / 2 + 1] and [PTRDIFF_MAX] on [state_big],
    with an operating system that grants nothing: the conversion
    succeeds, for the second with a padded size above the ceiling; the
    request goes through [_int_malloc] to [sysmalloc], and it is there
    that it fails, with [ENOMEM] and a null pointer. *)
Lemma malloc_huge_fails_in_sysmalloc :
  checked_request2size (PTRDIFF_MAX / 2 + 1) = Some (PTRDIFF_MAX / 2 + 17)
  /\ __libc_malloc (with_engine quiet_env quiet_sys globals0 4) 4
       (PTRDIFF_MAX / 2 + 1) state_big
     = Done NULL (set_errno state_big ENOMEM)
  /\ checked_request2size PTRDIFF_MAX = Some (PTRDIFF_MAX + 17)
  /\ __libc_malloc (with_engine quiet_env quiet_sys globals0 4) 4
       PTRDIFF_MAX state_big
     = Done NULL (set_errno state_big ENOMEM).
Proof. repeat split; vm_compute; reflexivity. Qed.

(** ** C7: the usable size of a page-mapped chunk *)

(** C7, as stated, fails: for the mapped chunk of [state_mapped], of size
    [0x21000], [musable] yields [0x21000 - 16], two header words below the
    chunk size, not one. *)
Lemma musable_mapped_two_words :
  chunk_is_mmapped (mem state_mapped) (mem2chunk (chunk2mem mapped_chunk)) <> 0
  /\ DUMPED_MAIN_ARENA_CHUNK state_mapped (mem2chunk (chunk2mem mapped_chunk)) = false
  /\ chunksize (mem state_mapped) (mem2chunk (chunk2mem mapped_chunk)) = 0x21000
  /\ musable quiet_env (chunk2mem mapped_chunk) state_mapped
     = Done (0x21000 - 2 * SIZE_SZ) state_mapped
  /\ musable quiet_env (chunk2mem mapped_chunk) state_mapped
     <> Done (0x21000 - SIZE_SZ) state_mapped.
Proof.
  split; [vm_compute; discriminate |].
  split; [reflexivity |].
  split; [vm_compute; reflexivity |].
  split; [vm_compute; reflexivity |].
  vm_compute. discriminate.
Qed.

(** C7, amended.  For every non-null pointer whose chunk is page-mapped (M
    flag set) and not a dumped-arena chunk, with malloc checking not
    active, [musable] returns the chunk size minus two header words and
    changes nothing. *)
Theorem musable_mmapped (E : externals) (mem_ : Z) (s : state) :
  mem_ <> 0 ->
  using_malloc_checking s <> 1 ->
  chunk_is_mmapped (mem s) (mem2chunk mem_) <> 0 ->
  DUMPED_MAIN_ARENA_CHUNK s (mem2chunk mem_) = false ->
  musable E mem_ s
  = Done (wrap (chunksize (mem s) (mem2chunk mem_) - 2 * SIZE_SZ)) s
  /\ (2 * SIZE_SZ <= chunksize (mem s) (mem2chunk mem_) ->
      wrap (chunksize (mem s) (mem2chunk mem_) - 2 * SIZE_SZ)
      = chunksize (mem s) (mem2chunk mem_) - 2 * SIZE_SZ).
Proof.
  intros Hnz Hchk Hmm Hdump. split.
  - unfold musable.
    destruct (Z.eqb_spec mem_ 0) as [|_]; [contradiction|]. cbn [negb].
    unfold bind, get.
    destruct (Z.eqb_spec (using_malloc_checking s) 1) as [|_]; [contradiction|].
    destruct (Z.eqb_spec (chunk_is_mmapped (mem s) (mem2chunk mem_)) 0) as [|_];
      [contradiction|]. cbn [negb].
    rewrite Hdump. reflexivity.
  - intros Hge. apply wrap_small. change SIZE_SZ with 8 in *.
    pose proof (chunksize_range (mem s) (mem2chunk mem_)). lia.
Qed.

Lemma musable_mmapped_witness :
  musable quiet_env (chunk2mem mapped_chunk) state_mapped
  = Done (wrap (chunksize (mem state_mapped)
                  (mem2chunk (chunk2mem mapped_chunk)) - 2 * SIZE_SZ))
         state_mapped.
Proof.
  apply (musable_mmapped quiet_env (chunk2mem mapped_chunk) state_mapped).
  - vm_compute. discriminate.
  - vm_compute. discriminate.
  - vm_compute. discriminate.
  - reflexivity.
Defined.

(** ** The head of [_int_free] *)

Lemma MAYBE_INIT_TCACHE_ready (E : externals) (fuel : nat) (s : state) :
  tcache s <> NULL \/ tcache_shutting_down s = true ->
  MAYBE_INIT_TCACHE E fuel s = Done tt s.
Proof.
  intros H. unfold MAYBE_INIT_TCACHE, bind, get.
  destruct (Z.eqb_spec (tcache s) NULL) as [Hn|Hn]; [|reflexivity].
  destruct H as [H|H]; [contradiction|].
  unfold tcache_init, bind, get. rewrite H. reflexivity.
Qed.

Lemma wrap_neg_lt (size p : Z) :
  0 <= size < 2 ^ 64 -> 0 <= p < 2 ^ 64 ->
  (wrap (- size) < p <-> (2 ^ 64 < p + size \/ (size = 0 /\ 0 < p))).
Proof.
  intros Hs Hp. unfold wrap.
  destruct (Z.eq_dec size 0) as [->|Hnz].
  - change (- 0) with 0. rewrite Z.mod_0_l by lia. lia.
  - assert (Hm : (- size) mod 2 ^ 64 = 2 ^ 64 - size).
    { symmetry. apply (Z.mod_unique (- size) (2 ^ 64) (-1)); lia. }
    rewrite Hm. lia.
Qed.

Lemma aligned_OK_mod (x : Z) :
  0 <= x -> (aligned_OK x = true <-> x mod MALLOC_ALIGNMENT = 0).
Proof.
  intros Hx. unfold aligned_OK. change MALLOC_ALIGN_MASK with (Z.ones 4).
  rewrite Z.land_ones by lia. change MALLOC_ALIGNMENT with (2 ^ 4).
  apply Z.eqb_eq.
Qed.

Lemma mem2chunk_range (mem_ : Z) : 0 <= mem2chunk mem_ < 2 ^ 64.
Proof. unfold mem2chunk. apply wrap_range. Qed.

(** What the head checks of [_int_free] answer, case by case. *)
Lemma int_free_checks_cases (p : Z) (s : state) :
  0 <= p < 2 ^ 64 ->
  let size := chunksize (mem s) p in
  let bad_pointer :=
    2 ^ 64 < p + size \/ (size = 0 /\ 0 < p) \/ misaligned_chunk p <> 0 in
  let bad_size := size < MINSIZE \/ size mod MALLOC_ALIGNMENT <> 0 in
  (bad_pointer -> int_free_checks p s = Abort "free(): invalid pointer" s)
  /\ (~ bad_pointer -> bad_size ->
      int_free_checks p s = Abort "free(): invalid size" s)
  /\ (~ bad_pointer -> ~ bad_size -> int_free_checks p s = Done size s).
Proof.
  intros Hp size bad_pointer bad_size.
  pose proof (chunksize_range (mem s) p) as Hsz. fold size in Hsz.
  assert (Hw : wrap (- size) < p <-> (2 ^ 64 < p + size \/ (size = 0 /\ 0 < p))).
  { apply wrap_neg_lt; lia. }
  assert (Ha : aligned_OK size = true <-> size mod MALLOC_ALIGNMENT = 0).
  { apply aligned_OK_mod. lia. }
  unfold int_free_checks, bind, get. fold size.
  destruct (Z.ltb_spec (wrap (- size)) p) as [Hlt|Hge];
    destruct (Z.eqb_spec (misaligned_chunk p) 0) as [Hal|Hal]; cbn [orb negb].
  1,2,4: assert (Hb : bad_pointer) by (unfold bad_pointer; tauto);
       split; [reflexivity | split; intros Hn; contradiction].
  assert (Hnlt : ~ wrap (- size) < p) by lia.
  assert (Hnb : ~ bad_pointer) by (unfold bad_pointer; tauto).
  split; [intros Hb; contradiction|].
  destruct (Z.ltb_spec size MINSIZE) as [Hsmall|Hbig]; cbn [orb].
  - split; [reflexivity | intros _ Hn; exfalso; apply Hn; left; exact Hsmall].
  - destruct (aligned_OK size) eqn:Hok; cbn [negb].
    + split; [intros _ [Hb|Hb]; [lia | exfalso; apply Hb; apply Ha; reflexivity] | reflexivity].
    + split; [reflexivity |].
      intros _ Hn. exfalso. apply Hn. right. intros Hm.
      apply Ha in Hm. discriminate.
Qed.

(** ** C9: the release of an invalid chunk *)

(** C9, as stated, fails: a chunk at the aligned address [0x20000] of freshly
    zeroed memory has size 0, below the minimum chunk size, and adding 0
    to its address does not wrap; the claim announces
    [free(): invalid size], the code reports [free(): invalid pointer]. *)
Lemma free_zero_size_reports_invalid_pointer :
  chunk_is_mmapped (mem state0) (mem2chunk (chunk2mem 0x20000)) = 0
  /\ chunksize (mem state0) (mem2chunk (chunk2mem 0x20000)) = 0
  /\ 0 < MINSIZE
  /\ mem2chunk (chunk2mem 0x20000) + 0 < 2 ^ 64
  /\ misaligned_chunk (mem2chunk (chunk2mem 0x20000)) = 0
  /\ __libc_free quiet_env 1 (chunk2mem 0x20000) state0
     = Abort "free(): invalid pointer" state0
  /\ __libc_free quiet_env 1 (chunk2mem 0x20000) state0
     <> Abort "free(): invalid size" state0.
Proof.
  repeat split; try (vm_compute; reflexivity).
  vm_compute. discriminate.
Qed.

(** C9, amended.  For every non-null pointer passed to [__libc_free] whose
    chunk is not page-mapped, with no hook installed and the thread's
    tcache already set up, the release aborts with the state exactly as it
    was on entry (no tcache, fast-bin or bin mutation): with
    [free(): invalid pointer] if the chunk extends past the end of the
    address space, or its size is zero, or it is misaligned; and otherwise
    with [free(): invalid size] if its size is below the minimum chunk
    size or not a multiple of the alignment quantum. *)
Theorem free_rejects_invalid_chunk (E : externals) (fuel : nat) (mem_ : Z)
    (s : state) :
  __free_hook E = None ->
  mem_ <> 0 ->
  chunk_is_mmapped (mem s) (mem2chunk mem_) = 0 ->
  tcache s <> NULL \/ tcache_shutting_down s = true ->
  let p := mem2chunk mem_ in
  let size := chunksize (mem s) p in
  let bad_pointer :=
    2 ^ 64 < p + size \/ (size = 0 /\ 0 < p) \/ misaligned_chunk p <> 0 in
  let bad_size := size < MINSIZE \/ size mod MALLOC_ALIGNMENT <> 0 in
  (bad_pointer ->
     __libc_free E fuel mem_ s = Abort "free(): invalid pointer" s)
  /\ (~ bad_pointer -> bad_size ->
        __libc_free E fuel mem_ s = Abort "free(): invalid size" s).
Proof.
  intros Hhook Hnz Hmm Htc p size bad_pointer bad_size.
  destruct (int_free_checks_cases p s (mem2chunk_range mem_)) as (H1 & H2 & _).
  assert (Hfree : forall msg, int_free_checks p s = Abort msg s ->
                              __libc_free E fuel mem_ s = Abort msg s).
  { intros msg Hc. unfold __libc_free. rewrite Hhook.
    destruct (Z.eqb_spec mem_ 0) as [|_]; [contradiction|].
    unfold bind at 1. unfold get at 1. cbv zeta. rewrite Hmm. cbn [Z.eqb negb].
    unfold bind at 1. rewrite (MAYBE_INIT_TCACHE_ready E fuel s Htc).
    unfold _int_free, bind. fold p. rewrite Hc. reflexivity. }
  split.
  - intros Hb. apply Hfree. apply H1. exact Hb.
  - intros Hnb Hb. apply Hfree. apply H2; assumption.
Qed.

Lemma free_rejects_invalid_chunk_witness :
  __libc_free quiet_env 1 (chunk2mem 0x20008) state0
  = Abort "free(): invalid pointer" state0.
Proof.
  apply (free_rejects_invalid_chunk quiet_env 1 (chunk2mem 0x20008) state0).
  - reflexivity.
  - vm_compute. discriminate.
  - vm_compute. reflexivity.
  - left. vm_compute. discriminate.
  - right. right. vm_compute. discriminate.
Defined.

(** ** C3: the release into a fast bin *)

Lemma int_free_reaches_fastbin (E : externals) (fuel : nat) (p size : Z)
    (have_lock : bool) (s : state) :
  int_free_checks p s = Done size s ->
  int_free_tcache fuel p size s = Done false s ->
  size <= get_max_fast s ->
  _int_free E fuel p have_lock s = int_free_fastbin p size have_lock s.
Proof.
  intros Hc Ht Hf. unfold _int_free, bind. rewrite Hc, Ht. unfold get.
  destruct (Z.leb_spec size (get_max_fast s)); [reflexivity | lia].
Qed.

Lemma fast_next_size_invalid_iff (s : state) (p size : Z) :
  fast_next_size_invalid s p size = false
  <-> 2 * SIZE_SZ < chunksize_nomask (mem s) (chunk_at_offset p size)
      /\ chunksize (mem s) (chunk_at_offset p size) < system_mem (av s).
Proof.
  unfold fast_next_size_invalid. rewrite orb_false_iff.
  rewrite Z.leb_gt, Z.leb_gt. reflexivity.
Qed.

(** C3, as stated, fails at both ends of the interval.  In
    [state_fast_edge] the chunk to release has a fast size, the tcache
    bucket is full, and the successor chunk has size [0x21000], equal to the
    arena's [system_mem]; in [state_fast_low] the successor has size
    [2 * SIZE_SZ].  Both sizes lie in the closed interval
    [[2 * SIZE_SZ, system_mem]], and both releases abort with
    [free(): invalid next size (fast)]. *)
Lemma free_fast_successor_at_interval_ends_aborts :
  chunksize (mem state_fast_edge) small_chunk <= get_max_fast state_fast_edge
  /\ 2 * SIZE_SZ
     <= chunksize (mem state_fast_edge) (chunk_at_offset small_chunk 32)
     <= system_mem (av state_fast_edge)
  /\ __libc_free quiet_env 1 (chunk2mem small_chunk) state_fast_edge
     = Abort "free(): invalid next size (fast)" state_fast_edge
  /\ 2 * SIZE_SZ
     <= chunksize (mem state_fast_low) (chunk_at_offset small_chunk 32)
     <= system_mem (av state_fast_low)
  /\ __libc_free quiet_env 1 (chunk2mem small_chunk) state_fast_low
     = Abort "free(): invalid next size (fast)" state_fast_low.
Proof.
  split; [vm_compute; discriminate |].
  split; [vm_compute; split; discriminate |].
  split; [vm_compute; reflexivity |].
  split; [vm_compute; split; discriminate |].
  vm_compute. reflexivity.
Qed.

(** C3, amended.  For a chunk that passes the head checks of [_int_free],
    is not taken by the tcache and has a fast size: the test on the
    successor passes exactly when the successor's size field, flag bits
    included, is greater than [2 * SIZE_SZ] and its size is less than the
    arena's [system_mem]; a successor outside these bounds aborts with
    [free(): invalid next size (fast)], nothing changed; when the test passes
    and the chunk equals the current fast-bin head the release aborts with
    [double free or corruption (fasttop)]; otherwise, for a call without the
    lock or onto an empty bin, the chunk becomes the head of its fast bin,
    linked to the old head, and [have_fastchunks] is set. *)
Theorem free_fastbin_next_size (E : externals) (fuel : nat) (p size : Z)
    (have_lock : bool) (s : state) :
  int_free_checks p s = Done size s ->
  int_free_tcache fuel p size s = Done false s ->
  size <= get_max_fast s ->
  let next := chunk_at_offset p size in
  let idx := fastbin_index size in
  let old := nth_z (fastbinsY (av s)) idx in
  let passes := 2 * SIZE_SZ < chunksize_nomask (mem s) next
                /\ chunksize (mem s) next < system_mem (av s) in
  (~ passes ->
     _int_free E fuel p have_lock s = Abort "free(): invalid next size (fast)" s)
  /\ (passes -> old = p ->
        exists s1, _int_free E fuel p have_lock s
                   = Abort "double free or corruption (fasttop)" s1)
  /\ (passes -> old <> p -> have_lock = false \/ old = NULL ->
        exists s', _int_free E fuel p have_lock s = Done tt s'
                   /\ fastbinsY (av s') = upd_z (fastbinsY (av s)) idx p
                   /\ load (mem s') (p + off_fd) = wrap old
                   /\ have_fastchunks (av s') = true).
Proof.
  intros Hc Ht Hf next idx old passes.
  rewrite (int_free_reaches_fastbin E fuel p size have_lock s Hc Ht Hf).
  pose proof (fast_next_size_invalid_iff s p size) as Hiff.
  fold next in Hiff. fold passes in Hiff.
  split; [|split].
  - intros Hnp. unfold int_free_fastbin, bind, get.
    destruct (fast_next_size_invalid s p size) eqn:Hinv.
    + destruct have_lock; reflexivity.
    + exfalso. apply Hnp. apply Hiff. reflexivity.
  - intros Hp Hold. apply Hiff in Hp.
    unfold int_free_fastbin, bind, get. rewrite Hp.
    unfold ret at 1. unfold free_perturb.
    destruct (perturb_byte s =? 0); cbn; fold idx; fold old;
      (destruct (Z.eqb_spec old p); [eexists; reflexivity | contradiction]).
  - intros Hp Hold Hlock. apply Hiff in Hp.
    unfold int_free_fastbin, bind, get. rewrite Hp.
    unfold ret at 1. unfold free_perturb.
    assert (Hguard : forall m,
      have_lock && negb (old =? NULL)
      && negb (fastbin_index (chunksize m old) =? idx) = false).
    { intros m. destruct Hlock as [-> | ->]; [reflexivity|].
      rewrite Z.eqb_refl. destruct have_lock; reflexivity. }
    destruct (perturb_byte s =? 0); cbn; fold idx; fold old;
      (destruct (Z.eqb_spec old p); [contradiction|]);
      cbn; rewrite Hguard; eexists; (split; [reflexivity|]); cbn;
      (split; [reflexivity|]); (split; [apply load_store_eq | reflexivity]).
Qed.

Lemma free_fastbin_next_size_witness :
  _int_free quiet_env 1 small_chunk false state_fast_edge
  = Abort "free(): invalid next size (fast)" state_fast_edge
  /\ exists s', _int_free quiet_env 1 small_chunk false state_fast = Done tt s'
                /\ fastbinsY (av s') = upd_z (fastbinsY (av state_fast)) 0 small_chunk
                /\ load (mem s') (small_chunk + off_fd) = wrap 0
                /\ have_fastchunks (av s') = true.
Proof.
  split.
  - apply (free_fastbin_next_size quiet_env 1 small_chunk 32 false state_fast_edge).
    + vm_compute. reflexivity.
    + vm_compute. reflexivity.
    + vm_compute. discriminate.
    + vm_compute. intros [_ H]. discriminate H.
  - apply (free_fastbin_next_size quiet_env 1 small_chunk 32 false state_fast).
    + vm_compute. reflexivity.
    + vm_compute. reflexivity.
    + vm_compute. discriminate.
    + vm_compute. split; reflexivity.
    + vm_compute. discriminate.
    + left. reflexivity.
Defined.

(** ** C2: perturbation and the tcache *)

(** With the tcache full, the release takes the fast-bin branch and fills
    the payload with the perturb byte. *)
Example fastbin_release_perturbs :
  exists s1,
    __libc_free quiet_env 1 (chunk2mem mid_chunk) state_perturb_full = Done tt s1
    /\ load_byte (mem s1) (mid_chunk + 32) = 0xAA.
Proof. eexists. split; vm_compute; reflexivity. Qed.

(** A chunk taken from a fast bin is filled with the complement of the
    perturb byte. *)
Example fastbin_allocation_perturbs :
  exists s1,
    __libc_malloc quiet_env 1 40 state_perturb_fastbin
    = Done (chunk2mem mid_chunk) s1
    /\ load_byte (mem s1) (mid_chunk + 32) = Z.lxor 0xAA 0xFF.
Proof. eexists. split; vm_compute; reflexivity. Qed.

(** C2: the code at the failing input.  The perturb byte is [0xAA].  The
    release of the chunk at [mid_chunk] (size 48, payload bytes [0x11])
    pushes it onto the tcache and returns: the payload beyond the two tcache
    words still holds [0x11], not [0xAA].  The allocation of 40 bytes that
    follows is served from the tcache: the same payload byte still holds
    [0x11], not [0xAA xor 0xFF = 0x55]. *)
Theorem tcache_paths_skip_perturb :
  perturb_byte state_perturb = 0xAA
  /\ load_byte (mem state_perturb) (mid_chunk + 32) = 0x11
  /\ exists s1 s2,
       __libc_free quiet_env 1 (chunk2mem mid_chunk) state_perturb = Done tt s1
       /\ nth_z (entries (tcache_data s1)) 1 = chunk2mem mid_chunk
       /\ load_byte (mem s1) (mid_chunk + 32) = 0x11
       /\ __libc_malloc quiet_env 1 40 s1 = Done (chunk2mem mid_chunk) s2
       /\ load_byte (mem s2) (mid_chunk + 32) = 0x11.
Proof.
  split; [reflexivity|]. split; [vm_compute; reflexivity|].
  eexists. eexists.
  split; [vm_compute; reflexivity|].
  split; [vm_compute; reflexivity|].
  split; [vm_compute; reflexivity|].
  split; vm_compute; reflexivity.
Qed.

(** ** C10: reallocation of a page-mapped chunk within its pages *)

Lemma chunk2mem_mem2chunk (mem_ : Z) :
  0 <= mem_ < 2 ^ 64 -> chunk2mem (mem2chunk mem_) = mem_.
Proof.
  intros H. unfold chunk2mem, mem2chunk, wrap.
  rewrite Zplus_mod_idemp_l.
  replace (mem_ - 2 * SIZE_SZ + 2 * SIZE_SZ) with mem_ by lia.
  apply Z.mod_small. exact H.
Qed.

Lemma mem2chunk_nonzero (mem_ : Z) :
  2 * SIZE_SZ < mem_ < 2 ^ 64 -> mem2chunk mem_ <> 0.
Proof.
  intros H. unfold mem2chunk. change SIZE_SZ with 8 in *.
  rewrite wrap_small by lia. lia.
Qed.

(** A request of 0 bytes on a non-null pointer is a release
    ([REALLOC_ZERO_BYTES_FREES]): on the one-page mapped chunk of
    [state_mapped_page] the page condition below holds for [n = 0] too,
    and [__libc_realloc] releases the chunk (the mmap counter drops) and
    returns null before the remapping code is reached. *)
Lemma realloc_zero_on_mapped_chunk_releases :
  chunk_is_mmapped (mem state_mapped_page) (mem2chunk (chunk2mem mapped_chunk)) <> 0
  /\ ALIGN_UP (wrap (wrap (request2size 0
                            + prev_size (mem state_mapped_page) mapped_chunk)
                     + SIZE_SZ)) (dl_pagesize state_mapped_page)
     = wrap (prev_size (mem state_mapped_page) mapped_chunk
             + chunksize (mem state_mapped_page) mapped_chunk)
  /\ chunk2mem mapped_chunk <> 0
  /\ exists s',
       __libc_realloc quiet_env 1 (chunk2mem mapped_chunk) 0 state_mapped_page
       = Done 0 s'
       /\ n_mmaps (mp_ state_mapped_page) = 1
       /\ n_mmaps (mp_ s') = 0.
Proof.
  split; [vm_compute; discriminate|].
  split; [vm_compute; reflexivity|].
  split; [vm_compute; discriminate|].
  eexists. split; [vm_compute; reflexivity|]. split; reflexivity.
Qed.

(** [ALIGN_UP] with a power of two is at least its argument. *)
Lemma ALIGN_UP_ge (x k : Z) :
  0 <= k < 64 -> 0 <= x -> x + 2 ^ k <= 2 ^ 64 ->
  x <= ALIGN_UP x (2 ^ k).
Proof.
  intros Hk Hx Hfit. unfold ALIGN_UP.
  assert (Hp : 0 < 2 ^ k) by (apply Z.pow_pos_nonneg; lia).
  rewrite wrap_small by lia.
  replace (2 ^ k - 1) with (Z.ones k) by (rewrite Z.ones_equiv; lia).
  rewrite land_lnot64_ones by lia.
  pose proof (Z.div_mod (x + 2 ^ k - 1) (2 ^ k) ltac:(lia)) as Hdm.
  pose proof (Z.mod_pos_bound (x + 2 ^ k - 1) (2 ^ k) Hp) as Hm.
  lia.
Qed.

(** C10.  With no realloc hook installed, for a non-null pointer whose
    chunk is page-mapped, is not a dumped-arena chunk and passes the
    pointer check of [__libc_realloc], and for a request [n] with
    [0 < n <= PTRDIFF_MAX] (a request of 0 bytes is a release): whenever
    the page-aligned value of (the padded size of [n] + the chunk's stored
    map offset + one word) equals the chunk's current total mapped size,
    [__libc_realloc] returns the pointer itself and leaves the whole state
    unchanged: chunk header, mapping and mmap counters.  With remapping
    available this is [mremap_chunk], whose pointer check the chunk is to
    pass; with remapping compiled out, it is the test that the chunk is
    large enough, for a page size that is a power of two and sizes that
    do not wrap around. *)
Theorem realloc_mmapped_same_pages (E : externals) (fuel : nat)
    (oldmem bytes : Z) (s : state) :
  __realloc_hook E = None ->
  2 * SIZE_SZ < oldmem < 2 ^ 64 ->
  0 < bytes <= PTRDIFF_MAX ->
  let oldp := mem2chunk oldmem in
  let offset := prev_size (mem s) oldp in
  let size := chunksize (mem s) oldp in
  chunk_is_mmapped (mem s) oldp <> 0 ->
  DUMPED_MAIN_ARENA_CHUNK s oldp = false ->
  ~ wrap (- size) < oldp ->
  misaligned_chunk oldp = 0 ->
  (HAVE_MREMAP E = true
   /\ Z.land (Z.lor (wrap (oldp - offset)) (wrap (offset + size)))
             (wrap (dl_pagesize s - 1)) = 0
   /\ powerof2 (Z.land oldmem (wrap (dl_pagesize s - 1))) = true)
  \/ (HAVE_MREMAP E = false
      /\ (exists k : Z, 0 <= k < 64 /\ dl_pagesize s = 2 ^ k)
      /\ request2size bytes + offset + SIZE_SZ + dl_pagesize s <= 2 ^ 64
      /\ offset + size < 2 ^ 64) ->
  ALIGN_UP (wrap (wrap (request2size bytes + offset) + SIZE_SZ)) (dl_pagesize s)
  = wrap (offset + size) ->
  __libc_realloc E fuel oldmem bytes s = Done oldmem s.
Proof.
  intros Hhook Hold Hbytes oldp offset size Hmm Hdump Hwrap Hal Hcase Hsame.
  assert (Hc2m : chunk2mem oldp = oldmem).
  { apply chunk2mem_mem2chunk. change SIZE_SZ with 8 in Hold. lia. }
  assert (Hpnz : oldp <> 0) by (apply mem2chunk_nonzero; exact Hold).
  unfold __libc_realloc. rewrite Hhook.
  destruct (Z.eqb_spec bytes 0) as [|_]; [lia|]. cbn [andb].
  destruct (Z.eqb_spec oldmem 0) as [|_]; [change SIZE_SZ with 8 in Hold; lia|].
  fold oldp. unfold bind at 1. unfold get at 1.
  destruct (Z.eqb_spec (chunk_is_mmapped (mem s) oldp) 0) as [|_];
    [contradiction|].
  cbn [negb]. unfold bind at 1. unfold ret at 1.
  unfold bind at 1. unfold get at 1.
  fold size.
  destruct (Z.ltb_spec (wrap (- size)) oldp) as [|_]; [contradiction|].
  rewrite Hal, Hdump. cbn [Z.eqb negb orb andb].
  unfold checked_request2size.
  destruct (Z.ltb_spec PTRDIFF_MAX bytes) as [|_]; [lia|].
  destruct (Z.eqb_spec (chunk_is_mmapped (mem s) oldp) 0) as [|_];
    [contradiction|].
  cbn [negb].
  destruct Hcase as [(Hre & Hpage & Hpow)|(Hre & (k & Hk & Hps) & Hfit & Hos)];
    rewrite Hre.
  - assert (Hmr : mremap_chunk E oldp (request2size bytes) s = Done oldp s).
    { unfold mremap_chunk, bind, get. fold offset. fold size.
      destruct (Z.eqb_spec (chunk_is_mmapped (mem s) oldp) 0) as [|_];
        [contradiction|].
      cbn [negb assert]. unfold ret at 1.
      rewrite Hc2m, Hpage, Hpow. cbn [Z.eqb negb orb].
      rewrite Hsame, Z.eqb_refl. reflexivity. }
    unfold bind. rewrite Hmr.
    destruct (Z.eqb_spec oldp 0) as [|_]; [contradiction|]. cbn [negb].
    rewrite Hc2m. reflexivity.
  - unfold bind at 1. unfold ret at 1. cbn [Z.eqb negb].
    pose proof (request2size_fits bytes ltac:(lia)) as (_ & Hmin & _ & _).
    change MINSIZE with 32 in Hmin. change SIZE_SZ with 8 in *.
    assert (Hoff : 0 <= offset) by (apply load_range).
    assert (Hsz : 0 <= size) by (apply chunksize_range).
    rewrite Hps in *.
    assert (Hp : 0 < 2 ^ k) by (apply Z.pow_pos_nonneg; lia).
    rewrite (wrap_small (request2size bytes + offset)) in Hsame by lia.
    rewrite (wrap_small (request2size bytes + offset + 8)) in Hsame by lia.
    rewrite (wrap_small (offset + size)) in Hsame by lia.
    pose proof (ALIGN_UP_ge (request2size bytes + offset + 8) k Hk
                  ltac:(lia) ltac:(lia)) as Hge.
    rewrite Hsame in Hge.
    rewrite (wrap_small (size - 8)) by lia.
    destruct (Z.leb_spec (request2size bytes) (size - 8)) as [_|Hlt]; [|lia].
    reflexivity.
Qed.

Lemma realloc_mmapped_same_pages_witness :
  __libc_realloc quiet_env 1 (chunk2mem mapped_chunk) 0x20000 state_mapped
  = Done (chunk2mem mapped_chunk) state_mapped.
Proof.
  apply (realloc_mmapped_same_pages quiet_env 1 (chunk2mem mapped_chunk)
           0x20000 state_mapped).
  - reflexivity.
  - vm_compute. split; reflexivity.
  - vm_compute. split; [reflexivity | discriminate].
  - vm_compute. discriminate.
  - reflexivity.
  - vm_compute. discriminate.
  - vm_compute. reflexivity.
  - left. split; [reflexivity|]. split; vm_compute; reflexivity.
  - vm_compute. reflexivity.
Defined.

(** ** C4: the last-remainder split *)

Lemma lor_range (a b : Z) :
  0 <= a < 2 ^ 64 -> 0 <= b < 2 ^ 64 -> 0 <= Z.lor a b < 2 ^ 64.
Proof.
  intros Ha Hb. split; [apply Z.lor_nonneg; lia|].
  destruct (Z.eq_dec (Z.lor a b) 0) as [->|Hnz]; [lia|].
  assert (Hpos : 0 < Z.lor a b).
  { pose proof (proj2 (Z.lor_nonneg a b) (conj (proj1 Ha) (proj1 Hb))). lia. }
  apply Z.log2_lt_pow2; [exact Hpos|].
  rewrite Z.log2_lor by lia.
  destruct (Z.eq_dec a 0) as [->|Ha0]; destruct (Z.eq_dec b 0) as [->|Hb0];
    cbn [Z.log2]; try lia.
  - apply Z.max_lub_lt; [lia | apply Z.log2_lt_pow2; lia].
  - apply Z.max_lub_lt; [apply Z.log2_lt_pow2; lia | lia].
  - apply Z.max_lub_lt; apply Z.log2_lt_pow2; lia.
Qed.

Ltac unfold_offsets :=
  unfold off_fd, off_bk, off_size, off_prev_size, off_fd_nextsize,
         off_bk_nextsize, SIZE_SZ in *.

(** Read a word back through the stores and fills that followed. *)
Ltac read_back :=
  repeat first
    [ rewrite load_store_eq
    | rewrite load_store_ne by lia
    | rewrite load_memset_ne by lia ].

(** The split, run on a state in which the chunk and the header of the
    unsorted bin do not overlap. *)
Lemma unsorted_split_spec (victim size nb bytes : Z) (s : state) :
  let U := unsorted_chunks (av s) in
  let R := victim + nb in
  0 <= U < 2 ^ 64 ->
  0 <= victim -> victim + size + 8 <= 2 ^ 64 ->
  U + 32 <= victim \/ victim + size + 8 <= U + 16 ->
  0 <= bytes -> bytes + 8 <= nb -> nb + MINSIZE < size ->
  exists s',
    unsorted_split victim size nb bytes s = Done (chunk2mem victim) s'
    /\ chunk2mem victim = victim + 16
    /\ last_remainder (av s') = R
    /\ unsorted_chunks (av s') = U
    /\ load (mem s') (U + off_fd) = R
    /\ load (mem s') (U + off_bk) = R
    /\ load (mem s') (R + off_fd) = U
    /\ load (mem s') (R + off_bk) = U
    /\ chunksize_nomask (mem s') victim
       = Z.lor (Z.lor nb PREV_INUSE) (if main (av s) then 0 else NON_MAIN_ARENA)
    /\ chunksize_nomask (mem s') R = Z.lor (size - nb) PREV_INUSE
    /\ prev_size (mem s') (victim + size) = size - nb
    /\ tcache_data s' = tcache_data s
    /\ mp_ s' = mp_ s.
Proof.
  intros U R HU Hv Hend Hdisj Hb Hbn Hsz.
  change MINSIZE with 32 in Hsz.
  assert (E1 : chunk_at_offset victim nb = R).
  { unfold chunk_at_offset. apply wrap_small. lia. }
  assert (E2 : wrap (size - nb) = size - nb) by (apply wrap_small; lia).
  assert (E3 : wrap (R + (size - nb)) = victim + size).
  { unfold R. rewrite wrap_small by lia. lia. }
  assert (E4 : chunk2mem victim = victim + 16).
  { unfold chunk2mem. change (2 * SIZE_SZ) with 16. apply wrap_small. lia. }
  assert (Hhead : 0 <= Z.lor (Z.lor nb PREV_INUSE)
                         (if negb (main (av s)) then NON_MAIN_ARENA else 0) < 2 ^ 64).
  { apply lor_range; [apply lor_range; [lia | unfold PREV_INUSE; lia]|].
    destruct (main (av s)); cbn; unfold NON_MAIN_ARENA; lia. }
  assert (Hrem : 0 <= Z.lor (size - nb) PREV_INUSE < 2 ^ 64).
  { apply lor_range; [lia | unfold PREV_INUSE; lia]. }
  unfold unsorted_split, bind, get. fold U. rewrite E1, E2.
  unfold wr, modify, alloc_perturb, ret, set_head, set_foot,
    chunksize_nomask, prev_size.
  cbn [mem av set_mem set_av set_last_remainder last_remainder bins
       unsorted_chunks bin_at perturb_byte tcache_data mp_ main].
  rewrite E3, E4.
  destruct (in_smallbin_range (size - nb)) eqn:Hrs; cbn [negb];
    [| unfold in_smallbin_range in Hrs; apply Z.ltb_ge in Hrs;
       change MIN_LARGE_SIZE with 1024 in Hrs];
    cbn [mem av set_mem set_av set_last_remainder last_remainder bins
         unsorted_chunks bin_at perturb_byte tcache_data mp_ main];
    (destruct (perturb_byte s =? 0);
     eexists; (split; [reflexivity|]);
     cbn [mem av set_mem set_av set_last_remainder last_remainder bins
          unsorted_chunks bin_at perturb_byte tcache_data mp_ main];
     (split; [reflexivity|]); (split; [reflexivity|]); (split; [reflexivity|]);
     unfold U, R in *; unfold unsorted_chunks, bin_at in *;
     unfold_offsets;
     repeat split; read_back;
     try (apply wrap_small; lia);
     try reflexivity;
     try (destruct (main (av s)); cbn [negb] in *; apply wrap_small; assumption)).
Qed.

Lemma int_malloc_loop_unfold (E : externals) (rounds fuel : nat)
    (nb bytes idx tcache_nb tc_idx count : Z) (cached : bool) :
  int_malloc_loop E rounds fuel nb bytes idx tcache_nb tc_idx count cached
  = (do r <- unsorted_drain fuel nb bytes tcache_nb tc_idx
               (Build_drain_locals 0 count cached);
     match r with
     | DrainVictim p => ret p
     | DrainCached p _ => ret p
     | DrainNone l =>
         do q <- int_malloc_bins E nb bytes idx;
         match q with
         | Some p => ret p
         | None =>
             match rounds with
             | O => out_of_fuel
             | S k => int_malloc_loop E k fuel nb bytes idx tcache_nb tc_idx
                        (tcache_unsorted_count l) (return_cached l)
             end
         end
     end).
Proof. destruct rounds; reflexivity. Qed.

(** A chunk the body of the loop returns is what the loop, the drain and
    the allocation loop return. *)
Lemma body_return_is_returned (E : externals) (rounds fuel : nat)
    (nb bytes idx tcache_nb tc_idx count : Z) (cached : bool)
    (victim p : Z) (s s' : state) :
  load (mem s) (unsorted_chunks (av s) + off_bk) = victim ->
  victim <> unsorted_chunks (av s) ->
  unsorted_body (S fuel) nb bytes tcache_nb tc_idx victim
    (Build_drain_locals 0 count cached) s = Done (BReturn p) s' ->
  unsorted_drain (S fuel) nb bytes tcache_nb tc_idx
    (Build_drain_locals 0 count cached) s = Done (DrainVictim p) s'
  /\ int_malloc_loop E rounds (S fuel) nb bytes idx tcache_nb tc_idx count cached s
     = Done p s'.
Proof.
  intros Htail Hne Hbody.
  assert (Hd : unsorted_drain (S fuel) nb bytes tcache_nb tc_idx
                 (Build_drain_locals 0 count cached) s = Done (DrainVictim p) s').
  { unfold unsorted_drain. cbn [unsorted_loop]. unfold bind at 1 2. unfold get at 1.
    rewrite Htail.
    destruct (Z.eqb_spec victim (unsorted_chunks (av s))) as [|_]; [contradiction|].
    cbn [negb]. unfold bind at 1. rewrite Hbody. reflexivity. }
  split; [exact Hd|].
  rewrite int_malloc_loop_unfold. unfold bind at 1. rewrite Hd. reflexivity.
Qed.

(** C4, as stated, fails at the boundary.  In [state_remainder 0x40] the
    request (padded size 32) is in small-bin range, the chunk at the tail of
    the unsorted bin is its only chunk and the arena's last remainder, it
    passes the integrity checks and its size is 64, which is the request
    plus the minimum chunk size.  The drain does not split it: the chunk is
    moved, whole, to the small bin for size 64 and nothing is returned. *)
Lemma last_remainder_of_minimum_excess_not_split :
  in_smallbin_range 32 = true
  /\ load (mem (state_remainder 0x40))
          (unsorted_chunks (av (state_remainder 0x40)) + off_bk) = rem_chunk
  /\ unsorted_checks rem_chunk (state_remainder 0x40)
     = Done (unsorted_chunks (av (state_remainder 0x40)), 0x40)
            (state_remainder 0x40)
  /\ last_remainder (av (state_remainder 0x40)) = rem_chunk
  /\ 32 + MINSIZE <= 0x40
  /\ exists l s',
       unsorted_drain 1 32 24 32 0 fresh_locals (state_remainder 0x40)
       = Done (DrainNone l) s'
       /\ chunksize_nomask (mem s') rem_chunk = Z.lor 0x40 PREV_INUSE
       /\ load (mem s') (bin_at (av s') (smallbin_index 0x40) + off_bk) = rem_chunk
       /\ load (mem s') (unsorted_chunks (av s') + off_bk) = unsorted_chunks (av s').
Proof.
  split; [reflexivity|].
  split; [vm_compute; reflexivity|].
  split; [vm_compute; reflexivity|].
  split; [reflexivity|].
  split; [vm_compute; discriminate|].
  eexists. eexists.
  split; [vm_compute; reflexivity|].
  split; [vm_compute; reflexivity|].
  split; vm_compute; reflexivity.
Qed.

(** C4, amended.  While [_int_malloc] processes the unsorted bin for a
    request in small-bin range: if the chunk T at the tail passes the
    integrity checks, is the only chunk of the bin, is the arena's last
    remainder and its size is greater than the request plus the minimum
    chunk size (and the header of the bin lies outside T), then T is split:
    the request is carved off the front and returned; the rest, at
    [T + nb], becomes the last remainder and the only chunk of the unsorted
    bin, its head carries its size and the P flag, its size is written as
    boundary tag in front of the chunk that follows, and the head of the
    front part carries the request size and the P flag (and the A flag
    outside the main arena).  The tcache is left alone. *)
Theorem last_remainder_split (E : externals) (rounds fuel : nat)
    (nb bytes idx tcache_nb tc_idx count : Z) (cached : bool)
    (victim size : Z) (s : state) :
  let U := unsorted_chunks (av s) in
  let R := victim + nb in
  0 <= bytes ->
  checked_request2size bytes = Some nb ->
  in_smallbin_range nb = true ->
  load (mem s) (U + off_bk) = victim ->
  victim <> U ->
  unsorted_checks victim s = Done (U, size) s ->
  victim = last_remainder (av s) ->
  nb + MINSIZE < size ->
  0 <= U < 2 ^ 64 ->
  0 <= victim -> victim + size + 8 <= 2 ^ 64 ->
  U + 32 <= victim \/ victim + size + 8 <= U + 16 ->
  exists s',
    int_malloc_loop E rounds (S fuel) nb bytes idx tcache_nb tc_idx count cached s
    = Done (chunk2mem victim) s'
    /\ last_remainder (av s') = R
    /\ load (mem s') (U + off_fd) = R
    /\ load (mem s') (U + off_bk) = R
    /\ load (mem s') (R + off_fd) = U
    /\ load (mem s') (R + off_bk) = U
    /\ chunksize_nomask (mem s') victim
       = Z.lor (Z.lor nb PREV_INUSE) (if main (av s) then 0 else NON_MAIN_ARENA)
    /\ chunksize_nomask (mem s') R = Z.lor (size - nb) PREV_INUSE
    /\ prev_size (mem s') (victim + size) = size - nb
    /\ tcache_data s' = tcache_data s.
Proof.
  intros U R Hb Hreq Hsmall Htail Hne Hchecks Hlr Hsz HU Hv Hend Hdisj.
  assert (Hnb : bytes + 8 <= nb).
  { unfold checked_request2size in Hreq.
    destruct (Z.ltb_spec PTRDIFF_MAX bytes) as [|Hle]; [discriminate|].
    injection Hreq as <-.
    pose proof (request2size_fits bytes (conj Hb Hle)) as Hf.
    change SIZE_SZ with 8 in Hf. lia. }
  destruct (unsorted_split_spec victim size nb bytes s HU Hv Hend Hdisj Hb Hnb Hsz)
    as (s' & Hsplit & _ & Hr1 & _ & Hr2 & Hr3 & Hr4 & Hr5 & Hr6 & Hr7 & Hr8 & Hr9 & _).
  exists s'.
  assert (Hbody : unsorted_body (S fuel) nb bytes tcache_nb tc_idx victim
                    (Build_drain_locals 0 count cached) s
                  = Done (BReturn (chunk2mem victim)) s').
  { unfold unsorted_body. unfold bind at 1. rewrite Hchecks. cbn [fst snd].
    unfold bind at 1. unfold get at 1.
    assert (Hguard : use_last_remainder s nb victim U size = true).
    { unfold use_last_remainder. rewrite Hsmall. fold U. rewrite Z.eqb_refl.
      rewrite <- Hlr, Z.eqb_refl. cbn [andb].
      apply Z.ltb_lt. change MINSIZE with 32 in *. rewrite wrap_small; lia. }
    rewrite Hguard. unfold bind. rewrite Hsplit. reflexivity. }
  split.
  - apply (body_return_is_returned E rounds fuel nb bytes idx tcache_nb tc_idx
             count cached victim (chunk2mem victim) s s' Htail Hne Hbody).
  - repeat split; assumption.
Qed.

Lemma last_remainder_split_witness :
  exists s',
    int_malloc_loop quiet_env 1 1 32 24 2 32 0 0 false (state_remainder 0x100)
    = Done (chunk2mem rem_chunk) s'
    /\ last_remainder (av s') = rem_chunk + 32
    /\ load (mem s') (unsorted_chunks (av (state_remainder 0x100)) + off_fd)
       = rem_chunk + 32
    /\ load (mem s') (unsorted_chunks (av (state_remainder 0x100)) + off_bk)
       = rem_chunk + 32
    /\ load (mem s') (rem_chunk + 32 + off_fd)
       = unsorted_chunks (av (state_remainder 0x100))
    /\ load (mem s') (rem_chunk + 32 + off_bk)
       = unsorted_chunks (av (state_remainder 0x100))
    /\ chunksize_nomask (mem s') rem_chunk
       = Z.lor (Z.lor 32 PREV_INUSE)
           (if main (av (state_remainder 0x100)) then 0 else NON_MAIN_ARENA)
    /\ chunksize_nomask (mem s') (rem_chunk + 32) = Z.lor (0x100 - 32) PREV_INUSE
    /\ prev_size (mem s') (rem_chunk + 0x100) = 0x100 - 32
    /\ tcache_data s' = tcache_data (state_remainder 0x100).
Proof.
  apply (last_remainder_split quiet_env 1 0 32 24 2 32 0 0 false rem_chunk 0x100
           (state_remainder 0x100)).
  - vm_compute. discriminate.
  - reflexivity.
  - reflexivity.
  - vm_compute. reflexivity.
  - vm_compute. discriminate.
  - vm_compute. reflexivity.
  - reflexivity.
  - vm_compute. reflexivity.
  - vm_compute. split; [discriminate | reflexivity].
  - vm_compute. discriminate.
  - vm_compute. discriminate.
  - left. vm_compute. discriminate.
Defined.

(** ** Reasoning about runs *)

Lemma bind_inv {A B : Type} (c : M A) (k : A -> M B) (s : state) (b : B)
    (s' : state) :
  bind c k s = Done b s' ->
  exists a s1, c s = Done a s1 /\ k a s1 = Done b s'.
Proof.
  unfold bind. destruct (c s) as [a s1| |]; intros H; try discriminate.
  exists a, s1. split; [reflexivity | exact H].
Qed.

(** Decompose a hypothesis that says a computation ended normally into the
    steps of the computation. *)
Ltac minv :=
  repeat match goal with
  | H : bind _ _ _ = Done _ _ |- _ =>
      apply bind_inv in H; destruct H as (? & ? & ? & H)
  | H : get _ = Done _ _ |- _ => cbv beta delta [get] in H; inversion H; subst; clear H
  | H : ret _ _ = Done _ _ |- _ => cbv beta delta [ret] in H; inversion H; subst; clear H
  | H : wr _ _ _ = Done _ _ |- _ => cbv beta delta [wr] in H; inversion H; subst; clear H
  | H : rd _ _ = Done _ _ |- _ => cbv beta delta [rd] in H; inversion H; subst; clear H
  | H : modify _ _ = Done _ _ |- _ =>
      cbv beta delta [modify] in H; inversion H; subst; clear H
  | H : malloc_printerr _ _ = Done _ _ |- _ => discriminate H
  | H : out_of_fuel _ = Done _ _ |- _ => discriminate H
  | H : assert ?b _ _ = Done _ _ |- _ =>
      destruct b; cbv beta iota delta [assert ret malloc_printerr] in H;
      [inversion H; subst; clear H | discriminate H]
  | H : (if ?b then _ else _) _ = Done _ _ |- _ => destruct b eqn:?
  | H : Done _ _ = Done _ _ |- _ => inversion H; subst; clear H
  | H : Abort _ _ = Done _ _ |- _ => discriminate H
  | H : OutOfFuel = Done _ _ |- _ => discriminate H
  end.

Lemma same_tcache_refl (s : state) : same_tcache s s.
Proof. repeat split. Qed.

Lemma same_tcache_trans (s1 s2 s3 : state) :
  same_tcache s1 s2 -> same_tcache s2 s3 -> same_tcache s1 s3.
Proof.
  intros (A1 & A2 & A3) (B1 & B2 & B3). repeat split; congruence.
Qed.

Lemma alloc_perturb_same (p n : Z) (s s' : state) (u : unit) :
  alloc_perturb p n s = Done u s' -> same_tcache s s'.
Proof.
  unfold alloc_perturb. destruct (perturb_byte s =? 0); intros H;
    inversion H; subst; repeat split.
Qed.

Lemma free_perturb_same (p n : Z) (s s' : state) (u : unit) :
  free_perturb p n s = Done u s' -> same_tcache s s'.
Proof.
  unfold free_perturb. destruct (perturb_byte s =? 0); intros H;
    inversion H; subst; repeat split.
Qed.

Lemma unsorted_checks_inv (victim : Z) (s s' : state) (bs : Z * Z) :
  unsorted_checks victim s = Done bs s' ->
  s' = s
  /\ fst bs = load (mem s) (victim + off_bk)
  /\ snd bs = chunksize (mem s) victim
  /\ load (mem s) (fst bs + off_fd) = victim.
Proof.
  unfold unsorted_checks. intros H. minv. cbn [fst snd].
  repeat split.
  match goal with
  | Hc : negb (load _ _ =? _) || _ = false |- _ =>
      apply orb_false_iff in Hc; destruct Hc as [Hc _];
      apply negb_false_iff in Hc; apply Z.eqb_eq in Hc; exact Hc
  end.
Qed.

Lemma unsorted_split_same (victim size nb bytes : Z) (s s' : state) (p : Z) :
  unsorted_split victim size nb bytes s = Done p s' -> same_tcache s s'.
Proof.
  unfold unsorted_split. intros H. minv;
    match goal with
    | Hp : alloc_perturb _ _ _ = Done _ _ |- _ =>
        apply alloc_perturb_same in Hp; destruct Hp as (P1 & P2 & P3);
        cbn in P1, P2, P3; repeat split; assumption
    end.
Qed.

Lemma largebin_skip_inv (fuel : nat) : forall (size fwd : Z) (s s' : state) (r : Z),
  largebin_skip fuel size fwd s = Done r s' -> s' = s.
Proof.
  induction fuel as [|f IH]; intros size fwd s s' r H; cbn [largebin_skip] in H.
  - minv. reflexivity.
  - minv.
    + match goal with
      | Hr : largebin_skip _ _ _ _ = Done _ _ |- _ => apply IH in Hr; exact Hr
      end.
    + reflexivity.
Qed.

Lemma place_in_bin_same (fuel : nat) (victim size : Z) (s s' : state)
    (r : Z * Z * Z) :
  place_in_bin fuel victim size s = Done r s' -> same_tcache s s'.
Proof.
  unfold place_in_bin. intros H. minv;
    try match goal with
    | Hr : largebin_skip _ _ _ _ = Done _ _ |- _ =>
        apply largebin_skip_inv in Hr; subst
    end;
    minv; repeat split.
Qed.

(** What one pass through the body of the loop does to the tcache and to
    the loop variables, by the way the pass ends. *)
Lemma unsorted_body_inv (fuel : nat) (nb bytes tcache_nb tc_idx victim : Z)
    (l : drain_locals) (s s' : state) (r : body_result) :
  unsorted_body fuel nb bytes tcache_nb tc_idx victim l s = Done r s' ->
  mp_ s' = mp_ s /\ tcache s' = tcache s /\
  match r with
  | BReturn _ => tcache_data s' = tcache_data s
  | BReturnCached l' =>
      tcache_data s' = tcache_data s
      /\ return_cached l' = true
      /\ 0 < tcache_unsorted_limit (mp_ s)
      /\ tcache_unsorted_limit (mp_ s) < tcache_unsorted_count l'
      /\ iters l' = iters l
      /\ return_cached l' = return_cached l
  | BContinue l' =>
      iters l' = iters l
      /\ tcache_unsorted_count l' = tcache_unsorted_count l
      /\ return_cached l' = true
      /\ tcache_nb <> 0
      /\ nth_z (counts (tcache_data s)) tc_idx < tcache_count (mp_ s)
      /\ tcache_data s'
         = Build_tcache
             (upd_z (counts (tcache_data s)) tc_idx
                    (wrap16 (nth_z (counts (tcache_data s)) tc_idx + 1)))
             (upd_z (entries (tcache_data s)) tc_idx (chunk2mem victim))
  | BNext l' =>
      tcache_data s' = tcache_data s
      /\ iters l' = iters l
      /\ return_cached l' = return_cached l
  end.
Proof.
  intros H. unfold unsorted_body in H.
  apply bind_inv in H. destruct H as (bs & s1 & Hc & H).
  apply unsorted_checks_inv in Hc. destruct Hc as (-> & _).
  minv.
  all: try match goal with
    | Hp : unsorted_split _ _ _ _ _ = Done _ _ |- _ =>
        apply unsorted_split_same in Hp; destruct Hp as (P1 & P2 & P3)
    end.
  all: try match goal with
    | Hp : place_in_bin _ _ _ _ = Done _ _ |- _ =>
        apply place_in_bin_same in Hp; destruct Hp as (P1 & P2 & P3)
    end.
  all: try match goal with
    | Hp : alloc_perturb _ _ _ = Done _ _ |- _ =>
        apply alloc_perturb_same in Hp; destruct Hp as (P1 & P2 & P3)
    end.
  all: try match goal with
    | Hp : tcache_put _ _ _ = Done _ _ |- _ =>
        unfold tcache_put in Hp; inversion Hp; subst; clear Hp
    end.
  all: cbn [mp_ tcache tcache_data set_mem set_av set_tcache iters
            tcache_unsorted_count return_cached] in *.
  all: repeat match goal with
    | Hb : _ && _ = true |- _ => apply andb_true_iff in Hb; destruct Hb
    | Hb : negb _ = true |- _ => apply negb_true_iff in Hb
    | Hb : (_ <? _) = true |- _ => apply Z.ltb_lt in Hb
    | Hb : (_ =? _) = false |- _ => apply Z.eqb_neq in Hb
    end.
  all: try rewrite P1 in *.
  all: repeat split; try assumption; try congruence.
Qed.

Lemma tcache_get_same_par (tc_idx : Z) (s s' : state) (p : Z) :
  tcache_get tc_idx s = Done p s' -> mp_ s' = mp_ s.
Proof. unfold tcache_get. intros H. inversion H. reflexivity. Qed.

(** How the loop over the unsorted bin can end. *)
Lemma unsorted_loop_inv (fuel : nat) :
  forall (nb bytes tcache_nb tc_idx : Z) (l : drain_locals) (s s' : state)
         (r : loop_result),
  unsorted_loop fuel nb bytes tcache_nb tc_idx l s = Done r s' ->
  mp_ s' = mp_ s /\
  match r with
  | LReturn _ => True
  | LReturnCached _ l' =>
      return_cached l' = true
      /\ 0 < tcache_unsorted_limit (mp_ s)
      /\ tcache_unsorted_limit (mp_ s) < tcache_unsorted_count l'
  | LExit l' =>
      load (mem s') (unsorted_chunks (av s') + off_bk) = unsorted_chunks (av s')
      \/ MAX_ITERS <= iters l'
  end.
Proof.
  induction fuel as [|f IH]; intros nb bytes tcache_nb tc_idx l s s' r H;
    cbn [unsorted_loop] in H.
  - minv. split; [reflexivity|]. left.
    match goal with
    | Hb : negb (_ =? _) = false |- _ =>
        apply negb_false_iff in Hb; apply Z.eqb_eq in Hb; exact Hb
    end.
  - apply bind_inv in H. destruct H as (s0 & s1 & Hg & H).
    cbv beta delta [get] in Hg. inversion Hg; subst; clear Hg.
    destruct (negb (load (mem s1) (unsorted_chunks (av s1) + off_bk)
                    =? unsorted_chunks (av s1))) eqn:Hne.
    + apply bind_inv in H. destruct H as (br & s2 & Hbody & H).
      apply unsorted_body_inv in Hbody. destruct Hbody as (Hmp & _ & Hbr).
      destruct br as [p | l' | l' | l'].
      * minv. split; [exact Hmp | exact I].
      * apply bind_inv in H. destruct H as (p & s3 & Hget & H).
        apply tcache_get_same_par in Hget. minv.
        split; [congruence|]. destruct Hbr as (_ & Hrc & Hl1 & Hl2 & _).
        repeat split; assumption.
      * apply IH in H. destruct H as (Hmp' & Hr).
        split; [congruence|].
        destruct r; [exact I | rewrite <- Hmp; exact Hr | exact Hr].
      * cbn [iters] in H.
        destruct (MAX_ITERS <=? iters l' + 1) eqn:Hmax.
        -- minv. split; [exact Hmp|]. right. cbn [iters].
           apply Z.leb_le in Hmax. exact Hmax.
        -- apply IH in H. destruct H as (Hmp' & Hr).
           split; [congruence|].
           destruct r; [exact I | rewrite <- Hmp; exact Hr | exact Hr].
    + minv. split; [reflexivity|]. left.
      apply negb_false_iff in Hne. apply Z.eqb_eq in Hne. exact Hne.
Qed.

(** ** C5: exact fits and the tcache while the unsorted bin is processed *)

(** C5, as stated, fails.  In [state_exact] the unsorted bin holds a single
    chunk, of exactly the requested size 48, and the tcache bucket has room;
    the configured cap on processed chunks is 0 (no limit).  The chunk is
    cached, the bin is then empty, and the cached chunk is returned at once:
    the iteration counter is 0, far from the limit of 10000, and the count
    of processed chunks, 0, does not exceed the cap. *)
Lemma lone_exact_fit_returned_before_any_limit :
  exists l' s',
    unsorted_drain 1 48 40 48 1 fresh_locals state_exact
    = Done (DrainCached (chunk2mem rem_chunk) l') s'
    /\ iters l' < MAX_ITERS
    /\ ~ tcache_unsorted_limit (mp_ state_exact) < tcache_unsorted_count l'
    /\ __libc_malloc quiet_env 1 40 state_exact = Done (chunk2mem rem_chunk) s'.
Proof.
  eexists. eexists.
  split; [vm_compute; reflexivity|].
  split; [vm_compute; reflexivity|].
  split; [vm_compute; discriminate|].
  vm_compute. reflexivity.
Qed.

(** The chunk of the requested size goes to the tcache and the loop goes
    on: the pass ends in [continue], with [return_cached] set. *)
Lemma exact_fit_goes_to_tcache (fuel : nat) (nb bytes tcache_nb tc_idx : Z)
    (victim bck : Z) (l : drain_locals) (s : state) :
  unsorted_checks victim s = Done (bck, nb) s ->
  0 <= nb < 2 ^ 63 ->
  tcache_nb <> 0 ->
  nth_z (counts (tcache_data s)) tc_idx < tcache_count (mp_ s) ->
  exists s',
    unsorted_body fuel nb bytes tcache_nb tc_idx victim l s
    = Done (BContinue (Build_drain_locals (iters l) (tcache_unsorted_count l) true)) s'
    /\ tcache_data s'
       = Build_tcache
           (upd_z (counts (tcache_data s)) tc_idx
                  (wrap16 (nth_z (counts (tcache_data s)) tc_idx + 1)))
           (upd_z (entries (tcache_data s)) tc_idx (chunk2mem victim)).
Proof.
  intros Hchecks Hnb Htnb Hroom.
  pose proof (unsorted_checks_inv victim s s (bck, nb) Hchecks) as (_ & _ & _ & Hlink).
  cbn [fst] in Hlink.
  assert (Hguard : use_last_remainder s nb victim bck nb = false).
  { unfold use_last_remainder.
    assert (Hw : (wrap (nb + MINSIZE) <? nb) = false).
    { apply Z.ltb_ge. change MINSIZE with 32. rewrite wrap_small; lia. }
    rewrite Hw. rewrite !andb_false_r. reflexivity. }
  assert (Hcond : forall s1, tcache_data s1 = tcache_data s -> mp_ s1 = mp_ s ->
            negb (tcache_nb =? 0)
            && (nth_z (counts (tcache_data s1)) tc_idx <? tcache_count (mp_ s1)) = true).
  { intros s1 -> ->. apply andb_true_iff. split.
    - apply negb_true_iff. apply Z.eqb_neq. exact Htnb.
    - apply Z.ltb_lt. exact Hroom. }
  unfold unsorted_body. unfold bind at 1. rewrite Hchecks. cbn [fst snd].
  unfold bind at 1. unfold get at 1. rewrite Hguard.
  unfold bind at 1. unfold rd at 1. rewrite Hlink, Z.eqb_refl. cbn [negb].
  unfold bind at 1. unfold wr at 1.
  unfold bind at 1. unfold wr at 1.
  rewrite Z.eqb_refl.
  unfold bind at 1. unfold modify at 1.
  destruct (main (av s)); cbn [negb];
    unfold bind at 1; [unfold ret at 1 | unfold modify at 1];
    unfold bind at 1; unfold get at 1;
    rewrite Hcond by reflexivity;
    unfold bind, tcache_put, ret; eexists; split; reflexivity.
Qed.

(** C5, amended.  While [_int_malloc] processes the unsorted bin: (1) a
    chunk of exactly the requested size that passes the checks, met while
    the tcache bucket is not full, is put into the tcache and the loop
    continues, it is not returned at that point; (2) a cached chunk (the
    head of the tcache bucket) is returned only when (a) the iteration limit
    10000 was reached, or (b) the configured cap is positive and the count of
    processed chunks exceeds it, or (c) the unsorted bin was found empty. *)
Theorem exact_fit_cached_then_returned (fuel : nat)
    (nb bytes tcache_nb tc_idx : Z) :
  (forall (victim bck : Z) (l : drain_locals) (s : state),
     unsorted_checks victim s = Done (bck, nb) s ->
     0 <= nb < 2 ^ 63 ->
     tcache_nb <> 0 ->
     nth_z (counts (tcache_data s)) tc_idx < tcache_count (mp_ s) ->
     exists s',
       unsorted_body fuel nb bytes tcache_nb tc_idx victim l s
       = Done (BContinue (Build_drain_locals (iters l)
                            (tcache_unsorted_count l) true)) s'
       /\ tcache_data s'
          = Build_tcache
              (upd_z (counts (tcache_data s)) tc_idx
                     (wrap16 (nth_z (counts (tcache_data s)) tc_idx + 1)))
              (upd_z (entries (tcache_data s)) tc_idx (chunk2mem victim)))
  /\ (forall (l l' : drain_locals) (s s' : state) (p : Z),
        unsorted_drain fuel nb bytes tcache_nb tc_idx l s
        = Done (DrainCached p l') s' ->
        return_cached l' = true
        /\ (MAX_ITERS <= iters l'
            \/ (0 < tcache_unsorted_limit (mp_ s)
                /\ tcache_unsorted_limit (mp_ s) < tcache_unsorted_count l')
            \/ exists s1,
                 load (mem s1) (unsorted_chunks (av s1) + off_bk)
                 = unsorted_chunks (av s1)
                 /\ tcache_get tc_idx s1 = Done p s')).
Proof.
  split.
  - intros victim bck l s. apply exact_fit_goes_to_tcache.
  - intros l l' s s' p H. unfold unsorted_drain in H.
    apply bind_inv in H. destruct H as (r & s1 & Hloop & H).
    apply unsorted_loop_inv in Hloop. destruct Hloop as (Hmp & Hr).
    destruct r as [q | q lq | lq].
    + minv.
    + minv. destruct Hr as (Hrc & H1 & H2).
      split; [exact Hrc|]. right. left. split; assumption.
    + destruct (return_cached lq) eqn:Hrc.
      * apply bind_inv in H. destruct H as (q & s2 & Hget & H). minv.
        split; [exact Hrc|].
        destruct Hr as [Hempty | Hmax].
        -- right. right. exists s1. split; assumption.
        -- left. exact Hmax.
      * minv.
Qed.

Lemma exact_fit_cached_then_returned_witness :
  (exists s',
     unsorted_body 1 48 40 48 1 rem_chunk fresh_locals state_exact
     = Done (BContinue (Build_drain_locals 0 0 true)) s'
     /\ tcache_data s'
        = Build_tcache
            (upd_z (counts (tcache_data state_exact)) 1
                   (wrap16 (nth_z (counts (tcache_data state_exact)) 1 + 1)))
            (upd_z (entries (tcache_data state_exact)) 1 (chunk2mem rem_chunk)))
  /\ (unsorted_drain 1 48 40 48 1 fresh_locals state_exact
      = Done (DrainCached (chunk2mem rem_chunk) (Build_drain_locals 0 0 true))
             (final_state (unsorted_drain 1 48 40 48 1 fresh_locals state_exact)
                          state_exact)
      /\ return_cached (Build_drain_locals 0 0 true) = true).
Proof.
  split.
  - apply (proj1 (exact_fit_cached_then_returned 1 48 40 48 1)
             rem_chunk (unsorted_chunks arena0) fresh_locals state_exact).
    + vm_compute. reflexivity.
    + vm_compute. split; [discriminate | reflexivity].
    + discriminate.
    + vm_compute. reflexivity.
  - assert (Hrun : unsorted_drain 1 48 40 48 1 fresh_locals state_exact
                   = Done (DrainCached (chunk2mem rem_chunk)
                             (Build_drain_locals 0 0 true))
                          (final_state
                             (unsorted_drain 1 48 40 48 1 fresh_locals state_exact)
                             state_exact)).
    { vm_compute. reflexivity. }
    split; [exact Hrun|].
    exact (proj1 (proj2 (exact_fit_cached_then_returned 1 48 40 48 1)
                   fresh_locals _ state_exact _ _ Hrun)).
Defined.

(** ** C8: the tcache bound *)

Lemma in_array_insert (l : list Z) (i : nat) (v j : Z) :
  in_array (<[i := v]> l) j = in_array l j.
Proof. unfold in_array. rewrite length_insert. reflexivity. Qed.

Lemma in_array_upd_z (l : list Z) (i v j : Z) :
  in_array (upd_z l i v) j = in_array l j.
Proof.
  unfold upd_z. destruct (in_array l i); [apply in_array_insert | reflexivity].
Qed.

Lemma nth_z_upd_z (l : list Z) (i v j : Z) :
  nth_z (upd_z l i v) j
  = if in_array l i && (j =? i) then v else nth_z l j.
Proof.
  unfold upd_z. destruct (in_array l i) eqn:Hi; cbn [andb]; [|reflexivity].
  unfold nth_z. rewrite in_array_insert.
  unfold in_array in Hi. apply andb_true_iff in Hi. destruct Hi as [Hi0 Hi1].
  apply Z.leb_le in Hi0. apply Z.ltb_lt in Hi1.
  destruct (Z.eqb_spec j i) as [->|Hne].
  - unfold in_array.
    destruct (Z.leb_spec 0 i); [|lia]. destruct (Z.ltb_spec i (Z.of_nat (length l))); [|lia].
    cbn [andb]. rewrite list_lookup_insert_eq by lia. reflexivity.
  - destruct (in_array l j) eqn:Hj; [|reflexivity].
    unfold in_array in Hj. apply andb_true_iff in Hj. destruct Hj as [Hj0 Hj1].
    apply Z.leb_le in Hj0.
    rewrite list_lookup_insert_ne by lia. reflexivity.
Qed.

Lemma nth_z_replicate_0 (n : nat) (i : Z) : nth_z (replicate n 0) i = 0.
Proof.
  unfold nth_z. destruct (in_array (replicate n 0) i) eqn:Hi; [|reflexivity].
  destruct (replicate n 0 !! Z.to_nat i) as [x|] eqn:Hl; [|reflexivity].
  apply lookup_replicate in Hl. destruct Hl as [-> _]. reflexivity.
Qed.

Lemma tcache_bounded_b_sound (s : state) :
  tcache_bounded_b s = true -> tcache_bounded s.
Proof.
  unfold tcache_bounded_b, tcache_bounded. intros H.
  apply andb_true_iff in H. destruct H as [H Hall].
  apply andb_true_iff in H. destruct H as [H0 H1].
  apply Z.leb_le in H0. apply Z.leb_le in H1.
  split; [lia|]. intros i. unfold nth_z.
  destruct (in_array (counts (tcache_data s)) i); [|lia].
  destruct (counts (tcache_data s) !! Z.to_nat i) as [c|] eqn:Hl; simpl; [|lia].
  rewrite forallb_forall in Hall.
  assert (Hin : In c (counts (tcache_data s))).
  { apply list_elem_of_In. apply list_elem_of_lookup. exists (Z.to_nat i). exact Hl. }
  apply Hall in Hin. apply andb_true_iff in Hin. destruct Hin as [Hc0 Hc1].
  apply Z.leb_le in Hc0. apply Z.leb_le in Hc1. lia.
Qed.

Lemma keeps_bounded (s s' : state) :
  keeps_tcache s s' -> tcache_bounded s -> tcache_bounded s'.
Proof.
  intros [Hd Hc] [Hb Hall]. unfold tcache_bounded. rewrite Hd, Hc.
  split; assumption.
Qed.

Lemma keeps_tcache_trans (s1 s2 s3 : state) :
  keeps_tcache s1 s2 -> keeps_tcache s2 s3 -> keeps_tcache s1 s3.
Proof. intros [A1 A2] [B1 B2]. split; congruence. Qed.

Lemma same_keeps (s s' : state) : same_tcache s s' -> keeps_tcache s s'.
Proof. intros (H1 & _ & H3). split; [exact H3 | rewrite H1; reflexivity]. Qed.

Lemma cached_nonempty_keeps (tc_idx : Z) (b : bool) (s s' : state) :
  tcache_data s' = tcache_data s ->
  cached_nonempty tc_idx b s -> cached_nonempty tc_idx b s'.
Proof. unfold cached_nonempty. intros ->. tauto. Qed.

(** Push the bound through a state that differs from a bounded one by
    updates that leave the tcache alone. *)
Ltac bounded_by_frame :=
  match goal with
  | Hb : tcache_bounded ?s |- tcache_bounded _ =>
      apply (keeps_bounded s); [split; reflexivity | exact Hb]
  end.

(** The guarded push: a push onto a bucket whose count is below the cap
    keeps the bound. *)
Lemma tcache_put_bounded (chunk i : Z) (s s' : state) (u : unit) :
  tcache_bounded s ->
  nth_z (counts (tcache_data s)) i < tcache_count (mp_ s) ->
  tcache_put chunk i s = Done u s' ->
  tcache_bounded s' /\ cached_nonempty i true s'.
Proof.
  intros [Hcap Hall] Hroom H. unfold tcache_put in H. inversion H; subst; clear H.
  unfold MAX_TCACHE_COUNT, UINT16_MAX in Hcap.
  pose proof (Hall i) as Hi.
  assert (Hw : wrap16 (nth_z (counts (tcache_data s)) i + 1)
               = nth_z (counts (tcache_data s)) i + 1).
  { unfold wrap16. apply Z.mod_small. lia. }
  split.
  - split; [exact Hcap|]. intros j.
    cbn [tcache_data set_tcache set_mem counts mp_].
    rewrite nth_z_upd_z, Hw.
    destruct (in_array (counts (tcache_data s)) i && (j =? i)); [lia | apply Hall].
  - intros _ Hin. cbn [tcache_data set_tcache set_mem counts] in *.
    rewrite in_array_upd_z in Hin.
    rewrite nth_z_upd_z, Hin, Z.eqb_refl, Hw. cbn [andb]. lia.
Qed.

(** A pop from a bucket that is not empty keeps the bound. *)
Lemma tcache_get_bounded (i : Z) (s s' : state) (e : Z) :
  tcache_bounded s ->
  (in_array (counts (tcache_data s)) i = true ->
   1 <= nth_z (counts (tcache_data s)) i) ->
  tcache_get i s = Done e s' ->
  tcache_bounded s'.
Proof.
  intros [Hcap Hall] Hpos H. unfold tcache_get in H. inversion H; subst; clear H.
  unfold MAX_TCACHE_COUNT, UINT16_MAX in Hcap.
  split; [exact Hcap|]. intros j.
  cbn [tcache_data set_tcache set_mem counts mp_].
  rewrite nth_z_upd_z.
  destruct (in_array (counts (tcache_data s)) i) eqn:Hin; cbn [andb]; [|apply Hall].
  destruct (j =? i); [|apply Hall].
  pose proof (Hall i) as Hi. specialize (Hpos eq_refl).
  unfold wrap16. rewrite Z.mod_small by lia. lia.
Qed.

(** The loop over the unsorted bin keeps the bound; when it is left with
    [return_cached] set, the bucket is not empty. *)
Lemma unsorted_loop_bounded (fuel : nat) :
  forall (nb bytes tcache_nb tc_idx : Z) (l : drain_locals) (s s' : state)
         (r : loop_result),
  tcache_bounded s ->
  cached_nonempty tc_idx (return_cached l) s ->
  unsorted_loop fuel nb bytes tcache_nb tc_idx l s = Done r s' ->
  tcache_bounded s'
  /\ match r with
     | LExit l' => cached_nonempty tc_idx (return_cached l') s'
     | _ => True
     end.
Proof.
  induction fuel as [|f IH]; intros nb bytes tcache_nb tc_idx l s s' r Hb Hc H;
    cbn [unsorted_loop] in H.
  - minv. split; assumption.
  - apply bind_inv in H. destruct H as (s0 & s1 & Hg & H).
    cbv beta delta [get] in Hg. inversion Hg; subst; clear Hg.
    destruct (negb (load (mem s1) (unsorted_chunks (av s1) + off_bk)
                    =? unsorted_chunks (av s1))) eqn:Hne.
    + apply bind_inv in H. destruct H as (br & s2 & Hbody & H).
      pose proof (unsorted_body_inv _ _ _ _ _ _ _ _ _ _ Hbody) as (Hmp & _ & Hbr).
      destruct br as [p | l' | l' | l'].
      * minv. split; [|exact I].
        apply (keeps_bounded s1); [split; [exact Hbr | rewrite Hmp; reflexivity] | exact Hb].
      * apply bind_inv in H. destruct H as (p & s3 & Hget & H). minv.
        destruct Hbr as (Hd & Hrc & _ & _ & _ & Hrc').
        split; [|exact I].
        apply (tcache_get_bounded tc_idx s2 s' p); [| | exact Hget].
        -- apply (keeps_bounded s1); [split; [exact Hd | rewrite Hmp; reflexivity] | exact Hb].
        -- intros Hin. rewrite Hd in *. apply Hc; [congruence | exact Hin].
      * destruct Hbr as (_ & _ & Hrc & _ & Hroom & Hd).
        assert (Hput : tcache_bounded s2 /\ cached_nonempty tc_idx true s2).
        { destruct Hb as [Hcap Hall].
          unfold MAX_TCACHE_COUNT, UINT16_MAX in Hcap.
          pose proof (Hall tc_idx) as Hi.
          assert (Hw : wrap16 (nth_z (counts (tcache_data s1)) tc_idx + 1)
                       = nth_z (counts (tcache_data s1)) tc_idx + 1).
          { unfold wrap16. apply Z.mod_small. lia. }
          split.
          - split; [rewrite Hmp; exact Hcap|]. intros j. rewrite Hd, Hmp.
            cbn [counts]. rewrite nth_z_upd_z, Hw.
            destruct (in_array (counts (tcache_data s1)) tc_idx && (j =? tc_idx));
              [lia | apply Hall].
          - intros _ Hin. rewrite Hd in *. cbn [counts] in *.
            rewrite in_array_upd_z in Hin.
            rewrite nth_z_upd_z, Hin, Z.eqb_refl, Hw. cbn [andb]. lia. }
        destruct Hput as [Hb2 Hc2].
        apply (IH _ _ _ _ _ _ _ _ Hb2) in H; [exact H|].
        rewrite Hrc. exact Hc2.
      * destruct Hbr as (Hd & _ & Hrc).
        assert (Hb2 : tcache_bounded s2).
        { apply (keeps_bounded s1); [split; [exact Hd | rewrite Hmp; reflexivity] | exact Hb]. }
        assert (Hc2 : cached_nonempty tc_idx (return_cached l') s2).
        { rewrite Hrc. apply (cached_nonempty_keeps tc_idx _ s1); assumption. }
        destruct (MAX_ITERS <=? iters (Build_drain_locals (iters l' + 1)
                     (tcache_unsorted_count l') (return_cached l'))) eqn:Hmax.
        -- minv. split; [exact Hb2 | exact Hc2].
        -- apply (IH _ _ _ _ _ _ _ _ Hb2) in H; [exact H | exact Hc2].
    + minv. split; assumption.
Qed.

Lemma unsorted_drain_bounded (fuel : nat) (nb bytes tcache_nb tc_idx : Z)
    (l : drain_locals) (s s' : state) (r : drain_result) :
  tcache_bounded s ->
  cached_nonempty tc_idx (return_cached l) s ->
  unsorted_drain fuel nb bytes tcache_nb tc_idx l s = Done r s' ->
  tcache_bounded s'
  /\ match r with
     | DrainNone l' => cached_nonempty tc_idx (return_cached l') s'
     | _ => True
     end.
Proof.
  intros Hb Hc H. unfold unsorted_drain in H.
  apply bind_inv in H. destruct H as (lr & s1 & Hloop & H).
  apply (unsorted_loop_bounded _ _ _ _ _ _ _ _ _ Hb Hc) in Hloop.
  destruct Hloop as [Hb1 Hr].
  destruct lr as [p | p l' | l'].
  - minv. split; [exact Hb1 | exact I].
  - minv. split; [exact Hb1 | exact I].
  - destruct (return_cached l') eqn:Hrc.
    + apply bind_inv in H. destruct H as (p & s2 & Hget & H). minv.
      split; [|exact I].
      apply (tcache_get_bounded tc_idx s1 s' p Hb1); [|exact Hget].
      intros Hin. apply Hr; [reflexivity | exact Hin].
    + minv. split; [exact Hb1|]. rewrite Hrc. intros Hf. discriminate Hf.
Qed.

Lemma fastbin_stash_bounded (fuel : nat) :
  forall (idx tc_idx : Z) (s s' : state) (u : unit),
  tcache_bounded s ->
  fastbin_stash fuel idx tc_idx s = Done u s' ->
  tcache_bounded s'.
Proof.
  induction fuel as [|f IH]; intros idx tc_idx s s' u Hb H;
    cbn [fastbin_stash] in H.
  - minv. exact Hb.
  - apply bind_inv in H. destruct H as (s0 & s1 & Hg & H).
    cbv beta delta [get] in Hg. inversion Hg; subst; clear Hg.
    destruct ((nth_z (counts (tcache_data s1)) tc_idx <? tcache_count (mp_ s1))
              && negb (nth_z (fastbinsY (av s1)) idx =? NULL)) eqn:Hguard.
    + apply andb_true_iff in Hguard. destruct Hguard as [Hroom _].
      apply Z.ltb_lt in Hroom.
      apply bind_inv in H. destruct H as (fd & s2 & Hrd & H).
      cbv beta delta [rd] in Hrd. inversion Hrd; subst; clear Hrd.
      apply bind_inv in H. destruct H as (u1 & s3 & Hmod & H).
      cbv beta delta [modify] in Hmod. inversion Hmod; subst; clear Hmod.
      apply bind_inv in H. destruct H as (u2 & s4 & Hput & H).
      apply tcache_put_bounded in Hput; [| bounded_by_frame | exact Hroom].
      destruct Hput as [Hb4 _].
      apply (IH _ _ _ _ _ Hb4 H).
    + minv. exact Hb.
Qed.

Lemma int_malloc_fastbin_bounded (fuel : nat) (nb bytes : Z) (s s' : state)
    (r : option Z) :
  tcache_bounded s ->
  int_malloc_fastbin fuel nb bytes s = Done r s' ->
  tcache_bounded s'.
Proof.
  intros Hb H. unfold int_malloc_fastbin in H. minv;
    try exact Hb;
    try match goal with
      | Hs : fastbin_stash _ _ _ _ = Done _ _ |- _ =>
          apply fastbin_stash_bounded in Hs; [| bounded_by_frame]
      end;
    match goal with
    | Hp : alloc_perturb _ _ _ = Done _ _ |- _ =>
        apply alloc_perturb_same in Hp; apply same_keeps in Hp
    end;
    match goal with
    | Hk : keeps_tcache ?a _ |- _ =>
        apply (keeps_bounded a); [exact Hk|]
    end;
    first [assumption | bounded_by_frame].
Qed.

Lemma smallbin_stash_bounded (fuel : nat) :
  forall (bin nb tc_idx : Z) (s s' : state) (u : unit),
  tcache_bounded s ->
  smallbin_stash fuel bin nb tc_idx s = Done u s' ->
  tcache_bounded s'.
Proof.
  induction fuel as [|f IH]; intros bin nb tc_idx s s' u Hb H;
    cbn [smallbin_stash] in H.
  - minv. exact Hb.
  - apply bind_inv in H. destruct H as (s0 & s1 & Hg & H).
    cbv beta delta [get] in Hg. inversion Hg; subst; clear Hg.
    destruct ((nth_z (counts (tcache_data s1)) tc_idx <? tcache_count (mp_ s1))
              && negb (load (mem s1) (bin + off_bk) =? bin)) eqn:Hguard.
    + apply andb_true_iff in Hguard. destruct Hguard as [Hroom _].
      apply Z.ltb_lt in Hroom.
      apply bind_inv in H. destruct H as (u1 & s2 & Hstep & H).
      assert (Hb2 : tcache_bounded s2).
      { minv;
          try match goal with
            | Hput : tcache_put _ _ _ = Done _ _ |- _ =>
                apply tcache_put_bounded in Hput;
                [destruct Hput as [Hput _]; exact Hput
                | bounded_by_frame | exact Hroom]
            end.
        exact Hb. }
      apply (IH _ _ _ _ _ _ Hb2 H).
    + minv. exact Hb.
Qed.

Lemma int_malloc_smallbin_bounded (fuel : nat) (nb bytes : Z) (s s' : state)
    (r : option Z) :
  tcache_bounded s ->
  int_malloc_smallbin fuel nb bytes s = Done r s' ->
  tcache_bounded s'.
Proof.
  intros Hb H. unfold int_malloc_smallbin in H. minv;
    try exact Hb;
    try match goal with
      | Hs : smallbin_stash _ _ _ _ _ = Done _ _ |- _ =>
          apply smallbin_stash_bounded in Hs; [| bounded_by_frame]
      end;
    match goal with
    | Hp : alloc_perturb _ _ _ = Done _ _ |- _ =>
        apply alloc_perturb_same in Hp; apply same_keeps in Hp
    end;
    match goal with
    | Hk : keeps_tcache ?a _ |- _ =>
        apply (keeps_bounded a); [exact Hk|]
    end;
    first [assumption | bounded_by_frame].
Qed.

Lemma cached_nonempty_false (tc_idx : Z) (s : state) :
  cached_nonempty tc_idx false s.
Proof. intros H. discriminate H. Qed.

Lemma tcache_scan_inv (fuel : nat) : forall (tmp e : Z) (s s' : state) (u : unit),
  tcache_scan fuel tmp e s = Done u s' -> s' = s.
Proof.
  induction fuel as [|f IH]; intros tmp e s s' u H; cbn [tcache_scan] in H.
  - minv. reflexivity.
  - minv.
    + reflexivity.
    + match goal with
      | Hr : tcache_scan _ _ _ _ = Done _ _ |- _ => apply IH in Hr; exact Hr
      end.
Qed.

Lemma int_free_checks_inv (p : Z) (s s' : state) (size : Z) :
  int_free_checks p s = Done size s' -> s' = s.
Proof. unfold int_free_checks. intros H. minv. reflexivity. Qed.

Lemma int_free_tcache_bounded (fuel : nat) (p size : Z) (s s' : state) (b : bool) :
  tcache_bounded s ->
  int_free_tcache fuel p size s = Done b s' ->
  tcache_bounded s'.
Proof.
  intros Hb H. unfold int_free_tcache in H. minv;
    try match goal with
      | Hs : tcache_scan _ _ _ _ = Done _ _ |- _ =>
          apply tcache_scan_inv in Hs; subst
      end;
    try match goal with
      | Hput : tcache_put _ _ _ = Done _ _, Hroom : (_ <? _) = true |- _ =>
          apply Z.ltb_lt in Hroom;
          apply tcache_put_bounded in Hput;
          [destruct Hput as [Hput _]; exact Hput | exact Hb | exact Hroom]
      end;
    exact Hb.
Qed.

Lemma int_free_fastbin_keeps (p size : Z) (have_lock : bool) (s s' : state)
    (u : unit) :
  int_free_fastbin p size have_lock s = Done u s' -> keeps_tcache s s'.
Proof.
  intros H. unfold int_free_fastbin in H. minv;
    match goal with
    | Hp : free_perturb _ _ _ = Done _ _ |- _ =>
        apply free_perturb_same in Hp; apply same_keeps in Hp;
        apply (keeps_tcache_trans _ _ _ Hp); split; reflexivity
    end.
Qed.

Lemma memcpy_keeps (dst src n : Z) (s s' : state) (u : unit) :
  memcpy dst src n s = Done u s' -> keeps_tcache s s'.
Proof.
  unfold memcpy. intros H. minv. split; reflexivity.
Qed.

Lemma unlink_chunk_keeps (p : Z) (s s' : state) (u : unit) :
  unlink_chunk p s = Done u s' -> keeps_tcache s s'.
Proof.
  unfold unlink_chunk. intros H. minv; split; reflexivity.
Qed.

(** The wrappers and the engines, for an environment that respects the
    tcache. *)
Section KeepsBound.

Variable E : externals.
Hypothesis HE : externals_ok E.

Lemma int_malloc_loop_bounded (rounds : nat) :
  forall (fuel : nat) (nb bytes idx tcache_nb tc_idx count : Z) (cached : bool)
         (s s' : state) (p : Z),
  tcache_bounded s ->
  cached_nonempty tc_idx cached s ->
  int_malloc_loop E rounds fuel nb bytes idx tcache_nb tc_idx count cached s
  = Done p s' ->
  tcache_bounded s'.
Proof.
  induction rounds as [|k IH];
    intros fuel nb bytes idx tcache_nb tc_idx count cached s s' p Hb Hc H;
    rewrite int_malloc_loop_unfold in H;
    apply bind_inv in H; destruct H as (dr & s1 & Hd & H);
    apply (unsorted_drain_bounded fuel nb bytes tcache_nb tc_idx
             (Build_drain_locals 0 count cached) s s1 dr Hb Hc) in Hd;
    destruct Hd as [Hb1 Hr];
    (destruct dr as [q | q l' | l']; [minv; exact Hb1 | minv; exact Hb1 |]);
    apply bind_inv in H; destruct H as (o & s2 & Hbins & H);
    pose proof (int_malloc_bins_ok E HE _ _ _ _ _ _ Hbins) as [Hb2 Hk];
    (destruct o as [q|]; [minv; apply Hb2; exact Hb1|]);
    specialize (Hk eq_refl).
  - minv.
  - apply (IH _ _ _ _ _ _ _ _ _ _ _) in H; [exact H | |].
    + apply Hb2; exact Hb1.
    + destruct Hk as [Hk _].
      apply (cached_nonempty_keeps tc_idx _ s1); assumption.
Qed.

Lemma int_malloc_bounded (fuel : nat) (bytes : Z)
    (s s' : state) (p : Z) :
  tcache_bounded s ->
  _int_malloc E fuel bytes s = Done p s' ->
  tcache_bounded s'.
Proof.
  intros Hb H. unfold _int_malloc in H.
  destruct (checked_request2size bytes) as [nb|].
  - apply bind_inv in H. destruct H as (r & s1 & Hfast & H).
    apply (int_malloc_fastbin_bounded _ _ _ _ _ _ Hb) in Hfast.
    destruct r as [q|]; [minv; exact Hfast|].
    apply bind_inv in H. destruct H as (r & s2 & Hsmall & H).
    assert (Hb2 : tcache_bounded s2).
    { destruct (in_smallbin_range nb).
      - apply (int_malloc_smallbin_bounded _ _ _ _ _ _ Hfast Hsmall).
      - minv.
        + match goal with
          | Hc : malloc_consolidate _ _ = Done _ _ |- _ =>
              apply (malloc_consolidate_ok E HE) in Hc;
              apply (keeps_bounded _ _ Hc Hfast)
          end.
        + exact Hfast. }
    destruct r as [q|]; [minv; exact Hb2|].
    apply bind_inv in H. destruct H as (s3 & s4 & Hg & H).
    cbv beta delta [get] in Hg. inversion Hg; subst; clear Hg.
    apply (int_malloc_loop_bounded fuel _ _ _ _ _ _ _ _ _ _ _ Hb2
             (cached_nonempty_false _ _) H).
  - minv. bounded_by_frame.
Qed.

Lemma tcache_init_bounded (fuel : nat) (s s' : state) (u : unit) :
  tcache_bounded s ->
  tcache_init E fuel s = Done u s' ->
  tcache_bounded s'.
Proof.
  intros Hb H. unfold tcache_init in H. minv.
  - exact Hb.
  - match goal with
    | Hm : _int_malloc _ _ _ _ = Done _ _ |- _ =>
        apply (int_malloc_bounded fuel _ _ _ _ Hb) in Hm;
        destruct Hm as [Hcap _]
    end.
    split; [exact Hcap|]. intros i.
    cbn [tcache_data set_tcache set_mem counts mp_].
    pose proof (nth_z_replicate_0 64 i) as Hz. cbn [replicate] in Hz.
    rewrite Hz. lia.
  - match goal with
    | Hm : _int_malloc _ _ _ _ = Done _ _ |- _ =>
        apply (int_malloc_bounded fuel _ _ _ _ Hb) in Hm; exact Hm
    end.
Qed.

Lemma MAYBE_INIT_TCACHE_bounded (fuel : nat) (s s' : state)
    (u : unit) :
  tcache_bounded s ->
  MAYBE_INIT_TCACHE E fuel s = Done u s' ->
  tcache_bounded s'.
Proof.
  intros Hb H. unfold MAYBE_INIT_TCACHE in H. minv.
  - match goal with
    | Hi : tcache_init _ _ _ = Done _ _ |- _ =>
        apply (tcache_init_bounded fuel _ _ _ Hb Hi)
    end.
  - exact Hb.
Qed.

Lemma libc_malloc_bounded (fuel : nat) (bytes : Z)
    (s s' : state) (p : Z) :
  tcache_bounded s ->
  __libc_malloc E fuel bytes s = Done p s' ->
  tcache_bounded s'.
Proof.
  intros Hb H. unfold __libc_malloc in H.
  destruct (__malloc_hook E) as [h|] eqn:Hh.
  - apply (malloc_hook_ok E HE h bytes Hh s p s' Hb H).
  - destruct (checked_request2size bytes) as [tbytes|].
    + apply bind_inv in H. destruct H as (u & s1 & Hinit & H).
      apply (MAYBE_INIT_TCACHE_bounded fuel _ _ _ Hb) in Hinit.
      apply bind_inv in H. destruct H as (s2 & s3 & Hg & H).
      cbv beta delta [get] in Hg. inversion Hg; subst; clear Hg.
      destruct ((csize2tidx tbytes <? tcache_bins (mp_ s3))
                && negb (tcache s3 =? NULL)
                && (0 <? nth_z (counts (tcache_data s3)) (csize2tidx tbytes)))
        eqn:Hhit.
      * apply andb_true_iff in Hhit. destruct Hhit as [_ Hpos].
        apply Z.ltb_lt in Hpos.
        apply (tcache_get_bounded _ _ _ _ Hinit) in H; [exact H|].
        intros _. lia.
      * apply bind_inv in H. destruct H as (v & s4 & Hm & H).
        apply (int_malloc_bounded fuel _ _ _ _ Hinit) in Hm.
        minv. exact Hm.
    + minv. bounded_by_frame.
Qed.

Lemma munmap_chunk_keeps (p : Z) (s s' : state) (u : unit) :
  munmap_chunk E p s = Done u s' -> keeps_tcache s s'.
Proof.
  intros H. unfold munmap_chunk in H. minv.
  - split; reflexivity.
  - match goal with
    | Hm : __munmap _ _ _ _ = Done _ _ |- _ =>
        apply (munmap_ok E HE) in Hm;
        refine (keeps_tcache_trans _ _ _ _ Hm); split; reflexivity
    end.
Qed.

Lemma int_free_bounded (fuel : nat) (p : Z) (have_lock : bool)
    (s s' : state) (u : unit) :
  tcache_bounded s ->
  _int_free E fuel p have_lock s = Done u s' ->
  tcache_bounded s'.
Proof.
  intros Hb H. unfold _int_free in H.
  apply bind_inv in H. destruct H as (size & s1 & Hc & H).
  apply int_free_checks_inv in Hc. subst s1.
  apply bind_inv in H. destruct H as (cached & s2 & Ht & H).
  apply (int_free_tcache_bounded _ _ _ _ _ _ Hb) in Ht.
  destruct cached; [minv; exact Ht|].
  minv.
  - match goal with
    | Hf : int_free_fastbin _ _ _ _ = Done _ _ |- _ =>
        apply int_free_fastbin_keeps in Hf; apply (keeps_bounded _ _ Hf Ht)
    end.
  - match goal with
    | Hf : int_free_merge _ _ _ _ _ = Done _ _ |- _ =>
        apply (int_free_merge_ok E HE) in Hf; apply (keeps_bounded _ _ Hf Ht)
    end.
  - match goal with
    | Hf : munmap_chunk _ _ _ = Done _ _ |- _ =>
        apply (munmap_chunk_keeps _ _ _ _) in Hf;
        apply (keeps_bounded _ _ Hf Ht)
    end.
Qed.

Lemma libc_free_bounded (fuel : nat) (mem_ : Z)
    (s s' : state) (u : unit) :
  tcache_bounded s ->
  __libc_free E fuel mem_ s = Done u s' ->
  tcache_bounded s'.
Proof.
  intros Hb H. unfold __libc_free in H.
  destruct (__free_hook E) as [h|] eqn:Hh.
  - apply (free_hook_ok E HE h mem_ Hh s u s' Hb H).
  - minv.
    + exact Hb.
    + match goal with
      | Hf : munmap_chunk _ _ _ = Done _ _ |- _ =>
          apply (munmap_chunk_keeps _ _ _ _) in Hf;
          apply (keeps_bounded _ _ Hf); bounded_by_frame
      end.
    + match goal with
      | Hf : munmap_chunk _ _ _ = Done _ _ |- _ =>
          apply (munmap_chunk_keeps _ _ _ _) in Hf;
          apply (keeps_bounded _ _ Hf Hb)
      end.
    + match goal with
      | Hi : MAYBE_INIT_TCACHE _ _ _ = Done _ _,
        Hf : _int_free _ _ _ _ _ = Done _ _ |- _ =>
          apply (MAYBE_INIT_TCACHE_bounded fuel _ _ _ Hb) in Hi;
          apply (int_free_bounded fuel _ _ _ _ _ Hi Hf)
      end.
Qed.

Lemma mremap_chunk_keeps (p new_size : Z) (s s' : state) (q : Z) :
  mremap_chunk E p new_size s = Done q s' -> keeps_tcache s s'.
Proof.
  intros H. unfold mremap_chunk in H. minv;
    try (split; reflexivity);
    match goal with
    | Hm : __mremap _ _ _ _ _ = Done _ _ |- _ =>
        apply (mremap_ok E HE) in Hm;
        first [exact Hm
              | refine (keeps_tcache_trans _ _ _ Hm _); split; reflexivity]
    end.
Qed.

Lemma int_realloc_bounded (fuel : nat) (oldp oldsize nb : Z)
    (s s' : state) (p : Z) :
  tcache_bounded s ->
  _int_realloc E fuel oldp oldsize nb s = Done p s' ->
  tcache_bounded s'.
Proof.
  intros Hb H. unfold _int_realloc in H.
  apply bind_inv in H. destruct H as (s0 & s1 & Hg & H).
  cbv beta delta [get] in Hg. inversion Hg; subst; clear Hg.
  destruct ((chunksize_nomask (mem s1) oldp <=? 2 * SIZE_SZ)
            || (system_mem (av s1) <=? oldsize)); [discriminate H|].
  apply bind_inv in H. destruct H as (u & s2 & Ha & H).
  assert (s2 = s1).
  { unfold assert in Ha. destruct (chunk_is_mmapped (mem s1) oldp =? 0);
      cbv beta delta [ret malloc_printerr] in Ha;
      [inversion Ha; reflexivity | discriminate Ha]. }
  subst s2. clear Ha.
  destruct ((chunksize_nomask (mem s1) (chunk_at_offset oldp oldsize) <=? 2 * SIZE_SZ)
            || (system_mem (av s1)
                <=? chunksize (mem s1) (chunk_at_offset oldp oldsize)));
    [discriminate H|].
  apply bind_inv in H. destruct H as (room & s3 & Hroom & H).
  assert (Hb3 : tcache_bounded s3).
  { clear H. minv;
      try bounded_by_frame;
      try match goal with
        | Hu : unlink_chunk _ _ = Done _ _ |- _ =>
            apply unlink_chunk_keeps in Hu; apply (keeps_bounded _ _ Hu Hb)
        end;
      match goal with
      | Hm : _int_malloc _ _ _ _ = Done _ _ |- _ =>
          apply (int_malloc_bounded fuel _ _ _ _ Hb) in Hm
      end;
      try assumption;
      match goal with
      | Hc : memcpy _ _ _ _ = Done _ _,
        Hf : _int_free _ _ _ _ _ = Done _ _ |- _ =>
          apply memcpy_keeps in Hc;
          apply (int_free_bounded fuel _ _ _ _ _) in Hf;
          [exact Hf | apply (keeps_bounded _ _ Hc); assumption]
      end. }
  clear Hroom Hb.
  destruct room as [q | newp newsize]; [minv; exact Hb3|].
  minv.
  - bounded_by_frame.
  - match goal with
    | Hf : _int_free _ _ _ _ _ = Done _ _ |- _ =>
        apply (int_free_bounded fuel _ _ _ _ _) in Hf;
        [exact Hf | bounded_by_frame]
    end.
Qed.

Lemma libc_realloc_bounded (fuel : nat) (oldmem bytes : Z)
    (s s' : state) (p : Z) :
  tcache_bounded s ->
  __libc_realloc E fuel oldmem bytes s = Done p s' ->
  tcache_bounded s'.
Proof.
  intros Hb H. unfold __libc_realloc in H.
  destruct (__realloc_hook E) as [h|] eqn:Hh.
  - apply (realloc_hook_ok E HE h oldmem bytes Hh s p s' Hb H).
  - destruct ((bytes =? 0) && negb (oldmem =? NULL)).
    + minv.
      match goal with
      | Hf : __libc_free _ _ _ _ = Done _ _ |- _ =>
          apply (libc_free_bounded fuel _ _ _ _ Hb Hf)
      end.
    + destruct (oldmem =? 0).
      * apply (libc_malloc_bounded fuel _ _ _ _ Hb H).
      * apply bind_inv in H. destruct H as (s0 & s1 & Hg & H).
        cbv beta delta [get] in Hg. inversion Hg; subst; clear Hg.
        apply bind_inv in H. destruct H as (u & s2 & Hinit & H).
        assert (Hb2 : tcache_bounded s2).
        { destruct (negb (chunk_is_mmapped (mem s1) (mem2chunk oldmem) =? 0)).
          - cbv beta delta [ret] in Hinit. inversion Hinit; subst. exact Hb.
          - apply (MAYBE_INIT_TCACHE_bounded fuel _ _ _ Hb Hinit). }
        clear Hb Hinit.
        apply bind_inv in H. destruct H as (s3 & s4 & Hg & H).
        cbv beta delta [get] in Hg. inversion Hg; subst; clear Hg.
        destruct (((wrap (- chunksize (mem s1) (mem2chunk oldmem)) <? mem2chunk oldmem)
                   || negb (misaligned_chunk (mem2chunk oldmem) =? 0))
                  && negb (DUMPED_MAIN_ARENA_CHUNK s4 (mem2chunk oldmem)));
          [minv|].
        destruct (checked_request2size bytes) as [nb|]; [|minv; bounded_by_frame].
        destruct (negb (chunk_is_mmapped (mem s4) (mem2chunk oldmem) =? 0)).
        -- destruct (DUMPED_MAIN_ARENA_CHUNK s4 (mem2chunk oldmem)).
           ++ apply bind_inv in H. destruct H as (newmem & s5 & Hm & H).
              apply (libc_malloc_bounded fuel _ _ _ _ Hb2) in Hm.
              minv; [exact Hm|].
              match goal with
              | Hc : memcpy _ _ _ _ = Done _ _ |- _ =>
                  apply memcpy_keeps in Hc; apply (keeps_bounded _ _ Hc Hm)
              end.
           ++ apply bind_inv in H. destruct H as (newp & s5 & Hr & H).
              assert (Hb5 : tcache_bounded s5).
              { destruct (HAVE_MREMAP E).
                - apply (mremap_chunk_keeps _ _ _ _ _) in Hr.
                  apply (keeps_bounded _ _ Hr Hb2).
                - cbv beta delta [ret] in Hr. inversion Hr; subst. exact Hb2. }
              clear Hr.
              destruct (negb (newp =? 0)); [minv; exact Hb5|].
              destruct (nb <=? wrap (chunksize (mem s1) (mem2chunk oldmem) - SIZE_SZ));
                [minv; exact Hb5|].
              apply bind_inv in H. destruct H as (newmem & s6 & Hm & H).
              apply (libc_malloc_bounded fuel _ _ _ _ Hb5) in Hm.
              minv; [exact Hm|].
              match goal with
              | Hc : memcpy _ _ _ _ = Done _ _,
                Hu : munmap_chunk _ _ _ = Done _ _ |- _ =>
                  apply memcpy_keeps in Hc;
                  apply (munmap_chunk_keeps _ _ _ _) in Hu;
                  apply (keeps_bounded _ _ Hu); apply (keeps_bounded _ _ Hc Hm)
              end.
        -- apply bind_inv in H. destruct H as (newp & s5 & Hr & H).
           apply (int_realloc_bounded fuel _ _ _ _ _ _ Hb2) in Hr.
           apply bind_inv in H. destruct H as (s6 & s7 & Hg & H).
           cbv beta delta [get] in Hg. inversion Hg; subst; clear Hg.
           apply bind_inv in H. destruct H as (u1 & s8 & Ha & H).
           assert (s8 = s7).
           { unfold assert in Ha.
             destruct ((newp =? NULL)
                       || negb (chunk_is_mmapped (mem s7) (mem2chunk newp) =? 0)
                       || eqb (chunk_main_arena (mem s7) (mem2chunk newp))
                              (main (av s7)));
               cbv beta delta [ret malloc_printerr] in Ha;
               [inversion Ha; reflexivity | discriminate Ha]. }
           subst s8. clear Ha.
           destruct (SINGLE_THREAD_P E); [minv; exact Hr|].
           destruct (newp =? NULL); [|minv; exact Hr].
           apply bind_inv in H. destruct H as (newp' & s9 & Hm & H).
           apply (libc_malloc_bounded fuel _ _ _ _ Hr) in Hm.
           minv; [|exact Hm].
           match goal with
           | Hc : memcpy _ _ _ _ = Done _ _,
             Hf : _int_free _ _ _ _ _ = Done _ _ |- _ =>
               apply memcpy_keeps in Hc;
               apply (int_free_bounded fuel _ _ _ _ _) in Hf;
               [exact Hf | apply (keeps_bounded _ _ Hc Hm)]
           end.
Qed.

End KeepsBound.
(** * Further properties *)

(** ** The tcache is a stack *)

Lemma upd_z_restore (l : list Z) (i v : Z) :
  upd_z (upd_z l i v) i (nth_z l i) = l.
Proof.
  unfold upd_z at 2. unfold nth_z.
  destruct (in_array l i) eqn:Hi.
  - unfold upd_z. rewrite in_array_insert, Hi.
    rewrite list_insert_insert_eq.
    unfold in_array in Hi. apply andb_true_iff in Hi. destruct Hi as [H0 H1].
    apply Z.leb_le in H0. apply Z.ltb_lt in H1.
    destruct (l !! Z.to_nat i) as [x|] eqn:Hl.
    + simpl. apply list_insert_id. exact Hl.
    + apply lookup_ge_None in Hl. lia.
  - unfold upd_z. rewrite Hi. reflexivity.
Qed.

Lemma upd_z_upd_z (l : list Z) (i v w : Z) :
  upd_z (upd_z l i v) i w = upd_z l i w.
Proof.
  unfold upd_z at 2. destruct (in_array l i) eqn:Hi.
  - unfold upd_z. rewrite in_array_insert, Hi. apply list_insert_insert_eq.
  - unfold upd_z. rewrite Hi. reflexivity.
Qed.

Lemma nth_z_upd_z_same (l : list Z) (i v : Z) :
  in_array l i = true -> nth_z (upd_z l i v) i = v.
Proof.
  intros Hi. rewrite nth_z_upd_z, Hi, Z.eqb_refl. reflexivity.
Qed.

Lemma wrap16_succ_pred (c : Z) :
  0 <= c < UINT16_MAX -> wrap16 (wrap16 (c + 1) - 1) = c.
Proof.
  unfold UINT16_MAX, wrap16. intros H.
  rewrite (Z.mod_small (c + 1)) by lia.
  replace (c + 1 - 1) with c by lia. apply Z.mod_small. lia.
Qed.

Lemma state_eta (s : state) :
  Build_state (mem s) (av s) (mp_ s) (tcache s) (tcache_data s)
    (tcache_shutting_down s) (perturb_byte s) (global_max_fast s) (errno s)
    (dumped_main_arena_start s) (dumped_main_arena_end s)
    (using_malloc_checking s) (dl_pagesize s) = s.
Proof. destruct s. reflexivity. Qed.

Lemma tcache_eta (t : tcache_perthread_struct) :
  Build_tcache (counts t) (entries t) = t.
Proof. destruct t. reflexivity. Qed.

(** X1.  A push onto a tcache bucket followed by a pop from the same bucket
    is a round trip: the pop hands back the payload address of the chunk
    that was pushed, the counters and the list heads are what they were
    before the push, and memory differs at most in the two words at the
    start of the payload (the [next] and [key] fields of the entry). *)
Theorem tcache_put_get_round_trip (chunk i : Z) (s : state) :
  in_array (counts (tcache_data s)) i = true ->
  in_array (entries (tcache_data s)) i = true ->
  0 <= nth_z (counts (tcache_data s)) i < UINT16_MAX ->
  0 <= nth_z (entries (tcache_data s)) i < 2 ^ 64 ->
  exists s1 s2,
    tcache_put chunk i s = Done tt s1
    /\ tcache_get i s1 = Done (chunk2mem chunk) s2
    /\ tcache_data s2 = tcache_data s
    /\ tcache s2 = tcache s
    /\ av s2 = av s /\ mp_ s2 = mp_ s
    /\ forall a : Z,
         a + 8 <= chunk2mem chunk \/ chunk2mem chunk + 16 <= a ->
         load (mem s2) a = load (mem s) a.
Proof.
  intros Hic Hie Hc He.
  eexists. eexists. split; [reflexivity|].
  unfold tcache_get, tcache_put. cbn -[load store wrap16 chunk2mem].
  rewrite (nth_z_upd_z_same _ _ _ Hie), (nth_z_upd_z_same _ _ _ Hic).
  split; [reflexivity|].
  split.
  - rewrite load_store_eq, (wrap_small _ He).
    rewrite (wrap16_succ_pred _ Hc), !upd_z_restore.
    apply tcache_eta.
  - do 3 (split; [reflexivity|]). intros a Ha.
    cbn [mem set_tcache set_mem]. read_back. reflexivity.
Qed.

(** The bucket of 48-byte chunks of a fresh tcache, and the chunk at
    [mid_chunk]. *)
Lemma tcache_put_get_round_trip_witness :
  exists s1 s2,
    tcache_put mid_chunk 1 state_perturb = Done tt s1
    /\ tcache_get 1 s1 = Done (chunk2mem mid_chunk) s2
    /\ tcache_data s2 = tcache_data state_perturb
    /\ tcache s2 = tcache state_perturb
    /\ av s2 = av state_perturb /\ mp_ s2 = mp_ state_perturb
    /\ forall a : Z,
         a + 8 <= chunk2mem mid_chunk \/ chunk2mem mid_chunk + 16 <= a ->
         load (mem s2) a = load (mem state_perturb) a.
Proof.
  apply (tcache_put_get_round_trip mid_chunk 1 state_perturb).
  - reflexivity.
  - reflexivity.
  - vm_compute. split; [discriminate | reflexivity].
  - vm_compute. split; [discriminate | reflexivity].
Defined.

(** ** Release into the tcache, and what follows it *)

(** A release of a chunk that the tcache takes is the push onto its
    bucket. *)
Lemma libc_free_is_tcache_put (E : externals) (fuel : nat) (mem_ : Z)
    (s : state) :
  __free_hook E = None ->
  tcache_takes s mem_ ->
  __libc_free E fuel mem_ s
  = tcache_put (mem2chunk mem_)
      (csize2tidx (chunksize (mem s) (mem2chunk mem_))) s.
Proof.
  intros Hh (Hm & Hmm & Hend & Hal & Hmin & Hmod & Ht & Hidx & Hic & Hie
             & Hkey & Hcnt & Hcap).
  change SIZE_SZ with 8 in Hm.
  unfold __libc_free. rewrite Hh.
  destruct (Z.eqb_spec mem_ 0) as [Hz|_]; [lia|].
  unfold bind at 1. unfold get at 1. rewrite Hmm. cbn [Z.eqb negb].
  unfold bind at 1.
  rewrite MAYBE_INIT_TCACHE_ready by (left; unfold NULL; lia).
  unfold _int_free. unfold bind at 1.
  pose proof (mem2chunk_range mem_) as Hp.
  destruct (int_free_checks_cases (mem2chunk mem_) s Hp) as (_ & _ & Hok).
  rewrite Hok; cycle 1.
  { pose proof (chunksize_range (mem s) (mem2chunk mem_)).
    change MINSIZE with 32 in Hmin. intros [H1|[[H1 _]|H1]]; lia. }
  { intros [H1|H1]; [lia | contradiction]. }
  unfold bind at 1. unfold int_free_tcache at 1.
  unfold bind at 1. unfold get at 1.
  destruct (Z.eqb_spec (tcache s) NULL) as [Hn|_]; [unfold NULL in Hn; lia|].
  destruct (Z.ltb_spec (csize2tidx (chunksize (mem s) (mem2chunk mem_)))
                       (tcache_bins (mp_ s))) as [_|Hge]; [|lia].
  cbn [negb andb].
  unfold bind at 1. unfold rd at 1.
  rewrite chunk2mem_mem2chunk by lia.
  destruct (Z.eqb_spec (load (mem s) (mem_ + 8)) (tcache s)) as [Hk|_];
    [contradiction|].
  unfold bind at 1. unfold ret at 1.
  destruct (Z.ltb_spec (nth_z (counts (tcache_data s))
                          (csize2tidx (chunksize (mem s) (mem2chunk mem_))))
                       (tcache_count (mp_ s))) as [_|Hge]; [|lia].
  unfold bind, ret. unfold tcache_put. reflexivity.
Qed.

(** The header of a chunk is not touched by the push of the chunk. *)
Lemma tcache_put_keeps_header (mem_ i : Z) (s : state) :
  2 * SIZE_SZ <= mem_ < 2 ^ 64 ->
  load (mem (final_state (tcache_put (mem2chunk mem_) i s) s))
       (mem2chunk mem_ + off_size)
  = load (mem s) (mem2chunk mem_ + off_size).
Proof.
  intros Hm. change SIZE_SZ with 8 in Hm.
  unfold tcache_put. cbn [final_state mem set_tcache set_mem].
  rewrite chunk2mem_mem2chunk by lia.
  unfold mem2chunk. change SIZE_SZ with 8. rewrite wrap_small by lia.
  unfold_offsets. read_back. reflexivity.
Qed.

(** X2.  A chunk released into the tcache is what the next allocation of
    its size class gets: after [free (p)] has pushed the chunk, a
    [malloc (bytes)] whose padded size is the size of the chunk returns
    [p]. *)
Theorem free_then_malloc_returns_same_pointer (E : externals) (fuel : nat)
    (mem_ bytes : Z) (s : state) :
  __free_hook E = None ->
  __malloc_hook E = None ->
  tcache_takes s mem_ ->
  checked_request2size bytes = Some (chunksize (mem s) (mem2chunk mem_)) ->
  exists s1 s2,
    __libc_free E fuel mem_ s = Done tt s1
    /\ __libc_malloc E fuel bytes s1 = Done mem_ s2.
Proof.
  intros Hfh Hmh Ht Hreq.
  rewrite (libc_free_is_tcache_put E fuel mem_ s Hfh Ht).
  destruct Ht as (Hm & Hmm & Hend & Hal & Hmin & Hmod & Htc & Hidx & Hic & Hie
                  & Hkey & Hcnt & Hcap).
  change SIZE_SZ with 8 in Hm.
  eexists. eexists. split; [reflexivity|].
  unfold __libc_malloc. rewrite Hmh, Hreq.
  unfold bind at 1.
  rewrite MAYBE_INIT_TCACHE_ready by (left; cbn; unfold NULL; lia).
  unfold bind at 1. unfold get at 1.
  cbn [mp_ tcache tcache_data set_tcache set_mem counts entries].
  destruct (Z.ltb_spec (csize2tidx (chunksize (mem s) (mem2chunk mem_)))
                       (tcache_bins (mp_ s))) as [_|Hge]; [|lia].
  destruct (Z.eqb_spec (tcache s) NULL) as [Hn|_]; [unfold NULL in Hn; lia|].
  rewrite (nth_z_upd_z_same _ _ _ Hic).
  unfold MAX_TCACHE_COUNT, UINT16_MAX in Hcap.
  assert (Hw : wrap16 (nth_z (counts (tcache_data s))
                 (csize2tidx (chunksize (mem s) (mem2chunk mem_))) + 1)
               = nth_z (counts (tcache_data s))
                 (csize2tidx (chunksize (mem s) (mem2chunk mem_))) + 1).
  { unfold wrap16. apply Z.mod_small. lia. }
  rewrite Hw.
  destruct (Z.ltb_spec 0 (nth_z (counts (tcache_data s))
                 (csize2tidx (chunksize (mem s) (mem2chunk mem_))) + 1))
    as [_|Hle]; [|lia].
  cbn [negb andb].
  unfold tcache_get.
  cbn [mp_ tcache tcache_data set_tcache set_mem counts entries].
  rewrite (nth_z_upd_z_same _ _ _ Hie).
  rewrite chunk2mem_mem2chunk by lia. reflexivity.
Qed.

Lemma free_then_malloc_returns_same_pointer_witness :
  exists s1 s2,
    __libc_free quiet_env 1 (chunk2mem mid_chunk) state_perturb = Done tt s1
    /\ __libc_malloc quiet_env 1 40 s1 = Done (chunk2mem mid_chunk) s2.
Proof.
  apply (free_then_malloc_returns_same_pointer quiet_env 1
           (chunk2mem mid_chunk) 40 state_perturb).
  - reflexivity.
  - reflexivity.
  - unfold tcache_takes. vm_compute. repeat split; congruence.
  - vm_compute. reflexivity.
Defined.

(** X3.  Releasing the same pointer twice in a row is caught: when the
    first [free (p)] has put the chunk into the tcache, the second
    [free (p)] aborts with the message of the double-free check, and
    leaves the state as the first release left it. *)
Theorem double_free_into_tcache_aborts (E : externals) (fuel : nat)
    (mem_ : Z) (s : state) :
  __free_hook E = None ->
  tcache_takes s mem_ ->
  exists s1,
    __libc_free E fuel mem_ s = Done tt s1
    /\ __libc_free E fuel mem_ s1
       = Abort "free(): double free detected in tcache 2" s1.
Proof.
  intros Hfh Ht.
  rewrite (libc_free_is_tcache_put E fuel mem_ s Hfh Ht).
  pose proof Ht as (Hm & Hmm & Hend & Hal & Hmin & Hmod & Htc & Hidx & Hic & Hie
                  & Hkey & Hcnt & Hcap).
  pose proof (tcache_put_keeps_header mem_
                (csize2tidx (chunksize (mem s) (mem2chunk mem_))) s Hm) as Hhd.
  change SIZE_SZ with 8 in Hm.
  eexists. split; [reflexivity|].
  unfold tcache_put in Hhd. cbn [final_state] in Hhd.
  match goal with
  | |- __libc_free _ _ _ ?s1 = _ => set (s1' := s1) in *
  end.
  assert (Hcs : chunksize (mem s1') (mem2chunk mem_)
                = chunksize (mem s) (mem2chunk mem_)).
  { unfold chunksize, chunksize_nomask. rewrite Hhd. reflexivity. }
  assert (Hcm : chunk_is_mmapped (mem s1') (mem2chunk mem_) = 0).
  { unfold chunk_is_mmapped, chunksize_nomask in *. rewrite Hhd. exact Hmm. }
  unfold __libc_free. rewrite Hfh.
  destruct (Z.eqb_spec mem_ 0) as [Hz|_]; [lia|].
  unfold bind at 1. unfold get at 1. rewrite Hcm. cbn [Z.eqb negb].
  unfold bind at 1.
  rewrite MAYBE_INIT_TCACHE_ready by (left; cbn; unfold NULL; lia).
  unfold _int_free. unfold bind at 1.
  pose proof (mem2chunk_range mem_) as Hp.
  destruct (int_free_checks_cases (mem2chunk mem_) s1' Hp) as (_ & _ & Hok).
  rewrite Hok; cycle 1.
  { rewrite Hcs. pose proof (chunksize_range (mem s) (mem2chunk mem_)).
    change MINSIZE with 32 in Hmin. intros [H1|[[H1 _]|H1]]; lia. }
  { rewrite Hcs. intros [H1|H1]; [lia | contradiction]. }
  rewrite Hcs.
  unfold bind at 1. unfold int_free_tcache at 1.
  unfold bind at 1. unfold get at 1.
  assert (Ets : tcache s1' = tcache s) by reflexivity.
  assert (Emp : mp_ s1' = mp_ s) by reflexivity.
  rewrite Ets, Emp.
  destruct (Z.eqb_spec (tcache s) NULL) as [Hn|_]; [unfold NULL in Hn; lia|].
  destruct (Z.ltb_spec (csize2tidx (chunksize (mem s) (mem2chunk mem_)))
                       (tcache_bins (mp_ s))) as [_|Hge]; [|lia].
  cbn [negb andb].
  unfold bind at 1. unfold rd at 1.
  rewrite chunk2mem_mem2chunk by lia.
  assert (Ekey : load (mem s1') (mem_ + 8) = tcache s).
  { subst s1'. cbn [mem set_tcache set_mem].
    rewrite chunk2mem_mem2chunk by lia. read_back. apply wrap_small. lia. }
  rewrite Ekey, Z.eqb_refl.
  assert (Een : nth_z (entries (tcache_data s1'))
                  (csize2tidx (chunksize (mem s) (mem2chunk mem_))) = mem_).
  { subst s1'. cbn [tcache_data set_tcache entries].
    rewrite (nth_z_upd_z_same _ _ _ Hie). apply chunk2mem_mem2chunk. lia. }
  rewrite Een.
  unfold bind at 1.
  assert (Hscan : tcache_scan fuel mem_ mem_ s1'
                  = Abort "free(): double free detected in tcache 2" s1').
  { destruct fuel; cbn [tcache_scan];
      (destruct (Z.eqb_spec mem_ NULL) as [Hn|_]; [unfold NULL in Hn; lia|]);
      rewrite Z.eqb_refl; reflexivity. }
  rewrite Hscan. reflexivity.
Qed.

Lemma double_free_into_tcache_aborts_witness :
  exists s1,
    __libc_free quiet_env 1 (chunk2mem mid_chunk) state_perturb = Done tt s1
    /\ __libc_free quiet_env 1 (chunk2mem mid_chunk) s1
       = Abort "free(): double free detected in tcache 2" s1.
Proof.
  apply (double_free_into_tcache_aborts quiet_env 1
           (chunk2mem mid_chunk) state_perturb).
  - reflexivity.
  - unfold tcache_takes. vm_compute. repeat split; congruence.
Defined.

(** ** What the engines leave alone *)

Lemma heap_only_refl (s : state) : heap_only s s.
Proof. unfold heap_only. destruct s. reflexivity. Qed.

Lemma heap_only_trans (s1 s2 s3 : state) :
  heap_only s1 s2 -> heap_only s2 s3 -> heap_only s1 s3.
Proof.
  unfold heap_only. intros H1 H2. rewrite H2, H1.
  destruct s1. reflexivity.
Qed.

Lemma heap_only_set_mem (s s' : state) (m : gmap Z Z) :
  heap_only s s' -> heap_only s (set_mem s' m).
Proof.
  unfold heap_only. intros H. rewrite H. destruct s. reflexivity.
Qed.

Lemma heap_only_set_av (s s' : state) (a : malloc_state) :
  heap_only s s' -> heap_only s (set_av s' a).
Proof.
  unfold heap_only. intros H. rewrite H. destruct s. reflexivity.
Qed.

Lemma heap_only_same (s s' : state) : heap_only s s' -> same_tcache s s'.
Proof. unfold heap_only. intros ->. repeat split. Qed.

Lemma heap_only_keeps (s s' : state) : heap_only s s' -> keeps_tcache s s'.
Proof. intros H. apply same_keeps, heap_only_same, H. Qed.

Lemma mem_top_only_refl (s : state) : mem_top_only s s.
Proof. unfold mem_top_only. destruct s as [m a]. destruct a. reflexivity. Qed.

Lemma mem_top_only_trans (s1 s2 s3 : state) :
  mem_top_only s1 s2 -> mem_top_only s2 s3 -> mem_top_only s1 s3.
Proof.
  unfold mem_top_only. intros H1 H2. rewrite H2, H1.
  destruct s1 as [m a]. destruct a. reflexivity.
Qed.

Lemma mem_top_only_set_mem (s s' : state) (m : gmap Z Z) :
  mem_top_only s s' -> mem_top_only s (set_mem s' m).
Proof.
  unfold mem_top_only. intros H. rewrite H.
  destruct s as [m0 a]. destruct a. reflexivity.
Qed.

Lemma mem_top_only_set_top (s s' : state) (t : Z) :
  mem_top_only s s' -> mem_top_only s (set_av s' (set_top (av s') t)).
Proof.
  unfold mem_top_only. intros H. rewrite H.
  destruct s as [m0 a]. destruct a. reflexivity.
Qed.

Lemma mem_top_only_heap (s s' : state) : mem_top_only s s' -> heap_only s s'.
Proof.
  unfold mem_top_only, heap_only. intros H. rewrite H. destruct s as [m0 a]. destruct a. reflexivity.
Qed.

(** Close a goal [R s t], for [R] one of the two relations, where [t] is
    built from a state related to [s] by stores and updates of the top. *)
Ltac frame_step :=
  first
    [ assumption
    | apply heap_only_refl
    | apply mem_top_only_refl
    | apply heap_only_set_mem
    | apply heap_only_set_av
    | apply mem_top_only_set_mem
    | apply mem_top_only_set_top
    | match goal with
      | H : heap_only ?b ?c |- heap_only ?a ?c =>
          apply (heap_only_trans a b c); [|exact H]
      | H : mem_top_only ?b ?c |- mem_top_only ?a ?c =>
          apply (mem_top_only_trans a b c); [|exact H]
      | H : mem_top_only ?b ?c |- heap_only ?a ?c =>
          apply (heap_only_trans a b c); [|exact (mem_top_only_heap b c H)]
      end ].

Ltac frame := repeat frame_step.

Lemma unlink_chunk_frame (p : Z) (s s' : state) (u : unit) :
  unlink_chunk p s = Done u s' -> mem_top_only s s'.
Proof.
  unfold unlink_chunk. intros H. minv; frame.
Qed.

Lemma alloc_perturb_frame (p n : Z) (s s' : state) (u : unit) :
  alloc_perturb p n s = Done u s' -> mem_top_only s s'.
Proof.
  unfold alloc_perturb. destruct (perturb_byte s =? 0); intros H;
    inversion H; subst; frame.
Qed.

Lemma free_perturb_frame (p n : Z) (s s' : state) (u : unit) :
  free_perturb p n s = Done u s' -> mem_top_only s s'.
Proof.
  unfold free_perturb. destruct (perturb_byte s =? 0); intros H;
    inversion H; subst; frame.
Qed.

(** Turn the runs of the parts already dealt with into frame facts. *)
Ltac frame_facts :=
  repeat match goal with
  | H : unlink_chunk _ _ = Done _ _ |- _ => apply unlink_chunk_frame in H
  | H : alloc_perturb _ _ _ = Done _ _ |- _ => apply alloc_perturb_frame in H
  | H : free_perturb _ _ _ = Done _ _ |- _ => apply free_perturb_frame in H
  end.

Lemma consolidate_into_unsorted_frame (U p size : Z) (s s' : state) (u : unit) :
  consolidate_into_unsorted U p size s = Done u s' -> mem_top_only s s'.
Proof.
  unfold consolidate_into_unsorted. intros H. minv; frame.
Qed.

Lemma consolidate_chunk_frame (U fb p : Z) (s s' : state) (nextp : Z) :
  consolidate_chunk U fb p s = Done nextp s' -> mem_top_only s s'.
Proof.
  unfold consolidate_chunk. intros H. minv; frame_facts;
    repeat match goal with
    | H : consolidate_into_unsorted _ _ _ _ = Done _ _ |- _ =>
        apply consolidate_into_unsorted_frame in H
    end; frame.
Qed.

Lemma consolidate_chain_frame (fuel : nat) :
  forall (U fb p : Z) (s s' : state) (u : unit),
  consolidate_chain fuel U fb p s = Done u s' -> mem_top_only s s'.
Proof.
  induction fuel as [|f IH]; intros U fb p s s' u H; cbn [consolidate_chain] in H;
    apply bind_inv in H; destruct H as (nextp & s1 & Hc & H);
    apply consolidate_chunk_frame in Hc;
    destruct (negb (nextp =? 0)).
  - discriminate H.
  - cbv beta delta [ret] in H. inversion H; subst. exact Hc.
  - apply IH in H. frame.
  - cbv beta delta [ret] in H. inversion H; subst. exact Hc.
Qed.

(** What [mem_top_only] says field by field. *)
Lemma mem_top_only_fields (s s' : state) :
  mem_top_only s s' ->
  main (av s') = main (av s) /\ flags (av s') = flags (av s)
  /\ have_fastchunks (av s') = have_fastchunks (av s)
  /\ fastbinsY (av s') = fastbinsY (av s)
  /\ last_remainder (av s') = last_remainder (av s)
  /\ bins (av s') = bins (av s)
  /\ binmap (av s') = binmap (av s)
  /\ system_mem (av s') = system_mem (av s).
Proof. unfold mem_top_only. intros ->. repeat split. Qed.

(** The loop over the fast bins: the bins [fb] to [fb + n - 1] end up
    empty, the others are not touched; beside them only the memory and the
    top chunk change. *)
Lemma consolidate_bins_spec (fuel n : nat) :
  forall (U fb : Z) (s s' : state) (u : unit),
  consolidate_bins fuel n U fb s = Done u s' ->
  heap_only s s'
  /\ main (av s') = main (av s) /\ flags (av s') = flags (av s)
  /\ have_fastchunks (av s') = have_fastchunks (av s)
  /\ last_remainder (av s') = last_remainder (av s)
  /\ bins (av s') = bins (av s)
  /\ binmap (av s') = binmap (av s)
  /\ system_mem (av s') = system_mem (av s)
  /\ forall i : Z,
       nth_z (fastbinsY (av s')) i
       = if (fb <=? i) && (i <? fb + Z.of_nat n) then 0
         else nth_z (fastbinsY (av s)) i.
Proof.
  induction n as [|k IH]; intros U fb s s' u H; cbn [consolidate_bins] in H.
  - cbv beta delta [ret] in H. inversion H; subst.
    split; [apply heap_only_refl|]. do 7 (split; [reflexivity|]).
    intros i. destruct (Z.leb_spec fb i); destruct (Z.ltb_spec i (fb + Z.of_nat 0));
      cbn [andb]; try reflexivity; lia.
  - apply bind_inv in H. destruct H as (s0 & s0' & Hg & H).
    cbv beta delta [get] in Hg. inversion Hg; subst s0 s0'; clear Hg.
    apply bind_inv in H. destruct H as (u1 & s1 & Hm & H).
    cbv beta delta [modify] in Hm. inversion Hm; subst u1 s1; clear Hm.
    apply bind_inv in H. destruct H as (u2 & s2 & Hc & H).
    assert (Hf : mem_top_only
                   (set_av s (set_fastbinsY (av s)
                                (upd_z (fastbinsY (av s)) fb NULL))) s2).
    { destruct (negb (nth_z (fastbinsY (av s)) fb =? 0)).
      - apply consolidate_chain_frame in Hc. exact Hc.
      - cbv beta delta [ret] in Hc. inversion Hc; subst. apply mem_top_only_refl. }
    clear Hc.
    apply IH in H.
    destruct H as (Hh & H1 & H2 & H3 & H4 & H5 & H6 & H7 & Hall).
    pose proof (mem_top_only_fields _ _ Hf) as (F1 & F2 & F3 & F4 & F5 & F6 & F7 & F8).
    cbn [av set_av set_fastbinsY main flags have_fastchunks fastbinsY
         last_remainder bins binmap system_mem] in F1, F2, F3, F4, F5, F6, F7, F8.
    split.
    { apply (heap_only_trans _ s2); [|exact Hh].
      apply (heap_only_trans _ (set_av s (set_fastbinsY (av s)
                                  (upd_z (fastbinsY (av s)) fb NULL)))).
      - frame.
      - apply mem_top_only_heap, Hf. }
    do 7 (split; [congruence|]).
    intros i. rewrite Hall, F4, nth_z_upd_z. unfold NULL.
    rewrite Nat2Z.inj_succ.
    destruct (Z.eqb_spec i fb) as [->|Hne].
    + destruct (Z.leb_spec (fb + 1) fb); [lia|].
      destruct (Z.leb_spec fb fb); [|lia].
      destruct (Z.ltb_spec fb (fb + Z.succ (Z.of_nat k))); [|lia].
      cbn [andb].
      destruct (in_array (fastbinsY (av s)) fb) eqn:Hin; cbn [andb]; [reflexivity|].
      unfold nth_z. rewrite Hin. reflexivity.
    + rewrite andb_false_r.
      destruct (Z.leb_spec (fb + 1) i); destruct (Z.ltb_spec i (fb + 1 + Z.of_nat k));
        destruct (Z.leb_spec fb i);
        destruct (Z.ltb_spec i (fb + Z.succ (Z.of_nat k)));
        cbn [andb]; try reflexivity; lia.
Qed.

(** X4.  [malloc_consolidate] tears down every fast bin: when it returns,
    all the fast bins of the arena are empty and the flag
    [have_fastchunks] is clear.  It changes nothing but the memory and the
    arena (the tcache, the parameters and [errno] are as before), and in
    the arena nothing but the fast bins, that flag and the top chunk. *)
Theorem malloc_consolidate_empties_fastbins (fuel : nat) (s s' : state) :
  malloc_consolidate_code fuel s = Done tt s' ->
  have_fastchunks (av s') = false
  /\ (forall i : Z, nth_z (fastbinsY (av s')) i
                    = if (0 <=? i) && (i <? NFASTBINS) then NULL
                      else nth_z (fastbinsY (av s)) i)
  /\ heap_only s s'
  /\ main (av s') = main (av s) /\ flags (av s') = flags (av s)
  /\ last_remainder (av s') = last_remainder (av s)
  /\ bins (av s') = bins (av s)
  /\ binmap (av s') = binmap (av s)
  /\ system_mem (av s') = system_mem (av s).
Proof.
  unfold malloc_consolidate_code. intros H.
  apply bind_inv in H. destruct H as (u1 & s1 & Hm & H).
  cbv beta delta [modify] in Hm. inversion Hm; subst u1 s1; clear Hm.
  apply bind_inv in H. destruct H as (s2 & s3 & Hg & H).
  cbv beta delta [get] in Hg. inversion Hg; subst s2 s3; clear Hg.
  apply consolidate_bins_spec in H.
  destruct H as (Hh & H1 & H2 & H3 & H4 & H5 & H6 & H7 & Hall).
  cbn [av set_av set_have_fastchunks main flags have_fastchunks fastbinsY
       last_remainder bins binmap system_mem] in H1, H2, H3, H4, H5, H6, H7, Hall.
  split; [exact H3|].
  split; [intros i; rewrite Hall; reflexivity|].
  split; [|repeat split; assumption].
  apply (heap_only_trans _ (set_av s (set_have_fastchunks (av s) false)));
    [frame | exact Hh].
Qed.

Lemma malloc_consolidate_empties_fastbins_witness :
  have_fastchunks
    (av (final_state (malloc_consolidate_code 1 state_perturb_fastbin)
           state_perturb_fastbin)) = false
  /\ nth_z (fastbinsY
       (av (final_state (malloc_consolidate_code 1 state_perturb_fastbin)
              state_perturb_fastbin))) 1 = NULL.
Proof.
  assert (Hrun : exists s', malloc_consolidate_code 1 state_perturb_fastbin
                            = Done tt s').
  { eexists. vm_compute. reflexivity. }
  destruct Hrun as (s' & Hrun).
  rewrite Hrun. cbn [final_state].
  destruct (malloc_consolidate_empties_fastbins 1 state_perturb_fastbin s' Hrun)
    as (Hf & Hall & _).
  split; [exact Hf|]. rewrite Hall. reflexivity.
Defined.

Lemma malloc_consolidate_code_frame (fuel : nat) (s s' : state) (u : unit) :
  malloc_consolidate_code fuel s = Done u s' -> heap_only s s'.
Proof.
  unfold malloc_consolidate_code. intros H.
  apply bind_inv in H. destruct H as (u1 & s1 & Hm & H).
  cbv beta delta [modify] in Hm. inversion Hm; subst u1 s1; clear Hm.
  apply bind_inv in H. destruct H as (s2 & s3 & Hg & H).
  cbv beta delta [get] in Hg. inversion Hg; subst s2 s3; clear Hg.
  apply consolidate_bins_spec in H. destruct H as (Hh & _).
  apply (heap_only_trans _ (set_av s (set_have_fastchunks (av s) false)));
    [frame | exact Hh].
Qed.

Lemma int_free_merge_checks_frame (p size : Z) (s s' : state) (r : Z * Z) :
  int_free_merge_checks p size s = Done r s' -> s' = s.
Proof. unfold int_free_merge_checks. intros H. minv; reflexivity. Qed.

Lemma int_free_place_frame (p size nextchunk nextsize : Z) (s s' : state)
    (r : Z) :
  int_free_place p size nextchunk nextsize s = Done r s' -> mem_top_only s s'.
Proof.
  unfold int_free_place. intros H. minv; frame_facts; frame.
Qed.

Lemma keeps_tcache_refl (s : state) : keeps_tcache s s.
Proof. split; reflexivity. Qed.

(** Chain frame facts into a [keeps_tcache] goal. *)
Ltac keeps_step :=
  first
    [ assumption
    | apply keeps_tcache_refl
    | match goal with
      | H : keeps_tcache ?b ?c |- keeps_tcache ?a ?c =>
          apply (keeps_tcache_trans a b c); [|exact H]
      | H : heap_only ?b ?c |- keeps_tcache ?a ?c =>
          apply (keeps_tcache_trans a b c); [|exact (heap_only_keeps b c H)]
      | H : mem_top_only ?b ?c |- keeps_tcache ?a ?c =>
          apply (keeps_tcache_trans a b c);
          [|exact (heap_only_keeps b c (mem_top_only_heap b c H))]
      | |- keeps_tcache ?a (set_mem ?b ?m) =>
          apply (keeps_tcache_trans a b); [|split; reflexivity]
      | |- keeps_tcache ?a (set_av ?b ?m) =>
          apply (keeps_tcache_trans a b); [|split; reflexivity]
      end ].

Ltac keeps := repeat keeps_step.

(** *** What leaves the tcache alone, by the shape of the code *)

Lemma leaves_bind {A B : Type} (c : M A) (k : A -> M B) :
  leaves_tcache c -> (forall a, leaves_tcache (k a)) ->
  leaves_tcache (bind c k).
Proof.
  intros Hc Hk s b s' H. apply bind_inv in H. destruct H as (a & s1 & H1 & H2).
  apply (keeps_tcache_trans s s1 s'); [apply (Hc _ _ _ H1) | apply (Hk _ _ _ _ H2)].
Qed.

Lemma leaves_ret {A : Type} (a : A) : leaves_tcache (ret a).
Proof. intros s b s' H. inversion H; subst. apply keeps_tcache_refl. Qed.

Lemma leaves_get : leaves_tcache get.
Proof. intros s b s' H. inversion H; subst. apply keeps_tcache_refl. Qed.

Lemma leaves_rd (a : Z) : leaves_tcache (rd a).
Proof. intros s b s' H. inversion H; subst. apply keeps_tcache_refl. Qed.

Lemma leaves_wr (a v : Z) : leaves_tcache (wr a v).
Proof. intros s b s' H. inversion H; subst. split; reflexivity. Qed.

Lemma leaves_modify (f : state -> state) :
  (forall s, keeps_tcache s (f s)) -> leaves_tcache (modify f).
Proof. intros Hf s b s' H. inversion H; subst. apply Hf. Qed.

Lemma leaves_printerr {A : Type} (msg : string) :
  leaves_tcache (malloc_printerr (A := A) msg).
Proof. intros s b s' H. discriminate H. Qed.

Lemma leaves_out_of_fuel {A : Type} : leaves_tcache (out_of_fuel (A := A)).
Proof. intros s b s' H. discriminate H. Qed.

Lemma leaves_assert (e : bool) (text : string) : leaves_tcache (assert e text).
Proof.
  unfold assert. destruct e; [apply leaves_ret | apply leaves_printerr].
Qed.

Lemma leaves_preserves {A : Type} (c : M A) :
  leaves_tcache c -> preserves_bound c.
Proof. intros Hc s a s' Hb H. apply (keeps_bounded s s' (Hc _ _ _ H) Hb). Qed.

Lemma preserves_bind {A B : Type} (c : M A) (k : A -> M B) :
  preserves_bound c -> (forall a, preserves_bound (k a)) ->
  preserves_bound (bind c k).
Proof.
  intros Hc Hk s b s' Hb H. apply bind_inv in H. destruct H as (a & s1 & H1 & H2).
  apply (Hk a s1 b s' (Hc s a s1 Hb H1) H2).
Qed.

Lemma leaves_unlink_chunk (p : Z) : leaves_tcache (unlink_chunk p).
Proof. intros s u s' H. apply (unlink_chunk_keeps _ _ _ _ H). Qed.

Lemma leaves_alloc_perturb (p n : Z) : leaves_tcache (alloc_perturb p n).
Proof. intros s u s' H. apply alloc_perturb_frame in H. keeps. Qed.

Lemma leaves_free_perturb (p n : Z) : leaves_tcache (free_perturb p n).
Proof. intros s u s' H. apply free_perturb_frame in H. keeps. Qed.

Lemma leaves_malloc_consolidate_code (fuel : nat) :
  leaves_tcache (malloc_consolidate_code fuel).
Proof. intros s u s' H. apply malloc_consolidate_code_frame in H. keeps. Qed.

Lemma leaves_int_free_merge_checks (p size : Z) :
  leaves_tcache (int_free_merge_checks p size).
Proof.
  intros s r s' H. apply int_free_merge_checks_frame in H. subst.
  apply keeps_tcache_refl.
Qed.

Lemma leaves_int_free_place (p size nextchunk nextsize : Z) :
  leaves_tcache (int_free_place p size nextchunk nextsize).
Proof. intros s r s' H. apply int_free_place_frame in H. keeps. Qed.

(** One step on a goal [leaves_tcache c], by the head of [c]. *)
Ltac leaves_step :=
  lazymatch goal with
  | |- leaves_tcache (bind _ _) => apply leaves_bind; [|intros ?]
  | |- leaves_tcache (ret _) => apply leaves_ret
  | |- leaves_tcache get => apply leaves_get
  | |- leaves_tcache (rd _) => apply leaves_rd
  | |- leaves_tcache (wr _ _) => apply leaves_wr
  | |- leaves_tcache (assert _ _) => apply leaves_assert
  | |- leaves_tcache (malloc_printerr _) => apply leaves_printerr
  | |- leaves_tcache out_of_fuel => apply leaves_out_of_fuel
  | |- leaves_tcache (modify _) =>
      apply leaves_modify; intros ?; split; reflexivity
  | |- leaves_tcache (unlink_chunk _) => apply leaves_unlink_chunk
  | |- leaves_tcache (alloc_perturb _ _) => apply leaves_alloc_perturb
  | |- leaves_tcache (free_perturb _ _) => apply leaves_free_perturb
  | |- leaves_tcache (malloc_consolidate_code _) =>
      apply leaves_malloc_consolidate_code
  | |- leaves_tcache (int_free_merge_checks _ _) =>
      apply leaves_int_free_merge_checks
  | |- leaves_tcache (int_free_place _ _ _ _) => apply leaves_int_free_place
  | |- leaves_tcache (if ?b then _ else _) => destruct b
  | |- leaves_tcache (match ?o with Some _ => _ | None => _ end) => destruct o
  | |- leaves_tcache (let _ := _ in _) => cbv zeta
  end.

Ltac leaves := repeat leaves_step.

(** ** The code of [systrim], of [_int_free] and of [sysmalloc] *)

Section EngineCode.

Variable Y : sysdeps.
Hypothesis HY : sysdeps_ok Y.
Variable g : globals.

Lemma leaves_call_after_morecore_hook :
  leaves_tcache (call_after_morecore_hook Y).
Proof.
  unfold call_after_morecore_hook.
  destruct (__after_morecore_hook Y) as [h|] eqn:Hh.
  - apply (after_morecore_hook_ok Y HY h Hh).
  - apply leaves_ret.
Qed.

Lemma leaves_systrim_code (pad : Z) : leaves_tcache (systrim_code Y pad).
Proof.
  unfold systrim_code. leaves;
    first [apply (morecore_ok Y HY) | apply leaves_call_after_morecore_hook].
Qed.

Lemma int_free_merge_code_keeps (fuel : nat) (p size : Z) (have_lock : bool) :
  leaves_tcache (int_free_merge_code Y g fuel p size have_lock).
Proof.
  unfold int_free_merge_code. leaves;
    first [apply leaves_systrim_code | apply (heap_trim_ok Y HY)].
Qed.

End EngineCode.

(** The environment in which [sysmalloc] calls [_int_free] meets what the
    bound on the tcache asks of it. *)
Lemma with_merge_ok (E : externals) (Y : sysdeps) (g : globals) (fuel : nat) :
  environment_ok E Y -> externals_ok (with_merge E Y g fuel).
Proof.
  intros HE. constructor; cbn [with_merge __malloc_hook __free_hook
    __realloc_hook malloc_consolidate int_malloc_bins int_free_merge
    __munmap __mremap].
  - apply (env_malloc_hook E Y HE).
  - apply (env_free_hook E Y HE).
  - apply (env_realloc_hook E Y HE).
  - apply leaves_malloc_consolidate_code.
  - intros nb bytes idx s o s' H. inversion H; subst.
    split; [intros Hb; exact Hb | intros _; apply keeps_tcache_refl].
  - intros p size l. apply (int_free_merge_code_keeps Y (env_sys E Y HE)).
  - apply (env_munmap E Y HE).
  - apply (env_mremap E Y HE).
Qed.

(** ** The bin search of [_int_malloc] and the tcache *)

Lemma take_or_split_frame (victim size nb bytes : Z) (msg : string)
    (advertise : bool) (s s' : state) (p : Z) :
  take_or_split victim size nb bytes msg advertise s = Done p s' ->
  heap_only s s'.
Proof.
  unfold take_or_split. intros H. minv; frame_facts; frame.
Qed.

Lemma largebin_walk_frame (fuel : nat) :
  forall (nb victim : Z) (s s' : state) (r : Z * Z),
  largebin_walk fuel nb victim s = Done r s' -> s' = s.
Proof.
  induction fuel as [|f IH]; intros nb victim s s' r H;
    cbn [largebin_walk] in H; minv; try reflexivity.
  match goal with
  | H : largebin_walk _ _ _ _ = Done _ _ |- _ => apply IH in H; exact H
  end.
Qed.

Lemma largebin_fit_frame (fuel : nat) (nb bytes idx : Z) (s s' : state)
    (r : option Z) :
  largebin_fit fuel nb bytes idx s = Done r s' -> heap_only s s'.
Proof.
  unfold largebin_fit. intros H. minv; frame_facts;
    repeat match goal with
    | H : largebin_walk _ _ _ _ = Done _ _ |- _ =>
        apply largebin_walk_frame in H; subst
    | H : take_or_split _ _ _ _ _ _ _ = Done _ _ |- _ =>
        apply take_or_split_frame in H
    end; frame.
Qed.

Lemma next_block_frame (fuel : nat) :
  forall (block : Z) (s s' : state) (r : option (Z * Z)),
  next_block fuel block s = Done r s' -> s' = s.
Proof.
  induction fuel as [|f IH]; intros block s s' r H;
    cbn [next_block] in H; minv; try reflexivity.
  match goal with
  | H : next_block _ _ _ = Done _ _ |- _ => apply IH in H; exact H
  end.
Qed.

Lemma advance_bit_frame (fuel : nat) :
  forall (bin bit map : Z) (s s' : state) (r : Z * Z),
  advance_bit fuel bin bit map s = Done r s' -> s' = s.
Proof.
  induction fuel as [|f IH]; intros bin bit map s s' r H;
    cbn [advance_bit] in H; minv; try reflexivity.
  match goal with
  | H : advance_bit _ _ _ _ _ = Done _ _ |- _ => apply IH in H; exact H
  end.
Qed.

Lemma binmap_scan_frame (fuel : nat) :
  forall (nb bytes bin block map bit : Z) (s s' : state) (r : option Z),
  binmap_scan fuel nb bytes bin block map bit s = Done r s' -> heap_only s s'.
Proof.
  induction fuel as [|f IH]; intros nb bytes bin block map bit s s' r H;
    cbn [binmap_scan] in H.
  all: apply bind_inv in H; destruct H as (q & s1 & Hq & H).
  all: assert (Hs1 : s1 = s)
    by (minv;
        repeat match goal with
        | H : next_block _ _ _ = Done _ _ |- _ =>
            apply next_block_frame in H; subst
        | H : match ?b with Some _ => _ | None => _ end _ = Done _ _ |- _ =>
            destruct b; minv
        end; reflexivity).
  all: subst s1; clear Hq.
  all: destruct q as [[[[bin' block'] map'] bit']|];
    [|cbv beta delta [ret] in H; inversion H; subst; apply heap_only_refl].
  all: apply bind_inv in H; destruct H as (bb & s2 & Hb & H).
  all: apply advance_bit_frame in Hb; subst s2.
  all: minv; frame_facts;
    repeat match goal with
    | H : take_or_split _ _ _ _ _ _ _ = Done _ _ |- _ =>
        apply take_or_split_frame in H
    | H : binmap_scan _ _ _ _ _ _ _ _ = Done _ _ |- _ => apply IH in H
    end; frame.
Qed.

Lemma leaves_largebin_fit (fuel : nat) (nb bytes idx : Z) :
  leaves_tcache (largebin_fit fuel nb bytes idx).
Proof. intros s r s' H. apply largebin_fit_frame in H. keeps. Qed.

Lemma leaves_binmap_scan (fuel : nat) (nb bytes bin block map bit : Z) :
  leaves_tcache (binmap_scan fuel nb bytes bin block map bit).
Proof. intros s r s' H. apply binmap_scan_frame in H. keeps. Qed.

(** ** [sysmalloc] and the tcache *)

(** One step on a goal [preserves_bound c]: by the head of [c], or for a
    part that leaves the tcache alone, by that. *)
Ltac bound_step :=
  lazymatch goal with
  | |- preserves_bound (bind _ _) => apply preserves_bind; [|intros ?]
  | |- preserves_bound (if ?b then _ else _) => destruct b
  | |- preserves_bound (match ?o with Some _ => _ | None => _ end) => destruct o
  | |- preserves_bound (let _ := _ in _) => cbv zeta
  | |- preserves_bound _ => apply leaves_preserves
  | |- leaves_tcache _ => leaves_step
  end.

Section SysmallocCode.

Variable E1 : externals.
Hypothesis HE1 : externals_ok E1.
Variable Y : sysdeps.
Hypothesis HY : sysdeps_ok Y.
Variable g : globals.

Lemma leaves_sysmalloc_mmap (nb : Z) : leaves_tcache (sysmalloc_mmap Y nb).
Proof.
  unfold sysmalloc_mmap. leaves; apply (mmap_ok Y HY).
Qed.

Lemma leaves_add_system_mem (d : Z) : leaves_tcache (add_system_mem d).
Proof. unfold add_system_mem. leaves. Qed.

Lemma leaves_sysmalloc_finish (nb : Z) : leaves_tcache (sysmalloc_finish nb).
Proof. unfold sysmalloc_finish. leaves. Qed.

(** [sysmalloc] releases what is left of the old top chunk through
    [_int_free], which may put it into the tcache: the bound is kept, the
    content of the tcache is not. *)
Lemma int_free_preserves (fuel : nat) (p : Z) (have_lock : bool) :
  preserves_bound (_int_free E1 fuel p have_lock).
Proof.
  intros s u s' Hb H. apply (int_free_bounded E1 HE1 fuel p have_lock s s' u Hb H).
Qed.

Lemma sysmalloc_morecore_preserves (fuel : nat)
    (nb old_top old_size old_end pagesize : Z) :
  preserves_bound
    (sysmalloc_morecore E1 Y g fuel nb old_top old_size old_end pagesize).
Proof.
  unfold sysmalloc_morecore.
  repeat first
    [ apply int_free_preserves
    | apply (morecore_ok Y HY)
    | apply (mmap_ok Y HY)
    | apply (leaves_call_after_morecore_hook Y HY)
    | apply leaves_add_system_mem
    | bound_step ].
Qed.

Lemma sysmalloc_heap_preserves (fuel : nat) (nb old_top old_size : Z) :
  preserves_bound (sysmalloc_heap E1 Y g fuel nb old_top old_size).
Proof.
  unfold sysmalloc_heap.
  repeat first
    [ apply int_free_preserves
    | apply (grow_heap_ok Y HY)
    | apply (new_heap_ok Y HY)
    | apply leaves_add_system_mem
    | bound_step ].
Qed.

Lemma sysmalloc_arena_preserves (fuel k : nat) :
  forall (tried_mmap : bool) (nb : Z),
  preserves_bound (sysmalloc_arena E1 Y g fuel k tried_mmap nb).
Proof.
  induction k as [|k IH]; intros tried_mmap nb; cbn [sysmalloc_arena];
    repeat first
      [ apply sysmalloc_morecore_preserves
      | apply sysmalloc_heap_preserves
      | apply IH
      | apply leaves_sysmalloc_mmap
      | apply leaves_sysmalloc_finish
      | bound_step ].
Qed.

Lemma sysmalloc_code_preserves (fuel : nat) (nb : Z) :
  preserves_bound (sysmalloc_code E1 Y g fuel nb).
Proof.
  unfold sysmalloc_code.
  repeat first
    [ apply sysmalloc_arena_preserves
    | apply leaves_sysmalloc_mmap
    | bound_step ].
Qed.

End SysmallocCode.

(** ** The rest of the loop of [_int_malloc] *)

Section BinsCode.

Variable E : externals.
Variable Y : sysdeps.
Hypothesis HE : environment_ok E Y.
Variable g : globals.

Lemma use_top_preserves (fuel : nat) (nb bytes : Z) :
  preserves_bound (use_top E Y g fuel nb bytes).
Proof.
  unfold use_top.
  repeat first
    [ apply (sysmalloc_code_preserves _ (with_merge_ok E Y g fuel HE) Y
               (env_sys E Y HE))
    | bound_step ].
Qed.

(** [use_top] asks for another round only after [malloc_consolidate]. *)
Lemma use_top_again (fuel : nat) (nb bytes : Z) (s s' : state) :
  use_top E Y g fuel nb bytes s = Done None s' -> keeps_tcache s s'.
Proof.
  unfold use_top. intros H. minv.
  match goal with
  | H : malloc_consolidate_code _ _ = Done _ _ |- _ =>
      apply malloc_consolidate_code_frame in H
  end.
  keeps.
Qed.

Lemma int_malloc_bins_code_ok (fuel : nat) (nb bytes idx : Z)
    (s s' : state) (o : option Z) :
  int_malloc_bins_code E Y g fuel nb bytes idx s = Done o s' ->
  (tcache_bounded s -> tcache_bounded s')
  /\ (o = None -> keeps_tcache s s').
Proof.
  intros H. split.
  - intros Hb. revert s o s' Hb H.
    change (preserves_bound (int_malloc_bins_code E Y g fuel nb bytes idx)).
    unfold int_malloc_bins_code.
    repeat first
      [ apply use_top_preserves
      | apply leaves_largebin_fit
      | apply leaves_binmap_scan
      | bound_step ].
  - intros ->. unfold int_malloc_bins_code in H.
    apply bind_inv in H. destruct H as (q & s1 & Hq & H).
    assert (H1 : keeps_tcache s s1).
    { destruct (negb (in_smallbin_range nb)).
      - apply (leaves_largebin_fit _ _ _ _ _ _ _ Hq).
      - inversion Hq; subst. apply keeps_tcache_refl. }
    clear Hq. destruct q as [p|]; [inversion H|].
    apply bind_inv in H. destruct H as (s2 & s3 & Hg & H).
    inversion Hg; subst s2 s3; clear Hg.
    apply bind_inv in H. destruct H as (q & s2 & Hq & H).
    apply leaves_binmap_scan in Hq.
    destruct q as [p|]; [inversion H|].
    apply use_top_again in H. keeps.
Qed.

(** With the three parts run as code, the environment meets what the bound
    on the tcache asks of it. *)
Lemma with_engine_ok (fuel : nat) : externals_ok (with_engine E Y g fuel).
Proof.
  constructor; cbn [with_engine __malloc_hook __free_hook
    __realloc_hook malloc_consolidate int_malloc_bins int_free_merge
    __munmap __mremap].
  - apply (env_malloc_hook E Y HE).
  - apply (env_free_hook E Y HE).
  - apply (env_realloc_hook E Y HE).
  - apply leaves_malloc_consolidate_code.
  - intros nb bytes idx s o s' H. apply (int_malloc_bins_code_ok _ _ _ _ _ _ _ H).
  - intros p size l. apply (int_free_merge_code_keeps Y (env_sys E Y HE)).
  - apply (env_munmap E Y HE).
  - apply (env_mremap E Y HE).
Qed.

End BinsCode.

Lemma quiet_environment_ok : environment_ok quiet_env quiet_sys.
Proof.
  constructor; [| | | | |constructor]; cbn; try (intros; discriminate);
    intros; apply leaves_ret.
Qed.

(** ** The bound on the tcache *)

Lemma tcache_struct_clear_b_sound (s : state) :
  tcache_struct_clear_b s = true -> tcache_struct_clear s.
Proof.
  unfold tcache_struct_clear_b, tcache_struct_clear. intros H k Hk.
  rewrite forallb_forall in H.
  apply Z.eqb_eq. apply H. apply list_elem_of_In. apply elem_of_seqZ. lia.
Qed.

Lemma in_heap_bounded_b_sound (s : state) :
  InHeap.tcache_bounded_b s = true -> InHeap.tcache_bounded s.
Proof.
  unfold InHeap.tcache_bounded_b, InHeap.tcache_bounded. intros H i Hi.
  rewrite forallb_forall in H.
  apply Z.leb_le. apply H. apply list_elem_of_In. apply elem_of_seqZ. lia.
Qed.

(** A store of [n] bytes does not change what is read from [k] bytes that
    lie apart from them. *)
Lemma load_le_store_le_apart (m : gmap Z Z) (a b v : Z) (n k : nat) :
  a + Z.of_nat n <= b \/ b + Z.of_nat k <= a ->
  load_le (store_le m a n v) b k = load_le m b k.
Proof.
  intros H. apply load_le_ext. intros c Hc. apply store_le_other. lia.
Qed.

(** The counters after the four stores of [tcache_put], for an entry [e]
    that lies apart from the structure at [t]. *)
Lemma put_counts (m : gmap Z Z) (t e i j : Z) :
  0 <= i < 64 -> 0 <= j < 64 ->
  e + 16 <= t \/ t + 640 <= e ->
  let m3 := store (store (store m (e + 8) t) e
                     (load (store m (e + 8) t) (InHeap.entries_addr t i)))
              (InHeap.entries_addr t i) e in
  InHeap.counts_at
    (store_le m3 (InHeap.counts_addr t i) 2 (InHeap.counts_at m3 t i + 1)) t j
  = if j =? i then (InHeap.counts_at m t i + 1) mod 65536
    else InHeap.counts_at m t j.
Proof.
  intros Hi Hj Hapart m3.
  assert (Hkeep : forall k, 0 <= k < 64 ->
            InHeap.counts_at m3 t k = InHeap.counts_at m t k).
  { intros k Hk. unfold m3, InHeap.counts_at, InHeap.counts_addr,
      InHeap.entries_addr, store.
    change TCACHE_MAX_BINS with 64.
    rewrite !load_le_store_le_apart; [reflexivity| | |];
      change (Z.of_nat 8) with 8; change (Z.of_nat 2) with 2; lia. }
  destruct (Z.eqb_spec j i) as [->|Hne].
  - rewrite (Hkeep i Hi). unfold InHeap.counts_at at 1.
    rewrite load_store_le_same. reflexivity.
  - unfold InHeap.counts_at at 1.
    rewrite load_le_store_le_apart
      by (unfold InHeap.counts_addr; change (Z.of_nat 2) with 2; lia).
    apply (Hkeep j Hj).
Qed.

(** The push with the structure in memory: when the chunk lies apart from
    the structure and the counter of the bucket is below the cap, the
    counter goes up by one, the other counters stay, and every counter is
    within the cap afterwards. *)
Lemma in_heap_put_bounded (chunk i : Z) (s s' : state) :
  0 <= i < TCACHE_MAX_BINS ->
  chunk2mem chunk + 16 <= tcache s
  \/ tcache s + sizeof_tcache_perthread_struct <= chunk2mem chunk ->
  tcache_count (mp_ s) <= MAX_TCACHE_COUNT ->
  InHeap.tcache_bounded s ->
  InHeap.counts_at (mem s) (tcache s) i < tcache_count (mp_ s) ->
  InHeap.tcache_put chunk i s = Done tt s' ->
  InHeap.tcache_bounded s'
  /\ InHeap.counts_at (mem s') (tcache s') i
     = InHeap.counts_at (mem s) (tcache s) i + 1.
Proof.
  intros Hi Hapart Hcap Hb Hroom H.
  change TCACHE_MAX_BINS with 64 in Hi.
  change sizeof_tcache_perthread_struct with 640 in Hapart.
  change MAX_TCACHE_COUNT with 65535 in Hcap.
  assert (Hc : forall j, 0 <= j < 64 ->
            InHeap.counts_at (mem s') (tcache s') j
            = if j =? i then (InHeap.counts_at (mem s) (tcache s) i + 1) mod 65536
              else InHeap.counts_at (mem s) (tcache s) j).
  { intros j Hj.
    pose proof (put_counts (mem s) (tcache s) (chunk2mem chunk) i j
                  Hi Hj Hapart) as Hp.
    cbv zeta in Hp. rewrite <- Hp.
    injection H as <-. reflexivity. }
  assert (Hmp : mp_ s' = mp_ s) by (injection H as <-; reflexivity).
  pose proof (load_le_range 2 (mem s) (InHeap.counts_addr (tcache s) i)) as Hr.
  fold (InHeap.counts_at (mem s) (tcache s) i) in Hr.
  change (256 ^ Z.of_nat 2) with 65536 in Hr.
  assert (Hnew : (InHeap.counts_at (mem s) (tcache s) i + 1) mod 65536
                 = InHeap.counts_at (mem s) (tcache s) i + 1)
    by (apply Z.mod_small; lia).
  split.
  - intros j Hj. change TCACHE_MAX_BINS with 64 in Hj.
    rewrite (Hc j Hj), Hmp.
    destruct (Z.eqb_spec j i) as [->|Hne]; [lia|].
    apply Hb. change TCACHE_MAX_BINS with 64. exact Hj.
  - rewrite (Hc i Hi), Z.eqb_refl. exact Hnew.
Qed.

(** What the condition on the chunk excludes.  In [state_struct] the
    tcache structure is the payload of the chunk at [tcache_chunk] and
    every counter is zero.  That chunk is not one the program was given;
    released all the same, it passes the checks of [_int_free], its size
    class is bucket 39, which has room, and [tcache_put] writes the key,
    the pointer [tcache], over the counters 4 to 7: when [__libc_free]
    returns, the counter of bucket 4 is 20496, above the cap of 7. *)
Lemma free_of_tcache_chunk_breaks_bound :
  InHeap.tcache_bounded state_struct
  /\ exists s' : state,
       InHeap.__libc_free (with_engine quiet_env quiet_sys globals0 1) 1
         (chunk2mem tcache_chunk) state_struct = Done tt s'
       /\ tcache_count (mp_ s') = 7
       /\ InHeap.counts_at (mem s') (tcache s') 4 = 20496
       /\ ~ InHeap.tcache_bounded s'.
Proof.
  split.
  - apply in_heap_bounded_b_sound. vm_compute. reflexivity.
  - eexists. split; [vm_compute; reflexivity|].
    split; [reflexivity|].
    assert (H4 : InHeap.counts_at
                   (mem (final_state
                      (InHeap.__libc_free
                         (with_engine quiet_env quiet_sys globals0 1) 1
                         (chunk2mem tcache_chunk) state_struct) state_struct))
                   (chunk2mem tcache_chunk) 4 = 20496)
      by (vm_compute; reflexivity).
    split; [exact H4|].
    intros Hb. specialize (Hb 4 ltac:(vm_compute; split; [discriminate|reflexivity])).
    cbn [mp_ tcache] in Hb. 
    change (InHeap.counts_at
              (mem (final_state
                 (InHeap.__libc_free
                    (with_engine quiet_env quiet_sys globals0 1) 1
                    (chunk2mem tcache_chunk) state_struct) state_struct))
              (chunk2mem tcache_chunk) 4 <= 7) in Hb.
    rewrite H4 in Hb. lia.
Qed.



(** The same release with the structure kept in the record: the key and
    the link that [tcache_put] stores are left in the memory under the
    structure, which is not clear afterwards; the bound proved above is
    not claimed for this run. *)
Lemma free_of_tcache_chunk_leaves_trace :
  tcache_bounded state_struct
  /\ tcache_struct_clear state_struct
  /\ exists s' : state,
       __libc_free (with_engine quiet_env quiet_sys globals0 1) 1
         (chunk2mem tcache_chunk) state_struct = Done tt s'
       /\ load (mem s') (tcache s' + 8) = tcache s'
       /\ ~ tcache_struct_clear s'.
Proof.
  split; [apply tcache_bounded_b_sound; vm_compute; reflexivity|].
  split; [apply tcache_struct_clear_b_sound; vm_compute; reflexivity|].
  eexists. split; [vm_compute; reflexivity|].
  split; [vm_compute; reflexivity|].
  intros Hc. specialize (Hc 8 ltac:(vm_compute; split; [discriminate|reflexivity])).
  vm_compute in Hc. discriminate Hc.
Qed.

(** The release inside [sysmalloc], on [state_gap]: the break has been
    moved by someone else, so the memory [MORECORE] grants does not
    border the old top chunk; [sysmalloc] sets up the new top chunk at the
    old break and hands what is left of the old one, [0xe0] bytes, to
    [_int_free], which puts it into bucket 12 of the tcache.  The tail of
    [_int_malloc] does change the tcache. *)
Lemma sysmalloc_puts_old_top_into_tcache :
  exists s' : state,
    __libc_malloc (with_engine quiet_env sbrk_sys globals0 4) 4 0x1000 state_gap
    = Done 0x30010 s'
    /\ top (av s') = 0x31010
    /\ nth_z (counts (tcache_data state_gap)) 12 = 0
    /\ nth_z (counts (tcache_data s')) 12 = 1
    /\ nth_z (entries (tcache_data s')) 12 = chunk2mem small_top.
Proof.
  eexists. split; [vm_compute; reflexivity|].
  repeat split; vm_compute; reflexivity.
Qed.

(** ** The record and the structure in memory *)

(** A store changes two memories that agree on a byte in the same way. *)
Lemma store_le_agree (n : nat) : forall (m1 m2 : gmap Z Z) (a v b : Z),
  load_byte m1 b = load_byte m2 b ->
  load_byte (store_le m1 a n v) b = load_byte (store_le m2 a n v) b.
Proof.
  induction n as [|n IH]; intros m1 m2 a v b H; cbn [store_le].
  - exact H.
  - apply IH. destruct (Z.eq_dec b a) as [->|Hne].
    + rewrite !load_byte_insert_eq. reflexivity.
    + rewrite !load_byte_insert_ne by congruence. exact H.
Qed.

Lemma wrap_chunk2mem (p : Z) : wrap (chunk2mem p) = chunk2mem p.
Proof. unfold chunk2mem. apply wrap_small, wrap_range. Qed.

(** The list heads after the four stores of [tcache_put]. *)
Lemma put_entries (m : gmap Z Z) (t e i j : Z) :
  0 <= i < 64 -> 0 <= j < 64 ->
  e + 16 <= t \/ t + 640 <= e ->
  let m3 := store (store (store m (e + 8) t) e
                     (load (store m (e + 8) t) (InHeap.entries_addr t i)))
              (InHeap.entries_addr t i) e in
  InHeap.entries_at
    (store_le m3 (InHeap.counts_addr t i) 2 (InHeap.counts_at m3 t i + 1)) t j
  = if j =? i then wrap e else InHeap.entries_at m t j.
Proof.
  intros Hi Hj Hapart m3.
  unfold InHeap.entries_at at 1. unfold load.
  rewrite load_le_store_le_apart
    by (unfold InHeap.counts_addr, InHeap.entries_addr;
        change TCACHE_MAX_BINS with 64; change (Z.of_nat 2) with 2;
        change (Z.of_nat 8) with 8; lia).
  fold (load m3 (InHeap.entries_addr t j)). unfold m3.
  destruct (Z.eqb_spec j i) as [->|Hne].
  - apply load_store_eq.
  - unfold InHeap.entries_at.
    rewrite !load_store_ne; [reflexivity| | |];
      unfold InHeap.entries_addr; change TCACHE_MAX_BINS with 64; lia.
Qed.

Section Refinement.

Variables (h s : state) (i : Z).
Hypothesis Hrep : represents h s.
Hypothesis Hi : 0 <= i < TCACHE_MAX_BINS.
Hypothesis Hcounts : in_array (counts (tcache_data s)) i = true.
Hypothesis Hentries : in_array (entries (tcache_data s)) i = true.

(** The push: for a chunk that lies apart from the structure, the push on
    the structure in memory and the push on the record end in states
    that stand for the same process image. *)
Lemma put_refines (chunk : Z) (h' s' : state) :
  chunk2mem chunk + 16 <= tcache s
  \/ tcache s + sizeof_tcache_perthread_struct <= chunk2mem chunk ->
  InHeap.tcache_put chunk i h = Done tt h' ->
  tcache_put chunk i s = Done tt s' ->
  represents h' s'.
Proof.
  intros Hapart Hh Hs.
  destruct Hrep as (Hav & Hmp & Htc & Hout & Hin).
  change TCACHE_MAX_BINS with 64 in *.
  change sizeof_tcache_perthread_struct with 640 in *.
  set (e := chunk2mem chunk) in *. set (t := tcache s) in *.
  assert (Ehead : load (store (mem h) (e + 8) t) (InHeap.entries_addr t i)
                  = nth_z (entries (tcache_data s)) i).
  { rewrite load_store_ne
      by (unfold InHeap.entries_addr; change TCACHE_MAX_BINS with 64; lia).
    rewrite <- Htc. apply (Hin i Hi). }
  assert (Emem : mem h'
            = store_le
                (store (store (store (mem h) (e + 8) t) e
                          (load (store (mem h) (e + 8) t)
                             (InHeap.entries_addr t i)))
                   (InHeap.entries_addr t i) e)
                (InHeap.counts_addr t i) 2
                (InHeap.counts_at
                   (store (store (store (mem h) (e + 8) t) e
                             (load (store (mem h) (e + 8) t)
                                (InHeap.entries_addr t i)))
                      (InHeap.entries_addr t i) e) t i + 1)).
  { injection Hh as <-. rewrite <- Htc. reflexivity. }
  assert (Eh' : av h' = av h /\ mp_ h' = mp_ h /\ tcache h' = tcache h)
    by (injection Hh as <-; repeat split).
  destruct Eh' as (Eav & Emp & Etc).
  injection Hs as <-.
  unfold represents.
  cbn [av mp_ tcache mem tcache_data set_tcache set_mem counts entries].
  rewrite Eav, Emp, Etc. fold e. fold t.
  split; [exact Hav|]. split; [exact Hmp|]. split; [exact Htc|]. split.
  - intros a Ha. change sizeof_tcache_perthread_struct with 640 in Ha.
    rewrite Emem.
    rewrite store_le_other
      by (unfold InHeap.counts_addr; change (Z.of_nat 2) with 2; lia).
    unfold store at 1.
    rewrite store_le_other
      by (unfold InHeap.entries_addr; change TCACHE_MAX_BINS with 64;
          change (Z.of_nat 8) with 8; lia).
    rewrite Ehead. unfold store.
    apply store_le_agree, store_le_agree, Hout. exact Ha.
  - intros j Hj. change TCACHE_MAX_BINS with 64 in Hj.
    rewrite Htc, Emem. split.
    + pose proof (put_counts (mem h) t e i j Hi Hj Hapart) as Hp.
      cbv zeta in Hp. rewrite Hp, nth_z_upd_z, Hcounts. cbn [andb].
      destruct (Z.eqb_spec j i) as [->|Hne].
      * rewrite <- (proj1 (Hin i Hi)), Htc. reflexivity.
      * rewrite <- (proj1 (Hin j Hj)), Htc. reflexivity.
    + pose proof (put_entries (mem h) t e i j Hi Hj Hapart) as Hp.
      cbv zeta in Hp. rewrite Hp, nth_z_upd_z, Hentries. cbn [andb].
      destruct (Z.eqb_spec j i) as [->|Hne].
      * apply wrap_chunk2mem.
      * rewrite <- (proj2 (Hin j Hj)), Htc. reflexivity.
Qed.

(** The pop: when the first chunk of the bucket lies apart from the
    structure, the two pops return the same chunk and end in states that
    stand for the same process image. *)
Lemma get_refines (h' s' : state) (eh es : Z) :
  nth_z (entries (tcache_data s)) i + 16 <= tcache s
  \/ tcache s + sizeof_tcache_perthread_struct
     <= nth_z (entries (tcache_data s)) i ->
  InHeap.tcache_get i h = Done eh h' ->
  tcache_get i s = Done es s' ->
  eh = es /\ represents h' s'.
Proof.
  intros Hapart Hh Hs.
  destruct Hrep as (Hav & Hmp & Htc & Hout & Hin).
  change TCACHE_MAX_BINS with 64 in *.
  change sizeof_tcache_perthread_struct with 640 in *.
  set (e := nth_z (entries (tcache_data s)) i) in *. set (t := tcache s) in *.
  assert (Ee : load (mem h) (InHeap.entries_addr t i) = e).
  { rewrite <- Htc. apply (Hin i Hi). }
  assert (Enext : load (mem h) e = load (mem s) e).
  { unfold load. apply load_le_ext. intros b Hb.
    change (Z.of_nat 8) with 8 in Hb. apply Hout. lia. }
  set (next := load (mem s) e) in *.
  assert (Eres : eh = e
            /\ mem h'
               = store
                   (store_le (store (mem h) (InHeap.entries_addr t i) next)
                      (InHeap.counts_addr t i) 2
                      (InHeap.counts_at
                         (store (mem h) (InHeap.entries_addr t i) next) t i - 1))
                   (e + 8) NULL
            /\ av h' = av h /\ mp_ h' = mp_ h /\ tcache h' = tcache h).
  { cbv beta iota zeta delta [InHeap.tcache_get bind get rd wr modify ret] in Hh.
    cbn [mem set_mem tcache] in Hh. rewrite Htc, Ee, Enext in Hh.
    injection Hh as <- <-. repeat split. }
  destruct Eres as (-> & Emem & Eav & Emp & Etc).
  injection Hs as <- <-. split; [reflexivity|].
  unfold represents.
  cbn [av mp_ tcache mem tcache_data set_tcache set_mem counts entries].
  rewrite Eav, Emp, Etc. fold e. fold t. fold next.
  split; [exact Hav|]. split; [exact Hmp|]. split; [exact Htc|].
  assert (Hc1 : forall j, 0 <= j < 64 ->
            InHeap.counts_at (store (mem h) (InHeap.entries_addr t i) next) t j
            = InHeap.counts_at (mem h) t j).
  { intros j Hj. unfold InHeap.counts_at, store.
    apply load_le_store_le_apart.
    unfold InHeap.counts_addr, InHeap.entries_addr.
    change TCACHE_MAX_BINS with 64. change (Z.of_nat 2) with 2. lia. }
  split.
  - intros a Ha. change sizeof_tcache_perthread_struct with 640 in Ha.
    rewrite Emem. unfold store at 1. unfold store at 2.
    apply store_le_agree.
    rewrite store_le_other
      by (unfold InHeap.counts_addr; change (Z.of_nat 2) with 2; lia).
    unfold store.
    rewrite store_le_other
      by (unfold InHeap.entries_addr; change TCACHE_MAX_BINS with 64;
          change (Z.of_nat 8) with 8; lia).
    apply Hout. exact Ha.
  - intros j Hj. change TCACHE_MAX_BINS with 64 in Hj.
    rewrite Htc, Emem. split.
    + unfold InHeap.counts_at at 1. unfold store at 1.
      rewrite load_le_store_le_apart
        by (unfold InHeap.counts_addr; change (Z.of_nat 8) with 8;
            change (Z.of_nat 2) with 2; lia).
      rewrite nth_z_upd_z, Hcounts. cbn [andb].
      destruct (Z.eqb_spec j i) as [->|Hne].
      * rewrite load_store_le_same, (Hc1 i Hi).
        rewrite <- Htc, (proj1 (Hin i Hi)). reflexivity.
      * rewrite load_le_store_le_apart
          by (unfold InHeap.counts_addr; change (Z.of_nat 2) with 2; lia).
        fold (InHeap.counts_at
                (store (mem h) (InHeap.entries_addr t i) next) t j).
        rewrite (Hc1 j Hj), <- Htc. apply (proj1 (Hin j Hj)).
    + unfold InHeap.entries_at at 1.
      rewrite load_store_ne
        by (unfold InHeap.entries_addr; change TCACHE_MAX_BINS with 64; lia).
      unfold load at 1.
      rewrite load_le_store_le_apart
        by (unfold InHeap.counts_addr, InHeap.entries_addr;
            change TCACHE_MAX_BINS with 64; change (Z.of_nat 8) with 8;
            change (Z.of_nat 2) with 2; lia).
      fold (load (store (mem h) (InHeap.entries_addr t i) next)
              (InHeap.entries_addr t j)).
      rewrite nth_z_upd_z, Hentries. cbn [andb].
      destruct (Z.eqb_spec j i) as [->|Hne].
      * rewrite load_store_eq. apply wrap_small. apply load_range.
      * rewrite load_store_ne
          by (unfold InHeap.entries_addr; change TCACHE_MAX_BINS with 64; lia).
        rewrite <- Htc. apply (proj2 (Hin j Hj)).
Qed.

End Refinement.

(** X5.  Keeping the two arrays of the tcache structure in a record is
    faithful to the structure in memory as long as the chunks pushed and
    popped lie apart from the structure: from two states that stand for
    the same process image, [tcache_put] on the record and on the memory
    end in states that do so again, and so does [tcache_get], which
    returns the same chunk in both. *)
Theorem tcache_record_matches_memory (h s : state) (i : Z) :
  represents h s ->
  0 <= i < TCACHE_MAX_BINS ->
  in_array (counts (tcache_data s)) i = true ->
  in_array (entries (tcache_data s)) i = true ->
  (forall (chunk : Z) (h' s' : state),
      chunk2mem chunk + 16 <= tcache s
      \/ tcache s + sizeof_tcache_perthread_struct <= chunk2mem chunk ->
      InHeap.tcache_put chunk i h = Done tt h' ->
      tcache_put chunk i s = Done tt s' ->
      represents h' s')
  /\ (forall (h' s' : state) (eh es : Z),
        nth_z (entries (tcache_data s)) i + 16 <= tcache s
        \/ tcache s + sizeof_tcache_perthread_struct
           <= nth_z (entries (tcache_data s)) i ->
        InHeap.tcache_get i h = Done eh h' ->
        tcache_get i s = Done es s' ->
        eh = es /\ represents h' s').
Proof.
  intros Hrep Hi Hc He. split.
  - intros chunk h' s'. apply (put_refines h s i Hrep Hi Hc He chunk h' s').
  - intros h' s' eh es. apply (get_refines h s i Hrep Hi Hc He h' s' eh es).
Qed.

(** In [state_struct] the memory under the structure is zero, as is the
    record. *)
Lemma state_struct_represents : represents state_struct state_struct.
Proof.
  assert (Hc : forallb (fun i =>
                 InHeap.counts_at mem_struct (chunk2mem tcache_chunk) i =? 0)
                 (seqZ 0 64) = true) by (vm_compute; reflexivity).
  assert (He : forallb (fun i =>
                 InHeap.entries_at mem_struct (chunk2mem tcache_chunk) i =? 0)
                 (seqZ 0 64) = true) by (vm_compute; reflexivity).
  rewrite forallb_forall in Hc. rewrite forallb_forall in He.
  unfold represents.
  split; [reflexivity|]. split; [reflexivity|]. split; [reflexivity|].
  split; [intros a _; reflexivity|].
  intros i Hi. change TCACHE_MAX_BINS with 64 in Hi.
  assert (Hin : In i (seqZ 0 64))
    by (apply list_elem_of_In, elem_of_seqZ; lia).
  cbn [state_struct mem tcache tcache_data empty_tcache counts entries].
  rewrite nth_z_replicate_0.
  split; apply Z.eqb_eq; [apply (Hc i Hin) | apply (He i Hin)].
Qed.

(** The push of the chunk at [mid_chunk] into bucket 1 of [state_struct]. *)
Lemma tcache_record_matches_memory_witness :
  represents
    (final_state (InHeap.tcache_put mid_chunk 1 state_struct) state_struct)
    (final_state (tcache_put mid_chunk 1 state_struct) state_struct).
Proof.
  assert (Hi : 0 <= 1 < TCACHE_MAX_BINS) by (change TCACHE_MAX_BINS with 64; lia).
  assert (Hc : in_array (counts (tcache_data state_struct)) 1 = true)
    by reflexivity.
  assert (He : in_array (entries (tcache_data state_struct)) 1 = true)
    by reflexivity.
  assert (Hapart : chunk2mem mid_chunk + 16 <= tcache state_struct
                   \/ tcache state_struct + sizeof_tcache_perthread_struct
                      <= chunk2mem mid_chunk)
    by (left; vm_compute; discriminate).
  apply (proj1 (tcache_record_matches_memory state_struct state_struct 1
                  state_struct_represents Hi Hc He) mid_chunk).
  - exact Hapart.
  - vm_compute. reflexivity.
  - vm_compute. reflexivity.
Defined.

(** ** The release of an ordinary chunk *)

Lemma land_lnot64_prev_inuse (x : Z) :
  Z.land (Z.land x (lnot64 PREV_INUSE)) PREV_INUSE = 0.
Proof.
  rewrite <- Z.land_assoc.
  replace (Z.land (lnot64 PREV_INUSE) PREV_INUSE) with 0 by reflexivity.
  apply Z.land_0_r.
Qed.

Lemma chunksize_land_prev_inuse (x : Z) :
  Z.land (Z.land x (lnot64 PREV_INUSE)) (lnot64 SIZE_BITS)
  = Z.land x (lnot64 SIZE_BITS).
Proof.
  rewrite <- Z.land_assoc.
  replace (Z.land (lnot64 PREV_INUSE) (lnot64 SIZE_BITS)) with (lnot64 SIZE_BITS)
    by reflexivity.
  reflexivity.
Qed.

Lemma clear_prev_inuse_range (x : Z) :
  0 <= x < 2 ^ 64 -> 0 <= Z.land x (lnot64 PREV_INUSE) < 2 ^ 64.
Proof.
  intros Hx. change PREV_INUSE with (Z.ones 1).
  rewrite land_lnot64_ones by lia.
  pose proof (Z.mul_div_le x (2 ^ 1) ltac:(lia)).
  pose proof (Z.div_pos x (2 ^ 1) ltac:(lia) ltac:(lia)). lia.
Qed.

(** The head and the flags of a chunk of size [size] written as
    [size | PREV_INUSE]. *)
Lemma lor_prev_inuse_fields (size : Z) :
  0 <= size < 2 ^ 64 -> size mod MALLOC_ALIGNMENT = 0 ->
  0 <= Z.lor size PREV_INUSE < 2 ^ 64
  /\ Z.land (Z.lor size PREV_INUSE) (lnot64 SIZE_BITS) = size
  /\ Z.land (Z.lor size PREV_INUSE) PREV_INUSE = PREV_INUSE
  /\ Z.land (Z.lor size PREV_INUSE) IS_MMAPPED = 0.
Proof.
  intros Hs Hm. change MALLOC_ALIGNMENT with 16 in Hm.
  assert (Hdisj : Z.land size 15 = 0).
  { change 15 with (Z.ones 4). rewrite Z.land_ones by lia. exact Hm. }
  assert (Hadd : Z.lor size PREV_INUSE = size + 1).
  { unfold PREV_INUSE. symmetry. apply Z.add_nocarry_lor.
    replace 1 with (Z.land 15 1) by reflexivity.
    rewrite Z.land_assoc, Hdisj. reflexivity. }
  rewrite Hadd.
  pose proof (Z.div_mod size 16 ltac:(lia)) as Hdm.
  split; [lia|].
  split.
  - rewrite land_size_bits by lia.
    replace (size + 1) with (1 + (2 * (size / 16)) * 8) by lia.
    rewrite Z.div_add by lia. change (1 / 8) with 0. lia.
  - split.
    + unfold PREV_INUSE. change 1 with (Z.ones 1) at 2.
      rewrite Z.land_ones by lia.
      replace (size + 1) with (1 + (8 * (size / 16)) * 2 ^ 1) by lia.
      rewrite Z.mod_add by lia. reflexivity.
    + unfold IS_MMAPPED.
      apply Z.bits_inj'. intros n Hn. rewrite Z.land_spec, Z.bits_0.
      destruct (Z.eq_dec n 1) as [->|Hn1].
      * replace (size + 1) with (1 + (4 * (size / 16)) * 2 ^ 2) by lia.
        rewrite <- (Z.mod_pow2_bits_low _ 2) by lia.
        rewrite Z.mod_add by lia. reflexivity.
      * replace (Z.testbit 2 n) with false; [apply andb_false_r|].
        destruct (Z.eq_dec n 0) as [->|Hn0]; [reflexivity|].
        symmetry. apply (Z.bits_above_log2 2 n); cbn; lia.
Qed.

Lemma chunksize_floor (m : gmap Z Z) (p : Z) :
  chunksize_nomask m p - 8 < chunksize m p /\ chunksize m p mod 8 = 0.
Proof.
  unfold chunksize, chunksize_nomask.
  pose proof (load_range m (p + off_size)) as Hr.
  rewrite land_size_bits by exact Hr.
  pose proof (Z.div_mod (load m (p + off_size)) 8 ltac:(lia)).
  pose proof (Z.mod_pos_bound (load m (p + off_size)) 8 ltac:(lia)).
  split; [lia|]. rewrite Z.mul_comm. apply Z.mod_mul. lia.
Qed.

Section Release.

Variable Y : sysdeps.
Variable g : globals.

Lemma int_free_merge_plain (fuel : nat) (p : Z) (lock : bool) (s : state) :
  plain_chunk s p ->
  let size := chunksize (mem s) p in
  let next := p + size in
  let U := unsorted_chunks (av s) in
  let fwd := load (mem s) (U + off_fd) in
  exists s',
    int_free_merge_code Y g fuel p size lock s = Done tt s'
    /\ heap_only s s'
    /\ av s' = av s
    /\ first (mem s') U = p
    /\ load (mem s') (p + off_fd) = fwd
    /\ load (mem s') (p + off_bk) = U
    /\ load (mem s') (fwd + off_bk) = p
    /\ chunksize_nomask (mem s') p = Z.lor size PREV_INUSE
    /\ prev_size (mem s') next = size
    /\ prev_inuse (mem s') next = 0
    /\ chunksize (mem s') next = chunksize (mem s) next
    /\ chunksize_nomask (mem s') (top (av s)) = chunksize_nomask (mem s) (top (av s)).
Proof.
  intros (Hp & Hal & Hsz & Hmod & Hfast & Htc & Hmm & Hpi & Hnt & Htop & Hni
          & Hns1 & Hns2 & Hnn & Hbin & HU & HdU & Hdf1 & Hdf2 & Hdf3).
  cbv zeta.
  remember (chunksize (mem s) p) as size eqn:Esize.
  remember (p + size) as next eqn:Enx.
  remember (unsorted_chunks (av s)) as U eqn:EU.
  remember (load (mem s) (U + off_fd)) as fwd eqn:Efwd.
  change MINSIZE with 32 in Hsz.
  change FASTBIN_CONSOLIDATION_THRESHOLD with 65536 in Hsz.
  change SIZE_SZ with 8 in Hns1.
  pose proof (chunksize_range (mem s) (top (av s))) as HTr.
  pose proof (chunksize_range (mem s) next) as Hnr.
  pose proof (chunksize_floor (mem s) next) as Hnf.
  assert (Enext : chunk_at_offset p size = next).
  { unfold chunk_at_offset. rewrite Enx. apply wrap_small. lia. }
  unfold int_free_merge_code. unfold bind at 1.
  assert (Hchk : int_free_merge_checks p size s
                 = Done (next, chunksize (mem s) next) s).
  { unfold int_free_merge_checks, bind, get. rewrite Enext.
    destruct (Z.eqb_spec p (top (av s))) as [He|_]; [lia|].
    rewrite (wrap_small (top (av s) + chunksize (mem s) (top (av s)))) by lia.
    destruct (Z.leb_spec (top (av s) + chunksize (mem s) (top (av s))) next)
      as [Hle|_]; [lia|].
    rewrite andb_false_r.
    destruct (Z.eqb_spec (prev_inuse (mem s) next) 0) as [He|_]; [contradiction|].
    destruct (Z.leb_spec (chunksize_nomask (mem s) next) 16) as [Hle|_]; [lia|].
    change (2 * SIZE_SZ) with 16.
    destruct (Z.leb_spec (chunksize_nomask (mem s) next) 16) as [Hle|_]; [lia|].
    destruct (Z.leb_spec (system_mem (av s)) (chunksize (mem s) next))
      as [Hle|_]; [lia|].
    reflexivity. }
  rewrite Hchk. cbn [fst snd].
  assert (Ec2m : chunk2mem p = p + 16).
  { unfold chunk2mem. change (2 * SIZE_SZ) with 16. apply wrap_small. lia. }
  assert (Hper : exists s0,
            free_perturb (chunk2mem p) (wrap (size - 2 * SIZE_SZ)) s = Done tt s0
            /\ heap_only s s0
            /\ av s0 = av s
            /\ forall a, a + 8 <= p + 16 \/ p + size <= a ->
                         load (mem s0) a = load (mem s) a).
  { unfold free_perturb. destruct (perturb_byte s =? 0).
    - exists s. split; [reflexivity|]. split; [apply heap_only_refl|].
      split; [reflexivity|]. intros a Ha. reflexivity.
    - eexists. split; [reflexivity|]. split; [frame|]. split; [reflexivity|].
      intros a Ha. cbn [mem set_mem]. rewrite Ec2m.
      change (2 * SIZE_SZ) with 16. rewrite (wrap_small (size - 16)) by lia.
      apply load_memset_ne. lia. }
  destruct Hper as (s0 & Hper & Hh0 & Hav0 & Hm0).
  unfold bind at 1. rewrite Hper.
  unfold bind at 1. unfold get at 1.
  assert (Hpi0 : prev_inuse (mem s0) p = prev_inuse (mem s) p).
  { unfold prev_inuse, chunksize_nomask. unfold_offsets. rewrite Hm0 by lia.
    reflexivity. }
  rewrite Hpi0.
  destruct (Z.eqb_spec (prev_inuse (mem s) p) 0) as [He|_]; [contradiction|].
  unfold bind at 1. unfold ret at 1. cbn [fst snd].
  assert (Hplace : exists s',
            int_free_place p size next (chunksize (mem s) next) s0 = Done size s'
            /\ heap_only s s'
            /\ av s' = av s
            /\ first (mem s') U = p
            /\ load (mem s') (p + off_fd) = fwd
            /\ load (mem s') (p + off_bk) = U
            /\ load (mem s') (fwd + off_bk) = p
            /\ chunksize_nomask (mem s') p = Z.lor size PREV_INUSE
            /\ prev_size (mem s') next = size
            /\ prev_inuse (mem s') next = 0
            /\ chunksize (mem s') next = chunksize (mem s) next
            /\ chunksize_nomask (mem s') (top (av s))
               = chunksize_nomask (mem s) (top (av s))).
  { unfold int_free_place. unfold bind at 1. unfold get at 1.
    rewrite Hav0.
    destruct (Z.eqb_spec next (top (av s))) as [He|_]; [lia|].
    cbn [negb].
    assert (Hin0 : inuse_bit_at_offset (mem s0) next (chunksize (mem s) next)
                   = inuse_bit_at_offset (mem s) next (chunksize (mem s) next)).
    { unfold inuse_bit_at_offset. rewrite (wrap_small (next + _)) by lia.
      unfold_offsets. rewrite Hm0 by lia. reflexivity. }
    rewrite Hin0.
    destruct (Z.eqb_spec (inuse_bit_at_offset (mem s) next (chunksize (mem s) next)) 0)
      as [He|_]; [contradiction|].
    unfold bind, modify, ret, get, rd, wr.
    cbn [av set_mem mem].
    rewrite Hav0, <- EU.
    remember (clear_inuse_bit_at_offset (mem s0) next 0) as m1 eqn:Em1.
    assert (Hm1 : forall a, a + 8 <= next + 8 \/ next + 16 <= a ->
                            load m1 a = load (mem s0) a).
    { intros a Ha. rewrite Em1. unfold clear_inuse_bit_at_offset.
      rewrite Z.add_0_r, (wrap_small next) by lia. unfold_offsets.
      apply load_store_ne. lia. }
    assert (Hm1h : load m1 (next + 8)
                   = Z.land (load (mem s) (next + 8)) (lnot64 PREV_INUSE)).
    { rewrite Em1. unfold clear_inuse_bit_at_offset.
      rewrite Z.add_0_r, (wrap_small next) by lia. unfold_offsets.
      rewrite load_store_eq, Hm0 by lia.
      apply wrap_small, clear_prev_inuse_range, load_range. }
    clear Em1.
    rewrite (Hm1 (U + off_fd)), Hm0 by (unfold_offsets; lia).
    rewrite <- Efwd.
    rewrite (Hm1 (fwd + off_bk)), Hm0 by (unfold_offsets; lia).
    rewrite Hbin, Z.eqb_refl. cbn [negb].
    pose proof (load_range (mem s) (fwd + off_bk)) as HUr. rewrite Hbin in HUr.
    pose proof (load_range (mem s) (U + off_fd)) as Hfr. rewrite <- Efwd in Hfr.
    pose proof (lor_prev_inuse_fields size ltac:(lia) Hmod) as (Hh1 & Hh2 & Hh3 & Hh4).
    assert (Ewn : wrap (p + size) = next).
    { rewrite Enx. apply wrap_small. lia. }
    unfold in_smallbin_range. change MIN_LARGE_SIZE with 1024.
    destruct (Z.ltb_spec size 1024) as [Hsmall|Hlarge]; cbn [negb];
      (eexists; split; [reflexivity|]);
      (split; [frame|]);
      cbn [mem set_mem av]; rewrite Hav0;
      unfold first, set_head, set_foot, prev_size, prev_inuse, chunksize;
      unfold chunksize_nomask; rewrite Ewn; unfold NULL; unfold_offsets;
      (split; [reflexivity|]).
    all: repeat split; read_back.
    all: try (rewrite Hm1h, ?Hm0 by lia).
    all: try (rewrite Hm1, ?Hm0 by lia).
    all: try (apply wrap_small; lia).
    all: try reflexivity.
    all: try apply land_lnot64_prev_inuse.
    all: try apply chunksize_land_prev_inuse. }
  destruct Hplace as (s' & Hrun & Hfacts).
  exists s'. split; [|exact Hfacts].
  unfold bind at 1. rewrite Hrun.
  change FASTBIN_CONSOLIDATION_THRESHOLD with 65536.
  destruct (Z.leb_spec 65536 size) as [Hle|_]; [lia|]. reflexivity.
Qed.

(** A chunk that passes the head checks, that the tcache does not take and
    that is neither fast nor mapped goes to the coalescing branch. *)
Lemma int_free_takes_merge_branch (E : externals) (fuel k : nat) (p : Z)
    (lock : bool) (s : state) :
  0 <= p -> p + chunksize (mem s) p < 2 ^ 64 ->
  misaligned_chunk p = 0 ->
  MINSIZE <= chunksize (mem s) p ->
  chunksize (mem s) p mod MALLOC_ALIGNMENT = 0 ->
  global_max_fast s < chunksize (mem s) p ->
  tcache s = NULL \/ tcache_bins (mp_ s) <= csize2tidx (chunksize (mem s) p) ->
  chunk_is_mmapped (mem s) p = 0 ->
  _int_free (with_engine E Y g k) fuel p lock s
  = int_free_merge_code Y g k p (chunksize (mem s) p) lock s.
Proof.
  intros Hp Hend Hal Hmin Hmod Hfast Htc Hmm.
  pose proof (chunksize_range (mem s) p) as Hr.
  change MINSIZE with 32 in Hmin.
  unfold _int_free. unfold bind at 1.
  destruct (int_free_checks_cases p s ltac:(lia)) as (_ & _ & Hok).
  rewrite Hok; cycle 1.
  { intros [H1|[[H1 _]|H1]]; [lia | lia | contradiction]. }
  { change MINSIZE with 32. intros [H1|H1]; [lia | contradiction]. }
  unfold bind at 1. unfold int_free_tcache at 1.
  unfold bind at 1. unfold get at 1.
  assert (Hno : negb (tcache s =? NULL)
                && (csize2tidx (chunksize (mem s) p) <? tcache_bins (mp_ s))
                = false).
  { destruct Htc as [Ht|Ht].
    - rewrite Ht, Z.eqb_refl. reflexivity.
    - destruct (Z.ltb_spec (csize2tidx (chunksize (mem s) p))
                           (tcache_bins (mp_ s))); [lia|].
      apply andb_false_r. }
  rewrite Hno. unfold ret at 1. cbv iota.
  unfold bind at 1. unfold get at 1. unfold get_max_fast.
  destruct (Z.leb_spec (chunksize (mem s) p) (global_max_fast s)); [lia|].
  rewrite Hmm. reflexivity.
Qed.

(** X6.  The release of an ordinary chunk between two chunks in use: the
    chunk becomes the first chunk of the unsorted bin, linked between the
    bin header and the former first chunk; its head holds its size with
    the [P] flag, the chunk after it records that size as [prev_size] and
    has its own [P] flag cleared, keeping its size.  The arena record and
    everything outside the memory are unchanged. *)
Theorem free_links_chunk_into_unsorted_bin (E : externals) (fuel k : nat)
    (p : Z) (lock : bool) (s : state) :
  plain_chunk s p ->
  let size := chunksize (mem s) p in
  let next := p + size in
  let U := unsorted_chunks (av s) in
  let fwd := load (mem s) (U + off_fd) in
  exists s',
    _int_free (with_engine E Y g k) fuel p lock s = Done tt s'
    /\ heap_only s s'
    /\ av s' = av s
    /\ first (mem s') U = p
    /\ load (mem s') (p + off_fd) = fwd
    /\ load (mem s') (p + off_bk) = U
    /\ load (mem s') (fwd + off_bk) = p
    /\ chunksize_nomask (mem s') p = Z.lor size PREV_INUSE
    /\ prev_size (mem s') next = size
    /\ prev_inuse (mem s') next = 0
    /\ chunksize (mem s') next = chunksize (mem s) next.
Proof.
  intros Hpl. cbv zeta.
  destruct (int_free_merge_plain k p lock s Hpl)
    as (s' & Hrun & Hh & Hav & H1 & H2 & H3 & H4 & H5 & H6 & H7 & H8 & _).
  destruct Hpl as (Hp & Hal & Hsz & Hmod & Hfast & Htc & Hmm & Hpi & Hnt & Htop
                   & _).
  pose proof (chunksize_range (mem s) (top (av s))) as HTr.
  pose proof (chunksize_range (mem s) (p + chunksize (mem s) p)) as Hnr.
  exists s'.
  rewrite (int_free_takes_merge_branch E fuel k p lock s) by
    (try assumption; lia).
  repeat split; assumption.
Qed.

(** X7.  Releasing such a chunk a second time is caught: after the first
    release has put the chunk into the unsorted bin, the second one aborts
    with [double free or corruption (!prev)], the state untouched. *)
Theorem double_free_of_binned_chunk_aborts (E : externals) (fuel k : nat)
    (p : Z) (lock : bool) (s : state) :
  plain_chunk s p ->
  exists s',
    _int_free (with_engine E Y g k) fuel p lock s = Done tt s'
    /\ _int_free (with_engine E Y g k) fuel p lock s'
       = Abort "double free or corruption (!prev)" s'.
Proof.
  intros Hpl.
  destruct (int_free_merge_plain k p lock s Hpl)
    as (s' & Hrun & Hh & Hav & H1 & H2 & H3 & H4 & H5 & H6 & H7 & H8 & H9).
  destruct Hpl as (Hp & Hal & Hsz & Hmod & Hfast & Htc & Hmm & Hpi & Hnt & Htop
                   & Hni & Hns1 & Hns2 & _).
  pose proof (chunksize_range (mem s) (top (av s))) as HTr.
  pose proof (chunksize_range (mem s) (p + chunksize (mem s) p)) as Hnr.
  pose proof (chunksize_floor (mem s) (p + chunksize (mem s) p)) as Hnf.
  change MINSIZE with 32 in Hsz. change SIZE_SZ with 8 in Hns1.
  pose proof (lor_prev_inuse_fields (chunksize (mem s) p) ltac:(lia) Hmod)
    as (Hh1 & Hh2 & Hh3 & Hh4).
  assert (Ecs : chunksize (mem s') p = chunksize (mem s) p).
  { unfold chunksize at 1. rewrite H5. exact Hh2. }
  assert (Emm : chunk_is_mmapped (mem s') p = 0).
  { unfold chunk_is_mmapped. rewrite H5. exact Hh4. }
  assert (Es : tcache s' = tcache s /\ mp_ s' = mp_ s
               /\ global_max_fast s' = global_max_fast s).
  { unfold heap_only in Hh. rewrite Hh. repeat split. }
  destruct Es as (Et & Emp & Egm).
  exists s'. split.
  - rewrite (int_free_takes_merge_branch E fuel k p lock s) by
      (try assumption; change MINSIZE with 32; lia).
    exact Hrun.
  - rewrite (int_free_takes_merge_branch E fuel k p lock s') by
      (rewrite ?Ecs, ?Et, ?Emp, ?Egm; try assumption; change MINSIZE with 32; lia).
    rewrite Ecs.
    unfold int_free_merge_code. unfold bind at 1.
    unfold int_free_merge_checks, bind, get. rewrite Hav.
    assert (Enext : chunk_at_offset p (chunksize (mem s) p)
                    = p + chunksize (mem s) p).
    { unfold chunk_at_offset. apply wrap_small. lia. }
    rewrite Enext.
    destruct (Z.eqb_spec p (top (av s))) as [He|_]; [lia|].
    assert (EcT : chunksize (mem s') (top (av s))
                  = chunksize (mem s) (top (av s))).
    { unfold chunksize. rewrite H9. reflexivity. }
    rewrite EcT.
    rewrite (wrap_small (top (av s) + chunksize (mem s) (top (av s)))) by lia.
    destruct (Z.leb_spec (top (av s) + chunksize (mem s) (top (av s)))
                         (p + chunksize (mem s) p)) as [Hle|_]; [lia|].
    rewrite andb_false_r. rewrite H7. reflexivity.
Qed.

End Release.

(** The release of the chunk at [big_chunk] of [state_big]. *)
Lemma free_links_chunk_into_unsorted_bin_witness :
  exists s',
    _int_free (with_engine quiet_env quiet_sys globals0 4) 4 big_chunk false
      state_big = Done tt s'
    /\ heap_only state_big s'
    /\ av s' = av state_big
    /\ first (mem s') (unsorted_chunks (av state_big)) = big_chunk
    /\ load (mem s') (big_chunk + off_fd)
       = load (mem state_big) (unsorted_chunks (av state_big) + off_fd)
    /\ load (mem s') (big_chunk + off_bk) = unsorted_chunks (av state_big)
    /\ load (mem s')
         (load (mem state_big) (unsorted_chunks (av state_big) + off_fd) + off_bk)
       = big_chunk
    /\ chunksize_nomask (mem s') big_chunk
       = Z.lor (chunksize (mem state_big) big_chunk) PREV_INUSE
    /\ prev_size (mem s') (big_chunk + chunksize (mem state_big) big_chunk)
       = chunksize (mem state_big) big_chunk
    /\ prev_inuse (mem s') (big_chunk + chunksize (mem state_big) big_chunk) = 0
    /\ chunksize (mem s') (big_chunk + chunksize (mem state_big) big_chunk)
       = chunksize (mem state_big)
           (big_chunk + chunksize (mem state_big) big_chunk).
Proof.
  apply (free_links_chunk_into_unsorted_bin quiet_sys globals0 quiet_env 4 4
           big_chunk false state_big).
  unfold plain_chunk. vm_compute.
  repeat split; try congruence; try (left; congruence); right; congruence.
Defined.

Lemma double_free_of_binned_chunk_aborts_witness :
  exists s',
    _int_free (with_engine quiet_env quiet_sys globals0 4) 4 big_chunk false
      state_big = Done tt s'
    /\ _int_free (with_engine quiet_env quiet_sys globals0 4) 4 big_chunk false s'
       = Abort "double free or corruption (!prev)" s'.
Proof.
  apply (double_free_of_binned_chunk_aborts quiet_sys globals0 quiet_env 4 4
           big_chunk false state_big).
  unfold plain_chunk. vm_compute.
  repeat split; try congruence; try (left; congruence); right; congruence.
Defined.

(** ** Allocation from the top chunk *)

Lemma int_malloc_fastbin_none (fuel : nat) (nb bytes : Z) (s : state) :
  nth_z (fastbinsY (av s)) (fastbin_index nb) = NULL ->
  int_malloc_fastbin fuel nb bytes s = Done None s.
Proof.
  intros H. unfold int_malloc_fastbin, bind, get. rewrite H.
  destruct (nb <=? get_max_fast s); reflexivity.
Qed.

Lemma int_malloc_smallbin_none (fuel : nat) (nb bytes : Z) (s : state) :
  last (mem s) (bin_at (av s) (smallbin_index nb))
  = bin_at (av s) (smallbin_index nb) ->
  int_malloc_smallbin fuel nb bytes s = Done None s.
Proof.
  unfold last. intros H. unfold int_malloc_smallbin, bind, get.
  rewrite H, Z.eqb_refl. reflexivity.
Qed.

Lemma unsorted_drain_none (fuel : nat) (nb bytes tcache_nb tc_idx : Z)
    (l : drain_locals) (s : state) :
  last (mem s) (unsorted_chunks (av s)) = unsorted_chunks (av s) ->
  return_cached l = false ->
  unsorted_drain fuel nb bytes tcache_nb tc_idx l s = Done (DrainNone l) s.
Proof.
  unfold last. intros H Hc. unfold unsorted_drain. unfold bind at 1.
  assert (Hl : unsorted_loop fuel nb bytes tcache_nb tc_idx l s
               = Done (LExit l) s).
  { destruct fuel; cbn [unsorted_loop]; unfold bind, get;
      rewrite H, Z.eqb_refl; reflexivity. }
  rewrite Hl, Hc. reflexivity.
Qed.

Lemma largebin_fit_none (fuel : nat) (nb bytes idx : Z) (s : state) :
  first (mem s) (bin_at (av s) idx) = bin_at (av s) idx ->
  largebin_fit fuel nb bytes idx s = Done None s.
Proof.
  intros H. unfold largebin_fit, bind, get. rewrite H, Z.eqb_refl. reflexivity.
Qed.

Lemma next_block_none (fuel : nat) :
  forall (block : Z) (s : state),
  (forall b : Z, nth_z (binmap (av s)) b = 0) ->
  0 <= block -> BINMAPSIZE <= block + 1 + Z.of_nat fuel < 2 ^ 32 ->
  next_block fuel block s = Done None s.
Proof.
  change BINMAPSIZE with 4.
  induction fuel as [|f IH]; intros block s Hz Hb Hf; cbn [next_block];
    change BINMAPSIZE with 4; unfold wrap32;
    rewrite (Z.mod_small (block + 1)) by lia;
    (destruct (Z.leb_spec 4 (block + 1)) as [_|Hlt]; [reflexivity|]).
  - lia.
  - unfold bind, get. rewrite Hz. cbn [Z.eqb].
    apply IH; [exact Hz | lia | lia].
Qed.

Lemma binmap_scan_none (fuel : nat) (nb bytes bin block bit : Z) (s : state) :
  (forall b : Z, nth_z (binmap (av s)) b = 0) ->
  0 <= block -> BINMAPSIZE <= block + 1 + Z.of_nat fuel < 2 ^ 32 ->
  0 <= bit ->
  binmap_scan fuel nb bytes bin block 0 bit s = Done None s.
Proof.
  intros Hz Hb Hf Hbit.
  assert (Hc : (0 <? bit) || (bit =? 0) = true).
  { destruct (Z.ltb_spec 0 bit); [reflexivity|].
    destruct (Z.eqb_spec bit 0); [reflexivity | lia]. }
  destruct fuel; cbn [binmap_scan]; rewrite Hc; unfold bind at 1 2;
    rewrite (next_block_none _ block s Hz Hb Hf); reflexivity.
Qed.

(** The flag bits of a size field: a size that is a multiple of 8, or-ed
    with flags below 8. *)
Lemma lor_flags (size f : Z) :
  0 <= size -> size mod 8 = 0 -> 0 <= f < 8 ->
  Z.lor size f = size + f.
Proof.
  intros Hs Hm Hf.
  symmetry. apply Z.add_nocarry_lor.
  assert (H7 : Z.land size 7 = 0).
  { change 7 with (Z.ones 3). rewrite Z.land_ones by lia. exact Hm. }
  assert (Hf7 : Z.land 7 f = f).
  { rewrite Z.land_comm. change 7 with (Z.ones 3).
    rewrite Z.land_ones by lia. apply Z.mod_small. lia. }
  rewrite <- Hf7, Z.land_assoc, H7. reflexivity.
Qed.

Lemma land_low_bits (size f m : Z) :
  0 <= size -> size mod 8 = 0 -> 0 <= f < 8 -> 0 <= m < 8 ->
  Z.land (size + f) m = Z.land f m.
Proof.
  intros Hs Hm Hf Hmm.
  assert (H7 : Z.land 7 m = m).
  { rewrite Z.land_comm. change 7 with (Z.ones 3).
    rewrite Z.land_ones by lia. apply Z.mod_small. lia. }
  rewrite <- H7 at 1. rewrite Z.land_assoc.
  change 7 with (Z.ones 3) at 1. rewrite Z.land_ones by lia.
  pose proof (Z.div_mod size 8 ltac:(lia)) as Hdm.
  replace (size + f) with (f + (size / 8) * 2 ^ 3) by lia.
  rewrite Z.mod_add by lia. rewrite Z.mod_small by lia. reflexivity.
Qed.

Lemma chunksize_of_flags (size f : Z) :
  0 <= size -> size + f < 2 ^ 64 -> size mod 8 = 0 ->
  0 <= f < 8 ->
  Z.land (size + f) (lnot64 SIZE_BITS) = size.
Proof.
  intros Hs Hlt Hm Hf.
  rewrite land_size_bits by lia.
  pose proof (Z.div_mod size 8 ltac:(lia)) as Hdm.
  replace (size + f) with (f + (size / 8) * 8) by lia.
  rewrite Z.div_add by lia. rewrite (Z.div_small f 8) by lia. lia.
Qed.

Section FromTop.

Variable E : externals.
Variable Y : sysdeps.
Variable g : globals.

(** The split of the top chunk. *)
Lemma use_top_splits (fuel : nat) (nb bytes : Z) (s : state) :
  top_has_room s nb ->
  MINSIZE <= nb -> nb mod MALLOC_ALIGNMENT = 0 ->
  0 <= bytes -> bytes + SIZE_SZ <= nb ->
  let T := top (av s) in
  exists s',
    use_top E Y g fuel nb bytes s = Done (Some (T + 16)) s'
    /\ mem_top_only s s'
    /\ top (av s') = T + nb
    /\ chunksize (mem s') T = nb
    /\ chunk_is_mmapped (mem s') T = 0
    /\ chunk_main_arena (mem s') T = main (av s)
    /\ prev_inuse (mem s') (T + nb) = PREV_INUSE
    /\ chunksize (mem s') (T + nb) = chunksize (mem s) T - nb.
Proof.
  intros (HT & Hend & Hsys & Hroom) Hmin Hmod Hb Hbn. cbv zeta.
  remember (top (av s)) as T eqn:ET.
  remember (chunksize (mem s) T) as size eqn:Esize.
  change MINSIZE with 32 in *. change MALLOC_ALIGNMENT with 16 in Hmod.
  change SIZE_SZ with 8 in Hbn.
  pose proof (chunksize_floor (mem s) T) as (_ & Hs8). rewrite <- Esize in Hs8.
  assert (Hmod8 : nb mod 8 = 0).
  { pose proof (Z.div_mod nb 16 ltac:(lia)) as Hdm.
    replace nb with ((2 * (nb / 16)) * 8) by lia. apply Z.mod_mul. lia. }
  unfold use_top, bind, get. rewrite <- ET, <- Esize.
  change MINSIZE with 32.
  destruct (Z.ltb_spec (system_mem (av s)) size) as [Hlt|_]; [lia|].
  rewrite (wrap_small (nb + 32)) by lia.
  destruct (Z.leb_spec (nb + 32) size) as [_|Hlt]; [|lia].
  unfold modify, ret, alloc_perturb, set_head, chunk_at_offset.
  rewrite (wrap_small (T + nb)), (wrap_small (size - nb)) by lia.
  assert (Ec2m : chunk2mem T = T + 16).
  { unfold chunk2mem. change (2 * SIZE_SZ) with 16. apply wrap_small. lia. }
  rewrite Ec2m.
  cbn [perturb_byte set_mem set_av av mem main set_top].
  set (f := if negb (main (av s)) then NON_MAIN_ARENA else 0).
  assert (Hf : Z.lor (Z.lor nb PREV_INUSE) f = nb + (1 + f) /\ 0 <= 1 + f < 8).
  { rewrite <- Z.lor_assoc. unfold f, PREV_INUSE, NON_MAIN_ARENA.
    destruct (main (av s)); cbn [negb];
      (split; [apply lor_flags; [lia | exact Hmod8 | cbn; lia] | cbn; lia]). }
  destruct Hf as (Ehead & Hfr). rewrite Ehead.
  assert (Hrem8 : (size - nb) mod 8 = 0).
  { pose proof (Z.div_mod nb 8 ltac:(lia)) as Hd1.
    pose proof (Z.div_mod size 8 ltac:(lia)) as Hd2.
    replace (size - nb) with ((size / 8 - nb / 8) * 8) by lia.
    apply Z.mod_mul. lia. }
  assert (Erem : Z.lor (size - nb) PREV_INUSE = size - nb + 1).
  { apply lor_flags; [lia | exact Hrem8 | unfold PREV_INUSE; lia]. }
  rewrite Erem.
  destruct (perturb_byte s =? 0);
    (eexists; split; [reflexivity|]; split; [frame|]);
    cbn [top set_top av set_av set_mem mem];
    (split; [reflexivity|]);
    unfold chunksize, chunk_is_mmapped, chunk_main_arena, prev_inuse,
      chunksize_nomask; unfold_offsets; read_back;
    rewrite ?(wrap_small (nb + (1 + f))), ?(wrap_small (size - nb + 1)) by lia.
  all: repeat split.
  all: try (apply chunksize_of_flags; lia).
  all: try (unfold IS_MMAPPED; rewrite land_low_bits by lia;
            unfold f, NON_MAIN_ARENA; destruct (main (av s)); reflexivity).
  all: try (unfold NON_MAIN_ARENA; rewrite land_low_bits by lia;
            unfold f, NON_MAIN_ARENA; destruct (main (av s)); reflexivity).
  all: try (unfold PREV_INUSE; rewrite land_low_bits by lia; reflexivity).
Qed.

Lemma int_malloc_bins_code_top (k : nat) (nb bytes : Z) (s : state) :
  nothing_free_for s nb ->
  top_has_room s nb ->
  MINSIZE <= nb -> nb mod MALLOC_ALIGNMENT = 0 ->
  0 <= bytes -> bytes + SIZE_SZ <= nb ->
  4 <= Z.of_nat k < 2 ^ 31 ->
  int_malloc_bins_code E Y g k nb bytes (bin_index nb) s
  = use_top E Y g k nb bytes s.
Proof.
  intros (Hfb & Hhf & Hun & Hlast & Hfirst & Hmap) Hroom Hmin Hmod Hb Hbn Hk.
  unfold int_malloc_bins_code. unfold bind at 1.
  assert (Hfit : (if negb (in_smallbin_range nb)
                  then largebin_fit k nb bytes (bin_index nb)
                  else ret None) s = Done None s).
  { destruct (in_smallbin_range nb); cbn [negb]; [reflexivity|].
    apply largebin_fit_none. exact Hfirst. }
  rewrite Hfit. unfold bind at 1. unfold get at 1.
  unfold bind at 1. rewrite Hmap.
  rewrite binmap_scan_none; [reflexivity | exact Hmap | | | ].
  - unfold idx2block. apply Z.shiftr_nonneg. unfold wrap32.
    apply Z.mod_pos_bound. lia.
  - change BINMAPSIZE with 4. unfold idx2block, wrap32.
    rewrite Z.shiftr_div_pow2 by (unfold BINMAPSHIFT; lia).
    pose proof (Z.mod_pos_bound (bin_index nb + 1) (2 ^ 32) ltac:(lia)) as Hr.
    assert (((bin_index nb + 1) mod 2 ^ 32) / 2 ^ BINMAPSHIFT < 2 ^ 27).
    { apply Z.div_lt_upper_bound; [unfold BINMAPSHIFT; lia|].
      unfold BINMAPSHIFT. lia. }
    pose proof (Z.div_pos ((bin_index nb + 1) mod 2 ^ 32) (2 ^ BINMAPSHIFT)
                  ltac:(lia) ltac:(unfold BINMAPSHIFT; lia)).
    lia.
  - unfold idx2bit, wrap32. apply Z.mod_pos_bound. lia.
Qed.

(** X8.  On a heap where no free chunk is in the way, with the bucket of
    the tcache empty, [malloc (bytes)] carves the request off the top
    chunk: it returns the payload of the old top chunk, whose head now
    holds the padded size [nb]; the top chunk starts [nb] bytes further;
    nothing but the memory and the top pointer changes.  The usable size
    of the result is [nb - SIZE_SZ], which is at least [bytes]. *)
Theorem malloc_carves_request_from_top (fuel k : nat)
    (bytes nb : Z) (s : state) :
  __malloc_hook E = None ->
  0 <= bytes ->
  checked_request2size bytes = Some nb ->
  tcache s <> NULL \/ tcache_shutting_down s = true ->
  nth_z (counts (tcache_data s)) (csize2tidx nb) = 0 ->
  using_malloc_checking s <> 1 ->
  nothing_free_for s nb ->
  top_has_room s nb ->
  4 <= Z.of_nat k < 2 ^ 31 ->
  let T := top (av s) in
  exists s',
    __libc_malloc (with_engine E Y g k) fuel bytes s = Done (T + 16) s'
    /\ mem_top_only s s'
    /\ top (av s') = T + nb
    /\ chunksize (mem s') T = nb
    /\ musable (with_engine E Y g k) (T + 16) s' = Done (nb - SIZE_SZ) s'
    /\ bytes <= nb - SIZE_SZ.
Proof.
  intros Hh Hb Hreq Htc Hcnt Hchk Hfree Hroom Hk. cbv zeta.
  assert (Hnb : nb = request2size bytes /\ bytes <= PTRDIFF_MAX).
  { unfold checked_request2size in Hreq.
    destruct (Z.ltb_spec PTRDIFF_MAX bytes); [discriminate|].
    inversion Hreq. split; [reflexivity | lia]. }
  destruct Hnb as (Enb & Hmax).
  pose proof (request2size_fits bytes ltac:(lia)) as (Hfit & Hmin & Hlt & Hmod).
  rewrite <- Enb in Hfit, Hmin, Hlt, Hmod.
  destruct (use_top_splits k nb bytes s Hroom Hmin Hmod Hb Hfit)
    as (s' & Hrun & Hframe & Htop & Hcs & Hmm & Hma & Hpi & Hrem).
  pose proof Hroom as (HT & Hend & Hsys & Hrm).
  pose proof Hfree as (Hfb & Hhf & Hun & Hlast & Hfirst & Hmap).
  change MINSIZE with 32 in *. change SIZE_SZ with 8 in *.
  assert (Em2c : mem2chunk (top (av s) + 16) = top (av s)).
  { unfold mem2chunk. change (2 * SIZE_SZ) with 16.
    replace (top (av s) + 16 - 16) with (top (av s)) by lia.
    apply wrap_small. lia. }
  exists s'. split; [|split; [exact Hframe|split; [exact Htop|split; [exact Hcs|split]]]].
  - unfold __libc_malloc. cbn [__malloc_hook with_engine]. rewrite Hh, Hreq.
    unfold bind at 1. rewrite MAYBE_INIT_TCACHE_ready by exact Htc.
    unfold bind at 1. unfold get at 1. rewrite Hcnt.
    rewrite andb_false_r.
    assert (Hint : _int_malloc (with_engine E Y g k) fuel bytes s
                   = Done (top (av s) + 16) s').
    { unfold _int_malloc. rewrite Hreq.
      unfold bind at 1. rewrite int_malloc_fastbin_none by exact Hfb.
      unfold bind at 1.
      assert (Hsb : (if in_smallbin_range nb
                     then int_malloc_smallbin fuel nb bytes
                     else
                       do s0 <- get;
                       do _ <- (if have_fastchunks (av s0)
                                then malloc_consolidate (with_engine E Y g k)
                                else ret tt);
                       ret None) s = Done None s).
      { destruct (in_smallbin_range nb) eqn:Hsm.
        - apply int_malloc_smallbin_none. unfold bin_index in Hlast.
          rewrite Hsm in Hlast. exact Hlast.
        - unfold bind, get. rewrite Hhf. reflexivity. }
      rewrite Hsb. unfold bind at 1. unfold get at 1.
      rewrite int_malloc_loop_unfold. unfold bind at 1.
      rewrite unsorted_drain_none by (try exact Hun; reflexivity).
      unfold bind at 1. cbn [int_malloc_bins with_engine].
      fold (bin_index nb).
      rewrite int_malloc_bins_code_top by
        (try assumption; change MINSIZE with 32; change SIZE_SZ with 8; lia).
      rewrite Hrun. reflexivity. }
    unfold bind at 1. rewrite Hint.
    unfold bind at 1. unfold get at 1. rewrite Em2c, Hmm, Hma.
    assert (Hav : main (av s') = main (av s)).
    { apply (mem_top_only_fields _ _ Hframe). }
    rewrite Hav, eqb_reflx, !orb_true_r. reflexivity.
  - unfold musable.
    destruct (Z.eqb_spec (top (av s) + 16) 0) as [He|_]; [lia|]. cbn [negb].
    unfold bind, get. rewrite Em2c.
    assert (Hch : using_malloc_checking s' = using_malloc_checking s).
    { unfold mem_top_only in Hframe. rewrite Hframe. reflexivity. }
    rewrite Hch.
    destruct (Z.eqb_spec (using_malloc_checking s) 1) as [He|_]; [contradiction|].
    rewrite Hmm. cbn [Z.eqb negb].
    assert (Hin : inuse (mem s') (top (av s)) = PREV_INUSE).
    { unfold inuse. rewrite Hcs. rewrite wrap_small by lia. exact Hpi. }
    rewrite Hin, Hcs. cbn [Z.eqb negb PREV_INUSE]. change SIZE_SZ with 8.
    rewrite wrap_small by lia. reflexivity.
  - lia.
Qed.

End FromTop.

(** A request of 40 bytes on the heap of [state_big], whose top chunk at
    [0x20800] has size [0x800]. *)
Lemma malloc_carves_request_from_top_witness :
  exists s',
    __libc_malloc (with_engine quiet_env quiet_sys globals0 4) 4 40 state_big
    = Done (top (av state_big) + 16) s'
    /\ mem_top_only state_big s'
    /\ top (av s') = top (av state_big) + 48
    /\ chunksize (mem s') (top (av state_big)) = 48
    /\ musable (with_engine quiet_env quiet_sys globals0 4)
         (top (av state_big) + 16) s' = Done (48 - SIZE_SZ) s'
    /\ 40 <= 48 - SIZE_SZ.
Proof.
  apply (malloc_carves_request_from_top quiet_env quiet_sys globals0 4 4 40 48
           state_big).
  - reflexivity.
  - lia.
  - reflexivity.
  - left. discriminate.
  - reflexivity.
  - discriminate.
  - unfold nothing_free_for.
    repeat split; try (vm_compute; reflexivity).
    intros b. apply (nth_z_replicate_0 4 b).
  - unfold top_has_room. vm_compute. repeat split; congruence.
  - simpl. lia.
Defined.

(** ** Aligned allocation *)

(** [powerof2 (x)] holds exactly for 0 and the powers of two. *)
Lemma powerof2_spec (x : Z) :
  0 <= x < 2 ^ 64 ->
  (powerof2 x = true <-> x = 0 \/ exists k : Z, 0 <= k /\ x = 2 ^ k).
Proof.
  intros Hx. unfold powerof2. rewrite Z.eqb_eq. split.
  - intros Hl. destruct (Z.eq_dec x 0) as [->|Hnz]; [left; reflexivity|right].
    rewrite wrap_small in Hl by lia.
    exists (Z.log2 x). split; [apply Z.log2_nonneg|].
    pose proof (Z.log2_spec x ltac:(lia)) as [Hlo Hhi].
    destruct (Z.eq_dec x (2 ^ Z.log2 x)) as [He|Hne]; [exact He|exfalso].
    assert (Hb1 : Z.testbit x (Z.log2 x) = true) by (apply Z.bit_log2; lia).
    assert (Hl2 : Z.log2 (x - 1) = Z.log2 x).
    { apply Z.log2_unique; [apply Z.log2_nonneg | lia]. }
    assert (Hb2 : Z.testbit (x - 1) (Z.log2 x) = true).
    { rewrite <- Hl2. apply Z.bit_log2.
      pose proof (Z.pow_pos_nonneg 2 (Z.log2 x) ltac:(lia) (Z.log2_nonneg x)).
      lia. }
    assert (Hb : Z.testbit (Z.land (x - 1) x) (Z.log2 x) = true).
    { rewrite Z.land_spec, Hb1, Hb2. reflexivity. }
    rewrite Hl, Z.bits_0 in Hb. discriminate.
  - intros [->|(k & Hk & ->)]; [apply Z.land_0_r|].
    rewrite wrap_small by lia.
    replace (2 ^ k - 1) with (Z.ones k) by (rewrite Z.ones_equiv; lia).
    rewrite Z.land_comm, Z.land_ones by exact Hk. apply Z.mod_same.
    apply Z.pow_nonzero; lia.
Qed.

(** Masking with [-2^k]: the multiple of [2^k] below. *)
Lemma land_neg_pow2 (x k : Z) :
  0 <= k < 64 -> 0 <= x < 2 ^ 64 ->
  Z.land x (wrap (- 2 ^ k)) = 2 ^ k * (x / 2 ^ k).
Proof.
  intros Hk Hx.
  assert (E : wrap (- 2 ^ k) = lnot64 (Z.ones k)).
  { unfold lnot64. f_equal. rewrite Z.ones_equiv.
    unfold Z.lnot. lia. }
  rewrite E. apply land_lnot64_ones; lia.
Qed.

Lemma pow2_divides_wrap (x k : Z) :
  0 <= k <= 64 -> wrap x mod 2 ^ k = x mod 2 ^ k.
Proof.
  intros Hk. unfold wrap. apply Z.mod_mod_divide.
  exists (2 ^ (64 - k)). rewrite <- Z.pow_add_r by lia. f_equal. lia.
Qed.

Lemma wrap_plus_multiple (x k : Z) :
  0 <= k <= 64 -> exists c : Z, wrap x = x + c * 2 ^ k.
Proof.
  intros Hk. exists (- (x / 2 ^ 64) * 2 ^ (64 - k)).
  unfold wrap. rewrite Z.mod_eq by lia.
  rewrite <- Z.mul_assoc, <- Z.pow_add_r by lia.
  replace (64 - k + k) with 64 by lia. lia.
Qed.

(** The two candidates for the aligned spot in [_int_memalign] have
    aligned payloads. *)
Lemma aligned_spot (m k : Z) :
  0 <= k < 64 ->
  let brk := mem2chunk (Z.land (wrap (m + 2 ^ k - 1)) (wrap (- 2 ^ k))) in
  chunk2mem brk mod 2 ^ k = 0
  /\ chunk2mem (wrap (brk + 2 ^ k)) mod 2 ^ k = 0.
Proof.
  intros Hk. cbv zeta.
  rewrite land_neg_pow2 by (try apply wrap_range; lia).
  set (q := wrap (m + 2 ^ k - 1) / 2 ^ k).
  unfold chunk2mem, mem2chunk. change (2 * SIZE_SZ) with 16.
  assert (Hp : 0 < 2 ^ k) by (apply Z.pow_pos_nonneg; lia).
  destruct (wrap_plus_multiple (2 ^ k * q - 16) k ltac:(lia)) as (c1 & E1).
  rewrite E1.
  split.
  - destruct (wrap_plus_multiple (2 ^ k * q - 16 + c1 * 2 ^ k + 16) k ltac:(lia))
      as (c2 & E2).
    rewrite E2.
    replace (2 ^ k * q - 16 + c1 * 2 ^ k + 16 + c2 * 2 ^ k)
      with ((q + c1 + c2) * 2 ^ k) by ring.
    apply Z.mod_mul. lia.
  - destruct (wrap_plus_multiple (2 ^ k * q - 16 + c1 * 2 ^ k + 2 ^ k) k ltac:(lia))
      as (c2 & E2).
    rewrite E2.
    destruct (wrap_plus_multiple
                (2 ^ k * q - 16 + c1 * 2 ^ k + 2 ^ k + c2 * 2 ^ k + 16) k ltac:(lia))
      as (c3 & E3).
    rewrite E3.
    replace (2 ^ k * q - 16 + c1 * 2 ^ k + 2 ^ k + c2 * 2 ^ k + 16 + c3 * 2 ^ k)
      with ((q + c1 + 1 + c2 + c3) * 2 ^ k) by ring.
    apply Z.mod_mul. lia.
Qed.

Lemma chunk2mem_range (p : Z) : 0 <= chunk2mem p < 2 ^ 64.
Proof. unfold chunk2mem. apply wrap_range. Qed.

Lemma int_memalign_aligned (E : externals) (fuel : nat)
    (k bytes : Z) (s s' : state) (p : Z) :
  0 <= k < 64 ->
  _int_memalign E fuel (2 ^ k) bytes s = Done p s' ->
  p mod 2 ^ k = 0 /\ 0 <= p < 2 ^ 64.
Proof.
  intros Hk H. unfold _int_memalign in H.
  assert (Hp : 0 < 2 ^ k) by (apply Z.pow_pos_nonneg; lia).
  destruct (checked_request2size bytes) as [nb|].
  2:{ minv. split; [apply Z.mod_0_l; lia | unfold NULL; lia]. }
  apply bind_inv in H. destruct H as (m & s1 & _ & H).
  destruct (Z.eqb_spec m 0) as [Hm0|Hm0].
  { minv. split; [apply Z.mod_0_l; lia | lia]. }
  apply bind_inv in H. destruct H as (s0 & s0' & Hg & H).
  cbv beta delta [get] in Hg. inversion Hg; subst s0 s0'; clear Hg.
  apply bind_inv in H. destruct H as (r & s2 & Hr & H).
  pose proof (aligned_spot m k Hk) as (Ha1 & Ha2). cbv zeta in Ha1, Ha2.
  assert (Hres : match r with
                 | AlignReturn m' => m' mod 2 ^ k = 0 /\ 0 <= m' < 2 ^ 64
                 | AlignChunk q => chunk2mem q mod 2 ^ k = 0
                 end).
  { destruct (Z.eqb_spec (m mod 2 ^ k) 0) as [Hal|Hal]; cbn [negb] in Hr.
    - cbv beta delta [ret] in Hr. inversion Hr; subst.
      unfold chunk2mem, mem2chunk.
      rewrite pow2_divides_wrap by lia.
      rewrite <- Zplus_mod_idemp_l, pow2_divides_wrap, Zplus_mod_idemp_l by lia.
      replace (m - 2 * SIZE_SZ + 2 * SIZE_SZ) with m by lia. exact Hal.
    - apply bind_inv in Hr. destruct Hr as (s3 & s3' & Hg & Hr).
      cbv beta delta [get] in Hg. inversion Hg; subst s3 s3'; clear Hg.
      destruct (negb (chunk_is_mmapped (mem s1) (mem2chunk m) =? 0));
        minv;
        try (split; [|apply chunk2mem_range]);
        match goal with
        | |- context [if ?c then _ else _] => destruct c
        end; assumption. }
  clear Hr. destruct r as [m'|q].
  - minv. exact Hres.
  - apply bind_inv in H. destruct H as (s3 & s3' & Hg & H).
    cbv beta delta [get] in Hg. inversion Hg; subst s3 s3'; clear Hg.
    apply bind_inv in H. destruct H as (u & s4 & _ & H).
    minv. split; [exact Hres | apply chunk2mem_range].
Qed.

(** X9.  Whatever [_int_memalign] returns is aligned as asked: for an
    alignment that is a power of two, as [_mid_memalign] passes it, the
    pointer returned is a multiple of the alignment (a null pointer
    included), on the path that finds the chunk aligned, on the path that
    moves to an aligned spot inside the chunk, and on the path of a mapped
    chunk. *)
Theorem int_memalign_result_aligned (E : externals) (fuel : nat)
    (k bytes : Z) (s s' : state) (p : Z) :
  0 <= k < 64 ->
  _int_memalign E fuel (2 ^ k) bytes s = Done p s' ->
  p mod 2 ^ k = 0.
Proof. intros Hk H. apply (int_memalign_aligned E fuel k bytes s s' p Hk H). Qed.

(** A request of 24 bytes aligned to 32 on the heap of [state_big]: the
    chunk carved from the top chunk has its payload at [0x20810], the
    aligned spot that leaves room for a leading chunk is [0x20840]. *)
Lemma int_memalign_result_aligned_witness :
  _int_memalign (with_engine quiet_env quiet_sys globals0 4) 4 (2 ^ 5) 24
    state_big
  = Done 0x20840
      (final_state
         (_int_memalign (with_engine quiet_env quiet_sys globals0 4) 4 (2 ^ 5)
            24 state_big) state_big)
  /\ 0x20840 mod 2 ^ 5 = 0.
Proof.
  split; [vm_compute; reflexivity|].
  apply (int_memalign_result_aligned
           (with_engine quiet_env quiet_sys globals0 4) 4 5 24 state_big
           (final_state
              (_int_memalign (with_engine quiet_env quiet_sys globals0 4) 4
                 (2 ^ 5) 24 state_big) state_big)).
  - lia.
  - vm_compute. reflexivity.
Defined.

(** The loop that rounds the alignment up to a power of two ends, within
    64 rounds, on the least power of two that is at least the alignment. *)
Lemma round_alignment_spec (fuel : nat) :
  forall (j alignment : Z) (s : state),
  5 <= j <= 63 -> 64 - j <= Z.of_nat fuel ->
  alignment <= 2 ^ 63 ->
  j = 5 \/ 2 ^ (j - 1) < alignment ->
  exists k : Z,
    j <= k <= 63
    /\ round_alignment fuel (2 ^ j) alignment s = Done (2 ^ k) s
    /\ alignment <= 2 ^ k
    /\ (k = 5 \/ 2 ^ (k - 1) < alignment).
Proof.
  induction fuel as [|f IH]; intros j alignment s Hj Hf Hal Hlow.
  - lia.
  - cbn [round_alignment].
    destruct (Z.ltb_spec (2 ^ j) alignment) as [Hlt|Hge].
    + assert (Hj63 : j < 63).
      { destruct (Z.eq_dec j 63) as [->|]; [lia|lia]. }
      assert (Esh : wrap (Z.shiftl (2 ^ j) 1) = 2 ^ (j + 1)).
      { rewrite Z.shiftl_mul_pow2 by lia. rewrite <- Z.pow_add_r by lia.
        apply wrap_small. split; [apply Z.pow_nonneg; lia|].
        apply Z.pow_lt_mono_r; lia. }
      rewrite Esh.
      destruct (IH (j + 1) alignment s ltac:(lia) ltac:(lia) Hal) as (k & Hk & Hrun & H1 & H2).
      { right. replace (j + 1 - 1) with j by lia. exact Hlt. }
      exists k. repeat split; try lia; assumption.
    + exists j. repeat split; try lia; try exact Hlow.
Qed.

Lemma pow2_exponent_range (k : Z) :
  0 <= k -> 32 <= 2 ^ k <= 2 ^ 63 -> 5 <= k <= 63.
Proof.
  intros Hk [Hlo Hhi]. split.
  - destruct (Z.lt_ge_cases k 5) as [Hlt|]; [|lia].
    assert (2 ^ k < 2 ^ 5) by (apply Z.pow_lt_mono_r; lia). lia.
  - destruct (Z.lt_ge_cases 63 k) as [Hlt|]; [|lia].
    assert (2 ^ 63 < 2 ^ k) by (apply Z.pow_lt_mono_r; lia). lia.
Qed.

(** X10.  [_mid_memalign] with an alignment above [MALLOC_ALIGNMENT]:
    above the ceiling [SIZE_MAX / 2 + 1] it fails with [EINVAL] and a null
    pointer, nothing else changed; up to the ceiling, the alignment is
    raised to [MINSIZE] and then to the next power of two (the loop that
    does so ends within 64 rounds), and the pointer returned is a multiple
    of that power of two [2^k], the least one that is at least the
    alignment asked for and at least [MINSIZE]. *)
Theorem mid_memalign_rounds_alignment (E : externals) (Y : sysdeps)
    (fuel : nat) (alignment bytes : Z) (s : state) :
  __memalign_hook Y = None ->
  MALLOC_ALIGNMENT < alignment < 2 ^ 64 ->
  (SIZE_MAX / 2 + 1 < alignment ->
   _mid_memalign E Y fuel alignment bytes s = Done 0 (set_errno s EINVAL))
  /\ (alignment <= SIZE_MAX / 2 + 1 -> 64 <= Z.of_nat fuel ->
      forall (p : Z) (s' : state),
        _mid_memalign E Y fuel alignment bytes s = Done p s' ->
        exists k : Z,
          5 <= k <= 63 /\ alignment <= 2 ^ k
          /\ (k = 5 \/ 2 ^ (k - 1) < alignment)
          /\ p mod 2 ^ k = 0).
Proof.
  intros Hh Hal. change MALLOC_ALIGNMENT with 16 in Hal.
  change (SIZE_MAX / 2 + 1) with (2 ^ 63).
  unfold _mid_memalign. rewrite Hh.
  change MALLOC_ALIGNMENT with 16. change MINSIZE with 32.
  change (SIZE_MAX / 2 + 1) with (2 ^ 63).
  destruct (Z.leb_spec alignment 16) as [Hle|_]; [lia|].
  split.
  - intros Hbig.
    destruct (Z.ltb_spec alignment 32) as [Hlt|_]; [lia|].
    destruct (Z.ltb_spec (2 ^ 63) alignment) as [_|Hle]; [|lia].
    reflexivity.
  - intros Hok Hfuel p s' H.
    set (al := if alignment <? 32 then 32 else alignment) in *.
    assert (Hal' : 32 <= al <= 2 ^ 63 /\ alignment <= al
                   /\ (al = 32 \/ al = alignment)).
    { unfold al. destruct (Z.ltb_spec alignment 32); lia. }
    destruct Hal' as (Hr & Hge & Hcase).
    destruct (Z.ltb_spec (2 ^ 63) al) as [Hlt|_]; [lia|].
    apply bind_inv in H. destruct H as (a & s1 & Ha & H).
    assert (Hk : exists k : Z,
               5 <= k <= 63 /\ a = 2 ^ k /\ alignment <= 2 ^ k
               /\ (k = 5 \/ 2 ^ (k - 1) < alignment)).
    { destruct (powerof2 al) eqn:Hp2; cbn [negb] in Ha.
      - cbv beta delta [ret] in Ha. inversion Ha; subst a s1.
        apply powerof2_spec in Hp2; [|lia].
        destruct Hp2 as [H0|(k & Hk0 & Ek)]; [lia|].
        pose proof (pow2_exponent_range k Hk0 ltac:(lia)) as Hkr.
        exists k. split; [exact Hkr|]. split; [exact Ek|]. split; [lia|].
        destruct Hcase as [E32|Eal].
        + left. destruct (Z.eq_dec k 5) as [|Hne]; [assumption|exfalso].
          assert (2 ^ 5 < 2 ^ k) by (apply Z.pow_lt_mono_r; lia). lia.
        + right. rewrite <- Eal, Ek. apply Z.pow_lt_mono_r; lia.
      - change (16 * 2) with (2 ^ 5) in Ha.
        destruct (round_alignment_spec fuel 5 al s ltac:(lia) ltac:(lia)
                    ltac:(lia) ltac:(left; reflexivity))
          as (k & Hkr & Hrun & Hge' & Hlow).
        rewrite Hrun in Ha. inversion Ha; subst a s1.
        exists k. split; [lia|]. split; [reflexivity|]. split; [lia|].
        destruct Hcase as [E32|Eal].
        + exfalso. rewrite E32 in Hp2. discriminate.
        + rewrite Eal in Hlow. exact Hlow. }
    destruct Hk as (k & Hkr & Ea & Hge' & Hlow). subst a.
    apply bind_inv in H. destruct H as (q & s2 & Hq & H).
    apply int_memalign_aligned in Hq; [|lia]. destruct Hq as (Hq & _).
    minv; exists k; repeat split; try lia; assumption.
Qed.

(** An alignment one above the ceiling, and an alignment of 24, which is
    raised to 32. *)
Lemma mid_memalign_rounds_alignment_witness :
  _mid_memalign quiet_env quiet_sys 0 (2 ^ 63 + 1) 8 state0
  = Done 0 (set_errno state0 EINVAL)
  /\ exists k : Z,
       5 <= k <= 63 /\ 24 <= 2 ^ k /\ (k = 5 \/ 2 ^ (k - 1) < 24)
       /\ 0x20840 mod 2 ^ k = 0.
Proof.
  split.
  - apply (proj1 (mid_memalign_rounds_alignment quiet_env quiet_sys 0
                    (2 ^ 63 + 1) 8 state0 eq_refl (conj eq_refl eq_refl))).
    reflexivity.
  - eapply (proj2 (mid_memalign_rounds_alignment
                    (with_engine quiet_env quiet_sys globals0 4) quiet_sys 64
                    24 24 state_big eq_refl (conj eq_refl eq_refl))).
    + vm_compute. discriminate.
    + vm_compute. discriminate.
    + vm_compute. reflexivity.
Defined.

Lemma powerof2_pow2 (j : Z) : 0 <= j < 64 -> powerof2 (2 ^ j) = true.
Proof.
  intros Hj. apply powerof2_spec.
  - split; [apply Z.pow_nonneg; lia | apply Z.pow_lt_mono_r; lia].
  - right. exists j. split; [lia | reflexivity].
Qed.

(** [_mid_memalign] with a power of two above [MALLOC_ALIGNMENT]. *)
Lemma mid_memalign_pow2 (E : externals) (Y : sysdeps) (fuel : nat)
    (j bytes : Z) (s s' : state) (p : Z) :
  __memalign_hook Y = None ->
  5 <= j <= 63 ->
  _mid_memalign E Y fuel (2 ^ j) bytes s = Done p s' ->
  p mod 2 ^ j = 0 /\ 0 <= p < 2 ^ 64.
Proof.
  intros Hh Hj H. unfold _mid_memalign in H. rewrite Hh in H.
  change MALLOC_ALIGNMENT with 16 in H. change MINSIZE with 32 in H.
  change (SIZE_MAX / 2 + 1) with (2 ^ 63) in H.
  assert (H32 : 2 ^ 5 <= 2 ^ j) by (apply Z.pow_le_mono_r; lia).
  assert (H63 : 2 ^ j <= 2 ^ 63) by (apply Z.pow_le_mono_r; lia).
  destruct (Z.leb_spec (2 ^ j) 16) as [Hle|_]; [lia|].
  destruct (Z.ltb_spec (2 ^ j) 32) as [Hlt|_]; [lia|].
  destruct (Z.ltb_spec (2 ^ 63) (2 ^ j)) as [Hlt|_]; [lia|].
  rewrite powerof2_pow2 in H by lia. cbn [negb] in H.
  apply bind_inv in H. destruct H as (a & s1 & Ha & H).
  cbv beta delta [ret] in Ha. inversion Ha; subst a s1.
  apply bind_inv in H. destruct H as (q & s2 & Hq & H).
  apply int_memalign_aligned in Hq; [|lia].
  minv; exact Hq.
Qed.

(** X11.  [posix_memalign] accepts exactly the alignments that are a power
    of two and a multiple of the size of a pointer: for any other
    alignment, zero included, it returns [EINVAL] and changes nothing.  For
    an accepted alignment it returns 0 or [ENOMEM]; when it returns 0 for an
    alignment of at least [MINSIZE], the pointer it has stored at [memptr]
    is not null and is a multiple of the alignment. *)
Theorem posix_memalign_alignment (E : externals) (Y : sysdeps) (fuel : nat)
    (memptr alignment size : Z) (s : state) :
  0 <= alignment < 2 ^ 64 ->
  ((~ exists j : Z, 3 <= j /\ alignment = 2 ^ j) ->
   __posix_memalign E Y fuel memptr alignment size s = Done EINVAL s)
  /\ (forall (j r : Z) (s' : state),
        3 <= j -> alignment = 2 ^ j ->
        __posix_memalign E Y fuel memptr alignment size s = Done r s' ->
        (r = 0 \/ r = ENOMEM)
        /\ (r = 0 -> __memalign_hook Y = None -> 5 <= j ->
            load (mem s') memptr <> 0
            /\ load (mem s') memptr mod alignment = 0)).
Proof.
  intros Hal. unfold __posix_memalign. change SIZE_SZ with 8. split.
  - intros Hno.
    destruct (Z.eqb_spec alignment 0) as [Hz|Hnz];
      [rewrite orb_true_r; reflexivity|].
    destruct (Z.eqb_spec (alignment mod 8) 0) as [Hm|Hm]; [|reflexivity].
    cbn [negb orb].
    destruct (powerof2 (alignment / 8)) eqn:Hp2; [exfalso|reflexivity].
    pose proof (Z.div_mod alignment 8 ltac:(lia)) as Hdm.
    apply powerof2_spec in Hp2.
    2:{ split; [apply Z.div_pos; lia|]. apply Z.div_lt_upper_bound; lia. }
    destruct Hp2 as [H0|(i & Hi & Ei)]; [lia|].
    apply Hno. exists (i + 3). split; [lia|].
    rewrite Z.pow_add_r by lia. lia.
  - intros j r s' Hj Ej H. subst alignment.
    assert (Hj63 : j <= 63).
    { destruct (Z.lt_ge_cases 63 j) as [Hlt|]; [|lia].
      assert (2 ^ 64 <= 2 ^ j) by (apply Z.pow_le_mono_r; lia). lia. }
    assert (Hm : 2 ^ j mod 8 = 0).
    { replace j with ((j - 3) + 3) by lia.
      rewrite Z.pow_add_r by lia. apply Z.mod_mul. lia. }
    assert (Hd : 2 ^ j / 8 = 2 ^ (j - 3)).
    { replace j with ((j - 3) + 3) at 1 by lia.
      rewrite Z.pow_add_r by lia. apply Z.div_mul. lia. }
    assert (Hpos : 0 < 2 ^ j) by (apply Z.pow_pos_nonneg; lia).
    rewrite Hm, Hd, powerof2_pow2 in H by lia.
    destruct (Z.eqb_spec (2 ^ j) 0) as [Hz|_]; [lia|].
    cbn [Z.eqb negb orb] in H.
    apply bind_inv in H. destruct H as (m & s1 & Hrun & H).
    destruct (Z.eqb_spec m NULL) as [Hn|Hn]; cbn [negb] in H.
    + cbv beta delta [ret] in H. inversion H; subst.
      split; [right; reflexivity|]. intros Hr. discriminate Hr.
    + apply bind_inv in H. destruct H as (u & s2 & Hw & H).
      cbv beta delta [wr] in Hw. inversion Hw; subst u s2; clear Hw.
      cbv beta delta [ret] in H. inversion H; subst r s'; clear H.
      split; [left; reflexivity|].
      intros _ Hh Hj5. cbn [mem set_mem].
      apply mid_memalign_pow2 in Hrun; [|exact Hh|lia].
      destruct Hrun as (Hmod & Hrange).
      rewrite load_store_eq, wrap_small by exact Hrange.
      split; [exact Hn | exact Hmod].
Qed.

(** An alignment of 24 is refused; an alignment of 32 is served. *)
Lemma posix_memalign_alignment_witness :
  __posix_memalign quiet_env quiet_sys 0 0x30000 24 100 state0
  = Done EINVAL state0
  /\ ((0 = 0 \/ 0 = ENOMEM)
      /\ (0 = 0 -> __memalign_hook quiet_sys = None -> 5 <= 5 ->
          load (mem (final_state
                  (__posix_memalign (with_engine quiet_env quiet_sys globals0 4)
                     quiet_sys 64 0x30000 (2 ^ 5) 24 state_big) state_big))
               0x30000 <> 0
          /\ load (mem (final_state
                  (__posix_memalign (with_engine quiet_env quiet_sys globals0 4)
                     quiet_sys 64 0x30000 (2 ^ 5) 24 state_big) state_big))
               0x30000 mod 2 ^ 5 = 0)).
Proof.
  split.
  - assert (Hr : 0 <= 24 < 2 ^ 64) by lia.
    apply (proj1 (posix_memalign_alignment quiet_env quiet_sys 0 0x30000 24 100
                    state0 Hr)).
    intros (j & Hj & Ej).
    assert (2 ^ 3 <= 2 ^ j) by (apply Z.pow_le_mono_r; lia).
    destruct (Z.eq_dec j 3) as [->|]; [discriminate|].
    destruct (Z.eq_dec j 4) as [->|]; [discriminate|].
    assert (2 ^ 5 <= 2 ^ j) by (apply Z.pow_le_mono_r; lia). lia.
  - assert (Hr : 0 <= 2 ^ 5 < 2 ^ 64) by lia.
    apply (proj2 (posix_memalign_alignment
                    (with_engine quiet_env quiet_sys globals0 4) quiet_sys 64
                    0x30000 (2 ^ 5) 24 state_big Hr)
             5 0
             (final_state
                (__posix_memalign (with_engine quiet_env quiet_sys globals0 4)
                   quiet_sys 64 0x30000 (2 ^ 5) 24 state_big) state_big)).
    + lia.
    + reflexivity.
    + vm_compute. reflexivity.
Defined.

Lemma pow2_split (k : Z) : 1 <= k -> 2 ^ k = 2 ^ (k - 1) * 2.
Proof.
  intros Hk. replace k with (Z.succ (k - 1)) at 1 by lia.
  rewrite Z.pow_succ_r by lia. ring.
Qed.

(** Masking with [-(2^k - 1)] keeps the bits from [k] up and the lowest
    bit. *)
Lemma land_neg_pow2_pred (x k : Z) :
  1 <= k < 64 -> 0 <= x < 2 ^ 64 ->
  Z.land x (wrap (- (2 ^ k - 1))) = 2 ^ k * (x / 2 ^ k) + x mod 2.
Proof.
  intros Hk Hx.
  assert (Hp : 2 <= 2 ^ k).
  { change 2 with (2 ^ 1) at 1. apply Z.pow_le_mono_r; lia. }
  assert (Hp64 : 2 ^ k < 2 ^ 64) by (apply Z.pow_lt_mono_r; lia).
  assert (Hev : (2 ^ 64 - 2 ^ k) mod 2 = 0).
  { replace (2 ^ 64 - 2 ^ k) with ((2 ^ 63 - 2 ^ (k - 1)) * 2).
    - apply Z.mod_mul. lia.
    - rewrite (pow2_split k) by lia. lia. }
  assert (E : wrap (- (2 ^ k - 1)) = Z.lor (wrap (- 2 ^ k)) 1).
  { assert (Ew : wrap (- 2 ^ k) = 2 ^ 64 - 2 ^ k).
    { unfold wrap. symmetry. apply (Z.mod_unique _ _ (-1)); lia. }
    rewrite Ew. rewrite <- Z.add_nocarry_lor.
    - unfold wrap. symmetry. apply (Z.mod_unique _ _ (-1)); lia.
    - change 1 with (Z.ones 1). rewrite Z.land_ones by lia. exact Hev. }
  rewrite E, Z.land_lor_distr_r, land_neg_pow2 by lia.
  change (Z.land x 1) with (Z.land x (Z.ones 1)). rewrite Z.land_ones by lia.
  change (2 ^ 1) with 2.
  symmetry. apply Z.add_nocarry_lor.
  pose proof (Z.mod_pos_bound x 2 ltac:(lia)) as Hb.
  destruct (Z.eq_dec (x mod 2) 0) as [->|Hne]; [apply Z.land_0_r|].
  replace (x mod 2) with 1 by lia.
  change 1 with (Z.ones 1). rewrite Z.land_ones by lia.
  change (2 ^ 1) with 2.
  set (q := x / 2 ^ k).
  assert (E2 : 2 ^ k = 2 ^ (k - 1) * 2) by (apply pow2_split; lia).
  rewrite E2. replace (2 ^ (k - 1) * 2 * q) with ((2 ^ (k - 1) * q) * 2) by ring.
  apply Z.mod_mul. lia.
Qed.

(** X12.  The size [pvalloc] asks the aligned allocator for, with a page
    size [2^k]: when [bytes + pagesize - 1] does not fit [size_t] there is
    none (the call fails with [ENOMEM]); otherwise it is the multiple of
    the page size below [bytes + pagesize - 1] plus the lowest bit of that
    sum.  So the size is never less than [bytes] and less than a page
    more, and it is a whole number of pages or one byte more than that. *)
Theorem pvalloc_rounded_size (k bytes : Z) :
  1 <= k < 64 -> 0 <= bytes < 2 ^ 64 ->
  match pvalloc_rounded (2 ^ k) bytes with
  | None => SIZE_MAX < bytes + 2 ^ k - 1
  | Some r =>
      r = 2 ^ k * ((bytes + 2 ^ k - 1) / 2 ^ k) + (bytes + 2 ^ k - 1) mod 2
      /\ bytes <= r <= bytes + 2 ^ k - 1
  end.
Proof.
  intros Hk Hb. unfold pvalloc_rounded.
  assert (Hp : 2 <= 2 ^ k).
  { change 2 with (2 ^ 1) at 1. apply Z.pow_le_mono_r; lia. }
  assert (Hp64 : 2 ^ k < 2 ^ 64) by (apply Z.pow_lt_mono_r; lia).
  rewrite (wrap_small (2 ^ k - 1)) by lia.
  replace (bytes + (2 ^ k - 1)) with (bytes + 2 ^ k - 1) by lia.
  unfold SIZE_MAX.
  destruct (Z.ltb_spec (2 ^ 64 - 1) (bytes + 2 ^ k - 1)) as [Hov|Hfit];
    [exact Hov|].
  rewrite land_neg_pow2_pred by lia.
  split; [reflexivity|].
  set (r := bytes + 2 ^ k - 1) in *.
  pose proof (Z.div_mod r (2 ^ k) ltac:(lia)) as Hdm.
  pose proof (Z.mod_pos_bound r (2 ^ k) ltac:(lia)) as Hm.
  pose proof (Z.mod_pos_bound r 2 ltac:(lia)) as Hm2.
  assert (Hpar : r mod 2 <= r mod 2 ^ k).
  { destruct (Z.eq_dec (r mod 2) 0) as [->|Hne]; [lia|].
    destruct (Z.eq_dec (r mod 2 ^ k) 0) as [Hz|]; [|lia].
    exfalso. apply Hne.
    rewrite Hz in Hdm.
    replace (2 ^ k) with (2 ^ (k - 1) * 2) in Hdm
      by (symmetry; apply pow2_split; lia).
    rewrite Hdm.
    replace (2 ^ (k - 1) * 2 * (r / (2 ^ (k - 1) * 2)) + 0)
      with ((2 ^ (k - 1) * (r / (2 ^ (k - 1) * 2))) * 2) by ring.
    apply Z.mod_mul. lia. }
  split; [|lia].
  destruct (Z.eq_dec (r mod 2 ^ k) (2 ^ k - 1)) as [Hfull|Hnf]; [|lia].
  assert (r mod 2 = 1).
  { replace (2 ^ k) with (2 ^ (k - 1) * 2) in Hdm, Hfull
      by (symmetry; apply pow2_split; lia).
    rewrite Hfull in Hdm. rewrite Hdm.
    replace (2 ^ (k - 1) * 2 * (r / (2 ^ (k - 1) * 2)) + (2 ^ (k - 1) * 2 - 1))
      with (1 + (2 ^ (k - 1) * (r / (2 ^ (k - 1) * 2)) + 2 ^ (k - 1) - 1) * 2)
      by ring.
    rewrite Z.mod_add by lia. reflexivity. }
  lia.
Qed.

(** A page of 4096 bytes: two bytes asked for, 4097 bytes requested. *)
Lemma pvalloc_rounded_size_witness :
  pvalloc_rounded (2 ^ 12) 2 = Some 4097
  /\ match pvalloc_rounded (2 ^ 12) 2 with
     | None => SIZE_MAX < 2 + 2 ^ 12 - 1
     | Some r =>
         r = 2 ^ 12 * ((2 + 2 ^ 12 - 1) / 2 ^ 12) + (2 + 2 ^ 12 - 1) mod 2
         /\ 2 <= r <= 2 + 2 ^ 12 - 1
     end.
Proof.
  split; [vm_compute; reflexivity|].
  assert (Hk : 1 <= 12 < 64) by lia.
  assert (Hb : 0 <= 2 < 2 ^ 64) by lia.
  apply (pvalloc_rounded_size 12 2 Hk Hb).
Defined.

(** X20.  With a page size that is a power of two from 32 up, the
    pointer [valloc] returns and the pointer [pvalloc] returns are null or
    multiples of the page size; and [pvalloc] fails with [ENOMEM] and a
    null pointer, nothing else changed, when the request plus a page less
    one byte does not fit [size_t]. *)
Theorem valloc_pvalloc_page_aligned (E : externals) (Y : sysdeps)
    (g : globals) (fuel : nat) (j bytes : Z) (s : state) :
  __memalign_hook Y = None ->
  0 <= __malloc_initialized g ->
  5 <= j <= 63 -> dl_pagesize s = 2 ^ j ->
  0 <= bytes < 2 ^ 64 ->
  (forall (p : Z) (s' : state),
     __libc_valloc E Y g fuel bytes s = Done p s' -> p mod dl_pagesize s = 0)
  /\ (SIZE_MAX < bytes + dl_pagesize s - 1 ->
      __libc_pvalloc E Y g fuel bytes s = Done 0 (set_errno s ENOMEM))
  /\ (forall (p : Z) (s' : state),
        __libc_pvalloc E Y g fuel bytes s = Done p s' ->
        p mod dl_pagesize s = 0).
Proof.
  intros Hh Hinit Hj Hpg Hb.
  assert (H32 : 2 ^ 5 <= 2 ^ j) by (apply Z.pow_le_mono_r; lia).
  assert (H63 : 2 ^ j <= 2 ^ 63) by (apply Z.pow_le_mono_r; lia).
  unfold __libc_valloc, __libc_pvalloc.
  destruct (Z.ltb_spec (__malloc_initialized g) 0) as [Hneg|_]; [lia|].
  split; [|split].
  - intros p s' H.
    apply bind_inv in H. destruct H as (u0 & s0 & H0 & H).
    cbv beta delta [ret] in H0. inversion H0; subst u0 s0; clear H0.
    apply bind_inv in H. destruct H as (s1 & s2 & Hg & H).
    cbv beta delta [get] in Hg. inversion Hg; subst s1 s2; clear Hg.
    rewrite Hpg in *.
    apply (mid_memalign_pow2 E Y fuel j bytes s s' p Hh Hj H).
  - intros Hov. rewrite Hpg in *.
    unfold bind at 1. cbv beta delta [ret]. cbv beta iota.
    unfold bind at 1. cbv beta delta [get]. cbv beta iota zeta.
    rewrite Hpg. unfold pvalloc_rounded. cbv zeta.
    rewrite (wrap_small (2 ^ j - 1)) by lia.
    destruct (Z.ltb_spec SIZE_MAX (bytes + (2 ^ j - 1))) as [_|Hfit]; [|lia].
    reflexivity.
  - intros p s' H.
    apply bind_inv in H. destruct H as (u0 & s0 & H0 & H).
    cbv beta delta [ret] in H0. inversion H0; subst u0 s0; clear H0.
    apply bind_inv in H. destruct H as (s1 & s2 & Hg & H).
    cbv beta delta [get] in Hg. inversion Hg; subst s1 s2; clear Hg.
    cbv zeta in H. rewrite Hpg in *.
    destruct (pvalloc_rounded (2 ^ j) bytes) as [r|].
    + apply (mid_memalign_pow2 E Y fuel j r s s' p Hh Hj H).
    + minv. apply Z.mod_0_l. lia.
Qed.

(** [valloc (24)] with pages of 4096 bytes, from a top chunk large enough:
    the pointer is [0x21000]. *)
Lemma valloc_pvalloc_page_aligned_witness :
  final_state (__libc_valloc (with_engine quiet_env quiet_sys globals0 4)
                 quiet_sys globals0 4 24 state_pages) state_pages
  <> state_pages
  /\ __libc_valloc (with_engine quiet_env quiet_sys globals0 4)
       quiet_sys globals0 4 24 state_pages
     = Done 0x21000
         (final_state (__libc_valloc (with_engine quiet_env quiet_sys globals0 4)
                         quiet_sys globals0 4 24 state_pages) state_pages)
  /\ 0x21000 mod dl_pagesize state_pages = 0.
Proof.
  assert (Hrun : __libc_valloc (with_engine quiet_env quiet_sys globals0 4)
                   quiet_sys globals0 4 24 state_pages
                 = Done 0x21000
                     (final_state
                        (__libc_valloc (with_engine quiet_env quiet_sys globals0 4)
                           quiet_sys globals0 4 24 state_pages) state_pages))
    by (vm_compute; reflexivity).
  assert (Hi : 0 <= __malloc_initialized globals0) by (vm_compute; discriminate).
  assert (Hj : 5 <= 12 <= 63) by lia.
  assert (Hb : 0 <= 24 < 2 ^ 64) by lia.
  split; [vm_compute; discriminate|]. split; [exact Hrun|].
  exact (proj1 (valloc_pvalloc_page_aligned
                  (with_engine quiet_env quiet_sys globals0 4) quiet_sys
                  globals0 4 12 24 state_pages eq_refl Hi Hj eq_refl Hb)
           _ _ Hrun).
Defined.

(** ** [calloc] *)

Lemma load_byte_store_le_zero (n : nat) : forall (m : gmap Z Z) (a b : Z),
  a <= b < a + Z.of_nat n -> load_byte (store_le m a n 0) b = 0.
Proof.
  induction n as [|n IH]; intros m a b Hb; cbn [store_le].
  - lia.
  - change (0 / 256) with 0.
    destruct (Z.eq_dec b a) as [->|Hne].
    + rewrite store_le_other by lia. apply load_byte_insert_eq.
    + apply IH. lia.
Qed.

Lemma load_byte_store_zero (m : gmap Z Z) (a b : Z) :
  a <= b < a + 8 -> load_byte (store m a 0) b = 0.
Proof. intros H. unfold store. apply load_byte_store_le_zero. simpl. lia. Qed.

Lemma load_byte_store_other (m : gmap Z Z) (a v b : Z) :
  b < a \/ a + 8 <= b -> load_byte (store m a v) b = load_byte m b.
Proof. intros H. unfold store. apply store_le_other. simpl. lia. Qed.

(** The unrolled clearing clears all the words when their number is odd
    and between 3 and 9. *)
Lemma calloc_clear_words_zero (m : gmap Z Z) (d nclears a : Z) :
  3 <= nclears <= 9 -> nclears mod 2 = 1 ->
  d <= a < d + 8 * nclears ->
  load_byte (calloc_clear_words m d nclears) a = 0.
Proof.
  intros Hn Hodd Ha. unfold calloc_clear_words.
  assert (Hc : nclears = 3 \/ nclears = 5 \/ nclears = 7 \/ nclears = 9).
  { pose proof (Z.div_mod nclears 2 ltac:(lia)) as Hdm. lia. }
  assert (Hw : a < d + 8 \/ d + 8 <= a < d + 16 \/ d + 16 <= a < d + 24
               \/ d + 24 <= a < d + 32 \/ d + 32 <= a < d + 40
               \/ d + 40 <= a < d + 48 \/ d + 48 <= a < d + 56
               \/ d + 56 <= a < d + 64 \/ d + 64 <= a) by lia.
  destruct Hc as [-> | [-> | [-> | ->]]]; cbn [Z.ltb Z.compare Pos.compare
    Pos.compare_cont];
    repeat (destruct Hw as [Hw|Hw]); try lia;
    repeat first [ rewrite load_byte_store_zero by lia
                 | rewrite load_byte_store_other by lia ];
    reflexivity.
Qed.

(** X13.  [calloc]: a product [n * elem_size] above [PTRDIFF_MAX] fails
    with [ENOMEM] and a null pointer before any hook or allocation is
    tried.  With a hook installed, the [n * elem_size] bytes the hook
    returned are cleared.  Without a hook, for a result whose chunk is not
    page-mapped and is not a piece of the old top chunk handed out with
    the perturb byte off (the one case in which the code skips clearing,
    trusting fresh memory to be zero), every byte of the payload up to
    the size of the chunk less one word reads zero, whatever
    [alloc_perturb] had written there. *)
Theorem calloc_overflow_and_zero_fill (E : externals) (Y : sysdeps)
    (g : globals) (fuel : nat) (n elem_size : Z) (s : state) :
  (PTRDIFF_MAX < n * elem_size ->
   __libc_calloc E Y g fuel n elem_size s = Done NULL (set_errno s ENOMEM))
  /\ (forall (hook : Z -> M Z) (mem_ : Z) (s' : state),
        __malloc_hook E = Some hook ->
        __libc_calloc E Y g fuel n elem_size s = Done mem_ s' ->
        mem_ <> 0 ->
        forall a : Z, mem_ <= a < mem_ + n * elem_size ->
                      load_byte (mem s') a = 0)
  /\ (forall (mem_ : Z) (s' : state),
        __malloc_hook E = None ->
        tcache s <> NULL \/ tcache_shutting_down s = true ->
        __libc_calloc E Y g fuel n elem_size s = Done mem_ s' ->
        2 * SIZE_SZ <= mem_ < 2 ^ 64 ->
        let p := mem2chunk mem_ in
        chunk_is_mmapped (mem s') p = 0 ->
        MINSIZE <= chunksize (mem s') p ->
        chunksize (mem s') p mod MALLOC_ALIGNMENT = 0 ->
        mem_ + chunksize (mem s') p <= 2 ^ 64 ->
        perturb_byte s' <> 0 \/ p <> top (av s) ->
        forall a : Z, mem_ <= a < mem_ + chunksize (mem s') p - SIZE_SZ ->
                      load_byte (mem s') a = 0).
Proof.
  split; [|split].
  - intros Hov. unfold __libc_calloc.
    destruct (Z.ltb_spec PTRDIFF_MAX (n * elem_size)) as [_|Hle]; [|lia].
    reflexivity.
  - intros hook mem_ s' Hh H Hnz a Ha. unfold __libc_calloc in H.
    destruct (PTRDIFF_MAX <? n * elem_size).
    { minv. unfold NULL in Hnz. contradiction. }
    rewrite Hh in H.
    apply bind_inv in H. destruct H as (m & s1 & _ & H).
    destruct (Z.eqb_spec m 0) as [Hz|_].
    { minv. contradiction. }
    minv. cbn [mem set_mem]. rewrite load_byte_memset_in by lia.
    reflexivity.
  - intros mem_ s' Hh Htc H Hm. cbv zeta.
    intros Hmm Hmin Hmod Hend Hskip a Ha.
    change SIZE_SZ with 8 in *. change MINSIZE with 32 in Hmin.
    change MALLOC_ALIGNMENT with 16 in Hmod.
    unfold __libc_calloc in H. change SIZE_SZ with 8 in H.
    destruct (PTRDIFF_MAX <? n * elem_size).
    { minv. unfold NULL in Hm. lia. }
    rewrite Hh in H.
    apply bind_inv in H. destruct H as (u & s0 & Hi & H).
    rewrite MAYBE_INIT_TCACHE_ready in Hi by exact Htc.
    inversion Hi; subst u s0; clear Hi.
    apply bind_inv in H. destruct H as (s0 & s0' & Hg & H).
    cbv beta delta [get] in Hg. inversion Hg; subst s0 s0'; clear Hg.
    apply bind_inv in H. destruct H as (ots & sa & _ & H).
    apply bind_inv in H. destruct H as (m & sb & _ & H).
    apply bind_inv in H. destruct H as (s1 & s1' & Hg & H).
    cbv beta delta [get] in Hg. inversion Hg; subst s1 s1'; clear Hg.
    apply bind_inv in H. destruct H as (u & s2 & Has & H).
    assert (Es2 : s2 = sb).
    { unfold assert in Has.
      destruct ((m =? NULL)
                || negb (chunk_is_mmapped (mem sb) (mem2chunk m) =? 0)
                || eqb (chunk_main_arena (mem sb) (mem2chunk m)) (main (av sb)));
        [cbv beta delta [ret] in Has; inversion Has; reflexivity
        | discriminate Has]. }
    subst s2. clear Has.
    destruct (Z.eqb_spec m 0) as [Hz|_].
    { cbv beta delta [ret] in H. inversion H; subst. lia. }
    assert (Ep : mem2chunk mem_ + off_size = mem_ - 8).
    { unfold mem2chunk, off_size. change (2 * SIZE_SZ) with 16.
      change SIZE_SZ with 8. rewrite wrap_small by lia. lia. }
    destruct (Z.eqb_spec (chunk_is_mmapped (mem sb) (mem2chunk m)) 0)
      as [Hnm|Hism]; cbn [negb] in H.
    + (* an ordinary chunk *)
      apply bind_inv in H. destruct H as (u2 & s3 & Has & H).
      assert (Hn3 : s3 = sb
                /\ 3 <= wrap ((if (perturb_byte sb =? 0)
                                  && ((mem2chunk m =? top (av s))
                                      && (ots <? chunksize (mem sb) (mem2chunk m)))
                               then ots else chunksize (mem sb) (mem2chunk m)) - 8)
                        / 8).
      { unfold assert in Has.
        match type of Has with
        | (if ?c then _ else _) _ = _ => destruct c eqn:Hc
        end; [|discriminate Has].
        cbv beta delta [ret] in Has.
        assert (Es3 : s3 = sb) by (inversion Has; reflexivity).
        split; [exact Es3|]. apply Z.leb_le. exact Hc. }
      destruct Hn3 as (-> & Hn3). clear Has.
      (* the result is [m], the state [sb] with the payload cleared *)
      assert (Hres : mem_ = m /\ av s' = av sb /\ perturb_byte s' = perturb_byte sb
                     /\ (forall b, b + 8 <= m -> load (mem s') b = load (mem sb) b)).
      { destruct (9 <? _) in H; minv; (split; [reflexivity|]);
          (split; [reflexivity|]); (split; [reflexivity|]);
          intros b Hb; cbn [mem set_mem].
        - apply load_memset_ne. lia.
        - unfold calloc_clear_words.
          repeat match goal with
                 | |- context [if ?c then _ else _] => destruct c
                 end; read_back; reflexivity. }
      destruct Hres as (<- & Hav & Hpb & Hhd).
      assert (Ecs : chunksize (mem s') (mem2chunk mem_)
                    = chunksize (mem sb) (mem2chunk mem_)).
      { unfold chunksize, chunksize_nomask. rewrite Ep, Hhd by lia. reflexivity. }
      rewrite Ecs in Hmin, Hmod, Hend, Ha.
      set (csz := chunksize (mem sb) (mem2chunk mem_)) in *.
      assert (Hsel : (perturb_byte sb =? 0)
                     && ((mem2chunk mem_ =? top (av s)) && (ots <? csz)) = false).
      { rewrite <- Hpb. destruct Hskip as [Hp|Hp].
        - destruct (Z.eqb_spec (perturb_byte s') 0); [contradiction|reflexivity].
        - destruct (Z.eqb_spec (mem2chunk mem_) (top (av s))); [contradiction|].
          apply andb_false_r. }
      rewrite Hsel in H, Hn3.
      rewrite (wrap_small (csz - 8)) in H, Hn3 by lia.
      pose proof (Z.div_mod csz 16 ltac:(lia)) as Hdm.
      assert (Encl : (csz - 8) / 8 = 2 * (csz / 16) - 1).
      { replace (csz - 8) with ((2 * (csz / 16) - 1) * 8) by lia.
        apply Z.div_mul. lia. }
      rewrite Encl in H, Hn3.
      destruct (Z.ltb_spec 9 (2 * (csz / 16) - 1)) as [Hbig|Hsmall].
      * minv. cbn [mem set_mem]. rewrite load_byte_memset_in by lia.
        reflexivity.
      * minv. cbn [mem set_mem]. apply calloc_clear_words_zero; try lia.
        replace (2 * (csz / 16) - 1) with (1 + (csz / 16 - 1) * 2) by lia.
        rewrite Z.mod_add by lia. reflexivity.
    + (* a mapped chunk: excluded *)
      exfalso.
      destruct (Z.eqb_spec (perturb_byte sb) 0) as [Hp0|Hp0]; cbn [negb] in H.
      * cbv beta delta [ret] in H. inversion H; subst. contradiction.
      * minv. apply Hism.
        unfold chunk_is_mmapped, chunksize_nomask in *.
        rewrite Ep in *. cbn [mem set_mem] in Hmm.
        rewrite load_memset_ne in Hmm by lia. exact Hmm.
Qed.

(** [calloc (5, 8)] on the heap of [state_big], with the perturb byte set:
    [malloc (40)] hands out the payload filled with [0x55], [calloc] hands
    it out cleared. *)
Lemma calloc_overflow_and_zero_fill_witness :
  load_byte
    (mem (final_state
            (__libc_malloc (with_engine quiet_env quiet_sys globals0 4) 4 40
               state_big_perturb) state_big_perturb)) (0x20810 + 39) = 0x55
  /\ load_byte
       (mem (final_state
               (__libc_calloc (with_engine quiet_env quiet_sys globals0 4)
                  quiet_sys globals0 4 5 8 state_big_perturb)
               state_big_perturb)) (0x20810 + 39) = 0.
Proof.
  split; [vm_compute; reflexivity|].
  apply (proj2 (proj2 (calloc_overflow_and_zero_fill
                         (with_engine quiet_env quiet_sys globals0 4)
                         quiet_sys globals0 4 5 8 state_big_perturb))
           0x20810
           (final_state
              (__libc_calloc (with_engine quiet_env quiet_sys globals0 4)
                 quiet_sys globals0 4 5 8 state_big_perturb)
              state_big_perturb)).
  - reflexivity.
  - left. discriminate.
  - vm_compute. reflexivity.
  - vm_compute. split; [discriminate | reflexivity].
  - vm_compute. reflexivity.
  - vm_compute. discriminate.
  - vm_compute. reflexivity.
  - vm_compute. discriminate.
  - left. vm_compute. discriminate.
  - vm_compute. split; [discriminate | reflexivity].
Defined.

(** ** Size classes: tcache buckets, fast bins and the regular bins *)

Lemma usize2tidx_div (n : Z) :
  0 <= n <= PTRDIFF_MAX -> usize2tidx n = Z.max 0 ((n - 9) / 16).
Proof.
  intros Hn. unfold usize2tidx, csize2tidx.
  pose proof (request2size_padded n) as Hp. unfold PTRDIFF_MAX in Hn.
  change SIZE_SZ with 8 in Hp. change MALLOC_ALIGN_MASK with 15 in Hp.
  rewrite Hp by lia. unfold padded_request.
  change MINSIZE with 32. change MALLOC_ALIGNMENT with 16.
  pose proof (Z.div_mod (n + 8 + 15) 16 ltac:(lia)) as Hdm.
  pose proof (Z.mod_pos_bound (n + 8 + 15) 16 ltac:(lia)) as Hm.
  remember ((n + 8 + 15) / 16) as q eqn:Eq.
  assert (Hq : 1 <= q) by lia.
  destruct (Z.max_spec 32 (16 * q)) as [[Hlt ->]|[Hge ->]].
  - rewrite wrap_small by lia.
    replace (16 * q - 32 + 16 - 1) with (15 + (q - 2) * 16) by lia.
    rewrite Z.div_add by lia. change (15 / 16) with 0.
    assert (E : (n - 9) / 16 = q - 2).
    { symmetry. apply (Z.div_unique (n - 9) 16 (q - 2) ((n + 8 + 15) mod 16)); lia. }
    rewrite E. lia.
  - change (wrap (32 - 32 + 16 - 1) / 16) with 0.
    assert (E : (n - 9) / 16 < 1).
    { apply Z.div_lt_upper_bound; lia. }
    lia.
Qed.

Lemma tidx2usize_val (i : Z) :
  0 <= i < 2 ^ 59 -> tidx2usize i = 16 * i + 24.
Proof.
  intros Hi. unfold tidx2usize. change MALLOC_ALIGNMENT with 16.
  change MINSIZE with 32. change SIZE_SZ with 8. rewrite wrap_small; lia.
Qed.

(** X17.  A request of [n] bytes belongs to tcache bucket [i] or a lower
    one exactly when [n] is at most [tidx2usize i], the largest request of
    that bucket; so [usize2tidx] maps [tidx2usize i] back to [i], the
    chunk serving it has [16 * i + 32] bytes, and the requests that have a
    bucket at all are those up to [MAX_TCACHE_SIZE]. *)
Theorem tcache_size_classes (n i : Z) :
  0 <= n <= PTRDIFF_MAX -> 0 <= i < TCACHE_MAX_BINS ->
  (usize2tidx n <= i <-> n <= tidx2usize i)
  /\ usize2tidx (tidx2usize i) = i
  /\ request2size (tidx2usize i) = MALLOC_ALIGNMENT * i + MINSIZE
  /\ (usize2tidx n < TCACHE_MAX_BINS <-> n <= MAX_TCACHE_SIZE).
Proof.
  intros Hn Hi. change TCACHE_MAX_BINS with 64 in *.
  assert (Hi' : 0 <= i < 2 ^ 59) by lia.
  rewrite (tidx2usize_val i Hi').
  assert (Hcls : forall m j, 0 <= m <= PTRDIFF_MAX -> 0 <= j ->
            (usize2tidx m <= j <-> m <= 16 * j + 24)).
  { intros m j Hm Hj. rewrite (usize2tidx_div m Hm).
    pose proof (Z.div_mod (m - 9) 16 ltac:(lia)) as Hdm.
    pose proof (Z.mod_pos_bound (m - 9) 16 ltac:(lia)) as Hmb.
    destruct (Z.max_spec 0 ((m - 9) / 16)) as [[H1 ->]|[H1 ->]]; lia. }
  split; [apply Hcls; [exact Hn | lia]|].
  assert (Hu : 0 <= 16 * i + 24 <= PTRDIFF_MAX) by (unfold PTRDIFF_MAX; lia).
  split.
  { rewrite (usize2tidx_div _ Hu).
    replace (16 * i + 24 - 9) with (15 + i * 16) by lia.
    rewrite Z.div_add by lia. change (15 / 16) with 0. lia. }
  split.
  { pose proof (request2size_padded (16 * i + 24)) as Hp.
    change SIZE_SZ with 8 in Hp. change MALLOC_ALIGN_MASK with 15 in Hp.
    rewrite Hp by lia. unfold padded_request.
    replace (16 * i + 24 + 8 + 15) with (15 + (i + 2) * 16) by lia.
    rewrite Z.div_add by lia. change (15 / 16) with 0.
    change MALLOC_ALIGNMENT with 16. change MINSIZE with 32. lia. }
  change MAX_TCACHE_SIZE with 1032.
  pose proof (Hcls n 63 Hn ltac:(lia)) as H63. lia.
Qed.

Lemma tcache_size_classes_witness :
  (usize2tidx 100 <= 5 <-> 100 <= tidx2usize 5)
  /\ usize2tidx (tidx2usize 5) = 5
  /\ request2size (tidx2usize 5) = MALLOC_ALIGNMENT * 5 + MINSIZE
  /\ (usize2tidx 100 < TCACHE_MAX_BINS <-> 100 <= MAX_TCACHE_SIZE).
Proof.
  apply (tcache_size_classes 100 5);
    [unfold PTRDIFF_MAX; lia | unfold TCACHE_MAX_BINS; lia].
Defined.

Lemma fastbin_index_div (sz : Z) :
  32 <= sz < 2 ^ 32 -> fastbin_index sz = sz / 16 - 2.
Proof.
  intros H. unfold fastbin_index. change (SIZE_SZ =? 8) with true. cbv iota.
  unfold wrap32. rewrite (Z.mod_small sz) by lia.
  rewrite Z.shiftr_div_pow2 by lia. change (2 ^ 4) with 16.
  assert (2 <= sz / 16) by (apply Z.div_le_lower_bound; lia).
  assert (sz / 16 < 2 ^ 32).
  { apply Z.div_lt_upper_bound; lia. }
  apply Z.mod_small. lia.
Qed.

(** X15.  While [global_max_fast] is at most [MAX_FAST_SIZE], every chunk
    size that passes the fast-bin test [nb <= get_max_fast ()] indexes
    inside the [fastbinsY] array; and two aligned sizes with the same
    index are the same size, so a fast bin holds chunks of one size. *)
Theorem fastbin_index_in_array (s : state) (nb nb' : Z) :
  global_max_fast s <= MAX_FAST_SIZE ->
  MINSIZE <= nb <= get_max_fast s ->
  0 <= fastbin_index nb < NFASTBINS
  /\ (MINSIZE <= nb' <= get_max_fast s ->
      nb mod MALLOC_ALIGNMENT = 0 -> nb' mod MALLOC_ALIGNMENT = 0 ->
      fastbin_index nb = fastbin_index nb' -> nb = nb').
Proof.
  unfold get_max_fast. change MAX_FAST_SIZE with 160. change MINSIZE with 32.
  change NFASTBINS with 10. change MALLOC_ALIGNMENT with 16.
  intros Hg Hnb.
  rewrite (fastbin_index_div nb) by lia.
  pose proof (Z.div_mod nb 16 ltac:(lia)) as Hdm.
  pose proof (Z.mod_pos_bound nb 16 ltac:(lia)) as Hmb.
  split; [lia|].
  intros Hnb' Hm Hm'. rewrite (fastbin_index_div nb') by lia.
  pose proof (Z.div_mod nb' 16 ltac:(lia)) as Hdm'.
  lia.
Qed.

Lemma fastbin_index_in_array_witness :
  0 <= fastbin_index 48 < NFASTBINS
  /\ (MINSIZE <= 48 <= get_max_fast state0 ->
      48 mod MALLOC_ALIGNMENT = 0 -> 48 mod MALLOC_ALIGNMENT = 0 ->
      fastbin_index 48 = fastbin_index 48 -> 48 = 48).
Proof.
  apply (fastbin_index_in_array state0 48 48);
    [vm_compute; discriminate | vm_compute; split; discriminate].
Defined.

Lemma smallbin_index_div (sz : Z) :
  0 <= sz < 1024 -> smallbin_index sz = sz / 16.
Proof.
  intros H. unfold smallbin_index.
  change (SMALLBIN_WIDTH =? 16) with true. cbv iota.
  change SMALLBIN_CORRECTION with 0. rewrite Z.add_0_r.
  unfold wrap32. rewrite (Z.mod_small sz) by lia.
  rewrite Z.shiftr_div_pow2 by lia. change (2 ^ 4) with 16.
  assert (0 <= sz / 16) by (apply Z.div_pos; lia).
  assert (sz / 16 < 64) by (apply Z.div_lt_upper_bound; lia).
  apply Z.mod_small. lia.
Qed.

Lemma largebin_index_spec_mono (a b : Z) :
  1024 <= a <= b -> largebin_index_spec a <= largebin_index_spec b.
Proof.
  intros H. unfold largebin_index_spec.
  pose proof (Z.div_le_mono a b 64 ltac:(lia) ltac:(lia)).
  pose proof (Z.div_le_mono a b 512 ltac:(lia) ltac:(lia)).
  pose proof (Z.div_le_mono a b 4096 ltac:(lia) ltac:(lia)).
  pose proof (Z.div_le_mono a b 32768 ltac:(lia) ltac:(lia)).
  pose proof (Z.div_le_mono a b 262144 ltac:(lia) ltac:(lia)).
  repeat match goal with
         | |- context [?x <=? ?y] => destruct (Z.leb_spec x y)
         end; Z.div_mod_to_equations; lia.
Qed.

(** X18.  The regular bins are ordered by size: a chunk that is at least
    as large as another never has a lower bin index, every index lies
    between 2 and 126, and two aligned sizes of the small-bin range with
    the same index are the same size.  Hence every chunk in a bin above
    [bin_index nb] is larger than [nb], which the scan of the higher bins
    in [_int_malloc] relies on. *)
Theorem bin_index_ordered (a b : Z) :
  MINSIZE <= a -> a <= b ->
  bin_index a <= bin_index b
  /\ 2 <= bin_index a <= 126
  /\ (bin_index a < bin_index b -> a < b)
  /\ (in_smallbin_range b = true -> a mod MALLOC_ALIGNMENT = 0 ->
      b mod MALLOC_ALIGNMENT = 0 -> bin_index a = bin_index b -> a = b).
Proof.
  change MINSIZE with 32. change MALLOC_ALIGNMENT with 16. intros Ha Hab.
  assert (Hidx : forall x, 32 <= x ->
            bin_index x = if x <? 1024 then x / 16 else largebin_index_spec x).
  { intros x Hx. unfold bin_index, in_smallbin_range.
    change MIN_LARGE_SIZE with 1024.
    destruct (Z.ltb_spec x 1024).
    - apply smallbin_index_div. lia.
    - unfold largebin_index. change (SIZE_SZ =? 8) with true. cbv iota.
      apply largebin_index_64_div. }
  rewrite (Hidx a Ha), (Hidx b ltac:(lia)).
  unfold in_smallbin_range. change MIN_LARGE_SIZE with 1024.
  pose proof (Z.div_mod a 16 ltac:(lia)) as Hda.
  pose proof (Z.mod_pos_bound a 16 ltac:(lia)) as Hma.
  pose proof (Z.div_mod b 16 ltac:(lia)) as Hdb.
  pose proof (Z.mod_pos_bound b 16 ltac:(lia)) as Hmb.
  destruct (Z.ltb_spec a 1024) as [Hsa|Hla];
    destruct (Z.ltb_spec b 1024) as [Hsb|Hlb]; cbv iota; try lia.
  - pose proof (largebin_index_bounds b ltac:(change MIN_LARGE_SIZE with 1024; lia)) as Hb.
    unfold largebin_index in Hb. change (SIZE_SZ =? 8) with true in Hb.
    cbv iota in Hb. rewrite largebin_index_64_div in Hb.
    split; [lia|]. split; [lia|]. split; [lia|]. intros H; discriminate H.
  - pose proof (largebin_index_bounds a ltac:(change MIN_LARGE_SIZE with 1024; lia)) as Hb.
    unfold largebin_index in Hb. change (SIZE_SZ =? 8) with true in Hb.
    cbv iota in Hb. rewrite largebin_index_64_div in Hb.
    pose proof (largebin_index_spec_mono a b ltac:(lia)) as Hmono.
    split; [lia|]. split; [lia|]. split.
    + intros Hlt. destruct (Z.eq_dec a b) as [->|]; lia.
    + intros H; discriminate H.
Qed.

Lemma bin_index_ordered_witness :
  bin_index 48 <= bin_index 2048
  /\ 2 <= bin_index 48 <= 126
  /\ (bin_index 48 < bin_index 2048 -> 48 < 2048)
  /\ (in_smallbin_range 2048 = true -> 48 mod MALLOC_ALIGNMENT = 0 ->
      2048 mod MALLOC_ALIGNMENT = 0 -> bin_index 48 = bin_index 2048 ->
      48 = 2048).
Proof.
  apply (bin_index_ordered 48 2048); [change MINSIZE with 32; lia | lia].
Defined.

(** ** [mallopt] and the tunables *)

Lemma heap_only_fields (s s' : state) :
  heap_only s s' ->
  mp_ s' = mp_ s /\ tcache s' = tcache s /\ tcache_data s' = tcache_data s
  /\ tcache_shutting_down s' = tcache_shutting_down s
  /\ perturb_byte s' = perturb_byte s
  /\ global_max_fast s' = global_max_fast s /\ errno s' = errno s.
Proof. unfold heap_only. intros ->. repeat split. Qed.

Lemma consolidate_clears_fastbins (fuel : nat) (s s' : state) (u : unit) :
  malloc_consolidate_code fuel s = Done u s' ->
  have_fastchunks (av s') = false
  /\ (forall i : Z, 0 <= i < NFASTBINS -> nth_z (fastbinsY (av s')) i = NULL)
  /\ heap_only s s'.
Proof.
  intros H. pose proof (malloc_consolidate_code_frame fuel s s' u H) as Hh.
  unfold malloc_consolidate_code in H.
  apply bind_inv in H. destruct H as (u1 & s1 & Hm & H).
  cbv beta delta [modify] in Hm. inversion Hm; subst u1 s1; clear Hm.
  apply bind_inv in H. destruct H as (s2 & s3 & Hg & H).
  cbv beta delta [get] in Hg. inversion Hg; subst s2 s3; clear Hg.
  apply consolidate_bins_spec in H.
  destruct H as (_ & _ & _ & H3 & _ & _ & _ & _ & Hall).
  cbn [av set_av set_have_fastchunks have_fastchunks fastbinsY] in H3, Hall.
  split; [exact H3|]. split; [|exact Hh].
  intros i Hi. rewrite Hall.
  destruct (Z.leb_spec 0 i); [|lia].
  destruct (Z.ltb_spec i (0 + Z.of_nat (Z.to_nat NFASTBINS))) as [|Hge];
    [reflexivity|].
  change (0 + Z.of_nat (Z.to_nat NFASTBINS)) with NFASTBINS in Hge. lia.
Qed.

Lemma set_max_fast_value (v : Z) (s : state) :
  0 <= v <= MAX_FAST_SIZE ->
  global_max_fast (set_max_fast v s)
  = (if v =? 0 then 16 else 16 * ((v + 8) / 16))
  /\ global_max_fast (set_max_fast v s) <= MAX_FAST_SIZE.
Proof.
  change MAX_FAST_SIZE with 160. intros Hv.
  unfold set_max_fast, set_global_max_fast. cbn [global_max_fast].
  change (MIN_CHUNK_SIZE / 2) with 16. change SIZE_SZ with 8.
  destruct (Z.eqb_spec v 0) as [E|E]; [lia|].
  rewrite wrap_small by lia. rewrite land_align_mask by lia.
  assert ((v + 8) / 16 <= 10).
  { apply Z.lt_succ_r. apply Z.div_lt_upper_bound; lia. }
  lia.
Qed.

(** X14.  [mallopt] consolidates the main arena before it changes
    anything: whenever it returns, all fast bins are empty.  [M_MXFAST]
    is accepted for a value from 0 to [MAX_FAST_SIZE] only, and then
    [global_max_fast] becomes 16 for the value 0 and otherwise the value
    plus one header word, rounded down to the alignment; a rejected value
    changes nothing and 0 is returned.  No other parameter changes
    [global_max_fast], so it never exceeds [MAX_FAST_SIZE]; only
    [M_MXFAST] and [M_MMAP_THRESHOLD] can be refused; the tcache and its
    cap are never touched. *)
Theorem mallopt_consolidates_then_tunes (Y : sysdeps) (fuel : nat)
    (param_number value : Z) (g g' : globals) (s s' : state) (res : Z) :
  0 <= __malloc_initialized g ->
  - 2 ^ 31 <= value < 2 ^ 31 ->
  __libc_mallopt Y fuel param_number value g s = Done (res, g') s' ->
  have_fastchunks (av s') = false
  /\ (forall i : Z, 0 <= i < NFASTBINS -> nth_z (fastbinsY (av s')) i = NULL)
  /\ (global_max_fast s <= MAX_FAST_SIZE -> global_max_fast s' <= MAX_FAST_SIZE)
  /\ (param_number = M_MXFAST ->
      if (0 <=? value) && (value <=? MAX_FAST_SIZE)
      then res = 1
           /\ global_max_fast s'
              = (if value =? 0 then 16 else 16 * ((value + 8) / 16))
      else res = 0 /\ global_max_fast s' = global_max_fast s)
  /\ (param_number <> M_MXFAST -> global_max_fast s' = global_max_fast s)
  /\ (res = 0 \/ res = 1)
  /\ (res = 0 -> param_number = M_MXFAST \/ param_number = M_MMAP_THRESHOLD)
  /\ keeps_tcache s s'.
Proof.
  intros Hinit Hv H. unfold __libc_mallopt in H.
  destruct (Z.ltb_spec (__malloc_initialized g) 0) as [Hneg|_]; [lia|].
  apply bind_inv in H. destruct H as (u0 & s0 & H0 & H).
  cbv beta delta [ret] in H0. inversion H0; subst u0 s0; clear H0.
  apply bind_inv in H. destruct H as (u1 & s1 & Hc & H).
  apply consolidate_clears_fastbins in Hc. destruct Hc as (Hf & Hall & Hh).
  apply heap_only_fields in Hh.
  destruct Hh as (Hmp & Htc & Htd & Hsd & Hpb & Hgm & Herr).
  assert (Hw : wrap value = if 0 <=? value then value else value + 2 ^ 64).
  { unfold wrap. destruct (Z.leb_spec 0 value).
    - apply Z.mod_small. lia.
    - symmetry. apply (Z.mod_unique value (2 ^ 64) (-1)); lia. }
  unfold keeps_tcache.
  destruct (Z.eqb_spec param_number M_MXFAST) as [E1|N1].
  { unfold do_set_mxfast in H. rewrite Hw in H.
    change MAX_FAST_SIZE with 160 in *.
    destruct (Z.leb_spec 0 value) as [Hpos|Hnegv].
    - destruct (Z.leb_spec value 160) as [Hle|Hgt]; cbn [andb].
      + minv.
        destruct (set_max_fast_value value s1 ltac:(change MAX_FAST_SIZE with 160; lia))
          as (Hval & Hbound). change MAX_FAST_SIZE with 160 in Hbound.
        unfold set_max_fast, set_global_max_fast in *.
        cbn [av global_max_fast tcache_data mp_] in *.
        split; [exact Hf|]. split; [exact Hall|]. split; [intros _; exact Hbound|].
        split; [intros _; split; [reflexivity | exact Hval]|].
        split; [intros Hn; contradiction|].
        split; [right; reflexivity|]. split; [intros Hr; discriminate Hr|].
        split; [exact Htd | rewrite Hmp; reflexivity].
      + minv.
        split; [exact Hf|]. split; [exact Hall|]. split; [rewrite Hgm; tauto|].
        split; [intros _; split; [reflexivity | exact Hgm]|].
        split; [intros _; exact Hgm|].
        split; [left; reflexivity|]. split; [intros _; left; reflexivity|].
        split; [exact Htd | rewrite Hmp; reflexivity].
    - destruct (Z.leb_spec (value + 2 ^ 64) 160) as [Hle|Hgt]; [lia|].
      cbn [andb]. minv.
      split; [exact Hf|]. split; [exact Hall|]. split; [rewrite Hgm; tauto|].
      split; [intros _; split; [reflexivity | exact Hgm]|].
      split; [intros _; exact Hgm|].
      split; [left; reflexivity|]. split; [intros _; left; reflexivity|].
      split; [exact Htd | rewrite Hmp; reflexivity]. }
  assert (Hgoal : forall r : Z,
            (r = 0 \/ r = 1) ->
            (r = 0 -> param_number = M_MMAP_THRESHOLD) ->
            res = r ->
            av s' = av s1 -> global_max_fast s' = global_max_fast s1 ->
            tcache_data s' = tcache_data s1 ->
            tcache_count (mp_ s') = tcache_count (mp_ s1) ->
            have_fastchunks (av s') = false
            /\ (forall i : Z, 0 <= i < NFASTBINS ->
                  nth_z (fastbinsY (av s')) i = NULL)
            /\ (global_max_fast s <= MAX_FAST_SIZE ->
                global_max_fast s' <= MAX_FAST_SIZE)
            /\ (param_number = M_MXFAST ->
                if (0 <=? value) && (value <=? MAX_FAST_SIZE)
                then res = 1
                     /\ global_max_fast s'
                        = (if value =? 0 then 16 else 16 * ((value + 8) / 16))
                else res = 0 /\ global_max_fast s' = global_max_fast s)
            /\ (param_number <> M_MXFAST ->
                global_max_fast s' = global_max_fast s)
            /\ (res = 0 \/ res = 1)
            /\ (res = 0 -> param_number = M_MXFAST
                           \/ param_number = M_MMAP_THRESHOLD)
            /\ tcache_data s' = tcache_data s
               /\ tcache_count (mp_ s') = tcache_count (mp_ s)).
  { intros r Hr01 Hr0 Er Eav Egm Etd Etc. subst res.
    rewrite Eav, Egm, Etd, Etc, Hgm, Htd, Hmp.
    split; [exact Hf|]. split; [exact Hall|]. split; [tauto|].
    split; [intros E; contradiction|]. split; [reflexivity|].
    split; [exact Hr01|]. split; [intros E; right; exact (Hr0 E)|].
    split; reflexivity. }
  destruct (Z.eqb_spec param_number M_TRIM_THRESHOLD) as [E2|N2].
  { unfold do_set_trim_threshold in H. minv.
    apply (Hgoal 1); first [reflexivity | right; reflexivity | discriminate]. }
  destruct (Z.eqb_spec param_number M_TOP_PAD) as [E3|N3].
  { unfold do_set_top_pad in H. minv.
    apply (Hgoal 1); first [reflexivity | right; reflexivity | discriminate]. }
  destruct (Z.eqb_spec param_number M_MMAP_THRESHOLD) as [E4|N4].
  { unfold do_set_mmap_threshold in H.
    destruct (wrap value <=? HEAP_MAX_SIZE / 2); minv.
    - apply (Hgoal 1); first [reflexivity | right; reflexivity | discriminate].
    - apply (Hgoal 0); first [reflexivity | left; reflexivity | intros _; assumption]. }
  destruct (Z.eqb_spec param_number M_MMAP_MAX) as [E5|N5].
  { unfold do_set_mmaps_max in H. minv.
    apply (Hgoal 1); first [reflexivity | right; reflexivity | discriminate]. }
  destruct (Z.eqb_spec param_number M_CHECK_ACTION) as [E6|N6].
  { unfold do_set_mallopt_check in H. minv.
    apply (Hgoal 1); first [reflexivity | right; reflexivity | discriminate]. }
  destruct (Z.eqb_spec param_number M_PERTURB) as [E7|N7].
  { unfold do_set_perturb_byte in H. minv.
    apply (Hgoal 1); first [reflexivity | right; reflexivity | discriminate]. }
  destruct (Z.eqb_spec param_number M_ARENA_TEST) as [E8|N8].
  { unfold do_set_arena_test in H. destruct (0 <? value); minv;
      (apply (Hgoal 1); first [reflexivity | right; reflexivity | discriminate]). }
  destruct (Z.eqb_spec param_number M_ARENA_MAX) as [E9|N9].
  { unfold do_set_arena_max in H. destruct (0 <? value); minv;
      (apply (Hgoal 1); first [reflexivity | right; reflexivity | discriminate]). }
  minv. apply (Hgoal 1); first [reflexivity | right; reflexivity | discriminate].
Qed.

Lemma mallopt_consolidates_then_tunes_witness :
  global_max_fast
    (final_state (__libc_mallopt quiet_sys 1 M_MXFAST 100 globals0
                    state_perturb_fastbin) state_perturb_fastbin) = 96
  /\ nth_z (fastbinsY (av
       (final_state (__libc_mallopt quiet_sys 1 M_MXFAST 100 globals0
                       state_perturb_fastbin) state_perturb_fastbin))) 1 = NULL.
Proof.
  assert (Hv : - 2 ^ 31 <= 100 < 2 ^ 31) by lia.
  assert (Hi : 0 <= __malloc_initialized globals0) by (vm_compute; discriminate).
  assert (Hrun : __libc_mallopt quiet_sys 1 M_MXFAST 100 globals0
                   state_perturb_fastbin
                 = Done (1, globals0)
                     (final_state (__libc_mallopt quiet_sys 1 M_MXFAST 100
                        globals0 state_perturb_fastbin) state_perturb_fastbin))
    by (vm_compute; reflexivity).
  pose proof (mallopt_consolidates_then_tunes quiet_sys 1 M_MXFAST 100
                globals0 globals0 state_perturb_fastbin _ 1 Hi Hv Hrun) as H.
  destruct H as (_ & Hall & _ & Hmx & _).
  split.
  - exact (proj2 (Hmx eq_refl)).
  - apply Hall. vm_compute. split; [discriminate | reflexivity].
Defined.

(** X16.  [do_set_tcache_max] accepts a value up to [MAX_TCACHE_SIZE]
    only; then [mp_.tcache_bins] is one more than the bucket of that
    value, which is at least 1 and at most [TCACHE_MAX_BINS], the length
    of the per-thread arrays.  [do_set_tcache_count] accepts a value up
    to [MAX_TCACHE_COUNT] only, and on a tcache whose buckets are empty
    the bound of the counters holds for the new cap.  A refused value
    changes nothing and 0 is returned. *)
Theorem tcache_tunables_stay_in_range (value : Z) (g : globals) (s : state) :
  0 <= value < 2 ^ 64 ->
  (if value <=? MAX_TCACHE_SIZE
   then exists s', do_set_tcache_max value g s
                   = Done (1, set_tcache_max_bytes g value) s'
        /\ tcache_bins (mp_ s') = usize2tidx value + 1
        /\ 1 <= tcache_bins (mp_ s') <= TCACHE_MAX_BINS
        /\ tcache_count (mp_ s') = tcache_count (mp_ s)
        /\ tcache_data s' = tcache_data s
   else do_set_tcache_max value g s = Done (0, g) s)
  /\ (if value <=? MAX_TCACHE_COUNT
      then exists s', do_set_tcache_count value s = Done 1 s'
           /\ tcache_count (mp_ s') = value
           /\ tcache_bins (mp_ s') = tcache_bins (mp_ s)
           /\ ((forall i : Z, nth_z (counts (tcache_data s)) i = 0) ->
               tcache_bounded s')
      else do_set_tcache_count value s = Done 0 s).
Proof.
  intros Hv. split.
  - unfold do_set_tcache_max. change MAX_TCACHE_SIZE with 1032.
    destruct (Z.leb_spec value 1032) as [Hle|Hgt]; [|reflexivity].
    eexists. split; [reflexivity|].
    cbn [mp_ set_mp set_tcache_bins tcache_bins tcache_count tcache_data].
    assert (Hp : 0 <= value <= PTRDIFF_MAX) by (unfold PTRDIFF_MAX; lia).
    pose proof (usize2tidx_div value Hp) as Hu. unfold usize2tidx in Hu.
    assert (Hq : (value - 9) / 16 < 64).
    { apply Z.div_lt_upper_bound; lia. }
    fold (usize2tidx value). unfold usize2tidx. rewrite Hu.
    change TCACHE_MAX_BINS with 64.
    rewrite wrap_small by lia.
    split; [reflexivity|]. split; [lia|]. split; reflexivity.
  - unfold do_set_tcache_count. change MAX_TCACHE_COUNT with 65535.
    destruct (Z.leb_spec value 65535) as [Hle|Hgt]; [|reflexivity].
    eexists. split; [reflexivity|].
    cbn [mp_ set_mp set_tcache_count tcache_bins tcache_count tcache_data].
    split; [reflexivity|]. split; [reflexivity|].
    intros Hz. unfold tcache_bounded.
    cbn [mp_ set_mp set_tcache_count tcache_count tcache_data].
    change MAX_TCACHE_COUNT with 65535.
    split; [lia|]. intros i. rewrite Hz. lia.
Qed.

Lemma tcache_tunables_stay_in_range_witness :
  (if 100 <=? MAX_TCACHE_SIZE
   then exists s', do_set_tcache_max 100 globals0 state0
                   = Done (1, set_tcache_max_bytes globals0 100) s'
        /\ tcache_bins (mp_ s') = usize2tidx 100 + 1
        /\ 1 <= tcache_bins (mp_ s') <= TCACHE_MAX_BINS
        /\ tcache_count (mp_ s') = tcache_count (mp_ state0)
        /\ tcache_data s' = tcache_data state0
   else do_set_tcache_max 100 globals0 state0 = Done (0, globals0) state0)
  /\ (if 100 <=? MAX_TCACHE_COUNT
      then exists s', do_set_tcache_count 100 state0 = Done 1 s'
           /\ tcache_count (mp_ s') = 100
           /\ tcache_bins (mp_ s') = tcache_bins (mp_ state0)
           /\ ((forall i : Z, nth_z (counts (tcache_data state0)) i = 0) ->
               tcache_bounded s')
      else do_set_tcache_count 100 state0 = Done 0 state0).
Proof.
  apply (tcache_tunables_stay_in_range 100 globals0 state0). lia.
Defined.

(** ** [malloc_init_state] *)

Lemma init_bins_loop_spec (n : nat) :
  forall (i : Z) (s s' : state) (u : unit),
  init_bins_loop n i s = Done u s' ->
  s' = set_mem s (mem s')
  /\ (forall j : Z, i <= j < i + Z.of_nat n ->
        load (mem s') (bin_at (av s) j + off_fd) = wrap (bin_at (av s) j)
        /\ load (mem s') (bin_at (av s) j + off_bk) = wrap (bin_at (av s) j))
  /\ (forall a : Z,
        a + 8 <= bin_at (av s) i + off_fd
        \/ bin_at (av s) (i + Z.of_nat n) + off_fd <= a ->
        load (mem s') a = load (mem s) a).
Proof.
  induction n as [|k IH]; intros i s s' u H; cbn [init_bins_loop] in H.
  - cbv beta delta [ret] in H. inversion H; subst.
    split; [destruct s'; reflexivity|]. split; [intros j Hj; lia|].
    intros a _. reflexivity.
  - apply bind_inv in H. destruct H as (s0 & s0' & Hg & H).
    cbv beta delta [get] in Hg. inversion Hg; subst s0 s0'; clear Hg.
    cbv zeta in H.
    apply bind_inv in H. destruct H as (u1 & s1 & H1 & H).
    cbv beta delta [wr] in H1. inversion H1; subst u1 s1; clear H1.
    apply bind_inv in H. destruct H as (u2 & s2 & H2 & H).
    cbv beta delta [wr] in H2. inversion H2; subst u2 s2; clear H2.
    cbn [mem set_mem] in H.
    apply IH in H. destruct H as (Hs & Hin & Hout).
    cbn [av set_mem mem] in Hs, Hin, Hout.
    split.
    { rewrite Hs. destruct s. reflexivity. }
    unfold bin_at in *. change off_fd with 16 in *. change off_bk with 24 in *.
    split.
    + intros j Hj. destruct (Z.eq_dec j i) as [->|Hne].
      * rewrite !Hout by lia.
        rewrite load_store_eq.
        rewrite load_store_ne by lia. rewrite load_store_eq.
        split; reflexivity.
      * apply Hin. lia.
    + intros a Ha. rewrite Hout by lia.
      rewrite !load_store_ne by lia. reflexivity.
Qed.

(** The loop count of [malloc_init_state], named, so that the loop is not
    run on a symbolic state. *)
Lemma malloc_init_state_unfold :
  exists n : nat, Z.of_nat n = NBINS - 1
  /\ malloc_init_state
     = (do _ <- init_bins_loop n 1;
        do s <- get;
        do _ <- (if negb (main (av s))
                 then modify (fun s => set_av s (set_noncontiguous (av s)))
                 else ret tt);
        do _ <- (if main (av s)
                 then modify (set_max_fast DEFAULT_MXFAST)
                 else ret tt);
        do _ <- modify (fun s => set_av s (set_have_fastchunks (av s) false));
        modify (fun s => set_av s (set_top (av s) (initial_top (av s))))).
Proof. exists (Z.to_nat (NBINS - 1)). split; reflexivity. Qed.

(** X19.  [malloc_init_state] makes each of the bins 1 to [NBINS - 1] an
    empty circular list (the bin header is its own first and last chunk),
    clears [have_fastchunks] and lets [top] be the initial top, the
    header of the unsorted bin.  For the main arena it sets
    [global_max_fast] to the default of 128 bytes and leaves the arena
    contiguous; another arena is marked non-contiguous and
    [global_max_fast] stays.  Memory outside the bin headers is not
    written. *)
Theorem malloc_init_state_empties_bins (s s' : state) :
  2 * SIZE_SZ <= bins (av s) ->
  bins (av s) + (NBINS - 1) * 2 * SIZE_SZ <= 2 ^ 64 ->
  malloc_init_state s = Done tt s' ->
  (forall i : Z, 1 <= i < NBINS ->
     first (mem s') (bin_at (av s') i) = bin_at (av s') i
     /\ last (mem s') (bin_at (av s') i) = bin_at (av s') i)
  /\ have_fastchunks (av s') = false
  /\ top (av s') = unsorted_chunks (av s')
  /\ bins (av s') = bins (av s)
  /\ (if main (av s)
      then global_max_fast s' = 128 /\ flags (av s') = flags (av s)
      else global_max_fast s' = global_max_fast s
           /\ contiguous (av s') = false)
  /\ (forall a : Z,
        a + 8 <= bins (av s) \/ bins (av s) + (NBINS - 1) * 2 * SIZE_SZ <= a ->
        load (mem s') a = load (mem s) a).
Proof.
  change SIZE_SZ with 8. change NBINS with 128. intros Hlo Hhi H.
  destruct malloc_init_state_unfold as (n & E127 & Eq).
  rewrite Eq in H. clear Eq. change (NBINS - 1) with 127 in E127.
  apply bind_inv in H. destruct H as (u1 & s1 & Hloop & H).
  apply init_bins_loop_spec in Hloop. destruct Hloop as (Hs1 & Hin & Hout).
  rewrite E127 in Hin, Hout.
  apply bind_inv in H. destruct H as (s2 & s2' & Hg & H).
  cbv beta delta [get] in Hg. inversion Hg; subst s2 s2'; clear Hg.
  assert (Eav : av s1 = av s) by (rewrite Hs1; reflexivity).
  assert (Egm : global_max_fast s1 = global_max_fast s) by (rewrite Hs1; reflexivity).
  rewrite Eav in H.
  assert (Hbins : forall (a : malloc_state) (i : Z),
            bins a = bins (av s) -> 1 <= i < 128 ->
            first (mem s1) (bin_at a i) = bin_at a i
            /\ last (mem s1) (bin_at a i) = bin_at a i).
  { intros a i Eb Hi. unfold first, last.
    assert (Ebin : bin_at a i = bin_at (av s) i).
    { unfold bin_at. rewrite Eb. reflexivity. }
    rewrite Ebin. destruct (Hin i ltac:(lia)) as (Hf & Hl).
    rewrite Hf, Hl.
    assert (Hr : 0 <= bin_at (av s) i < 2 ^ 64).
    { unfold bin_at. change off_fd with 16. lia. }
    rewrite wrap_small by exact Hr. split; reflexivity. }
  assert (Hmem : forall a : Z,
            a + 8 <= bins (av s) \/ bins (av s) + (128 - 1) * 2 * 8 <= a ->
            load (mem s1) a = load (mem s) a).
  { intros a Ha. apply Hout. unfold bin_at. change off_fd with 16. lia. }
  destruct (main (av s)) eqn:Emain; cbn [negb] in H.
  - minv.
    cbn [mem av set_av set_top set_have_fastchunks set_max_fast
         set_global_max_fast global_max_fast have_fastchunks top bins flags
         unsorted_chunks initial_top].
    split; [intros i Hi; apply Hbins; [rewrite Eav; reflexivity | exact Hi]|].
    split; [reflexivity|]. split; [unfold bin_at; reflexivity|].
    split; [rewrite Eav; reflexivity|].
    split; [split; [reflexivity | rewrite Eav; reflexivity]|].
    exact Hmem.
  - minv.
    cbn [mem av set_av set_top set_have_fastchunks set_noncontiguous set_flags
         global_max_fast have_fastchunks top bins flags contiguous
         unsorted_chunks initial_top].
    split; [intros i Hi; apply Hbins; [rewrite Eav; reflexivity | exact Hi]|].
    split; [reflexivity|]. split; [unfold bin_at; reflexivity|].
    split; [rewrite Eav; reflexivity|].
    split; [|exact Hmem].
    split; [exact Egm|].
    apply Z.eqb_neq. intros E.
    unfold set_top, set_have_fastchunks, set_noncontiguous, set_flags in E.
    cbn [flags] in E.
    assert (Hb : Z.testbit (Z.land (Z.lor (flags (av s1)) NONCONTIGUOUS_BIT)
                              NONCONTIGUOUS_BIT) 1 = true).
    { rewrite Z.land_spec, Z.lor_spec. change (Z.testbit NONCONTIGUOUS_BIT 1) with true.
      rewrite orb_true_r. reflexivity. }
    rewrite E in Hb. discriminate Hb.
Qed.

Lemma malloc_init_state_empties_bins_witness :
  first (mem (final_state (malloc_init_state state0) state0))
        (bin_at (av (final_state (malloc_init_state state0) state0)) 100)
  = bin_at (av (final_state (malloc_init_state state0) state0)) 100
  /\ top (av (final_state (malloc_init_state state0) state0))
     = unsorted_chunks (av (final_state (malloc_init_state state0) state0)).
Proof.
  assert (Hlo : 2 * SIZE_SZ <= bins (av state0)) by (vm_compute; discriminate).
  assert (Hhi : bins (av state0) + (NBINS - 1) * 2 * SIZE_SZ <= 2 ^ 64)
    by (vm_compute; discriminate).
  assert (Hrun : malloc_init_state state0
                 = Done tt (final_state (malloc_init_state state0) state0))
    by (vm_compute; reflexivity).
  pose proof (malloc_init_state_empties_bins state0 _ Hlo Hhi Hrun) as H.
  destruct H as (Hb & _ & Ht & _).
  split; [|exact Ht].
  apply (Hb 100). vm_compute. split; [discriminate | reflexivity].
Defined.

(** ** [unlink_chunk] *)

(** X21.  [unlink_chunk] writes nothing before its two first checks
    pass: when the size of the chunk differs from the [prev_size] of the
    next chunk it aborts with the state untouched, and so it does when
    the forward neighbour does not point back to the chunk or the
    backward neighbour does not point forward to it.  When they pass, the
    pointers of the neighbours are aligned and the chunk is not on a
    next-size list, exactly the two words [fd->bk] and [bk->fd] are
    written, and afterwards the two neighbours point to each other. *)
Theorem unlink_chunk_checks_then_relinks (p : Z) (s : state) :
  let m := mem s in
  let fd := load m (p + off_fd) in
  let bk := load m (p + off_bk) in
  let m2 := store (store m (fd + off_bk) bk) (bk + off_fd) fd in
  (chunksize m p <> prev_size m (next_chunk m p) ->
   unlink_chunk p s = Abort "corrupted size vs. prev_size" s)
  /\ (chunksize m p = prev_size m (next_chunk m p) ->
      load m (fd + off_bk) <> p \/ load m (bk + off_fd) <> p ->
      unlink_chunk p s = Abort "corrupted double-linked list" s)
  /\ (chunksize m p = prev_size m (next_chunk m p) ->
      load m (fd + off_bk) = p -> load m (bk + off_fd) = p ->
      fd mod MALLOC_ALIGNMENT = 0 -> bk mod MALLOC_ALIGNMENT = 0 ->
      in_smallbin_range (chunksize_nomask m2 p) = true
      \/ load m2 (p + off_fd_nextsize) = NULL ->
      unlink_chunk p s = Done tt (set_mem s m2)
      /\ load m2 (fd + off_bk) = bk /\ load m2 (bk + off_fd) = fd
      /\ forall a : Z,
           (a + 8 <= fd + off_bk \/ fd + off_bk + 8 <= a) ->
           (a + 8 <= bk + off_fd \/ bk + off_fd + 8 <= a) ->
           load m2 a = load m a).
Proof.
  cbv zeta.
  set (fd := load (mem s) (p + off_fd)).
  set (bk := load (mem s) (p + off_bk)).
  assert (Hfd : 0 <= fd < 2 ^ 64) by apply load_range.
  assert (Hbk : 0 <= bk < 2 ^ 64) by apply load_range.
  split; [|split].
  - intros Hne. unfold unlink_chunk, bind at 1. cbv beta delta [get]. cbv beta iota.
    destruct (Z.eqb_spec (chunksize (mem s) p)
                (prev_size (mem s) (next_chunk (mem s) p))) as [E|_];
      [contradiction|]. reflexivity.
  - intros Heq Hbad. unfold unlink_chunk, bind at 1. cbv beta delta [get]. cbv beta iota.
    rewrite Heq, Z.eqb_refl. cbn [negb].
    unfold bind, rd. fold fd. fold bk.
    destruct Hbad as [Hb|Hb].
    + destruct (Z.eqb_spec (load (mem s) (fd + off_bk)) p) as [E|_];
        [contradiction|]. reflexivity.
    + destruct (Z.eqb_spec (load (mem s) (bk + off_fd)) p) as [E|_];
        [contradiction|].
      rewrite orb_true_r. reflexivity.
  - intros Heq Hf Hb Hfa Hba Hsmall.
    change MALLOC_ALIGNMENT with 16 in Hfa, Hba.
    pose proof (Z.div_mod fd 16 ltac:(lia)) as Hdf.
    pose proof (Z.div_mod bk 16 ltac:(lia)) as Hdb.
    rewrite Hfa in Hdf. rewrite Hba in Hdb.
    assert (Hsep : fd + off_bk + 8 <= bk + off_fd \/ bk + off_fd + 8 <= fd + off_bk).
    { change off_bk with 24. change off_fd with 16. lia. }
    split.
    + unfold unlink_chunk, bind at 1. cbv beta delta [get]. cbv beta iota.
      rewrite Heq, Z.eqb_refl. cbn [negb].
      unfold bind at 1. unfold rd at 1. fold fd.
      unfold bind at 1. unfold rd at 1. fold bk.
      unfold bind at 1. unfold rd at 1. rewrite Hf.
      unfold bind at 1. unfold rd at 1. rewrite Hb.
      rewrite Z.eqb_refl. cbn [negb orb].
      unfold bind at 1. unfold wr at 1.
      unfold bind at 1. unfold wr at 1. cbn [mem set_mem].
      unfold bind at 1. cbv beta delta [get]. cbv beta iota.
      unfold bind at 1. unfold rd at 1. cbn [mem set_mem].
      destruct Hsmall as [Hs|Hs]; rewrite Hs.
      * cbn [negb andb]. reflexivity.
      * rewrite Z.eqb_refl. cbn [negb]. rewrite andb_false_r. reflexivity.
    + split; [|split].
      * rewrite load_store_ne by lia. rewrite load_store_eq.
        apply wrap_small. exact Hbk.
      * rewrite load_store_eq. apply wrap_small. exact Hfd.
      * intros a H1 H2. rewrite !load_store_ne by lia. reflexivity.
Qed.

(** The lone chunk of the unsorted bin is taken off: the bin is empty
    afterwards. *)
Lemma unlink_chunk_checks_then_relinks_witness :
  load (mem state_exact) (rem_chunk + off_fd) = unsorted_chunks arena0
  /\ load (mem state_exact) (rem_chunk + off_bk) = unsorted_chunks arena0
  /\ exists m2 : gmap Z Z,
       unlink_chunk rem_chunk state_exact = Done tt (set_mem state_exact m2)
       /\ load m2 (unsorted_chunks arena0 + off_bk) = unsorted_chunks arena0
       /\ load m2 (unsorted_chunks arena0 + off_fd) = unsorted_chunks arena0.
Proof.
  assert (Efd : load (mem state_exact) (rem_chunk + off_fd)
                = unsorted_chunks arena0) by (vm_compute; reflexivity).
  assert (Ebk : load (mem state_exact) (rem_chunk + off_bk)
                = unsorted_chunks arena0) by (vm_compute; reflexivity).
  split; [exact Efd|]. split; [exact Ebk|].
  pose proof (proj2 (proj2 (unlink_chunk_checks_then_relinks rem_chunk
                              state_exact))) as H.
  cbv zeta in H. rewrite Efd, Ebk in H.
  assert (H1 : chunksize (mem state_exact) rem_chunk
               = prev_size (mem state_exact)
                   (next_chunk (mem state_exact) rem_chunk))
    by (vm_compute; reflexivity).
  assert (H2 : load (mem state_exact) (unsorted_chunks arena0 + off_bk)
               = rem_chunk) by (vm_compute; reflexivity).
  assert (H3 : load (mem state_exact) (unsorted_chunks arena0 + off_fd)
               = rem_chunk) by (vm_compute; reflexivity).
  assert (H4 : unsorted_chunks arena0 mod MALLOC_ALIGNMENT = 0)
    by (vm_compute; reflexivity).
  assert (H5 : in_smallbin_range
                 (chunksize_nomask
                    (store (store (mem state_exact)
                              (unsorted_chunks arena0 + off_bk)
                              (unsorted_chunks arena0))
                       (unsorted_chunks arena0 + off_fd)
                       (unsorted_chunks arena0)) rem_chunk) = true)
    by (vm_compute; reflexivity).
  specialize (H H1 H2 H3 H4 H4 (or_introl H5)).
  destruct H as (Hrun & Hb & Hf & _).
  eexists. split; [exact Hrun|]. split; [exact Hb | exact Hf].
Defined.

(** ** [_int_realloc] in place *)

Lemma lor_low_bits_range (x ab : Z) :
  0 <= x < 8 -> ab = 0 \/ ab = 4 -> 0 <= Z.lor x ab < 8.
Proof.
  intros Hx [->| ->].
  - rewrite Z.lor_0_r. exact Hx.
  - assert (Hc : x = 0 \/ x = 1 \/ x = 2 \/ x = 3 \/ x = 4 \/ x = 5 \/ x = 6 \/ x = 7)
      by lia.
    destruct Hc as [->|[->|[->|[->|[->|[->|[->| ->]]]]]]]; vm_compute; split; congruence.
Qed.

(** The header word [set_head_size] writes: the size given, the arena bit
    given, and the two other flag bits as they were. *)
Lemma head_size_fields (h size ab : Z) :
  0 <= h -> 0 <= size -> size + 8 <= 2 ^ 64 -> size mod 8 = 0 ->
  ab = 0 \/ ab = 4 ->
  0 <= Z.lor (Z.land h SIZE_BITS) (Z.lor size ab) < 2 ^ 64
  /\ Z.land (Z.lor (Z.land h SIZE_BITS) (Z.lor size ab)) (lnot64 SIZE_BITS) = size
  /\ Z.land (Z.lor (Z.land h SIZE_BITS) (Z.lor size ab)) PREV_INUSE
     = Z.land h PREV_INUSE
  /\ Z.land (Z.lor (Z.land h SIZE_BITS) (Z.lor size ab)) IS_MMAPPED
     = Z.land h IS_MMAPPED.
Proof.
  intros Hh Hs Hlt Hm Hab. change SIZE_BITS with 7.
  assert (Hx : 0 <= Z.land h 7 < 8).
  { change 7 with (Z.ones 3). rewrite Z.land_ones by lia.
    apply Z.mod_pos_bound. lia. }
  pose proof (lor_low_bits_range (Z.land h 7) ab Hx Hab) as Hf.
  assert (E : Z.lor (Z.land h 7) (Z.lor size ab)
              = size + Z.lor (Z.land h 7) ab).
  { rewrite Z.lor_assoc, (Z.lor_comm (Z.land h 7) size), <- Z.lor_assoc.
    apply lor_flags; assumption. }
  rewrite E.
  split; [lia|].
  split.
  { change 7 with SIZE_BITS at 2. apply chunksize_of_flags; try assumption; lia. }
  split.
  - rewrite land_low_bits by (try assumption; unfold PREV_INUSE; lia).
    rewrite Z.land_lor_distr_l, <- Z.land_assoc.
    change (Z.land 7 PREV_INUSE) with PREV_INUSE.
    destruct Hab as [->| ->]; change (Z.land _ PREV_INUSE) with 0 at 2;
      apply Z.lor_0_r.
  - rewrite land_low_bits by (try assumption; unfold IS_MMAPPED; lia).
    rewrite Z.land_lor_distr_l, <- Z.land_assoc.
    change (Z.land 7 IS_MMAPPED) with IS_MMAPPED.
    destruct Hab as [->| ->]; change (Z.land _ IS_MMAPPED) with 0 at 2;
      apply Z.lor_0_r.
Qed.

Lemma lor_prev_inuse_fields_8 (size : Z) :
  0 <= size < 2 ^ 64 - 8 -> size mod 8 = 0 ->
  0 <= Z.lor size PREV_INUSE < 2 ^ 64
  /\ Z.land (Z.lor size PREV_INUSE) (lnot64 SIZE_BITS) = size
  /\ Z.land (Z.lor size PREV_INUSE) PREV_INUSE = PREV_INUSE.
Proof.
  intros Hs Hm. unfold PREV_INUSE.
  rewrite (lor_flags size 1) by lia.
  split; [lia|]. split.
  - apply chunksize_of_flags; lia.
  - rewrite land_low_bits by lia. reflexivity.
Qed.

Lemma arena_bit_cases (b : bool) :
  (if b then NON_MAIN_ARENA else 0) = 0
  \/ (if b then NON_MAIN_ARENA else 0) = 4.
Proof. destruct b; [right | left]; reflexivity. Qed.

(** X22.  [_int_realloc] on a chunk that borders the top chunk, asked
    for more than the chunk has: when the chunk and the top together hold
    the new size and [MINSIZE] more, the chunk grows in place.  The
    pointer returned is the old one, the chunk has the new size with its
    flag bits as before, the top chunk starts where the chunk now ends,
    and no byte is lost: the new top has the size of chunk and old top
    together less the new size.  Nothing is written but the two headers,
    so the contents of the chunk stay. *)
Theorem int_realloc_grows_into_top (E : externals) (fuel : nat)
    (oldp oldsize nb : Z) (s : state) :
  let m := mem s in
  let next := chunk_at_offset oldp oldsize in
  let nextsize := chunksize m next in
  2 * SIZE_SZ < chunksize_nomask m oldp -> oldsize < system_mem (av s) ->
  chunk_is_mmapped m oldp = 0 ->
  2 * SIZE_SZ < chunksize_nomask m next -> nextsize < system_mem (av s) ->
  oldsize = chunksize m oldp -> nb mod MALLOC_ALIGNMENT = 0 ->
  0 <= oldp -> oldp + oldsize + nextsize < 2 ^ 64 ->
  oldsize < nb -> next = top (av s) -> nb + MINSIZE <= oldsize + nextsize ->
  exists s',
    _int_realloc E fuel oldp oldsize nb s = Done (chunk2mem oldp) s'
    /\ top (av s') = oldp + nb
    /\ chunksize (mem s') oldp = nb
    /\ prev_inuse (mem s') oldp = prev_inuse m oldp
    /\ chunk_is_mmapped (mem s') oldp = 0
    /\ chunksize (mem s') (top (av s')) = oldsize + nextsize - nb
    /\ prev_inuse (mem s') (top (av s')) = PREV_INUSE
    /\ (forall a : Z,
          (a + 8 <= oldp + off_size \/ oldp + off_size + 8 <= a) ->
          (a + 8 <= oldp + nb + off_size \/ oldp + nb + off_size + 8 <= a) ->
          load (mem s') a = load m a).
Proof.
  cbv zeta. intros H1 H2 H3 H4 H5 H6 H7 Hp Hend Hgrow Htop Hroom.
  change SIZE_SZ with 8 in *. change MALLOC_ALIGNMENT with 16 in H7.
  change MINSIZE with 32 in Hroom.
  destruct (chunksize_floor (mem s) oldp) as (_ & Hom).
  destruct (chunksize_floor (mem s) (chunk_at_offset oldp oldsize)) as (_ & Hnm).
  pose proof (chunksize_range (mem s) oldp) as (Ho0 & _).
  pose proof (chunksize_range (mem s) (chunk_at_offset oldp oldsize)) as (Hn0 & _).
  rewrite <- H6 in Hom, Ho0.
  set (nextsize := chunksize (mem s) (chunk_at_offset oldp oldsize)) in *.
  assert (Hnb8 : nb mod 8 = 0).
  { pose proof (Z.div_mod nb 16 ltac:(lia)) as Hd. rewrite H7 in Hd.
    rewrite Hd. replace (16 * (nb / 16) + 0) with ((2 * (nb / 16)) * 8) by ring.
    apply Z.mod_mul. lia. }
  assert (Hrem8 : (oldsize + nextsize - nb) mod 8 = 0).
  { pose proof (Z.div_mod nb 8 ltac:(lia)) as Hd1. rewrite Hnb8 in Hd1.
    pose proof (Z.div_mod oldsize 8 ltac:(lia)) as Hd2. rewrite Hom in Hd2.
    pose proof (Z.div_mod nextsize 8 ltac:(lia)) as Hd3. rewrite Hnm in Hd3.
    replace (oldsize + nextsize - nb)
      with ((oldsize / 8 + nextsize / 8 - nb / 8) * 8) by lia.
    apply Z.mod_mul. lia. }
  assert (Hnb_ge : 8 <= nb).
  { pose proof (Z.div_mod nb 8 ltac:(lia)) as Hd. rewrite Hnb8 in Hd. lia. }
  set (ab := if negb (main (av s)) then NON_MAIN_ARENA else 0).
  pose proof (arena_bit_cases (negb (main (av s)))) as Hab. fold ab in Hab.
  pose proof (load_range (mem s) (oldp + off_size)) as Hh.
  destruct (head_size_fields (load (mem s) (oldp + off_size)) nb ab
              ltac:(lia) ltac:(lia) ltac:(lia) Hnb8 Hab)
    as (Hv & Hvs & Hvp & Hvm).
  destruct (lor_prev_inuse_fields_8 (oldsize + nextsize - nb)
              ltac:(lia) Hrem8) as (Ht & Hts & Htp).
  eexists. split.
  - unfold _int_realloc. change (2 * SIZE_SZ) with 16.
    unfold bind at 1. cbv beta delta [get]. cbv beta iota.
    destruct (Z.leb_spec (chunksize_nomask (mem s) oldp) 16) as [Hc|_]; [lia|].
    destruct (Z.leb_spec (system_mem (av s)) oldsize) as [Hc|_]; [lia|].
    cbn [orb]. rewrite H3. change (0 =? 0) with true.
    unfold assert at 1. unfold bind at 1. unfold ret at 1.
    cbv zeta. fold nextsize.
    destruct (Z.leb_spec (chunksize_nomask (mem s) (chunk_at_offset oldp oldsize))
                16) as [Hc|_]; [lia|].
    destruct (Z.leb_spec (system_mem (av s)) nextsize) as [Hc|_]; [lia|].
    cbn [orb].
    destruct (Z.leb_spec nb oldsize) as [Hc|_]; [lia|].
    rewrite Htop, Z.eqb_refl. cbn [andb].
    change MINSIZE with 32.
    rewrite (wrap_small (nb + 32)) by lia.
    rewrite (wrap_small (oldsize + nextsize)) by lia.
    destruct (Z.leb_spec (nb + 32) (oldsize + nextsize)) as [_|Hc]; [|lia].
    cbv beta iota delta [bind modify ret].
    rewrite (wrap_small (oldsize + nextsize - nb)) by lia.
    reflexivity.
  - cbn [av mem set_av set_mem set_top top].
    unfold chunk_at_offset. rewrite (wrap_small (oldp + nb)) by lia.
    fold ab.
    unfold chunksize, prev_inuse, chunk_is_mmapped, chunksize_nomask,
      set_head, set_head_size.
    change off_size with 8 in *.
    split; [reflexivity|].
    rewrite (load_store_ne _ (oldp + nb + 8) (oldp + 8)) by lia.
    rewrite !load_store_eq.
    rewrite (wrap_small _ Hv), (wrap_small _ Ht).
    split; [exact Hvs|]. split; [exact Hvp|].
    split; [rewrite Hvm; exact H3|].
    split; [exact Hts|]. split; [exact Htp|].
    intros a Ha1 Ha2. rewrite !load_store_ne by lia. reflexivity.
Qed.

(** The chunk of size [0x200] before the top chunk of size [0x800] grows
    to [0x300]: the top chunk moves up by [0x100] and keeps [0x700]. *)
Lemma int_realloc_grows_into_top_witness :
  exists s',
    _int_realloc quiet_env 1 (big_chunk + 0x600) 0x200 0x300 state_big
    = Done (chunk2mem (big_chunk + 0x600)) s'
    /\ top (av s') = big_chunk + 0x600 + 0x300
    /\ chunksize (mem s') (big_chunk + 0x600) = 0x300
    /\ chunksize (mem s') (top (av s')) = 0x700.
Proof.
  assert (H1 : 2 * SIZE_SZ < chunksize_nomask (mem state_big) (big_chunk + 0x600))
    by (vm_compute; reflexivity).
  assert (H2 : 0x200 < system_mem (av state_big)) by (vm_compute; reflexivity).
  assert (H3 : chunk_is_mmapped (mem state_big) (big_chunk + 0x600) = 0)
    by (vm_compute; reflexivity).
  assert (H4 : 2 * SIZE_SZ
               < chunksize_nomask (mem state_big)
                   (chunk_at_offset (big_chunk + 0x600) 0x200))
    by (vm_compute; reflexivity).
  assert (H5 : chunksize (mem state_big)
                 (chunk_at_offset (big_chunk + 0x600) 0x200)
               < system_mem (av state_big)) by (vm_compute; reflexivity).
  assert (H6 : 0x200 = chunksize (mem state_big) (big_chunk + 0x600))
    by (vm_compute; reflexivity).
  assert (H7 : 0x300 mod MALLOC_ALIGNMENT = 0) by (vm_compute; reflexivity).
  assert (H8 : 0 <= big_chunk + 0x600) by (vm_compute; discriminate).
  assert (H9 : big_chunk + 0x600 + 0x200
               + chunksize (mem state_big)
                   (chunk_at_offset (big_chunk + 0x600) 0x200) < 2 ^ 64)
    by (vm_compute; reflexivity).
  assert (H10 : 0x200 < 0x300) by lia.
  assert (H11 : chunk_at_offset (big_chunk + 0x600) 0x200 = top (av state_big))
    by (vm_compute; reflexivity).
  assert (H12 : 0x300 + MINSIZE
                <= 0x200 + chunksize (mem state_big)
                             (chunk_at_offset (big_chunk + 0x600) 0x200))
    by (vm_compute; discriminate).
  pose proof (int_realloc_grows_into_top quiet_env 1 (big_chunk + 0x600) 0x200
                0x300 state_big H1 H2 H3 H4 H5 H6 H7 H8 H9 H10 H11 H12) as H.
  destruct H as (s' & Hrun & Ht & Hs & _ & _ & Hts & _).
  exists s'. split; [exact Hrun|]. split; [exact Ht|]. split; [exact Hs|].
  rewrite Hts. vm_compute. reflexivity.
Defined.

(** X23.  [_int_realloc] asked for no more than the chunk has never
    moves the block: whatever is returned is the old pointer.  When less
    than [MINSIZE] bytes would be cut off, nothing is cut off: the call
    returns with the chunk at its old size and its flag bits as before,
    the in-use bit of the next chunk set, the arena as it was, and no
    other word of memory written. *)
Theorem int_realloc_keeps_fitting_chunk (E : externals) (fuel : nat)
    (oldp oldsize nb : Z) (s : state) :
  let m := mem s in
  let next := chunk_at_offset oldp oldsize in
  (forall (q : Z) (s' : state),
     nb <= oldsize ->
     _int_realloc E fuel oldp oldsize nb s = Done q s' -> q = chunk2mem oldp)
  /\ (2 * SIZE_SZ < chunksize_nomask m oldp -> oldsize < system_mem (av s) ->
      chunk_is_mmapped m oldp = 0 ->
      2 * SIZE_SZ < chunksize_nomask m next ->
      chunksize m next < system_mem (av s) ->
      oldsize = chunksize m oldp ->
      0 <= oldp -> oldp + oldsize + 2 * SIZE_SZ <= 2 ^ 64 ->
      0 <= nb <= oldsize -> oldsize - nb < MINSIZE ->
      exists s',
        _int_realloc E fuel oldp oldsize nb s = Done (chunk2mem oldp) s'
        /\ av s' = av s
        /\ chunksize (mem s') oldp = oldsize
        /\ prev_inuse (mem s') oldp = prev_inuse m oldp
        /\ prev_inuse (mem s') next = PREV_INUSE
        /\ chunksize (mem s') next = chunksize m next
        /\ (forall a : Z,
              (a + 8 <= oldp + off_size \/ oldp + off_size + 8 <= a) ->
              (a + 8 <= next + off_size \/ next + off_size + 8 <= a) ->
              load (mem s') a = load m a)).
Proof.
  cbv zeta. split.
  - intros q s' Hle H. unfold _int_realloc in H.
    assert (Eb : (nb <=? oldsize) = true) by (apply Z.leb_le; exact Hle).
    rewrite Eb in H. cbv zeta in H.
    minv; reflexivity.
  - intros H1 H2 H3 H4 H5 H6 Hp Hend Hnb Hrem.
    change SIZE_SZ with 8 in *. change MINSIZE with 32 in Hrem.
    destruct (chunksize_floor (mem s) oldp) as (_ & Hom).
    pose proof (chunksize_range (mem s) oldp) as (Ho0 & _).
    rewrite <- H6 in Hom, Ho0.
    assert (Enext : chunk_at_offset oldp oldsize = oldp + oldsize).
    { unfold chunk_at_offset. apply wrap_small. lia. }
    assert (Ho8 : 8 <= oldsize).
    { destruct (Z.eq_dec oldsize 0) as [E0|]; [|
        pose proof (Z.div_mod oldsize 8 ltac:(lia)) as Hd; rewrite Hom in Hd; lia].
      exfalso. pose proof (chunksize_floor (mem s) oldp) as (Hfl & _).
      rewrite <- H6 in Hfl. lia. }
    set (ab := if negb (main (av s)) then NON_MAIN_ARENA else 0).
    pose proof (arena_bit_cases (negb (main (av s)))) as Hab. fold ab in Hab.
    pose proof (load_range (mem s) (oldp + off_size)) as Hh.
    destruct (head_size_fields (load (mem s) (oldp + off_size)) oldsize ab
                ltac:(lia) ltac:(lia) ltac:(lia) Hom Hab)
      as (Hv & Hvs & Hvp & _).
    pose proof (load_range (mem s) (oldp + oldsize + off_size)) as Hn.
    eexists. split.
    + unfold _int_realloc. change (2 * SIZE_SZ) with 16.
      unfold bind at 1. cbv beta delta [get]. cbv beta iota.
      destruct (Z.leb_spec (chunksize_nomask (mem s) oldp) 16) as [Hc|_]; [lia|].
      destruct (Z.leb_spec (system_mem (av s)) oldsize) as [Hc|_]; [lia|].
      cbn [orb]. rewrite H3. change (0 =? 0) with true.
      unfold assert at 1. unfold bind at 1. unfold ret at 1.
      cbv zeta.
      destruct (Z.leb_spec (chunksize_nomask (mem s) (chunk_at_offset oldp oldsize))
                  16) as [Hc|_]; [lia|].
      destruct (Z.leb_spec (system_mem (av s))
                  (chunksize (mem s) (chunk_at_offset oldp oldsize))) as [Hc|_];
        [lia|].
      cbn [orb].
      assert (Eb : (nb <=? oldsize) = true) by (apply Z.leb_le; lia).
      rewrite Eb. cbv beta iota zeta delta [bind modify ret assert].
      rewrite Eb. cbv beta iota.
      change MINSIZE with 32.
      rewrite (wrap_small (oldsize - nb)) by lia.
      destruct (Z.ltb_spec (oldsize - nb) 32) as [_|Hc]; [|lia].
      reflexivity.
    + cbn [av mem set_av set_mem]. fold ab.
      unfold chunksize, prev_inuse, chunksize_nomask,
        set_inuse_bit_at_offset, set_head_size.
      fold (chunk_at_offset oldp oldsize). rewrite Enext.
      change off_size with 8 in *.
      split; [reflexivity|].
      rewrite (load_store_ne _ (oldp + 8) (oldp + oldsize + 8)) by lia.
      rewrite (load_store_ne _ (oldp + oldsize + 8) (oldp + 8)) by lia.
      rewrite !load_store_eq.
      rewrite (wrap_small _ Hv).
      split; [exact Hvs|]. split; [exact Hvp|].
      assert (Hlor : 0 <= Z.lor (load (mem s) (oldp + oldsize + 8)) PREV_INUSE
                     < 2 ^ 64).
      { split; [apply Z.lor_nonneg; unfold PREV_INUSE; lia|].
        apply Z.log2_lt_cancel. rewrite Z.log2_pow2 by lia.
        rewrite Z.log2_lor by (unfold PREV_INUSE; lia).
        apply Z.max_lub_lt; [|vm_compute; reflexivity].
        destruct (Z.eq_dec (load (mem s) (oldp + oldsize + 8)) 0) as [->|Hnz];
          [vm_compute; reflexivity|].
        apply Z.log2_lt_pow2; lia. }
      rewrite (wrap_small _ Hlor).
      split.
      { rewrite Z.land_lor_distr_l. change (Z.land PREV_INUSE PREV_INUSE) with 1.
        apply Z.bits_inj'. intros n Hn0.
        rewrite Z.lor_spec, Z.land_spec.
        destruct (Z.eq_dec n 0) as [->|Hne].
        - change (Z.testbit 1 0) with true. rewrite orb_true_r. reflexivity.
        - unfold PREV_INUSE. rewrite (Z.bits_above_log2 1 n) by (cbn; lia).
          rewrite andb_false_r. reflexivity. }
      split.
      { rewrite Z.land_lor_distr_l.
        change (Z.land PREV_INUSE (lnot64 SIZE_BITS)) with 0.
        apply Z.lor_0_r. }
      intros a Ha1 Ha2. rewrite !load_store_ne by lia. reflexivity.
Qed.

(** The chunk of size [0x200] asked to shrink to [0x1f0] keeps its size. *)
Lemma int_realloc_keeps_fitting_chunk_witness :
  exists s',
    _int_realloc quiet_env 1 (big_chunk + 0x600) 0x200 0x1f0 state_big
    = Done (chunk2mem (big_chunk + 0x600)) s'
    /\ av s' = av state_big
    /\ chunksize (mem s') (big_chunk + 0x600) = 0x200.
Proof.
  assert (H1 : 2 * SIZE_SZ < chunksize_nomask (mem state_big) (big_chunk + 0x600))
    by (vm_compute; reflexivity).
  assert (H2 : 0x200 < system_mem (av state_big)) by (vm_compute; reflexivity).
  assert (H3 : chunk_is_mmapped (mem state_big) (big_chunk + 0x600) = 0)
    by (vm_compute; reflexivity).
  assert (H4 : 2 * SIZE_SZ
               < chunksize_nomask (mem state_big)
                   (chunk_at_offset (big_chunk + 0x600) 0x200))
    by (vm_compute; reflexivity).
  assert (H5 : chunksize (mem state_big)
                 (chunk_at_offset (big_chunk + 0x600) 0x200)
               < system_mem (av state_big)) by (vm_compute; reflexivity).
  assert (H6 : 0x200 = chunksize (mem state_big) (big_chunk + 0x600))
    by (vm_compute; reflexivity).
  assert (H7 : 0 <= big_chunk + 0x600) by (vm_compute; discriminate).
  assert (H8 : big_chunk + 0x600 + 0x200 + 2 * SIZE_SZ <= 2 ^ 64)
    by (vm_compute; discriminate).
  assert (H9 : 0 <= 0x1f0 <= 0x200) by lia.
  assert (H10 : 0x200 - 0x1f0 < MINSIZE) by (vm_compute; reflexivity).
  pose proof (proj2 (int_realloc_keeps_fitting_chunk quiet_env 1
                       (big_chunk + 0x600) 0x200 0x1f0 state_big)
                H1 H2 H3 H4 H5 H6 H7 H8 H9 H10) as H.
  destruct H as (s' & Hrun & Hav & Hs & _).
  exists s'. split; [exact Hrun|]. split; [exact Hav | exact Hs].
Defined.

(** ** [tcache_thread_shutdown] *)

Lemma thread_kept_refl (s : state) : thread_kept s s.
Proof. repeat split. Qed.

Lemma thread_kept_trans (s1 s2 s3 : state) :
  thread_kept s1 s2 -> thread_kept s2 s3 -> thread_kept s1 s3.
Proof.
  intros (A1 & A2 & A3) (B1 & B2 & B3). repeat split; congruence.
Qed.

Lemma heap_only_thread (s s' : state) : heap_only s s' -> thread_kept s s'.
Proof. unfold heap_only. intros ->. repeat split. Qed.

Lemma set_mp_thread (s : state) (p : malloc_par) : thread_kept s (set_mp s p).
Proof. repeat split. Qed.

Lemma int_free_fastbin_frame (p size : Z) (have_lock : bool) (s s' : state)
    (u : unit) :
  int_free_fastbin p size have_lock s = Done u s' -> heap_only s s'.
Proof.
  unfold int_free_fastbin. intros H. minv; frame_facts; frame.
Qed.

Section ThreadExit.

Variable E : externals.
Hypothesis no_free_hook : __free_hook E = None.
Hypothesis merge_kept :
  forall p size l s u s', int_free_merge E p size l s = Done u s' -> thread_kept s s'.
Hypothesis munmap_kept :
  forall a n s u s', __munmap E a n s = Done u s' -> thread_kept s s'.

Lemma munmap_chunk_thread (p : Z) (s s' : state) (u : unit) :
  munmap_chunk E p s = Done u s' -> thread_kept s s'.
Proof.
  unfold munmap_chunk. intros H. minv; try apply thread_kept_refl.
  match goal with
  | H : __munmap E _ _ _ = Done _ _ |- _ => apply munmap_kept in H
  end.
  eapply thread_kept_trans; [|eassumption]. apply set_mp_thread.
Qed.

(** With the tcache switched off, [_int_free] leaves it off. *)
Lemma int_free_thread (fuel : nat) (p : Z) (l : bool) (s s' : state) (u : unit) :
  tcache s = NULL ->
  _int_free E fuel p l s = Done u s' -> thread_kept s s'.
Proof.
  intros Hnull H. unfold _int_free in H.
  apply bind_inv in H. destruct H as (size & s1 & Hc & H).
  apply int_free_checks_inv in Hc. subst s1.
  apply bind_inv in H. destruct H as (cached & s2 & Ht & H).
  unfold int_free_tcache in Ht.
  apply bind_inv in Ht. destruct Ht as (s3 & s4 & Hg & Ht).
  cbv beta delta [get] in Hg. inversion Hg; subst s3 s4; clear Hg.
  cbv zeta in Ht. rewrite Hnull in Ht. change (NULL =? NULL) with true in Ht.
  cbn [negb andb] in Ht. cbv beta delta [ret] in Ht.
  inversion Ht; subst cached s2; clear Ht.
  apply bind_inv in H. destruct H as (s3 & s4 & Hg & H).
  cbv beta delta [get] in Hg. inversion Hg; subst s3 s4; clear Hg.
  destruct (size <=? get_max_fast s).
  - apply heap_only_thread. eapply int_free_fastbin_frame. exact H.
  - destruct (chunk_is_mmapped (mem s) p =? 0).
    + eapply merge_kept. exact H.
    + eapply munmap_chunk_thread. exact H.
Qed.

Lemma libc_free_thread (fuel : nat) (mem_ : Z) (s s' : state) (u : unit) :
  tcache s = NULL -> tcache_shutting_down s = true ->
  __libc_free E fuel mem_ s = Done u s' -> thread_kept s s'.
Proof.
  intros Hnull Hdown H. unfold __libc_free in H. rewrite no_free_hook in H.
  destruct (mem_ =? 0).
  { cbv beta delta [ret] in H. inversion H. apply thread_kept_refl. }
  cbv zeta in H.
  apply bind_inv in H. destruct H as (s0 & s1 & Hg & H).
  cbv beta delta [get] in Hg. inversion Hg; subst s0 s1; clear Hg.
  destruct (negb (chunk_is_mmapped (mem s) (mem2chunk mem_) =? 0)).
  - apply bind_inv in H. destruct H as (u1 & s1 & Hm & H).
    apply munmap_chunk_thread in H.
    eapply thread_kept_trans; [|exact H].
    destruct ((no_dyn_threshold (mp_ s) =? 0)
              && (mmap_threshold (mp_ s) <? chunksize_nomask (mem s) (mem2chunk mem_))
              && (chunksize_nomask (mem s) (mem2chunk mem_)
                  <=? DEFAULT_MMAP_THRESHOLD_MAX)
              && negb (DUMPED_MAIN_ARENA_CHUNK s (mem2chunk mem_))).
    + cbv beta delta [modify] in Hm. inversion Hm. apply set_mp_thread.
    + cbv beta delta [ret] in Hm. inversion Hm. apply thread_kept_refl.
  - apply bind_inv in H. destruct H as (u1 & s1 & Hm & H).
    assert (Es1 : s1 = s).
    { unfold MAYBE_INIT_TCACHE in Hm.
      apply bind_inv in Hm. destruct Hm as (s2 & s3 & Hg & Hm).
      cbv beta delta [get] in Hg. inversion Hg; subst s2 s3; clear Hg.
      rewrite Hnull in Hm. change (NULL =? NULL) with true in Hm. cbv iota in Hm.
      unfold tcache_init in Hm.
      apply bind_inv in Hm. destruct Hm as (s2 & s3 & Hg & Hm).
      cbv beta delta [get] in Hg. inversion Hg; subst s2 s3; clear Hg.
      rewrite Hdown in Hm. cbv beta delta [ret] in Hm. inversion Hm. reflexivity. }
    subst s1. eapply int_free_thread; eassumption.
Qed.

Lemma shutdown_bucket_spec (fuel : nat) :
  forall (i : Z) (s s' : state) (u : unit),
  tcache s = NULL -> tcache_shutting_down s = true ->
  shutdown_bucket E fuel i s = Done u s' ->
  tcache s' = NULL /\ tcache_shutting_down s' = true
  /\ counts (tcache_data s') = counts (tcache_data s)
  /\ nth_z (entries (tcache_data s')) i = NULL
  /\ forall j : Z, j <> i ->
       nth_z (entries (tcache_data s')) j = nth_z (entries (tcache_data s)) j.
Proof.
  induction fuel as [|f IH]; intros i s s' u Hnull Hdown H;
    cbn [shutdown_bucket] in H;
    apply bind_inv in H; destruct H as (s0 & s1 & Hg & H);
    cbv beta delta [get] in Hg; inversion Hg; subst s0 s1; clear Hg;
    cbv zeta in H;
    destruct (Z.eqb_spec (nth_z (entries (tcache_data s)) i) NULL) as [Ee|Ee];
    cbn [negb] in H.
  - cbv beta delta [ret] in H. inversion H; subst s'.
    repeat split; assumption.
  - discriminate H.
  - cbv beta delta [ret] in H. inversion H; subst s'.
    repeat split; assumption.
  - apply bind_inv in H. destruct H as (next & s1 & Hr & H).
    cbv beta delta [rd] in Hr. inversion Hr; subst next s1; clear Hr.
    apply bind_inv in H. destruct H as (u1 & s1 & Hm & H).
    cbv beta delta [modify] in Hm. inversion Hm; subst u1 s1; clear Hm.
    apply bind_inv in H. destruct H as (u2 & s2 & Hf & H).
    apply libc_free_thread in Hf; [|exact Hnull|exact Hdown].
    destruct Hf as (F1 & F2 & F3).
    cbn [tcache tcache_shutting_down tcache_data set_tcache] in F1, F2, F3.
    apply IH in H; [|congruence|congruence].
    destruct H as (G1 & G2 & G3 & G4 & G5).
    rewrite F3 in G3, G5. cbn [counts entries] in G3, G5.
    split; [exact G1|]. split; [exact G2|]. split; [exact G3|].
    split; [exact G4|].
    intros j Hj. rewrite (G5 j Hj). rewrite nth_z_upd_z.
    destruct (Z.eqb_spec j i) as [->|_]; [contradiction|].
    rewrite andb_false_r. reflexivity.
Qed.

Lemma shutdown_buckets_spec (fuel n : nat) :
  forall (i : Z) (s s' : state) (u : unit),
  tcache s = NULL -> tcache_shutting_down s = true ->
  shutdown_buckets E fuel n i s = Done u s' ->
  tcache s' = NULL /\ tcache_shutting_down s' = true
  /\ counts (tcache_data s') = counts (tcache_data s)
  /\ (forall j : Z, i <= j < i + Z.of_nat n ->
        nth_z (entries (tcache_data s')) j = NULL)
  /\ forall j : Z, j < i \/ i + Z.of_nat n <= j ->
       nth_z (entries (tcache_data s')) j = nth_z (entries (tcache_data s)) j.
Proof.
  induction n as [|k IH]; intros i s s' u Hnull Hdown H;
    cbn [shutdown_buckets] in H.
  - cbv beta delta [ret] in H. inversion H; subst s'.
    split; [exact Hnull|]. split; [exact Hdown|]. split; [reflexivity|].
    split; [intros j Hj; lia | intros j _; reflexivity].
  - apply bind_inv in H. destruct H as (u1 & s1 & Hb & H).
    apply shutdown_bucket_spec in Hb; [|exact Hnull|exact Hdown].
    destruct Hb as (B1 & B2 & B3 & B4 & B5).
    apply IH in H; [|exact B1|exact B2].
    destruct H as (G1 & G2 & G3 & G4 & G5).
    split; [exact G1|]. split; [exact G2|]. split; [congruence|].
    split.
    + intros j Hj. destruct (Z.eq_dec j i) as [->|Hne].
      * rewrite G5 by lia. exact B4.
      * apply G4. lia.
    + intros j Hj. rewrite G5 by lia. apply B5. lia.
Qed.


End ThreadExit.


(** ** [sysmalloc] *)

Section Sysmalloc.

Variable E1 : externals.
Variable Y : sysdeps.
Variable g : globals.

Lemma top_asserted_run (s : state) (nb : Z) :
  top_asserted s nb ->
  let old_top := top (av s) in
  let old_size := chunksize (mem s) old_top in
  ((old_top =? initial_top (av s)) && (old_size =? 0)
   || (MINSIZE <=? old_size) && negb (prev_inuse (mem s) old_top =? 0)
      && (Z.land (chunk_at_offset old_top old_size)
                 (wrap (dl_pagesize s - 1)) =? 0)) = true
  /\ (old_size <? wrap (nb + MINSIZE)) = true.
Proof.
  intros (Hshape & Hsmall). cbv zeta. split.
  - destruct Hshape as [(Ht & Hz)|(Hmin & Hp & Ha)].
    + rewrite Hz, Ht, !Z.eqb_refl. reflexivity.
    + apply orb_true_iff. right.
      apply andb_true_iff. split; [apply andb_true_iff; split|].
      * apply Z.leb_le. exact Hmin.
      * apply negb_true_iff. apply Z.eqb_neq. exact Hp.
      * apply Z.eqb_eq. exact Ha.
  - apply Z.ltb_lt. exact Hsmall.
Qed.

Hypothesis mmap_refuses : forall n s, MMAP Y n s = Done MAP_FAILED s.
Hypothesis morecore_refuses :
  forall n s, MORECORE Y n s = Done MORECORE_FAILURE s.

Lemma sysmalloc_mmap_refused (nb : Z) (s : state) :
  sysmalloc_mmap Y nb s = Done None s.
Proof.
  unfold sysmalloc_mmap, bind, get. cbv zeta.
  match goal with
  | |- (if ?c then _ else _) s = _ => destruct c; [|reflexivity]
  end.
  rewrite mmap_refuses. rewrite Z.eqb_refl. reflexivity.
Qed.

Lemma sysmalloc_morecore_refused (fuel : nat)
    (nb old_top old_size old_end pagesize : Z) (s : state) :
  sysmalloc_morecore E1 Y g fuel nb old_top old_size old_end pagesize s
  = Done tt s.
Proof.
  unfold sysmalloc_morecore. unfold bind at 1. unfold get at 1. cbv zeta.
  unfold bind at 1.
  match goal with
  | |- match (if ?c then ?a else ?b) s with _ => _ end = _ =>
      assert (Hb : (if c then a else b) s = Done MORECORE_FAILURE s)
        by (destruct c; [apply morecore_refuses | reflexivity])
  end.
  rewrite Hb. clear Hb.
  change (negb (MORECORE_FAILURE =? MORECORE_FAILURE)) with false. cbv iota.
  unfold bind at 1. unfold bind at 1. unfold get at 1.
  match goal with
  | |- match (if ?c then _ else _) s with _ => _ end = _ =>
      destruct c
  end.
  - unfold bind at 1. rewrite mmap_refuses. rewrite Z.eqb_refl. reflexivity.
  - reflexivity.
Qed.

(** X25.  When the operating system grants nothing, neither through
    [mmap] nor through [MORECORE], [sysmalloc] on the main arena fails
    cleanly for every request: with a top chunk that passes its two
    assertions it returns a null pointer and sets [errno] to [ENOMEM],
    and it leaves the memory, the arena and the tcache as they were. *)
Theorem sysmalloc_refused_sets_ENOMEM (fuel : nat) (nb : Z) (s : state) :
  main (av s) = true ->
  top_asserted s nb ->
  sysmalloc_code E1 Y g fuel nb s = Done 0 (set_errno s ENOMEM).
Proof.
  intros Hmain Htop.
  pose proof (top_asserted_run s nb Htop) as (Ha1 & Ha2). cbv zeta in Ha1, Ha2.
  assert (Harena : forall tried,
            sysmalloc_arena E1 Y g fuel 1 tried nb s
            = Done 0 (set_errno s ENOMEM)).
  { intros tried. cbn [sysmalloc_arena].
    unfold bind at 1. unfold get at 1. cbv zeta.
    rewrite Ha1, Ha2, Hmain. cbn [assert negb].
    unfold bind at 1. unfold ret at 1. unfold bind at 1. unfold ret at 1.
    unfold bind at 1. rewrite sysmalloc_morecore_refused.
    unfold sysmalloc_finish, bind, get.
    apply Z.ltb_lt in Ha2.
    destruct (Z.leb_spec (wrap (nb + MINSIZE))
                (chunksize (mem s) (top (av s)))) as [Hle|_]; [lia|].
    reflexivity. }
  unfold sysmalloc_code. unfold bind at 1. unfold get at 1.
  match goal with
  | |- (if ?c then _ else _) s = _ => destruct c
  end.
  - unfold bind. rewrite sysmalloc_mmap_refused. apply Harena.
  - apply Harena.
Qed.

End Sysmalloc.

Lemma sysmalloc_refused_sets_ENOMEM_witness :
  sysmalloc_code quiet_env quiet_sys globals0 1 0x1010 state_big
  = Done 0 (set_errno state_big ENOMEM).
Proof.
  apply (sysmalloc_refused_sets_ENOMEM quiet_env quiet_sys globals0).
  - intros n s. reflexivity.
  - intros n s. reflexivity.
  - reflexivity.
  - unfold top_asserted. split.
    + right. vm_compute. repeat split; discriminate.
    + vm_compute. reflexivity.
Defined.

(** [ALIGN_UP] with a power of two, when nothing wraps around. *)
Lemma ALIGN_UP_pow2 (x k : Z) :
  0 <= k < 64 -> 0 <= x -> x + 2 ^ k <= 2 ^ 64 ->
  ALIGN_UP x (2 ^ k) = 2 ^ k * ((x + 2 ^ k - 1) / 2 ^ k)
  /\ x <= ALIGN_UP x (2 ^ k) < x + 2 ^ k
  /\ ALIGN_UP x (2 ^ k) mod 2 ^ k = 0.
Proof.
  intros Hk Hx Hfit.
  assert (Hp : 0 < 2 ^ k) by (apply Z.pow_pos_nonneg; lia).
  assert (E : ALIGN_UP x (2 ^ k) = 2 ^ k * ((x + 2 ^ k - 1) / 2 ^ k)).
  { unfold ALIGN_UP. rewrite wrap_small by lia.
    replace (2 ^ k - 1) with (Z.ones k) by (rewrite Z.ones_equiv; lia).
    apply land_lnot64_ones; lia. }
  rewrite E.
  pose proof (Z.div_mod (x + 2 ^ k - 1) (2 ^ k) ltac:(lia)) as Hdm.
  pose proof (Z.mod_pos_bound (x + 2 ^ k - 1) (2 ^ k) Hp) as Hm.
  split; [reflexivity|]. split; [lia|].
  rewrite Z.mul_comm. apply Z.mod_mul. lia.
Qed.

(** A multiple of [2^k], for [k] from 3 up, is a multiple of 8. *)
Lemma pow2_multiple_mod8 (x k : Z) :
  3 <= k -> x mod 2 ^ k = 0 -> x mod 8 = 0.
Proof.
  intros Hk Hm.
  assert (Hp : 0 < 2 ^ k) by (apply Z.pow_pos_nonneg; lia).
  pose proof (Z.div_mod x (2 ^ k) ltac:(lia)) as Hdm. rewrite Hm in Hdm.
  set (q := x / 2 ^ k) in *.
  assert (E : 2 ^ k = 2 ^ (k - 3) * 8)
    by (change 8 with (2 ^ 3); rewrite <- Z.pow_add_r by lia; f_equal; lia).
  rewrite E in Hdm.
  replace x with ((2 ^ (k - 3) * q) * 8) by lia.
  apply Z.mod_mul. lia.
Qed.

(** X26.  A request at or above the mmap threshold, while the count of
    mappings is below its maximum, is served by a mapping of its own:
    when [mmap] grants the page-aligned size of the request plus one
    word, [sysmalloc] returns the payload of a chunk at the start of the
    mapping, whose head holds that size with the [M] flag and whose
    [prev_size] is zero; the mapping is counted in [mp_.n_mmaps] and
    [mp_.mmapped_mem]; the arena, the top chunk and the tcache are not
    touched. *)
Theorem sysmalloc_maps_large_request (E1 : externals) (Y : sysdeps)
    (g : globals) (fuel : nat) (nb mm k : Z) (s : state) :
  dl_pagesize s = 2 ^ k -> 4 <= k < 64 ->
  0 <= nb -> nb + SIZE_SZ + 2 ^ k <= 2 ^ 64 ->
  mmap_threshold (mp_ s) <= nb -> n_mmaps (mp_ s) < n_mmaps_max g ->
  (forall s1, MMAP Y (ALIGN_UP (nb + SIZE_SZ) (2 ^ k)) s1 = Done mm s1) ->
  mm <> MAP_FAILED -> 0 <= mm -> mm + 16 < 2 ^ 64 -> mm mod 16 = 0 ->
  exists s',
    sysmalloc_code E1 Y g fuel nb s = Done (mm + 16) s'
    /\ nb + SIZE_SZ <= ALIGN_UP (nb + SIZE_SZ) (2 ^ k) < nb + SIZE_SZ + 2 ^ k
    /\ prev_size (mem s') mm = 0
    /\ chunksize (mem s') mm = ALIGN_UP (nb + SIZE_SZ) (2 ^ k)
    /\ chunk_is_mmapped (mem s') mm = IS_MMAPPED
    /\ n_mmaps (mp_ s') = n_mmaps (mp_ s) + 1
    /\ mmapped_mem (mp_ s')
       = wrap (mmapped_mem (mp_ s) + ALIGN_UP (nb + SIZE_SZ) (2 ^ k))
    /\ av s' = av s /\ tcache_data s' = tcache_data s /\ errno s' = errno s.
Proof.
  intros Hps Hk Hnb Hfit Hthr Hcnt Hmmap Hmm Hmm0 Hmm1 Hal.
  change SIZE_SZ with 8 in *.
  pose proof (ALIGN_UP_pow2 (nb + 8) k ltac:(lia) ltac:(lia) ltac:(lia))
    as (_ & Hrange & Hmod).
  set (size := ALIGN_UP (nb + 8) (2 ^ k)) in *.
  assert (Hmod8 : size mod 8 = 0) by (apply (pow2_multiple_mod8 size k); lia).
  assert (Hsize : size + 8 <= 2 ^ 64).
  { pose proof (Z.div_mod size 8 ltac:(lia)) as Hdm. rewrite Hmod8 in Hdm. lia. }
  assert (Ec2m : chunk2mem mm = mm + 16).
  { unfold chunk2mem. change (2 * SIZE_SZ) with 16. apply wrap_small. lia. }
  assert (Ealign : Z.land (chunk2mem mm) MALLOC_ALIGN_MASK = 0).
  { rewrite Ec2m. change MALLOC_ALIGN_MASK with (Z.ones 4).
    rewrite Z.land_ones by lia. change (2 ^ 4) with 16.
    rewrite <- Z.add_mod_idemp_l by lia. rewrite Hal. reflexivity. }
  assert (Ehead : Z.lor size IS_MMAPPED = size + 2).
  { apply lor_flags; [lia | exact Hmod8 | unfold IS_MMAPPED; lia]. }
  assert (Hrun : sysmalloc_mmap Y nb s
            = Done (Some (mm + 16))
                (set_mp
                   (set_mem s
                      (set_head (set_prev_size (mem s) mm 0) mm (size + 2)))
                   (Build_malloc_par (trim_threshold (mp_ s))
                      (mmap_threshold (mp_ s)) (n_mmaps (mp_ s) + 1)
                      (no_dyn_threshold (mp_ s))
                      (wrap (mmapped_mem (mp_ s) + size))
                      (Z.max (max_mmapped_mem (mp_ s))
                         (wrap (mmapped_mem (mp_ s) + size)))
                      (tcache_bins (mp_ s)) (tcache_count (mp_ s))
                      (tcache_unsorted_limit (mp_ s))))).
  { unfold sysmalloc_mmap. unfold bind at 1. unfold get at 1. cbv zeta.
    change (MALLOC_ALIGNMENT =? 2 * SIZE_SZ) with true. cbv iota.
    change SIZE_SZ with 8. rewrite Hps, (wrap_small (nb + 8)) by lia.
    fold size.
    destruct (Z.ltb_spec nb size) as [_|Hge]; [|lia].
    unfold bind at 1. rewrite Hmmap.
    destruct (Z.eqb_spec mm MAP_FAILED) as [|_]; [contradiction|].
    cbn [negb]. unfold bind at 1. unfold bind at 1.
    rewrite Ealign. cbn [Z.eqb assert]. unfold ret at 1. unfold ret at 1.
    unfold bind at 1. cbn [Z.ltb Z.compare].
    unfold bind at 1. unfold modify at 1. unfold bind at 1. unfold modify at 1.
    unfold ret at 1. unfold bind at 1. unfold modify at 1.
    rewrite Ehead, Ec2m. reflexivity. }
  eexists. split.
  - unfold sysmalloc_code. unfold bind at 1. unfold get at 1.
    destruct (Z.leb_spec (mmap_threshold (mp_ s)) nb) as [_|]; [|lia].
    destruct (Z.ltb_spec (n_mmaps (mp_ s)) (n_mmaps_max g)) as [_|]; [|lia].
    cbn [andb]. unfold bind. rewrite Hrun. reflexivity.
  - split; [exact Hrange|].
    cbn [mem mp_ av tcache_data errno set_mp set_mem n_mmaps mmapped_mem].
    unfold prev_size, chunksize, chunk_is_mmapped, chunksize_nomask,
      set_head, set_prev_size.
    unfold_offsets. read_back.
    rewrite (wrap_small 0) by lia. rewrite (wrap_small (size + 2)) by lia.
    repeat split.
    + apply chunksize_of_flags; lia.
    + unfold IS_MMAPPED. rewrite land_low_bits by lia. reflexivity.
Qed.

Lemma sysmalloc_maps_large_request_witness :
  exists s',
    sysmalloc_code quiet_env mapping_sys globals0 1 0x20010 state_big
    = Done (mapped_chunk + 16) s'
    /\ chunksize (mem s') mapped_chunk = 0x21000
    /\ n_mmaps (mp_ s') = 1.
Proof.
  assert (H1 : dl_pagesize state_big = 2 ^ 12) by reflexivity.
  assert (H2 : 4 <= 12 < 64) by lia.
  assert (H3 : 0 <= 0x20010) by lia.
  assert (H4 : 0x20010 + SIZE_SZ + 2 ^ 12 <= 2 ^ 64) by (vm_compute; discriminate).
  assert (H5 : mmap_threshold (mp_ state_big) <= 0x20010)
    by (vm_compute; discriminate).
  assert (H6 : n_mmaps (mp_ state_big) < n_mmaps_max globals0)
    by (vm_compute; reflexivity).
  assert (H7 : forall s1, MMAP mapping_sys (ALIGN_UP (0x20010 + SIZE_SZ) (2 ^ 12)) s1
                          = Done mapped_chunk s1) by (intros s1; reflexivity).
  assert (H8 : mapped_chunk <> MAP_FAILED) by (vm_compute; discriminate).
  assert (H9 : 0 <= mapped_chunk) by (vm_compute; discriminate).
  assert (H10 : mapped_chunk + 16 < 2 ^ 64) by (vm_compute; reflexivity).
  assert (H11 : mapped_chunk mod 16 = 0) by reflexivity.
  destruct (sysmalloc_maps_large_request quiet_env mapping_sys globals0 1
              0x20010 mapped_chunk 12 state_big H1 H2 H3 H4 H5 H6 H7 H8 H9
              H10 H11)
    as (s' & Hrun & _ & _ & Hsize & _ & Hn & _).
  exists s'. split; [exact Hrun|]. split; [exact Hsize | exact Hn].
Defined.

(** X27.  The main arena grows in place: when the arena is contiguous,
    the request is not one for a mapping of its own, and [MORECORE]
    grants the page-aligned shortfall (request, pad and [MINSIZE] less
    what the top chunk has) right where the top chunk ends, [sysmalloc]
    adds the new memory to the top chunk and cuts the request from it.
    It returns the payload of the old top chunk, whose head now holds the
    request size; the top chunk starts right after it and holds all the
    rest, at least [MINSIZE] bytes; [system_mem] grows by what was
    granted; the tcache is not touched. *)
Theorem sysmalloc_extends_top (E1 : externals) (Y : sysdeps) (g : globals)
    (fuel : nat) (nb k : Z) (s : state) :
  let old_top := top (av s) in
  let old_size := chunksize (mem s) old_top in
  let size := ALIGN_UP (nb + top_pad g + MINSIZE - old_size) (2 ^ k) in
  main (av s) = true -> contiguous (av s) = true ->
  __after_morecore_hook Y = None ->
  dl_pagesize s = 2 ^ k -> 3 <= k < 63 ->
  nb < mmap_threshold (mp_ s) \/ n_mmaps_max g <= n_mmaps (mp_ s) ->
  MINSIZE <= nb -> nb mod 8 = 0 -> 0 <= top_pad g ->
  nb + top_pad g + MINSIZE + 2 ^ k <= 2 ^ 63 ->
  top_asserted s nb ->
  0 <= old_top -> 0 < old_size -> old_top + old_size + size + 8 <= 2 ^ 64 ->
  MORECORE Y size s = Done (old_top + old_size) s ->
  exists s',
    sysmalloc_code E1 Y g fuel nb s = Done (old_top + 16) s'
    /\ top (av s') = old_top + nb
    /\ chunksize (mem s') old_top = nb
    /\ chunksize (mem s') (old_top + nb) = old_size + size - nb
    /\ MINSIZE <= old_size + size - nb
    /\ system_mem (av s') = wrap (system_mem (av s) + size)
    /\ tcache_data s' = tcache_data s.
Proof.
  intros old_top old_size size Hmain Hcont Hhook Hps Hk Hno Hnb Hnb8 Hpad Hfit
    Htop HT Hos Hend Hmore.
  pose proof (top_asserted_run s nb Htop) as (Ha1 & Ha2). cbv zeta in Ha1, Ha2.
  destruct Htop as (_ & Hsmall). cbv zeta in Hsmall.
  fold old_top in Ha1, Ha2, Hsmall. fold old_size in Ha1, Ha2, Hsmall.
  change MINSIZE with 32 in *.
  assert (Hp : 8 <= 2 ^ k).
  { change 8 with (2 ^ 3). apply Z.pow_le_mono_r; lia. }
  rewrite (wrap_small (nb + 32)) in Hsmall by lia.
  pose proof (chunksize_floor (mem s) old_top) as (_ & Hos8).
  fold old_size in Hos8.
  pose proof (ALIGN_UP_pow2 (nb + top_pad g + 32 - old_size) k
                ltac:(lia) ltac:(lia) ltac:(lia)) as (_ & Hrange & Hmod).
  fold size in Hrange, Hmod.
  assert (Hsz8 : size mod 8 = 0) by (apply (pow2_multiple_mod8 size k); lia).
  assert (Hsum8 : (size + old_size) mod 8 = 0).
  { pose proof (Z.div_mod size 8 ltac:(lia)) as H1.
    pose proof (Z.div_mod old_size 8 ltac:(lia)) as H2.
    replace (size + old_size) with ((size / 8 + old_size / 8) * 8) by lia.
    apply Z.mod_mul. lia. }
  assert (Hrem8 : (size + old_size - nb) mod 8 = 0).
  { pose proof (Z.div_mod (size + old_size) 8 ltac:(lia)) as H1.
    pose proof (Z.div_mod nb 8 ltac:(lia)) as H2.
    replace (size + old_size - nb)
      with (((size + old_size) / 8 - nb / 8) * 8) by lia.
    apply Z.mod_mul. lia. }
  assert (Esigned : signed size = size).
  { unfold signed. destruct (Z.ltb_spec size (2 ^ 63)); [reflexivity | lia]. }
  assert (Ec2m : chunk2mem old_top = old_top + 16).
  { unfold chunk2mem. change (2 * SIZE_SZ) with 16. apply wrap_small. lia. }
  set (m1 := set_head (mem s) old_top (size + old_size + 1)).
  set (s1 := set_mem (set_av s (set_system_mem (av s)
                                  (wrap (system_mem (av s) + size)))) m1).
  assert (Hmc : sysmalloc_morecore E1 Y g fuel nb old_top old_size
                  (chunk_at_offset old_top old_size) (2 ^ k) s
                = Done tt s1).
  { unfold sysmalloc_morecore. unfold bind at 1. unfold get at 1. cbv zeta.
    rewrite Hcont. change MINSIZE with 32.
    rewrite (wrap_small (nb + top_pad g)) by lia.
    rewrite (wrap_small (nb + top_pad g + 32)) by lia.
    rewrite (wrap_small (nb + top_pad g + 32 - old_size)) by lia.
    fold size. rewrite Esigned.
    destruct (Z.ltb_spec 0 size) as [_|]; [|lia].
    unfold bind at 1. rewrite Hmore.
    unfold MORECORE_FAILURE.
    destruct (Z.eqb_spec (old_top + old_size) 0) as [|_]; [lia|].
    cbn [negb]. unfold bind at 1. unfold bind at 1.
    unfold call_after_morecore_hook. rewrite Hhook.
    unfold ret at 1. unfold ret at 1. cbn [fst snd].
    unfold bind at 1. unfold add_system_mem, modify at 1.
    unfold bind at 1. unfold get at 1.
    unfold chunk_at_offset. rewrite (wrap_small (old_top + old_size)) by lia.
    rewrite !Z.eqb_refl. cbn [andb].
    unfold modify. cbn [mem set_av].
    rewrite (wrap_small (size + old_size)) by lia.
    rewrite (lor_flags (size + old_size) PREV_INUSE)
      by (unfold PREV_INUSE; lia || exact Hsum8).
    destruct (Z.eqb_spec (old_top + old_size) 0) as [|_]; [lia|].
    cbn [negb]. unfold PREV_INUSE. reflexivity. }
  assert (Ecs : chunksize (mem s1) old_top = size + old_size).
  { unfold s1, m1. cbn [mem set_mem]. unfold chunksize, chunksize_nomask, set_head.
    rewrite load_store_eq. rewrite (wrap_small (size + old_size + 1)) by lia.
    apply chunksize_of_flags; lia. }
  set (s2 := set_mem
               (set_mem (set_av s1 (set_top (av s1) (old_top + nb)))
                  (set_head m1 old_top (nb + 1)))
               (set_head (set_head m1 old_top (nb + 1)) (old_top + nb)
                  (size + old_size - nb + 1))).
  assert (Hfin : sysmalloc_finish nb s1 = Done (old_top + 16) s2).
  { unfold sysmalloc_finish. unfold bind at 1. unfold get at 1. cbv zeta.
    assert (Et : top (av s1) = old_top) by reflexivity.
    rewrite Et, Ecs. change MINSIZE with 32.
    rewrite (wrap_small (nb + 32)) by lia.
    destruct (Z.leb_spec (nb + 32) (size + old_size)) as [_|]; [|lia].
    unfold bind, modify, ret, chunk_at_offset.
    rewrite (wrap_small (old_top + nb)) by lia.
    rewrite (wrap_small (size + old_size - nb)) by lia.
    cbn [av set_av main set_top mem set_mem].
    assert (Em : main (av s1) = true) by exact Hmain.
    rewrite Em. cbn [negb].
    rewrite (lor_flags (size + old_size - nb) PREV_INUSE)
      by (unfold PREV_INUSE; lia || exact Hrem8).
    rewrite Z.lor_0_r.
    rewrite (lor_flags nb PREV_INUSE) by (unfold PREV_INUSE; lia || exact Hnb8).
    rewrite Ec2m. unfold PREV_INUSE. reflexivity. }
  exists s2. split.
  - unfold sysmalloc_code. unfold bind at 1. unfold get at 1.
    assert (Hcond : (mmap_threshold (mp_ s) <=? nb)
                    && (n_mmaps (mp_ s) <? n_mmaps_max g) = false).
    { destruct Hno as [Hlt|Hge].
      - destruct (Z.leb_spec (mmap_threshold (mp_ s)) nb); [lia | reflexivity].
      - destruct (Z.ltb_spec (n_mmaps (mp_ s)) (n_mmaps_max g));
          [lia | apply andb_false_r]. }
    rewrite Hcond. cbn [sysmalloc_arena].
    unfold bind at 1. unfold get at 1. cbv zeta.
    fold old_top. fold old_size. change MINSIZE with 32.
    rewrite Ha1, Ha2, Hmain. cbn [assert negb].
    unfold bind at 1. unfold ret at 1. unfold bind at 1. unfold ret at 1.
    unfold bind at 1. rewrite Hps, Hmc. exact Hfin.
  - unfold s2. cbn [av set_av set_mem mem top set_top tcache_data system_mem].
    split; [reflexivity|].
    unfold chunksize, chunksize_nomask, set_head. unfold_offsets. read_back.
    rewrite (wrap_small (nb + 1)), (wrap_small (size + old_size - nb + 1)) by lia.
    split; [apply chunksize_of_flags; lia|].
    split; [rewrite chunksize_of_flags by lia; lia|].
    split; [lia|]. split; reflexivity.
Qed.

(** A request of padded size [0x1010] on [state_small_top], whose top
    chunk of [0x100] bytes ends at [0x21000]: the shortfall of [0xf30]
    bytes makes one page. *)
Lemma sysmalloc_extends_top_witness :
  exists s',
    sysmalloc_code quiet_env adjacent_sys globals0 1 0x1010 state_small_top
    = Done (small_top + 16) s'
    /\ top (av s') = small_top + 0x1010
    /\ chunksize (mem s') (small_top + 0x1010) = 0xf0.
Proof.
  assert (H1 : main (av state_small_top) = true) by reflexivity.
  assert (H2 : contiguous (av state_small_top) = true) by reflexivity.
  assert (H3 : __after_morecore_hook adjacent_sys = None) by reflexivity.
  assert (H4 : dl_pagesize state_small_top = 2 ^ 12) by reflexivity.
  assert (H5 : 3 <= 12 < 63) by lia.
  assert (H6 : 0x1010 < mmap_threshold (mp_ state_small_top)
               \/ n_mmaps_max globals0 <= n_mmaps (mp_ state_small_top))
    by (left; vm_compute; reflexivity).
  assert (H7 : MINSIZE <= 0x1010) by (vm_compute; discriminate).
  assert (H8 : 0x1010 mod 8 = 0) by reflexivity.
  assert (H9 : 0 <= top_pad globals0) by (vm_compute; discriminate).
  assert (H10 : 0x1010 + top_pad globals0 + MINSIZE + 2 ^ 12 <= 2 ^ 63)
    by (vm_compute; discriminate).
  assert (H11 : top_asserted state_small_top 0x1010).
  { unfold top_asserted. split.
    - right. vm_compute. repeat split; discriminate.
    - vm_compute. reflexivity. }
  assert (H12 : 0 <= top (av state_small_top)) by (vm_compute; discriminate).
  assert (H13 : 0 < chunksize (mem state_small_top) (top (av state_small_top)))
    by (vm_compute; reflexivity).
  assert (H14 : top (av state_small_top)
                + chunksize (mem state_small_top) (top (av state_small_top))
                + ALIGN_UP (0x1010 + top_pad globals0 + MINSIZE
                            - chunksize (mem state_small_top)
                                (top (av state_small_top))) (2 ^ 12) + 8
                <= 2 ^ 64) by (vm_compute; discriminate).
  assert (H15 : MORECORE adjacent_sys
                  (ALIGN_UP (0x1010 + top_pad globals0 + MINSIZE
                             - chunksize (mem state_small_top)
                                 (top (av state_small_top))) (2 ^ 12))
                  state_small_top
                = Done (top (av state_small_top)
                        + chunksize (mem state_small_top)
                            (top (av state_small_top))) state_small_top)
    by (vm_compute; reflexivity).
  destruct (sysmalloc_extends_top quiet_env adjacent_sys globals0 1 0x1010 12
              state_small_top H1 H2 H3 H4 H5 H6 H7 H8 H9 H10 H11 H12 H13 H14
              H15)
    as (s' & Hrun & Htop & _ & Hrem & _).
  exists s'. split; [exact Hrun|]. split; [exact Htop|].
  etransitivity; [exact Hrem|]. vm_compute. reflexivity.
Defined.

(** ** [systrim] *)

(** X28.  [systrim] gives back whole pages from the end of the top chunk
    and keeps more than the pad.  A top chunk of at most [pad + MINSIZE
    + 1] bytes is left alone, 0 is returned and the operating system is
    not called.  For a larger one, with the break at the end of the top
    chunk: when the break moves down by the amount asked, which is the
    excess over [pad + MINSIZE + 1] rounded down to whole pages, 1 is
    returned, the top chunk stays where it is and shrinks by that
    amount, keeping its [P] flag and more than [pad + MINSIZE] bytes, and
    [system_mem] goes down by the same amount. *)
Theorem systrim_releases_whole_pages (Y : sysdeps) (pad k r : Z)
    (s s2 : state) :
  let T := top (av s) in
  let top_size := chunksize (mem s) T in
  let extra := 2 ^ k * ((top_size - MINSIZE - 1 - pad) / 2 ^ k) in
  dl_pagesize s = 2 ^ k -> 3 <= k < 63 -> 0 <= pad ->
  (MINSIZE + 1 <= top_size <= pad + MINSIZE + 1 ->
   systrim_code Y pad s = Done 0 s)
  /\ (pad + MINSIZE + 1 < top_size -> 0 < extra ->
      __after_morecore_hook Y = None ->
      0 <= T -> T + top_size < 2 ^ 63 ->
      MORECORE Y 0 s = Done (T + top_size) s ->
      MORECORE Y (- extra) s = Done r s2 ->
      av s2 = av s ->
      MORECORE Y 0 s2 = Done (T + top_size - extra) s2 ->
      exists s',
        systrim_code Y pad s = Done 1 s'
        /\ top (av s') = T
        /\ chunksize (mem s') T = top_size - extra
        /\ prev_inuse (mem s') T = PREV_INUSE
        /\ pad + MINSIZE < top_size - extra
        /\ extra mod 2 ^ k = 0
        /\ system_mem (av s') = wrap (system_mem (av s) - extra)).
Proof.
  intros T top_size extra Hps Hk Hpad.
  assert (Hp : 8 <= 2 ^ k).
  { change 8 with (2 ^ 3). apply Z.pow_le_mono_r; lia. }
  assert (Hp63 : 2 ^ k < 2 ^ 63) by (apply Z.pow_lt_mono_r; lia).
  pose proof (chunksize_range (mem s) T) as (Hts0 & Hts1).
  fold top_size in Hts0, Hts1.
  pose proof (chunksize_floor (mem s) T) as (_ & Hts8). fold top_size in Hts8.
  change MINSIZE with 32 in *.
  split.
  - intros Hsmall. unfold systrim_code. unfold bind at 1. unfold get at 1.
    cbv zeta. fold T. fold top_size. change MINSIZE with 32.
    rewrite (wrap_small (top_size - 32 - 1)) by lia.
    destruct (Z.leb_spec (top_size - 32 - 1) pad) as [_|]; [reflexivity | lia].
  - intros Hbig Hextra Hhook HT Hend Hcur Hdown Hav Hnew.
    assert (Harea : 0 <= top_size - 32 - 1 - pad < 2 ^ 64) by lia.
    pose proof (Z.div_mod (top_size - 32 - 1 - pad) (2 ^ k) ltac:(lia)) as Hdm.
    pose proof (Z.mod_pos_bound (top_size - 32 - 1 - pad) (2 ^ k) ltac:(lia))
      as Hm.
    fold extra in Hdm.
    assert (Hex : 0 < extra <= top_size - 32 - 1 - pad) by lia.
    assert (Eextra : ALIGN_DOWN (top_size - 32 - 1 - pad) (2 ^ k) = extra).
    { unfold ALIGN_DOWN. apply land_neg_pow2; lia. }
    assert (Hexk : extra mod 2 ^ k = 0).
    { unfold extra. rewrite Z.mul_comm. apply Z.mod_mul. lia. }
    assert (Hex8 : extra mod 8 = 0) by (apply (pow2_multiple_mod8 extra k); lia).
    assert (Hrem8 : (top_size - extra) mod 8 = 0).
    { pose proof (Z.div_mod top_size 8 ltac:(lia)) as H1.
      pose proof (Z.div_mod extra 8 ltac:(lia)) as H2.
      replace (top_size - extra) with ((top_size / 8 - extra / 8) * 8) by lia.
      apply Z.mod_mul. lia. }
    assert (Esigned : signed (wrap (- extra)) = - extra).
    { unfold signed, wrap.
      replace (- extra) with (2 ^ 64 - extra + (-1) * 2 ^ 64) by lia.
      rewrite Z.mod_add by lia. rewrite Z.mod_small by lia.
      destruct (Z.ltb_spec (2 ^ 64 - extra) (2 ^ 63)); lia. }
    eexists. split.
    + unfold systrim_code. unfold bind at 1. unfold get at 1.
      cbv zeta. fold T. fold top_size. change MINSIZE with 32.
      rewrite (wrap_small (top_size - 32 - 1)) by lia.
      destruct (Z.leb_spec (top_size - 32 - 1) pad) as [|_]; [lia|].
      rewrite (wrap_small (top_size - 32 - 1 - pad)) by lia.
      rewrite Hps, Eextra.
      destruct (Z.eqb_spec extra 0) as [|_]; [lia|].
      unfold bind at 1. rewrite Hcur.
      unfold bind at 1. unfold get at 1. fold T.
      rewrite (wrap_small (T + top_size)) by lia. rewrite Z.eqb_refl.
      rewrite Esigned. unfold bind at 1. rewrite Hdown.
      unfold bind at 1. unfold call_after_morecore_hook. rewrite Hhook.
      unfold ret at 1. unfold bind at 1. rewrite Hnew.
      unfold MORECORE_FAILURE.
      destruct (Z.eqb_spec (T + top_size - extra) 0) as [|_]; [lia|].
      cbn [negb].
      replace (T + top_size - (T + top_size - extra)) with extra by lia.
      rewrite (wrap_small extra) by lia.
      destruct (Z.eqb_spec extra 0) as [|_]; [lia|]. cbn [negb].
      unfold bind, modify, ret. cbn [av set_av mem set_mem top].
      rewrite Hav. fold T.
      rewrite (wrap_small (top_size - extra)) by lia.
      rewrite (lor_flags (top_size - extra) PREV_INUSE)
        by (unfold PREV_INUSE; lia || exact Hrem8).
      unfold PREV_INUSE. reflexivity.
    + cbn [av set_av mem set_mem top set_system_mem system_mem].
      split; [reflexivity|].
      unfold chunksize, prev_inuse, chunksize_nomask, set_head.
      rewrite load_store_eq. rewrite (wrap_small (top_size - extra + 1)) by lia.
      split; [apply chunksize_of_flags; lia|].
      split; [unfold PREV_INUSE; rewrite land_low_bits by lia; reflexivity|].
      split; [lia|]. split; [exact Hexk | reflexivity].
Qed.

(** The top chunk of [state_pages_brk] has [0x3000] bytes; with no pad,
    two pages go back to the system. *)
Lemma systrim_releases_whole_pages_witness :
  exists s',
    systrim_code sbrk_sys 0 state_pages_brk = Done 1 s'
    /\ chunksize (mem s') (top (av state_pages_brk)) = 0x1000
    /\ system_mem (av s') = 0x1f000.
Proof.
  assert (H1 : dl_pagesize state_pages_brk = 2 ^ 12) by reflexivity.
  assert (H2 : 3 <= 12 < 63) by lia.
  assert (H3 : 0 <= 0) by lia.
  assert (Ets : chunksize (mem state_pages_brk) (top (av state_pages_brk))
                = 0x3000) by (vm_compute; reflexivity).
  pose proof (proj2 (systrim_releases_whole_pages sbrk_sys 0 12 0x23800
                       state_pages_brk
                       (set_mem state_pages_brk
                          (store (mem state_pages_brk) brk_cell 0x21800))
                       H1 H2 H3)) as H.
  cbv zeta in H. rewrite Ets in H.
  assert (H4 : 0 + MINSIZE + 1 < 12288) by (vm_compute; reflexivity).
  assert (H5 : 0 < 2 ^ 12 * ((12288 - MINSIZE - 1 - 0) / 2 ^ 12))
    by (vm_compute; reflexivity).
  assert (H6 : __after_morecore_hook sbrk_sys = None) by reflexivity.
  assert (H7 : 0 <= top (av state_pages_brk)) by (vm_compute; discriminate).
  assert (H8 : top (av state_pages_brk) + 12288 < 2 ^ 63)
    by (vm_compute; reflexivity).
  assert (H9 : MORECORE sbrk_sys 0 state_pages_brk
               = Done (top (av state_pages_brk) + 12288) state_pages_brk)
    by (vm_compute; reflexivity).
  assert (H10 : MORECORE sbrk_sys
                  (- (2 ^ 12 * ((12288 - MINSIZE - 1 - 0) / 2 ^ 12)))
                  state_pages_brk
                = Done 0x23800
                    (set_mem state_pages_brk
                       (store (mem state_pages_brk) brk_cell 0x21800)))
    by (vm_compute; reflexivity).
  assert (H11 : av (set_mem state_pages_brk
                      (store (mem state_pages_brk) brk_cell 0x21800))
                = av state_pages_brk) by reflexivity.
  assert (H12 : MORECORE sbrk_sys 0
                  (set_mem state_pages_brk
                     (store (mem state_pages_brk) brk_cell 0x21800))
                = Done (top (av state_pages_brk) + 12288
                        - 2 ^ 12 * ((12288 - MINSIZE - 1 - 0) / 2 ^ 12))
                    (set_mem state_pages_brk
                       (store (mem state_pages_brk) brk_cell 0x21800)))
    by (vm_compute; reflexivity).
  destruct (H H4 H5 H6 H7 H8 H9 H10 H11 H12)
    as (s' & Hrun & _ & Hcs & _ & _ & _ & Hsm).
  exists s'. split; [exact Hrun|]. split.
  - etransitivity; [exact Hcs|]. vm_compute. reflexivity.
  - etransitivity; [exact Hsm|]. vm_compute. reflexivity.
Defined.
